(* ===== verification/_CoqProject ===== *)
-Q . S2P
Prelude.v
Monad.v
CxxString.v
GoStd.v
FsPath.v
Firewall.v
Kernel.v
SimKernel.v
State.v
Fs.v
Errors.v
ProcessTools.v
OptionsApi.v
Rules.v
Logging.v
Api.v
CommandLine.v
Mounts.v
Pid1.v
Docker.v
Minitap.v
TapLaunch.v
Start.v
NetFilter.v
NetPolicy.v
TapPolicy.v
Goroutines.v
Forwarding.v
Inside.v
View.v
Requested.v
Experimental.v
Lifecycle.v
Bindings.v
Program.v
