(* ===== verification/Prelude.v ===== *)
(** * Mini-sandbox: a verification development

    ** The program

    src/mini_sandbox runs a command in a sandbox made of Linux namespaces.  Its
    sources, in src/mini_sandbox/src/main/tools, are compiled four ways: as a
    command-line program or as a library (LIBMINISANDBOX), each without or with
    a user-space network (MINITAP).  The network itself is carried by a second
    program, minitap (src/minitap, in Go), which is started by the first and
    decides which connections go through.

    A run of the command-line program goes through these parts, in this order:
    the container check (docker-support.cc) finds the mode of work; the command
    line (linux-sandbox-options.cc) is parsed into the options, by the same
    operations the library exports (linux-sandbox-api.cc); the options are
    checked and the signals set (linux-sandbox.cc); with MINITAP the firewall
    rules (firewall.cc) are written to a file and minitap is started and its
    network namespace joined (minitap-interface.cc); a process with fresh
    namespaces is cloned (linux-sandbox.cc), becomes the first process of the
    sandbox (linux-sandbox-pid1.cc), builds the file system, drops capabilities
    and forks the command; its parent waits for it and cleans up
    (process-tools.cc, error-handling.cc).  The parts share the globals of the
    program and the state of the kernel.

    ** The model

    The globals are the fields of the record [proc] (State.v): the options
    [opt], the last error, the mode, the environment, the process ids, and with
    them the state of the kernel and the trace of the calls made so far.  A
    function of the sources is a [prog proc A] (Monad.v): from a state to a
    result, or to the reason the function did not return (an exit, an exec, an
    exception, undefined behaviour, fuel), and a state.  The kernel is a type
    class (Kernel.v) about which nothing is assumed: a theorem holds whatever
    the kernel answers to each call, failures included, and a law of the kernel
    it needs is one of its hypotheses.  [fork] and [clone] return once, as what
    the kernel answers says: theorems over every kernel cover both processes.
    The four builds are the values of the class [Build].

    ** The files

    The library under the components:
    - Prelude: record update, tactics, lemmas on lists and booleans;
    - Monad: the state monad with stops, its loops and handlers, triples, the
      preorders a program respects ([respects]) and the ways it stops ([stops]);
    - CxxString, FsPath: std::string, the helpers on strings, std::filesystem::path,
      [isSubpath]; GoStd: what minitap uses of Go's standard library;
    - Kernel, SimKernel: the interface of the kernel, and concrete kernels on
      which the witnesses are evaluated;
    - State, Fs: the globals; std::filesystem over the kernel.

    The components, one file each, with the names of the sources:
    - Firewall (firewall.h, firewall.cc): the table of rules as memory;
    - Errors (error-handling.cc, makeWritable and Cleanup of process-tools.cc);
    - ProcessTools (process-tools.cc);
    - OptionsApi (linux-sandbox-options.cc): paths, mount requests, modes, the
      init file;
    - Rules (linux-sandbox-options.cc, DumpRules of firewall.cc): the three
      regular expressions, rules files, the dump of the policy;
    - Logging (logging.h, logging.cc, dumpOpt of linux-sandbox-pid1.cc and
      GetKernelInfo of process-tools.cc): the debug log;
    - Api (linux-sandbox-api.cc): the exported calls as the type [api_call], and
      every sequence of them;
    - CommandLine (linux-sandbox-options.cc): getopt, argument files, ParseOptions;
    - Mounts, Pid1 (linux-sandbox-pid1.cc): the mounts and the change of root;
      namespaces, identity, capabilities, the command, Pid1Main;
    - Inside: where the calls of the mounts act; View: what the mounts leave
      writable; Requested: what was asked to be writable is there; Experimental: the
      functions linux-sandbox-pid1.cc has for old file system libraries;
    - Docker (docker-support.cc): the container check;
    - Minitap, TapLaunch (minitap-interface.cc): starting minitap and joining its
      network, and what that executes;
    - Start (linux-sandbox.cc, linux-sandbox-main.cc): MiniSbxStart and main;
    - NetFilter, NetPolicy (src/minitap: firewall.go, dns.go, mux.go and the setup
      of libminitap.go): the filter, and the policy it enforces;
    - Goroutines: the handlers of minitap in small steps, under a scheduler;
    - Forwarding (libminitap.go, mux.go, tcp.go, proxy.go): the set-up of minitap,
      the requests it accepts or refuses, the streams it copies;
    - Bindings (linux-sandbox-api.h, bindings.cpp and internal_mini_sandbox.py
      under src/mini_sandbox/src/py): the two Python modules and the programs
      that call them.

    The compositions: TapPolicy (the policy file between the two programs),
    Lifecycle (an application that configures, starts and goes on) and Program
    (main from its first state to the execution of the command).

    ** What the theorems show

    - Confinement.  Whatever the kernel answers, nothing but the command and, in
      a tap build, minitap is executed; an execution of the command is the last
      call of its process, runs the words given behind "--", and comes after the
      whole list of confining calls for the mode and the build, each successful
      (Program.program_runs_the_command, Pid1.pid1_confines).  Every use of the
      library is a run of a small machine of its states, and a process marked as
      running is confined (Lifecycle.library_lifecycle), from Python too
      (Bindings.python_lifecycle).  After the file system
      of the sandbox is set up, and whatever the kernel answered, each mount the
      command sees is read-only unless the options, or a file system the sources
      name, justify that it is writable (View.writable_surface), and the working
      directory and the writable paths are the host's own, as writable as they
      were, with one exception that is described
      (Requested.requested_paths_in_place).  The mounts act
      below the sandbox root (Inside.mounts_stay_inside); the root is changed by
      five calls in order (Mounts.ChangeRoot_sequence); bind mounts are made
      read-only (Mounts.ro_bind_is_read_only, readonly_pass_exact,
      remount_flags_faithful); capabilities and ids are what the mode says
      (Pid1.drop_caps_exact, identity_maps).
    - Configuration.  After the start every call is refused but one
      (Api.api_frozen_after_start); modes exclude each other (modes_exclusive);
      options only grow (api_only_grows); calls stop in two ways only
      (config_calls_stop); the parse gives well-formed options and keeps the
      command word for word (CommandLine); the checks have a closed form
      (Start.ValidateOptions_spec).
    - Network.  What the rules file grants is what minitap lets through, from
      the text of the file to the verdict on a connection
      (TapPolicy.rules_file_enforced, connection_bound_enforced), nothing is let
      through without a policy, and the verdicts are those of a fixed policy
      (NetPolicy).  The handlers in small steps are the handlers of the model
      (Goroutines.goroutine_is_handler), and the bound on connections holds in
      every interleaving of them (bound_in_every_interleaving).  Minitap sends
      its signal once its network is up, and not otherwise
      (Forwarding.minitap_signals_when_ready); what it forwards arrives unchanged
      and in order (proxied_in_order).
    - Processes.  The status of the command reaches the caller
      (Start.command_status_reported, Pid1.WaitForChild_status); a time-out is
      polite once (Start.termination_escalates).
    - Log.  A message is at most one write to the log, and the messages of
      LogSystem are those of a list, in order (Logging.LogSystem_prints,
      prints_only_writes).
    - Equivalences: the regular expressions and the fields they accept
      (Rules.rule_patterns), the overlay check and [isSubpath]
      (OptionsApi.ValidateOverlayOutOfFolder_spec), the two builds for file
      systems (Experimental.experimental_build_agrees).
    - Flaws the model shows, as theorems over the definitions: a relative path
      is mounted beside the sandbox root (Inside.relative_request_escapes), the
      tmpfs are mounted on the old root (Mounts.tmpfs_mounted_on_old_root), a
      failed fork sends SIGKILL to every process
      (Start.failed_fork_kills_everything), the signal of minitap can be lost
      (Minitap.signal_can_be_lost), subnets grant nothing
      (TapPolicy.subnet_rules_admit_nobody), an address can lose its rule
      (NetPolicy.literal_rule_lost), a mount below a writable directory stays
      writable though it was asked for read-only (View.submount_stays_writable),
      two handlers race on a table (Goroutines.races_have_a_dns_handler,
      dns_handler_races), a minitap that cannot be set up leaves its parent
      waiting (Forwarding.minitap_failure_hangs_sandbox), refused requests are
      kept for ever (refused_requests_pile_up), and others beside the
      definitions.

    ** Bounds and fuel

    - [loop_bound] (class [Bound]) bounds the loops whose length the kernel or a
      file decides: waits that are interrupted, the wait for the signal of
      minitap, the levels between two directories, the nesting of argument
      files (a file may name itself).  It is a parameter: theorems hold for
      every value, and those that say that a function returns ask for fewer
      interruptions than the bound, so they hold for every finite number.
    - [target_fuel]: one step per character of the path and two;
      CreateTarget_terminates shows that it is enough.
    - [OVELAY_MAX_DEPTH] (5) is the sources' bound on nested overlays; the fuel of
      [MountAllOverlayFs] follows from it and MountAllMounts_safe shows that it is
      enough.  [depth_fuel] does the same for makeWritable.
    - [MAX_ATTEMPTS] (100) is the sources' number of names that are tried.
    - [MAX_MISSING] (1000) in [fs_create_directories]: a path of more levels is
      longer than PATH_MAX allows a call to resolve, and is answered so.
    - Go's IPv6 parser reads at most eight groups, which is its fuel; [TrimSpace]
      and the scan of a C string have the length of what they read.
    - Machine integers: the command line's numbers wrap to 32 bits as sscanf's
      do, ids to 32 unsigned bits, flags and capability masks are bits of Z, Go's
      integers are bounded by [MaxInt64] where they are parsed.

    ** Not modelled

    - The calls of PRINT_DEBUG in the middle of other functions, the call of
      LogSystem in MiniSbxStart, and what perror, DIE and Usage print: output
      only.  A message of the log changes nothing but its file, as the theorems
      of Logging say of those of LogSystem; the opening and closing of the log,
      and the probe its first message makes, are in StartLogging and MiniSbxStart.
    - The third-party packages of minitap: the tun device, netlink, the gVisor
      network stack and the dns package.  Their calls are steps that may fail, in
      Forwarding, or parameters; what the network stack does with a packet is
      not described.  NetFilter and NetPolicy take the handlers one after the
      other, as a lock would; Goroutines has their interleavings, at the
      granularity of the accesses to the shared tables, and Go's memory model is
      left at "a race is undefined".
    - [std::filesystem], libc and Go's library are modelled by what the sources
      use of them; the text of an exception and of strerror is a parameter.
    - In Python, arguments of a type the function does not take, the errors of
      encode and decode, and the loading of the shared object.
    - Tests, documents, images and build files. *)

From stdpp Require Export base list strings gmap pretty.
From Stdlib Require Export ZArith Lia.
From Stdlib Require Import Ascii.

Declare Scope sbx_scope.
Delimit Scope sbx_scope with sbx.

(** ** Record update

    [r <| f := v |>] replaces the field [f] of [r], [r <| f ::= g |>] maps it.
    An instance of [Setter] is computed from the eta-expansion of the record. *)

Class Setter {R T : Type} (proj : R -> T) := map_field : (T -> T) -> R -> R.

Notation "r <| f ::= g |>" := (map_field (proj := f) g r)
  (at level 1, f at next level, left associativity) : sbx_scope.
Notation "r <| f := v |>" := (map_field (proj := f) (fun _ => v) r)
  (at level 1, f at next level, left associativity) : sbx_scope.

(** [derive_setter eta] solves [Setter p] where [eta] is a function
    [fun r => Build (p1 r) ... (pn r)] and [p] one of the [pi]. *)
Ltac derive_setter eta :=
  lazymatch goal with
  | |- @Setter ?R ?T ?p =>
      let e := eval cbv beta delta [eta] in eta in
      let abstracted := eval pattern p in e in
      lazymatch abstracted with
      | ?h _ =>
          let body := eval cbv beta in
            (fun (upd : T -> T) (r : R) => h (fun x => upd (p x)) r) in
          exact body
      end
  end.

#[global] Hint Unfold map_field : core.

(** ** Tactics shared by the files *)

(** Case analysis on the scrutinee of some [match] or [if] of the goal. *)
Ltac split_match :=
  match goal with
  | |- context [match ?x with _ => _ end] =>
      lazymatch x with
      | context [match _ with _ => _ end] => fail
      | _ => let E := fresh "E" in destruct x eqn:E
      end
  end.

Ltac split_match_in H :=
  match type of H with
  | context [match ?x with _ => _ end] =>
      lazymatch x with
      | context [match _ with _ => _ end] => fail
      | _ => let E := fresh "E" in destruct x eqn:E
      end
  end.

(** Booleans that decide propositions, turned into them. *)
Create Rewrite HintDb sbx_bool.
#[export] Hint Rewrite andb_true_iff andb_false_iff orb_true_iff orb_false_iff
  negb_true_iff negb_false_iff String.eqb_eq String.eqb_neq Z.eqb_eq Z.eqb_neq
  Z.leb_le Z.leb_gt Z.ltb_lt Z.ltb_ge Nat.eqb_eq Nat.eqb_neq Nat.leb_le
  Nat.ltb_lt bool_decide_eq_true bool_decide_eq_false : sbx_bool.
Ltac to_prop := autorewrite with sbx_bool in *.

(** ** Lists *)

Section ListFacts.
Context {A : Type}.

(** The first list is an initial segment of the second, as a boolean. *)
Fixpoint prefixb (eqb : A -> A -> bool) (l k : list A) : bool :=
  match l, k with
  | [], _ => true
  | x :: l', y :: k' => eqb x y && prefixb eqb l' k'
  | _ :: _, [] => false
  end.

Lemma prefixb_spec (eqb : A -> A -> bool) (Heqb : forall x y, eqb x y = true <-> x = y) l k :
  prefixb eqb l k = true <-> l `prefix_of` k.
Proof.
  revert k. induction l as [|x l IH]; intros k; simpl.
  - split; [intros _; apply prefix_nil | done].
  - destruct k as [|y k]; simpl.
    + split; [done | intros H; by apply prefix_nil_not in H].
    + rewrite andb_true_iff, Heqb, IH. split.
      * intros [-> H]. by apply prefix_cons.
      * intros H. split; [by apply prefix_cons_inv_1 in H | by apply prefix_cons_inv_2 in H].
Qed.

Lemma existsb_false_forall (f : A -> bool) l :
  existsb f l = false <-> forall x, x ∈ l -> f x = false.
Proof.
  induction l as [|a l IH]; simpl.
  - split; [intros _ x Hx; inv Hx | done].
  - rewrite orb_false_iff, IH. split.
    + intros [Ha Hl] x Hx. apply elem_of_cons in Hx as [->|Hx]; auto.
    + intros H. split; [apply H; left | intros x Hx; apply H; by right].
Qed.

Lemma existsb_true_elem (f : A -> bool) l :
  existsb f l = true <-> exists x, x ∈ l /\ f x = true.
Proof.
  rewrite existsb_exists. split; intros (x & Hx & Hf); exists x; split; auto.
  - by apply list_elem_of_In.
  - by apply list_elem_of_In.
Qed.

End ListFacts.
