(* ===== verification/Monad.v ===== *)
(** * Effects: a state monad whose computations can stop

    The code mutates globals, calls the kernel, leaves the process with
    [exit(2)] and throws C++ exceptions.  A computation is a function of the
    process state that returns a value or the reason it stopped, with the
    state it left in both cases.  The file gives the monad, its loops and
    exception handlers, and the two reasoning principles the development
    uses: Hoare triples, and preorders between the state before and after. *)

From S2P Require Import Prelude.
Open Scope sbx_scope.

(** The C++ exceptions the code can meet. *)
Inductive exn :=
| FilesystemError   (** [std::filesystem::filesystem_error] *)
| LogicError        (** [std::logic_error]: a [std::string] from a null pointer *)
| OutOfRangeError.  (** [std::out_of_range]: [vector::at], [string::substr] *)

(** Why a computation did not return. *)
Inductive stop :=
| Exited (code : Z)   (** [exit(code)]; [DIE] is [exit(EXIT_FAILURE)] *)
| Execed              (** the process image was replaced by [execvp] *)
| Thrown (e : exn)
| UndefinedBehaviour  (** an access outside an object *)
| OutOfFuel.          (** the model's loop bound was reached *)

Inductive outcome (A : Type) :=
| Ok (a : A)
| Stop (w : stop).
Arguments Ok {A} a.
Arguments Stop {A} w.

#[export] Instance exn_eq_dec : EqDecision exn.
Proof. solve_decision. Defined.

#[export] Instance stop_eq_dec : EqDecision stop.
Proof. solve_decision. Defined.

Definition prog (S A : Type) : Type := S -> outcome A * S.

#[export] Instance prog_ret {S} : MRet (prog S) := fun A a s => (Ok a, s).

#[export] Instance prog_bind {S} : MBind (prog S) := fun A B f m s =>
  match m s with
  | (Ok a, s') => f a s'
  | (Stop w, s') => (Stop w, s')
  end.

#[export] Instance prog_fmap {S} : FMap (prog S) := fun A B f m s =>
  match m s with
  | (Ok a, s') => (Ok (f a), s')
  | (Stop w, s') => (Stop w, s')
  end.

Section Combinators.
Context {S : Type}.

Definition stop_with {A} (w : stop) : prog S A := fun s => (Stop w, s).
Definition exit_ {A} (code : Z) : prog S A := stop_with (Exited code).
Definition throw {A} (e : exn) : prog S A := stop_with (Thrown e).
Definition gets {A} (f : S -> A) : prog S A := fun s => (Ok (f s), s).
Definition modify (f : S -> S) : prog S unit := fun s => (Ok tt, f s).

(** [if (b) m;] *)
Definition when (b : bool) (m : prog S unit) : prog S unit :=
  if b then m else mret tt.

(** [try { m } catch (e) { h }] for the exceptions [which] accepts. *)
Definition try_catch {A} (which : exn -> bool) (m h : prog S A) : prog S A := fun s =>
  match m s with
  | (Stop (Thrown e), s') => if which e then h s' else (Stop (Thrown e), s')
  | r => r
  end.

Definition is_fs_error (e : exn) : bool :=
  match e with FilesystemError => true | _ => false end.

(** [catch (const fs::filesystem_error&)] *)
Definition catch_fs {A} (m h : prog S A) : prog S A := try_catch is_fs_error m h.

(** [catch (const std::exception&)] *)
Definition catch_std {A} (m h : prog S A) : prog S A := try_catch (fun _ => true) m h.

(** [for (auto x : l) body] *)
Fixpoint for_each {A} (l : list A) (body : A -> prog S unit) : prog S unit :=
  match l with
  | [] => mret tt
  | x :: l' => _ ← body x; for_each l' body
  end.

(** A loop over [l] whose body may [return] from the function: [Some r]
    leaves the loop with [r], [None] goes on with the next element. *)
Fixpoint for_return {A R} (l : list A) (body : A -> prog S (option R)) : prog S (option R) :=
  match l with
  | [] => mret None
  | x :: l' => r ← body x;
               match r with
               | Some v => mret (Some v)
               | None => for_return l' body
               end
  end.

(** [while (true) body]: [Some r] breaks out with [r].  [fuel] bounds the
    number of iterations. *)
Fixpoint loop {R} (fuel : nat) (body : prog S (option R)) : prog S R :=
  match fuel with
  | O => stop_with OutOfFuel
  | Datatypes.S n => r ← body;
                     match r with
                     | Some v => mret v
                     | None => loop n body
                     end
  end.

(** ** Reasoning *)

(** What the computation returned and the state it left, separately. *)
Definition result {A} (m : prog S A) (s : S) : outcome A := fst (m s).
Definition final {A} (m : prog S A) (s : S) : S := snd (m s).

Definition triple {A} (P : S -> Prop) (m : prog S A) (Q : outcome A -> S -> Prop) : Prop :=
  forall s, P s -> Q (result m s) (final m s).

(** The state a computation leaves is related to the state it started from,
    whatever its outcome. *)
Definition respects {A} (R : S -> S -> Prop) (m : prog S A) : Prop :=
  forall s, R s (final m s).

Definition preserves {A} (I : S -> Prop) (m : prog S A) : Prop :=
  respects (fun s s' => I s -> I s') m.

End Combinators.

Notation "{{ P } } m {{ Q } }" := (triple P m Q)
  (at level 20, m at next level, format "{{  P  } }  m  {{  Q  } }") : sbx_scope.

(** [prun] computes one step of a composed program. *)
Ltac prun := cbn [mbind prog_bind mret prog_ret fmap prog_fmap
  gets modify stop_with exit_ throw when for_each for_return result final fst snd].

Section Laws.
Context {S : Type}.

Lemma bind_ret_l {A B} (a : A) (f : A -> prog S B) s : (mret a ≫= f) s = f a s.
Proof. done. Qed.

Lemma bind_ret_r {A} (m : prog S A) s : (m ≫= mret) s = m s.
Proof. unfold mbind, prog_bind. by destruct (m s) as [[]]. Qed.

Lemma bind_assoc {A B C} (m : prog S A) (f : A -> prog S B) (g : B -> prog S C) s :
  ((m ≫= f) ≫= g) s = (m ≫= fun a => f a ≫= g) s.
Proof. unfold mbind, prog_bind. by destruct (m s) as [[]]. Qed.

Lemma bind_ok {A B} (m : prog S A) (f : A -> prog S B) s a s' :
  m s = (Ok a, s') -> (m ≫= f) s = f a s'.
Proof. unfold mbind, prog_bind. by intros ->. Qed.

Lemma bind_stop {A B} (m : prog S A) (f : A -> prog S B) s w s' :
  m s = (Stop w, s') -> (m ≫= f) s = (Stop w, s').
Proof. unfold mbind, prog_bind. by intros ->. Qed.

(** The state a composition leaves, by the outcome of its first part. *)
Lemma final_bind_ok {A B} (m : prog S A) (f : A -> prog S B) s a s' :
  m s = (Ok a, s') -> final (m ≫= f) s = final (f a) s'.
Proof. intros H. unfold final. by rewrite (bind_ok _ _ _ _ _ H). Qed.

Lemma final_bind_stop {A B} (m : prog S A) (f : A -> prog S B) s w s' :
  m s = (Stop w, s') -> final (m ≫= f) s = s'.
Proof. intros H. unfold final. by rewrite (bind_stop _ _ _ _ _ H). Qed.

Lemma result_bind_ok {A B} (m : prog S A) (f : A -> prog S B) s a s' :
  m s = (Ok a, s') -> result (m ≫= f) s = result (f a) s'.
Proof. intros H. unfold result. by rewrite (bind_ok _ _ _ _ _ H). Qed.

Lemma result_bind_stop {A B} (m : prog S A) (f : A -> prog S B) s w s' :
  m s = (Stop w, s') -> result (m ≫= f) s = Stop w.
Proof. intros H. unfold result. by rewrite (bind_stop _ _ _ _ _ H). Qed.

Lemma bind_inv_ok {A B} (m : prog S A) (f : A -> prog S B) s b s' :
  (m ≫= f) s = (Ok b, s') -> exists a s1, m s = (Ok a, s1) /\ f a s1 = (Ok b, s').
Proof.
  unfold mbind, prog_bind. destruct (m s) as [[a|w] s1] eqn:E; [|done].
  intros H. by exists a, s1.
Qed.

End Laws.

(** *** Preorders between states *)

Create HintDb respects discriminated.

Section Respects.
Context {S : Type} (R : S -> S -> Prop) `{!PreOrder R}.

Lemma respects_ret {A} (a : A) : respects R (mret a : prog S A).
Proof. intros s. unfold final. simpl. reflexivity. Qed.

Lemma respects_stop {A} w : respects R (stop_with w : prog S A).
Proof. intros s. unfold final. simpl. reflexivity. Qed.

Lemma respects_gets {A} (f : S -> A) : respects R (gets f).
Proof. intros s. unfold final. simpl. reflexivity. Qed.

Lemma respects_bind {A B} (m : prog S A) (f : A -> prog S B) :
  respects R m -> (forall a, respects R (f a)) -> respects R (m ≫= f).
Proof.
  intros Hm Hf s. specialize (Hm s). unfold final, mbind, prog_bind in *.
  destruct (m s) as [[a|w] s1]; simpl in *; [|done].
  etransitivity; [exact Hm|]. apply (Hf a s1).
Qed.

Lemma respects_fmap {A B} (f : A -> B) (m : prog S A) :
  respects R m -> respects R (f <$> m).
Proof.
  intros Hm s. specialize (Hm s). unfold final, fmap, prog_fmap in *.
  by destruct (m s) as [[a|w] s1].
Qed.

Lemma respects_try {A} which (m h : prog S A) :
  respects R m -> respects R h -> respects R (try_catch which m h).
Proof.
  intros Hm Hh s. specialize (Hm s). unfold final, try_catch in *.
  destruct (m s) as [[a|w] s1]; simpl in *; [done|].
  destruct w; simpl; try done. destruct (which e); simpl; [|done].
  etransitivity; [exact Hm|]. apply (Hh s1).
Qed.

Lemma respects_when b (m : prog S unit) : respects R m -> respects R (when b m).
Proof. destruct b; simpl; [done|]. intros _. apply respects_ret. Qed.

Lemma respects_for_each {A} (l : list A) (body : A -> prog S unit) :
  (forall x, x ∈ l -> respects R (body x)) -> respects R (for_each l body).
Proof.
  induction l as [|x l IH]; simpl; intros H; [apply respects_ret|].
  apply respects_bind; [apply H; left|]. intros _. apply IH. intros y Hy. apply H. by right.
Qed.

Lemma respects_for_return {A B} (l : list A) (body : A -> prog S (option B)) :
  (forall x, x ∈ l -> respects R (body x)) -> respects R (for_return l body).
Proof.
  induction l as [|x l IH]; simpl; intros H; [apply respects_ret|].
  apply respects_bind; [apply H; left|].
  intros [v|]; [apply respects_ret|]. apply IH. intros y Hy. apply H. by right.
Qed.

Lemma respects_loop {B} fuel (body : prog S (option B)) :
  respects R body -> respects R (loop fuel body).
Proof.
  intros H. induction fuel as [|n IH]; simpl; [apply respects_stop|].
  apply respects_bind; [done|]. intros [v|]; [apply respects_ret|done].
Qed.

End Respects.

#[export] Hint Resolve respects_ret respects_stop respects_gets respects_fmap
  respects_when : respects.

(** A preserved predicate is a preorder. *)
#[export] Instance preserve_preorder {S} (I : S -> Prop) : PreOrder (fun s s' => I s -> I s').
Proof. split; [by intros s | intros a b c H1 H2 H; auto]. Qed.

(** [solve_respects] walks a program; leaves are found in the hint database. *)
Ltac respects_step :=
  match goal with
  | |- respects _ (mbind _ _) => apply respects_bind; [try apply _ | | intros ?]
  | |- respects _ (fmap _ _) => apply respects_fmap
  | |- respects _ (mret _) => apply respects_ret; apply _
  | |- respects _ (gets _) => apply respects_gets; apply _
  | |- respects _ (stop_with _) => apply respects_stop; apply _
  | |- respects _ (exit_ _) => apply respects_stop; apply _
  | |- respects _ (throw _) => apply respects_stop; apply _
  | |- respects _ (when _ _) => apply respects_when; [try apply _ |]
  | |- respects _ (catch_fs _ _) => apply respects_try; [try apply _ | |]
  | |- respects _ (catch_std _ _) => apply respects_try; [try apply _ | |]
  | |- respects _ (try_catch _ _ _) => apply respects_try; [try apply _ | |]
  | |- respects _ (for_each _ _) => apply respects_for_each; [try apply _ | intros ? ?]
  | |- respects _ (for_return _ _) => apply respects_for_return; [try apply _ | intros ? ?]
  | |- respects _ (loop _ _) => apply respects_loop; [try apply _ |]
  | |- respects _ (match ?x with _ => _ end) => destruct x
  | |- respects _ (let x := _ in _) => cbv zeta
  end.
Ltac solve_respects := repeat (first [solve [eauto 2 with respects nocore] | respects_step]).

(** *** The ways a computation can stop *)

(** Whenever the computation does not return, it is for a reason in [W]. *)
Definition stops {S A} (W : stop -> Prop) (m : prog S A) : Prop :=
  forall s w, result m s = Stop w -> W w.

Section Stops.
Context {S : Type} (W : stop -> Prop).

Lemma stops_ret {A} (a : A) : stops W (mret a : prog S A).
Proof. by intros s w. Qed.

Lemma stops_gets {A} (f : S -> A) : stops W (gets f).
Proof. by intros s w. Qed.

Lemma stops_modify (f : S -> S) : stops W (modify f).
Proof. by intros s w. Qed.

Lemma stops_stop {A} w : W w -> stops W (stop_with w : prog S A).
Proof. by intros Hw s w' [= <-]. Qed.

Lemma stops_bind {A B} (m : prog S A) (f : A -> prog S B) :
  stops W m -> (forall a, stops W (f a)) -> stops W (m ≫= f).
Proof.
  intros Hm Hf s w. specialize (Hm s). unfold result, mbind, prog_bind in *.
  destruct (m s) as [[a|w'] s1]; simpl in *; [apply (Hf a s1) | by intros [= <-]; apply Hm].
Qed.

Lemma stops_fmap {A B} (f : A -> B) (m : prog S A) : stops W m -> stops W (f <$> m).
Proof.
  intros Hm s w. specialize (Hm s). unfold result, fmap, prog_fmap in *.
  destruct (m s) as [[a|w'] s1]; simpl in *; [done | by intros [= <-]; apply Hm].
Qed.

(** A handler takes away the exceptions it accepts. *)
Lemma stops_try {A} (W' : stop -> Prop) which (m h : prog S A) :
  stops W' m -> (forall w, W' w -> W w \/ exists e, w = Thrown e /\ which e = true) ->
  stops W h -> stops W (try_catch which m h).
Proof.
  intros Hm Hw Hh s w. specialize (Hm s). unfold result, try_catch in *.
  destruct (m s) as [[a|w'] s1]; simpl in *; [done|]. specialize (Hm w' eq_refl).
  destruct (Hw w' Hm) as [H|(e & -> & He)].
  - destruct w'; try (by intros [= <-]). destruct (which e); [apply (Hh s1) | by intros [= <-]].
  - rewrite He. apply (Hh s1).
Qed.

(** The throwing part of a [catch_fs] may also stop with the exception caught. *)
Definition or_fs_error (W : stop -> Prop) (w : stop) : Prop := W w \/ w = Thrown FilesystemError.

Lemma stops_catch_fs {A} (m h : prog S A) :
  stops (or_fs_error W) m -> stops W h -> stops W (catch_fs m h).
Proof.
  intros Hm Hh. unfold catch_fs. eapply stops_try; [exact Hm | | done].
  intros w [H| ->]; [by left | right]. by exists FilesystemError.
Qed.

Lemma stops_when b (m : prog S unit) : stops W m -> stops W (when b m).
Proof. destruct b; [done|]. intros _. apply stops_ret. Qed.

Lemma stops_for_each {A} (l : list A) (body : A -> prog S unit) :
  (forall x, x ∈ l -> stops W (body x)) -> stops W (for_each l body).
Proof.
  induction l as [|x l IH]; simpl; intros H; [apply stops_ret|].
  apply stops_bind; [apply H; left|]. intros _. apply IH. intros y Hy. apply H. by right.
Qed.

Lemma stops_for_return {A B} (l : list A) (body : A -> prog S (option B)) :
  (forall x, x ∈ l -> stops W (body x)) -> stops W (for_return l body).
Proof.
  induction l as [|x l IH]; simpl; intros H; [apply stops_ret|].
  apply stops_bind; [apply H; left|].
  intros [v|]; [apply stops_ret|]. apply IH. intros y Hy. apply H. by right.
Qed.

Lemma stops_loop {B} fuel (body : prog S (option B)) :
  W OutOfFuel -> stops W body -> stops W (loop fuel body).
Proof.
  intros Hf H. induction fuel as [|n IH]; simpl; [by apply stops_stop|].
  apply stops_bind; [done|]. intros [v|]; [apply stops_ret|done].
Qed.

End Stops.

Create HintDb stops discriminated.
#[export] Hint Resolve stops_ret stops_gets stops_modify : stops.

(** [solve_stops] walks a program as [solve_respects] does. *)
Ltac stop_kind :=
  cbv beta; solve [assumption | constructor | right; reflexivity | left; stop_kind | right; stop_kind].
Ltac stops_step :=
  match goal with
  | |- stops _ (stop_with _) => apply stops_stop; stop_kind
  | |- stops _ (exit_ _) => apply stops_stop; stop_kind
  | |- stops _ (throw _) => apply stops_stop; stop_kind
  | |- stops _ (catch_fs _ _) => apply stops_catch_fs
  | |- stops _ (mbind _ _) => apply stops_bind; [|intros ?]
  | |- stops _ (fmap _ _) => apply stops_fmap
  | |- stops _ (when _ _) => apply stops_when
  | |- stops _ (for_each _ _) => apply stops_for_each; intros ? ?
  | |- stops _ (for_return _ _) => apply stops_for_return; intros ? ?
  | |- stops _ (match ?x with _ => _ end) => destruct x
  | |- stops _ (let x := _ in _) => cbv zeta
  end.
Ltac solve_stops := repeat (first [solve [eauto 2 with stops nocore] | stops_step]).

(** *** Triples *)

Section Triples.
Context {S : Type}.

Lemma triple_conseq {A} (P P' : S -> Prop) (Q Q' : outcome A -> S -> Prop) m :
  {{ P }} m {{ Q }} -> (forall s, P' s -> P s) -> (forall o s, Q o s -> Q' o s) ->
  {{ P' }} m {{ Q' }}.
Proof. intros H HP HQ s Hs. apply HQ, H, HP, Hs. Qed.

Lemma triple_bind {A B} (P : S -> Prop) (Q : outcome A -> S -> Prop)
    (T : outcome B -> S -> Prop) (m : prog S A) (f : A -> prog S B) :
  {{ P }} m {{ Q }} ->
  (forall a, {{ Q (Ok a) }} f a {{ T }}) ->
  (forall w s, Q (Stop w) s -> T (Stop w) s) ->
  {{ P }} m ≫= f {{ T }}.
Proof.
  intros Hm Hf Hw s Hs. specialize (Hm s Hs). unfold result, final, mbind, prog_bind in *.
  destruct (m s) as [[a|w] s1]; simpl in *; [apply (Hf a s1 Hm) | by apply Hw].
Qed.

Lemma triple_for_each {A} (P : S -> Prop) (W : stop -> S -> Prop) (l : list A) body :
  (forall x, x ∈ l -> {{ P }} body x {{ fun o s => match o with Ok _ => P s | Stop w => W w s end }}) ->
  {{ P }} for_each l body {{ fun o s => match o with Ok _ => P s | Stop w => W w s end }}.
Proof.
  induction l as [|x l IH]; simpl; intros H; [by intros s Hs|].
  eapply triple_bind; [apply H; left | | by intros].
  intros []. apply IH. intros y Hy. apply H. by right.
Qed.

(** A predicate a computation preserves can be assumed in its triples. *)
Lemma triple_respects {A} (R : S -> S -> Prop) (P : S -> Prop) (m : prog S A) Q :
  respects R m -> {{ P }} m {{ Q }} ->
  forall s, P s -> R s (final m s) /\ Q (result m s) (final m s).
Proof. intros HR HQ s Hs. split; [apply HR | by apply HQ]. Qed.

End Triples.
