(* ===== verification/CxxString.v ===== *)
(** * Strings of the C and C++ standard libraries

    [std::string] is Rocq's [string] (a list of 8-bit characters).  The file
    defines the library operations the sources use ([find], [substr],
    [strncpy], [getline], [isspace], [std::to_string], [sscanf("%d")]) and the
    string helpers the sources define themselves: [starts_with] and
    [ends_with] of linux-sandbox-pid1.cc, [trim], [unquote] and
    [GetFirstFolder] of process-tools.cc. *)

From S2P Require Import Prelude.
From Stdlib Require Import Ascii.
Open Scope sbx_scope.

(** ** Characters *)

Definition chars (s : string) : list ascii := String.list_ascii_of_string s.
Definition of_chars (l : list ascii) : string := String.string_of_list_ascii l.

Definition NUL : ascii := "000"%char.
Definition LF : ascii := "010"%char.
Definition slash : ascii := "/"%char.

(** [s[0]]; the terminating NUL of an empty string. *)
Definition front_char (s : string) : ascii :=
  match s with EmptyString => NUL | String c _ => c end.

Definition is_absolute (s : string) : bool := Ascii.eqb (front_char s) slash.

(** [std::isspace] in the C locale. *)
Definition isspace (c : ascii) : bool := Ascii.is_space c.

Definition isdigit (c : ascii) : bool :=
  (48 <=? N_of_ascii c)%N && (N_of_ascii c <=? 57)%N.

Definition empty (s : string) : bool :=
  match s with EmptyString => true | _ => false end.

(** [std::string::compare() == 0], [strcmp() == 0]. *)
Definition streq (a b : string) : bool := String.eqb a b.

(** ** Searching *)

(** [s.find(c, from)], [None] for [npos]. *)
Fixpoint find_char_aux (c : ascii) (i from : nat) (s : string) : option nat :=
  match s with
  | EmptyString => None
  | String d s' =>
      if (from <=? i) && Ascii.eqb c d then Some i else find_char_aux c (S i) from s'
  end.
Definition find_char (c : ascii) (from : nat) (s : string) : option nat :=
  find_char_aux c 0 from s.

(** [s.substr(pos)] for [pos <= size]. *)
Fixpoint drop_str (n : nat) (s : string) : string :=
  match n, s with
  | S n', String _ s' => drop_str n' s'
  | O, s => s
  | S _, EmptyString => EmptyString
  end.

(** [s.substr(0, n)] *)
Fixpoint take_str (n : nat) (s : string) : string :=
  match n, s with
  | S n', String c s' => String c (take_str n' s')
  | _, _ => EmptyString
  end.

(** [a] is an initial segment of [s]: [s.rfind(a, 0) == 0] and
    [s.find(a) == 0]. *)
Definition has_prefix (a s : string) : bool := String.prefix a s.

(** [starts_with] of linux-sandbox-pid1.cc, whose arguments are not null:
    lengths compared first, then [strncmp]. *)
Definition starts_with (mnt_dir prefix : string) : bool :=
  if String.length mnt_dir <? String.length prefix then false
  else streq (take_str (String.length prefix) mnt_dir) prefix.

(** [ends_with] of linux-sandbox-pid1.cc. *)
Definition ends_with (mnt_dir suffix : string) : bool :=
  if String.length mnt_dir <? String.length suffix then false
  else streq (drop_str (String.length mnt_dir - String.length suffix) mnt_dir) suffix.

(** ** C buffers *)

(** The C string that starts at a buffer: its characters before the first NUL. *)
Fixpoint until_nul (l : list ascii) : list ascii :=
  match l with
  | [] => []
  | c :: l' => if Ascii.eqb c NUL then [] else c :: until_nul l'
  end.

(** [strncpy(dst, src, n)]: the [n] characters written at [dst]. *)
Definition strncpy (src : list ascii) (n : nat) : list ascii :=
  let s := take n (until_nul src) in s ++ replicate (n - length s) NUL.

(** ** Lines *)

(** What successive [std::getline] calls read from a stream holding [s]. *)
Fixpoint getlines_aux (cur : list ascii) (l : list ascii) : list (list ascii) :=
  match l with
  | [] => match cur with [] => [] | _ => [rev cur] end
  | c :: l' => if Ascii.eqb c LF then rev cur :: getlines_aux [] l'
               else getlines_aux (c :: cur) l'
  end.
Definition getlines (s : string) : list string :=
  of_chars <$> getlines_aux [] (chars s).

(** ** Trimming *)

Fixpoint skip_while (f : ascii -> bool) (l : list ascii) : list ascii :=
  match l with
  | [] => []
  | c :: l' => if f c then skip_while f l' else l
  end.

(** [s.erase(begin, first c with not f)] then [s.erase(after the last such c, end)]. *)
Definition trim_with (f : ascii -> bool) (l : list ascii) : list ascii :=
  rev (skip_while f (rev (skip_while f l))).

Definition trim (s : string) : string := of_chars (trim_with isspace (chars s)).

Definition dquote : ascii := "034"%char.
Definition squote : ascii := "039"%char.

(** [s.back()] of a non-empty string. *)
Fixpoint back_char (s : string) : ascii :=
  match s with
  | EmptyString => NUL
  | String c EmptyString => c
  | String _ s' => back_char s'
  end.

Definition unquote (s : string) : string :=
  if (2 <=? String.length s) &&
     ((Ascii.eqb (front_char s) dquote && Ascii.eqb (back_char s) dquote) ||
      (Ascii.eqb (front_char s) squote && Ascii.eqb (back_char s) squote))
  then take_str (String.length s - 2) (drop_str 1 s)
  else s.

Definition GetFirstFolder (path : string) : string :=
  if empty path || negb (Ascii.eqb (front_char path) slash) || streq path "/" then ""
  else match find_char slash 1 path with
       | Some secondSlash => take_str secondSlash path
       | None => path
       end.

(** ** Numbers *)

(** [std::to_string] and ["%d"]. *)
Definition to_string (z : Z) : string := pretty z.

Definition digit_value (c : ascii) : Z := Z.of_N (N_of_ascii c) - 48.

Fixpoint read_digits (acc : Z) (l : list ascii) : Z * list ascii :=
  match l with
  | c :: l' => if isdigit c then read_digits (10 * acc + digit_value c) l' else (acc, l)
  | [] => (acc, [])
  end.

(** The integer conversion of [scanf("%d")]: white space, an optional sign and
    at least one digit; [None] when no integer can be read.  The value is the
    mathematical one. *)
Definition scan_int (l : list ascii) : option (Z * list ascii) :=
  let l := skip_while isspace l in
  let '(neg, l) := match l with
                   | c :: l' => if Ascii.eqb c "-"%char then (true, l')
                                else if Ascii.eqb c "+"%char then (false, l') else (false, l)
                   | [] => (false, [])
                   end in
  match l with
  | c :: _ => if isdigit c
              then let '(v, l') := read_digits 0 l in Some (if neg : bool then - v else v, l')%Z
              else None
  | [] => None
  end.

(** ** Facts *)

Lemma chars_of_chars l : chars (of_chars l) = l.
Proof. apply String.list_ascii_of_string_of_list_ascii. Qed.

Lemma of_chars_chars s : of_chars (chars s) = s.
Proof. apply String.string_of_list_ascii_of_string. Qed.

#[export] Instance chars_inj : Inj (=) (=) chars.
Proof. intros a b H. by rewrite <- (of_chars_chars a), H, of_chars_chars. Qed.

Lemma chars_app a b : chars (a +:+ b) = chars a ++ chars b.
Proof. induction a as [|c a IH]; [done|]. change (c :: chars (a +:+ b) = c :: chars a ++ chars b). by rewrite IH. Qed.

Lemma length_chars s : length (chars s) = String.length s.
Proof. induction s; simpl; [done|]. by f_equal. Qed.

Lemma length_app_str a b : String.length (a +:+ b) = String.length a + String.length b.
Proof. by rewrite <- !length_chars, chars_app, length_app. Qed.

Lemma app_str_assoc a b c : (a +:+ b) +:+ c = a +:+ (b +:+ c).
Proof. apply (inj chars). by rewrite !chars_app, (assoc_L (++)). Qed.

Lemma app_str_nil_r a : a +:+ "" = a.
Proof. apply (inj chars). by rewrite chars_app, app_nil_r. Qed.

Lemma app_str_inj_r a b c : a +:+ c = b +:+ c -> a = b.
Proof.
  intros H. apply (inj chars). apply (f_equal chars) in H. rewrite !chars_app in H.
  by apply app_inv_tail in H.
Qed.

Lemma chars_take n s : chars (take_str n s) = take n (chars s).
Proof. revert n. induction s as [|c s IH]; intros [|n]; simpl; [done..|]. by rewrite IH. Qed.

Lemma chars_drop n s : chars (drop_str n s) = drop n (chars s).
Proof. revert n. induction s as [|c s IH]; intros [|n]; simpl; done. Qed.

Lemma take_drop_str n s : take_str n s +:+ drop_str n s = s.
Proof. apply (inj chars). by rewrite chars_app, chars_take, chars_drop, take_drop. Qed.

Lemma streq_true a b : streq a b = true <-> a = b.
Proof. apply String.eqb_eq. Qed.

Lemma streq_refl a : streq a a = true.
Proof. apply String.eqb_refl. Qed.

Lemma streq_false a b : streq a b = false <-> a ≠ b.
Proof. apply String.eqb_neq. Qed.

(** [has_prefix], [starts_with] and [ends_with] decide concatenation. *)
Lemma has_prefix_spec a s : has_prefix a s = true <-> exists t, s = a +:+ t.
Proof.
  unfold has_prefix. revert s. induction a as [|c a IH]; intros s; simpl.
  - split; [intros _; by exists s | by destruct s].
  - destruct s as [|d s]; simpl.
    + split; [done | by intros [t Ht]].
    + destruct (ascii_dec c d) as [->|Hne].
      * rewrite IH. split; intros [t Ht]; exists t; [by rewrite Ht |].
        by injection Ht as ->.
      * split; [done | intros [t Ht]; injection Ht as -> _; done].
Qed.

Lemma starts_with_spec s p : starts_with s p = true <-> exists t, s = p +:+ t.
Proof.
  unfold starts_with. destruct (Nat.ltb_spec (String.length s) (String.length p)) as [Hl|Hl].
  - split; [done|]. intros [t ->]. rewrite length_app_str in Hl. lia.
  - rewrite streq_true. split.
    + intros H. exists (drop_str (String.length p) s). by rewrite <- H at 1; rewrite take_drop_str.
    + intros [t ->]. apply (inj chars).
      by rewrite chars_take, chars_app, <- length_chars, take_app_length.
Qed.

Lemma ends_with_spec s p : ends_with s p = true <-> exists t, s = t +:+ p.
Proof.
  unfold ends_with. destruct (Nat.ltb_spec (String.length s) (String.length p)) as [Hl|Hl].
  - split; [done|]. intros [t ->]. rewrite length_app_str in Hl. lia.
  - rewrite streq_true. split.
    + intros H. eexists. by rewrite <- H at 1; rewrite take_drop_str.
    + intros [t ->]. apply (inj chars). rewrite chars_drop, chars_app, length_app_str.
      replace (String.length t + String.length p - String.length p) with (length (chars t))
        by (rewrite length_chars; lia).
      by rewrite drop_app_length.
Qed.

Lemma starts_with_has_prefix s p : starts_with s p = has_prefix p s.
Proof. apply eq_true_iff_eq. by rewrite starts_with_spec, has_prefix_spec. Qed.

(** *** Trimming *)

Lemma skip_while_split f l :
  exists p, l = p ++ skip_while f l /\ Forall (fun c => f c = true) p.
Proof.
  induction l as [|c l (p & Hp & Hf)]; simpl; [by exists []|].
  destruct (f c) eqn:E; [|by exists []].
  exists (c :: p). simpl. split; [by f_equal | by constructor].
Qed.

Lemma skip_while_head f l c l' : skip_while f l = c :: l' -> f c = false.
Proof.
  induction l as [|d l IH]; simpl; [done|]. destruct (f d) eqn:E; [done|].
  by intros [= <- _].
Qed.

Lemma skip_while_stuck f l : (forall c l', l = c :: l' -> f c = false) -> skip_while f l = l.
Proof. destruct l as [|c l]; simpl; [done|]. intros H. by rewrite (H c l). Qed.

Lemma skip_while_all f l : Forall (fun c => f c = true) l -> skip_while f l = [].
Proof. induction 1 as [|c l Hc _ IH]; simpl; [done|]. by rewrite Hc. Qed.

Lemma trim_with_split f l :
  exists p q, l = p ++ trim_with f l ++ q /\
    Forall (fun c => f c = true) p /\ Forall (fun c => f c = true) q.
Proof.
  unfold trim_with. destruct (skip_while_split f l) as (p & Hp & Hfp).
  destruct (skip_while_split f (rev (skip_while f l))) as (q & Hq & Hfq).
  exists p, (rev q). split; [|split; [done | by apply Forall_rev]].
  rewrite Hp at 1. f_equal. apply (f_equal (@rev ascii)) in Hq.
  by rewrite rev_involutive, rev_app_distr in Hq.
Qed.

Lemma trim_with_last f l c k : trim_with f l = k ++ [c] -> f c = false.
Proof.
  unfold trim_with. intros H. apply (f_equal (@rev ascii)) in H.
  rewrite rev_involutive, rev_app_distr in H. by apply skip_while_head in H.
Qed.

Lemma trim_with_first f l c k : trim_with f l = c :: k -> f c = false.
Proof.
  intros H. destruct (skip_while f l) as [|d m] eqn:E.
  { unfold trim_with in H. by rewrite E in H. }
  assert (f d = false) as Hd by (by apply skip_while_head in E).
  destruct (skip_while_split f (rev (d :: m))) as (q & Hq & Hfq).
  apply (f_equal (@rev ascii)) in Hq. rewrite rev_involutive, rev_app_distr in Hq.
  unfold trim_with in H. rewrite E in H. rewrite H in Hq. simpl in Hq. by injection Hq as -> _.
Qed.

Lemma trim_with_idemp f l : trim_with f (trim_with f l) = trim_with f l.
Proof.
  assert (skip_while f (trim_with f l) = trim_with f l) as H.
  { apply skip_while_stuck. intros c l' Hc. by apply trim_with_first in Hc. }
  unfold trim_with at 1. rewrite H. unfold trim_with. rewrite rev_involutive.
  f_equal. apply skip_while_stuck. intros c l' Hc. by apply skip_while_head in Hc.
Qed.
