(* ===== verification/GoStd.v ===== *)
(** * The functions of the Go standard library the minitap backend uses

    minitap (src/minitap) is written in Go.  This file models what its network
    filter uses of Go's standard library: the lines [bufio.Scanner] yields,
    [strings.TrimSpace], [strconv.ParseInt] in base ten, [net.ParseIP] with the
    IPv4 and IPv6 parsers behind it, and the text of an address. *)

From S2P Require Import Prelude Monad CxxString.
From Stdlib Require Import Ascii.
Open Scope sbx_scope.
Open Scope Z_scope.

(** ** strings *)

(** The UTF-8 encodings of the code points [unicode.IsSpace] holds of. *)
Definition space_encodings : list (list ascii) :=
  [ ["009"]; ["010"]; ["011"]; ["012"]; ["013"]; [" "];
    ["194"; "133"]; ["194"; "160"]; ["225"; "154"; "128"];
    ["226"; "128"; "128"]; ["226"; "128"; "129"]; ["226"; "128"; "130"]; ["226"; "128"; "131"];
    ["226"; "128"; "132"]; ["226"; "128"; "133"]; ["226"; "128"; "134"]; ["226"; "128"; "135"];
    ["226"; "128"; "136"]; ["226"; "128"; "137"]; ["226"; "128"; "138"];
    ["226"; "128"; "168"]; ["226"; "128"; "169"]; ["226"; "128"; "175"];
    ["226"; "129"; "159"]; ["227"; "128"; "128"] ]%char.

(** What is left of [l] behind an encoding of [encs] it starts with. *)
Definition drop_space (encs : list (list ascii)) (l : list ascii) : option (list ascii) :=
  match List.find (fun e => prefixb Ascii.eqb e l) encs with
  | Some e => Some (drop (length e) l)
  | None => None
  end.

Fixpoint trim_left (fuel : nat) (encs : list (list ascii)) (l : list ascii) : list ascii :=
  match fuel with
  | O => l
  | S n => match drop_space encs l with
           | Some l' => trim_left n encs l'
           | None => l
           end
  end.

(** A code point is removed at the end as it is at the start of the reverse. *)
Definition TrimSpace (s : string) : string :=
  let l := trim_left (String.length s) space_encodings (chars s) in
  of_chars (reverse (trim_left (length l) (reverse <$> space_encodings) (reverse l))).

(** [strings.TrimSuffix(s, ".")] *)
Definition trim_dot (s : string) : string :=
  match reverse (chars s) with
  | c :: l => if Ascii.eqb c "." then of_chars (reverse l) else s
  | [] => s
  end.

(** [strings.Count(s, ".")] *)
Definition count_dots (s : string) : Z :=
  Z.of_nat (length (List.filter (Ascii.eqb ".") (chars s))).

(** ** bufio.Scanner *)

Definition MaxScanTokenSize : Z := 65536.

Definition drop_cr (line : string) : string :=
  match reverse (chars line) with
  | c :: l => if Ascii.eqb c "013" then of_chars (reverse l) else line
  | [] => line
  end.

(** The lines [Scan] yields: it stops at a line that does not fit its buffer. *)
Fixpoint scanned (lines : list string) : list string :=
  match lines with
  | [] => []
  | l :: rest => if Z.of_nat (String.length l) <? MaxScanTokenSize then drop_cr l :: scanned rest else []
  end.

Definition scan_lines (text : string) : list string := scanned (getlines text).

(** ** strconv.ParseInt(s, 10, 64) *)

Definition MaxInt64 : Z := 2 ^ 63 - 1.

Fixpoint decimal (acc : Z) (l : list ascii) : option Z :=
  match l with
  | [] => Some acc
  | c :: l' => if isdigit c then decimal (10 * acc + digit_value c) l' else None
  end.

Definition ParseInt (s : string) : option Z :=
  let '(neg, l) := match chars s with
                   | c :: l => if Ascii.eqb c "-" then (true, l)
                               else if Ascii.eqb c "+" then (false, l) else (false, c :: l)
                   | [] => (false, [])
                   end in
  match l with
  | [] => None
  | _ => match decimal 0 l with
         | Some v => if neg : bool
                     then if v <=? MaxInt64 + 1 then Some (- v) else None
                     else if v <=? MaxInt64 then Some v else None
         | None => None
         end
  end.

(** ** net.IP

    An address is a slice of bytes: four for IPv4, sixteen for IPv6, and none
    for the nil address. *)

Definition IP : Type := list Z.

(** The loop of [netip.parseIPv4Fields]: the character before, the value and
    the number of digits of the field so far, the fields before it. *)
Fixpoint ipv4_fields (prev : option ascii) (val digLen : Z) (fields : IP) (l : list ascii) : option IP :=
  match l with
  | [] => if (length fields <? 3)%nat then None else Some (fields ++ [val])
  | c :: l' =>
      if isdigit c then
        if (digLen =? 1) && (val =? 0) then None
        else if 255 <? val * 10 + digit_value c then None
        else ipv4_fields (Some c) (val * 10 + digit_value c) (digLen + 1) fields l'
      else if Ascii.eqb c "." then
        if bool_decide (prev = None) || bool_decide (l' = []) || bool_decide (prev = Some "."%char) then None
        else if (length fields =? 3)%nat then None
        else ipv4_fields (Some c) 0 0 (fields ++ [val]) l'
      else None
  end.

Definition parseIPv4 (l : list ascii) : option IP := ipv4_fields None 0 0 [] l.

Definition hex_value (c : ascii) : option Z :=
  let n := Z.of_N (N_of_ascii c) in
  if isdigit c then Some (n - 48)
  else if (97 <=? n) && (n <=? 102) then Some (n - 87)
  else if (65 <=? n) && (n <=? 70) then Some (n - 55)
  else None.

(** A group of hexadecimal digits: their number, their value and the rest; a
    fifth digit is an error. *)
Fixpoint hex_group (off : nat) (acc : Z) (l : list ascii) : option (nat * Z * list ascii) :=
  match l with
  | [] => Some (off, acc, [])
  | c :: l' => match hex_value c with
               | None => Some (off, acc, l)
               | Some v => if (3 <? off)%nat then None else hex_group (S off) (16 * acc + v) l'
               end
  end.

(** The loop of [netip.parseIPv6]: the bytes so far, where the ellipsis is, and
    the text left; every iteration adds two bytes, so eight are enough. *)
Fixpoint ipv6_groups (fuel : nat) (ip : IP) (ellipsis : option nat) (s : list ascii) : option (IP * option nat * list ascii) :=
  match fuel with
  | O => Some (ip, ellipsis, s)
  | S n =>
      match hex_group 0 0 s with
      | None | Some (O, _, _) => None
      | Some (_, acc, rest) =>
          match rest with
          | [] => Some (ip ++ [acc / 256; acc mod 256], ellipsis, [])
          | c :: rest' =>
              if Ascii.eqb c "." then
                if bool_decide (ellipsis = None) && negb (length ip =? 12)%nat then None
                else if (16 <? length ip + 4)%nat then None
                else match parseIPv4 s with
                     | Some f => Some (ip ++ f, ellipsis, [])
                     | None => None
                     end
              else if Ascii.eqb c ":" then
                let ip := ip ++ [acc / 256; acc mod 256] in
                match rest' with
                | [] => None
                | c2 :: rest2 =>
                    if Ascii.eqb c2 ":" then
                      match ellipsis, rest2 with
                      | Some _, _ => None
                      | None, [] => Some (ip, Some (length ip), [])
                      | None, _ => ipv6_groups n ip (Some (length ip)) rest2
                      end
                    else ipv6_groups n ip ellipsis rest'
                end
              else None
          end
      end
  end.

(** The part behind the loop; a text with a zone is no address for [ParseIP]. *)
Definition parseIPv6 (l : list ascii) : option IP :=
  let '(ellipsis, s) := match l with
                        | ":"%char :: ":"%char :: s => (Some O, s)
                        | _ => (None, l)
                        end in
  match ellipsis, s with
  | Some _, [] => Some (replicate 16 0)
  | _, _ =>
      match ipv6_groups 8 [] ellipsis s with
      | None => None
      | Some (ip, ellipsis, rest) =>
          if negb (bool_decide (rest = [])) then None
          else if (length ip <? 16)%nat then
            match ellipsis with
            | None => None
            | Some e => Some (take e ip ++ replicate (16 - length ip) 0 ++ drop e ip)
            end
          else match ellipsis with Some _ => None | None => Some ip end
      end
  end.

(** [IPv4(a, b, c, d)] in sixteen bytes. *)
Definition v4_in_v6 (f : IP) : IP := replicate 10 0 ++ [255; 255] ++ f.

(** [net.ParseIP], which asks [netip.ParseAddr] and refuses a zone: the first of
    the three characters decides. *)
Fixpoint parse_addr (whole l : list ascii) : option IP :=
  match l with
  | [] => None
  | c :: l' => if Ascii.eqb c "." then v4_in_v6 <$> parseIPv4 whole
               else if Ascii.eqb c ":" then
                 if existsb (Ascii.eqb "%") whole then None else parseIPv6 whole
               else if Ascii.eqb c "%" then None
               else parse_addr whole l'
  end.

Definition ParseIP (s : string) : option IP := parse_addr (chars s) (chars s).

Definition To4 (ip : IP) : option IP :=
  if (length ip =? 4)%nat then Some ip
  else if (length ip =? 16)%nat && bool_decide (take 12 ip = replicate 10 0 ++ [255; 255]) then Some (drop 12 ip)
  else None.

Definition dotted (f : IP) : string := String.concat "." (to_string <$> f).

(** [ip.To4().String()], where the nil address is printed as <nil>. *)
Definition to4_string (ip : IP) : string :=
  match To4 ip with
  | Some f => dotted f
  | None => "<nil>"
  end.

Definition hex_digit (v : Z) : ascii := ascii_of_N (Z.to_N (if v <? 10 then v + 48 else v + 87)).

(** [appendHex]: no leading zeros. *)
Definition hex16 (v : Z) : string :=
  let d := [v / 4096; v / 256 mod 16; v / 16 mod 16; v mod 16] in
  let skip := if v <? 16 then 3%nat else if v <? 256 then 2%nat else if v <? 4096 then 1%nat else 0%nat in
  of_chars (hex_digit <$> drop skip d).

Fixpoint groups16 (ip : IP) : list Z :=
  match ip with
  | hi :: lo :: rest => 256 * hi + lo :: groups16 rest
  | _ => []
  end.

Fixpoint leading_zeros (g : list Z) : nat :=
  match g with
  | v :: g' => if v =? 0 then S (leading_zeros g') else O
  | [] => O
  end.

(** The first of the longest runs of at least two zero groups. *)
Definition zero_run (g : list Z) : option (nat * nat) :=
  foldl (fun best i =>
    let l := leading_zeros (drop i g) in
    let len := match best with Some (a, b) => (b - a)%nat | None => O end in
    if (2 <=? l)%nat && (len <? l)%nat then Some (i, i + l)%nat else best) None (seq 0 8).

Definition ip6_string (ip : IP) : string :=
  let g := groups16 ip in
  match zero_run g with
  | Some (a, b) => String.concat ":" (hex16 <$> take a g) +:+ "::" +:+ String.concat ":" (hex16 <$> drop b g)
  | None => String.concat ":" (hex16 <$> g)
  end.

(** [ip.String()] *)
Definition ip_string (ip : IP) : string :=
  match To4 ip with
  | Some f => dotted f
  | None => if (length ip =? 0)%nat then "<nil>"
            else if (length ip =? 16)%nat then ip6_string ip
            else "?" +:+ of_chars (concat ((fun b => [hex_digit (b / 16); hex_digit (b mod 16)]) <$> ip))
  end.

(** [net.TCPAddr] and [net.UDPAddr] without a zone, and the text of an address
    and its port: an IPv6 host is put in brackets. *)
Record addr := mkAddr { addr_ip : IP; addr_port : Z }.

Definition addr_string (a : addr) : string :=
  let host := if (length (addr_ip a) =? 0)%nat then "" else ip_string (addr_ip a) in
  (if existsb (Ascii.eqb ":") (chars host) then "[" +:+ host +:+ "]" else host) +:+ ":" +:+ to_string (addr_port a).

(** ** Facts *)

(** Visible ASCII characters: no encoding of a space starts or ends with one. *)
Definition visible (c : ascii) : bool := (33 <=? N_of_ascii c)%N && (N_of_ascii c <=? 126)%N.

Definition unseen (e : list ascii) : bool := match e with [] => false | d :: _ => negb (visible d) end.

Lemma drop_space_visible encs l :
  forallb unseen encs = true -> Forall (fun c => visible c = true) l -> drop_space encs l = None.
Proof.
  intros He Hl. unfold drop_space. destruct (List.find _ encs) as [e|] eqn:F; [|done].
  apply List.find_some in F as [Hin Hp]. rewrite forallb_forall in He. specialize (He e Hin).
  destruct e as [|d e]; [done|]. destruct Hl as [|c l Hc Hl]; [done|].
  cbn in Hp, He. apply andb_prop in Hp as [Hd _]. apply Ascii.eqb_eq in Hd as ->. by rewrite Hc in He.
Qed.

Lemma trim_left_visible n encs l :
  forallb unseen encs = true -> Forall (fun c => visible c = true) l -> trim_left n encs l = l.
Proof. intros He Hl. destruct n as [|n]; [done|]. cbn [trim_left]. by rewrite drop_space_visible. Qed.

Lemma TrimSpace_visible s : Forall (fun c => visible c = true) (chars s) -> TrimSpace s = s.
Proof.
  intros H. unfold TrimSpace. cbv zeta. rewrite (trim_left_visible _ _ (chars s)) by done.
  rewrite trim_left_visible by (done || by apply Forall_reverse). by rewrite reverse_involutive, of_chars_chars.
Qed.

Lemma drop_cr_visible s : Forall (fun c => visible c = true) (chars s) -> drop_cr s = s.
Proof.
  intros H. apply Forall_reverse in H. unfold drop_cr. destruct (reverse (chars s)) as [|c l]; [done|].
  inv H. destruct (Ascii.eqb c _) eqn:E; [|done]. apply Ascii.eqb_eq in E as ->. done.
Qed.

Lemma scanned_short lines :
  Forall (fun l => Z.of_nat (String.length l) < MaxScanTokenSize /\ Forall (fun c => visible c = true) (chars l)) lines ->
  scanned lines = lines.
Proof.
  induction 1 as [|l lines [Hl Hv] _ IH]; [done|]. cbn.
  rewrite (proj2 (Z.ltb_lt _ _)) by done. by rewrite drop_cr_visible, IH.
Qed.

(** *** The dotted text of an IPv4 address *)

(** The digits of one field. *)
Fixpoint octet_value (val digLen : Z) (l : list ascii) : option (Z * Z) :=
  match l with
  | [] => Some (val, digLen)
  | c :: l' => if (digLen =? 1) && (val =? 0) then None
               else if 255 <? val * 10 + digit_value c then None
               else octet_value (val * 10 + digit_value c) (digLen + 1) l'
  end.

Lemma ipv4_fields_digits prev val dl fs ds rest :
  forallb isdigit ds = true ->
  ipv4_fields prev val dl fs (ds ++ rest) =
  match octet_value val dl ds with
  | Some (v, dl') => ipv4_fields (match last ds with Some c => Some c | None => prev end) v dl' fs rest
  | None => None
  end.
Proof.
  revert prev val dl. induction ds as [|c ds IH]; intros prev val dl H; [done|].
  cbn in H |- *. apply andb_prop in H as [-> H].
  destruct (_ && _); [done|]. destruct (255 <? _); [done|].
  rewrite IH by done. destruct (octet_value _ _ ds) as [[v dl']|]; [|done].
  rewrite last_cons. by destruct (last ds).
Qed.

Definition all_digits : list ascii := ascii_of_N <$> [48; 49; 50; 51; 52; 53; 54; 55; 56; 57]%N.

Lemma isdigit_in c : isdigit c = true -> c ∈ all_digits.
Proof.
  unfold isdigit. intros H. apply andb_prop in H as [H1 H2]. apply N.leb_le in H1, H2.
  rewrite <- (ascii_N_embedding c). revert H1 H2. generalize (N_of_ascii c). intros n H1 H2.
  apply list_elem_of_fmap. exists n. split; [done|].
  assert (n = 48 \/ n = 49 \/ n = 50 \/ n = 51 \/ n = 52 \/ n = 53 \/ n = 54 \/ n = 55 \/ n = 56 \/ n = 57)%N as Hn by lia.
  set_solver.
Qed.

(** All texts of [n] digits. *)
Fixpoint digit_texts (n : nat) : list (list ascii) :=
  match n with
  | O => [[]]
  | S n' => l ← digit_texts n'; (fun c => c :: l) <$> all_digits
  end.

Lemma digit_texts_all l : forallb isdigit l = true -> l ∈ digit_texts (length l).
Proof.
  induction l as [|c l IH]; cbn [forallb length digit_texts]; [set_solver|].
  intros H. apply andb_prop in H as [Hc Hl]. apply list_elem_of_bind. exists l. split; [|auto].
  apply list_elem_of_fmap. exists c. split; [done | by apply isdigit_in].
Qed.

(** A field of at most three digits is the decimal text of its value, which is a
    byte; three digits make at least 100. *)
Definition octet_exact (l : list ascii) : bool :=
  match octet_value 0 0 l with
  | Some (v, _) => (0 <=? v) && (v <=? 255) && (if decide (chars (to_string v) = l) then true else false) &&
                   (if (length l =? 3)%nat then 100 <=? v else true)
  | None => true
  end.

Lemma octet_exact_short l :
  forallb isdigit l = true -> (1 <= length l <= 3)%nat -> octet_exact l = true.
Proof.
  intros Hd Hl. apply digit_texts_all in Hd.
  assert (forallb octet_exact (digit_texts 1 ++ digit_texts 2 ++ digit_texts 3) = true) as Hall by (vm_compute; reflexivity).
  rewrite forallb_forall in Hall. apply Hall, list_elem_of_In. rewrite !elem_of_app.
  destruct l as [|a [|b [|c [|d l]]]]; cbn in Hl; try lia; auto.
Qed.

Lemma octet_value_app val dl l1 l2 :
  octet_value val dl (l1 ++ l2) =
  match octet_value val dl l1 with Some (v, d) => octet_value v d l2 | None => None end.
Proof.
  revert val dl. induction l1 as [|c l1 IH]; intros val dl; [done|]. cbn.
  destruct (_ && _); [done|]. by destruct (255 <? _).
Qed.

Lemma octet_value_length val dl l v d : octet_value val dl l = Some (v, d) -> d = dl + Z.of_nat (length l).
Proof.
  revert val dl. induction l as [|c l IH]; intros val dl; cbn; [intros [=]; lia|].
  destruct (_ && _); [done|]. destruct (255 <? _); [done|]. intros H%IH. lia.
Qed.

Lemma digit_value_nonneg c : isdigit c = true -> 0 <= digit_value c.
Proof. unfold isdigit, digit_value. intros H. apply andb_prop in H as [H _]. apply N.leb_le in H. lia. Qed.

Lemma octet_value_short l v d : forallb isdigit l = true -> octet_value 0 0 l = Some (v, d) -> (length l <= 3)%nat.
Proof.
  intros Hd Ho. destruct (decide (length l <= 3)%nat) as [|Hl]; [done|]. exfalso.
  rewrite <- (take_drop 3 l) in Ho, Hd. rewrite octet_value_app in Ho.
  rewrite forallb_app in Hd. apply andb_prop in Hd as [H3 Hd].
  assert (length (take 3 l) = 3%nat) as Hl3 by (rewrite length_take; lia).
  pose proof (octet_exact_short _ H3 ltac:(lia)) as Hx. unfold octet_exact in Hx.
  destruct (octet_value 0 0 (take 3 l)) as [[w e]|] eqn:E; [|done].
  apply octet_value_length in E. rewrite Hl3 in Hx, E.
  apply andb_prop in Hx as [_ Hx]. cbn in Hx. apply Z.leb_le in Hx.
  destruct (drop 3 l) as [|c k] eqn:Ek.
  { apply (f_equal length) in Ek. rewrite length_drop in Ek. cbn in Ek. lia. }
  cbn in Hd, Ho. apply andb_prop in Hd as [Hc _]. apply digit_value_nonneg in Hc.
  destruct (_ && _); [done|]. destruct (255 <? _) eqn:E5; [done|]. apply Z.ltb_ge in E5. lia.
Qed.

Lemma octet_value_inv l v d :
  l <> [] -> forallb isdigit l = true -> octet_value 0 0 l = Some (v, d) ->
  chars (to_string v) = l /\ 0 <= v <= 255.
Proof.
  intros Hne Hd Ho. pose proof (octet_value_short _ _ _ Hd Ho) as Hl.
  assert (1 <= length l)%nat by (destruct l; cbn; [done|lia]).
  pose proof (octet_exact_short l Hd ltac:(lia)) as Hx. unfold octet_exact in Hx. rewrite Ho in Hx.
  rewrite !andb_true_iff, !Z.leb_le in Hx. destruct (decide _); naive_solver.
Qed.

Lemma octet_value_text v :
  0 <= v <= 255 ->
  forallb isdigit (chars (to_string v)) = true /\ chars (to_string v) <> [] /\
  exists d, octet_value 0 0 (chars (to_string v)) = Some (v, d).
Proof.
  intros Hv.
  assert (forallb (fun v => let l := chars (to_string v) in
    forallb isdigit l && negb (length l =? 0)%nat &&
    match octet_value 0 0 l with Some (w, _) => w =? v | None => false end) (Z.of_nat <$> seq 0 256) = true) as Hall
    by (vm_compute; reflexivity).
  rewrite forallb_forall in Hall. specialize (Hall v). cbv zeta in Hall.
  rewrite !andb_true_iff in Hall. destruct Hall as [[H1 H2] H3].
  { apply list_elem_of_In, list_elem_of_fmap. exists (Z.to_nat v). split; [lia|]. apply elem_of_seq. lia. }
  split; [done|]. split; [by destruct (chars (to_string v))|].
  destruct (octet_value 0 0 _) as [[w d]|]; [|done]. apply Z.eqb_eq in H3 as ->. by exists d.
Qed.

(** *** Parsing and printing *)

Definition is_byte (v : Z) : Prop := 0 <= v <= 255.

(** The fields behind the first: each is a point and an octet. *)
Definition dot_fields (f : IP) : list ascii := concat ((fun v => "."%char :: chars (to_string v)) <$> f).

Lemma ipv4_fields_print f : forall prev v d fs,
  Forall is_byte f -> prev <> None -> prev <> Some "."%char ->
  (length fs + length f = 3)%nat -> ipv4_fields prev v d fs (dot_fields f) = Some (fs ++ v :: f).
Proof.
  induction f as [|w f IH]; intros prev v d fs Hf Hp Hdot Hlen.
  - cbn in *. rewrite Nat.add_0_r in Hlen. by rewrite Hlen.
  - inv Hf. destruct (octet_value_text w) as (Hd & Hne & d' & Hw); [done|].
    unfold dot_fields. cbn [fmap list_fmap concat]. rewrite <- app_comm_cons. cbn [ipv4_fields isdigit].
    replace (isdigit ".") with false by done. rewrite Ascii.eqb_refl.
    rewrite !bool_decide_false; [|done| |done].
    2: { by destruct (chars (to_string w)). }
    cbn [orb]. replace (length fs =? 3)%nat with false by (symmetry; apply Nat.eqb_neq; cbn in Hlen; lia).
    rewrite ipv4_fields_digits by done. rewrite Hw.
    fold (dot_fields f). rewrite IH; [by rewrite <- app_assoc|done| | |].
    + destruct (last _) eqn:E; [done|]. by apply last_None in E.
    + destruct (last _) eqn:E; [|by apply last_None in E]. intros [= ->]. apply last_Some in E as [l' E].
      rewrite E, forallb_app in Hd. apply andb_prop in Hd as [_ Hd]. done.
    + rewrite length_app. cbn in *. lia.
Qed.

(** A field in front of a point or of the end, and what is left. *)
Lemma digits_split l : exists ds rest, l = ds ++ rest /\ forallb isdigit ds = true /\
  match rest with [] => True | c :: _ => isdigit c = false end.
Proof.
  induction l as [|c l (ds & rest & -> & Hd & Hr)]; [by exists [], []|].
  destruct (isdigit c) eqn:Hc.
  - exists (c :: ds), rest. cbn. by rewrite Hc.
  - exists [], (c :: ds ++ rest). cbn. by rewrite Hc.
Qed.

Lemma ipv4_fields_parse n : forall l prev v d fs ip,
  (length l <= n)%nat -> match l with [] => True | c :: _ => isdigit c = false end ->
  ipv4_fields prev v d fs l = Some ip -> (length fs <= 3)%nat ->
  exists f, ip = fs ++ v :: f /\ l = dot_fields f /\ Forall is_byte f /\ (length fs + length f = 3)%nat.
Proof.
  induction n as [n IH] using lt_wf_ind. intros l prev v d fs ip Hn Hl H Hfs. destruct l as [|c l].
  - cbn [ipv4_fields] in H. destruct (length fs <? 3)%nat eqn:E; [done|]. injection H as <-. apply Nat.ltb_ge in E.
    exists []. cbn. split_and!; [done..|lia].
  - cbn [ipv4_fields] in H. rewrite Hl in H. destruct (Ascii.eqb c ".") eqn:Ec; [|done]. apply Ascii.eqb_eq in Ec as ->.
    destruct (_ || _) eqn:Eb; [done|]. destruct (_ =? 3)%nat eqn:E3; [done|]. apply Nat.eqb_neq in E3.
    apply orb_false_iff in Eb as [Eb _]. apply orb_false_iff in Eb as [_ Eb].
    destruct (digits_split l) as (ds & rest & -> & Hd & Hr). rewrite ipv4_fields_digits in H by done.
    destruct (octet_value 0 0 ds) as [[w d']|] eqn:Ho; [|done].
    assert (ds <> []) as Hne.
    { intros ->. injection Ho as <- <-. cbn in H. destruct rest as [|c rest]; [by rewrite bool_decide_true in Eb|].
      cbn [ipv4_fields] in H. rewrite Hr in H. destruct (Ascii.eqb c "."); [|done]. by rewrite orb_true_r in H. }
    destruct (octet_value_inv ds w d' Hne Hd Ho) as [Ht Hw].
    apply (IH (length rest)) in H as (f & -> & -> & Hf & Hlen).
    + exists (w :: f). rewrite <- app_assoc. unfold dot_fields. cbn. rewrite Ht. split_and!; [done..| |].
      { by constructor. } { rewrite length_app in Hlen. cbn in *. lia. }
    + cbn in Hn. rewrite length_app in Hn. lia.
    + done.
    + done.
    + rewrite length_app. cbn. lia.
Qed.

Lemma dotted_chars v f : chars (dotted (v :: f)) = chars (to_string v) ++ dot_fields f.
Proof.
  unfold dotted. revert v. induction f as [|w f IH]; intros v; cbn [fmap list_fmap].
  - unfold dot_fields. cbn. by rewrite app_nil_r.
  - change (String.concat "." (to_string v :: to_string w :: (to_string <$> f)))
      with (to_string v +:+ "." +:+ String.concat "." (to_string <$> (w :: f))).
    rewrite !chars_app, IH. unfold dot_fields. done.
Qed.

(** [parseIPv4] accepts the dotted texts of four bytes and nothing else. *)
Lemma parseIPv4_exact s ip :
  parseIPv4 (chars s) = Some ip <-> length ip = 4%nat /\ Forall is_byte ip /\ s = dotted ip.
Proof.
  split.
  - intros H. unfold parseIPv4 in H. destruct (digits_split (chars s)) as (ds & rest & E & Hd & Hr).
    rewrite E, ipv4_fields_digits in H by done. destruct (octet_value 0 0 ds) as [[w d]|] eqn:Ho; [|done].
    assert (ds <> []) as Hne.
    { intros ->. cbn in H. destruct rest as [|c rest]; [done|]. cbn in H. rewrite Hr in H.
      by destruct (Ascii.eqb c "."). }
    destruct (octet_value_inv ds w d Hne Hd Ho) as [Ht Hw].
    apply (ipv4_fields_parse (length rest)) in H as (f & -> & -> & Hf & Hlen); [|done..|cbn; lia].
    cbn [app length Nat.add] in *. split; [lia|]. split; [by constructor|]. apply (inj chars).
    by rewrite dotted_chars, Ht.
  - intros (Hlen & Hb & ->). destruct ip as [|v f]; [done|]. inv Hb.
    destruct (octet_value_text v) as (Hd & Hne & d & Hv); [done|].
    unfold parseIPv4. rewrite dotted_chars, ipv4_fields_digits, Hv by done.
    rewrite ipv4_fields_print; [done|done| | |cbn in *; lia].
    + destruct (last _) eqn:E; [done|]. by apply last_None in E.
    + destruct (last _) eqn:E; [|done]. intros [= ->]. apply last_Some in E as [l' E].
      rewrite E, forallb_app in Hd. by apply andb_prop in Hd as [_ Hd].
Qed.

Lemma parse_addr_plain whole l :
  existsb (Ascii.eqb ":") l = false -> existsb (Ascii.eqb "%") l = false ->
  parse_addr whole l = if existsb (Ascii.eqb ".") l then v4_in_v6 <$> parseIPv4 whole else None.
Proof.
  induction l as [|c l IH]; [done|]. cbn [existsb parse_addr]. rewrite !orb_false_iff.
  intros [H1 H2] [H3 H4]. rewrite (Ascii.eqb_sym c "."), (Ascii.eqb_sym c ":"), (Ascii.eqb_sym c "%"), H1, H3.
  destruct (Ascii.eqb "." c); [done|]. cbn. auto.
Qed.

Lemma parseIPv4_dot l ip : parseIPv4 l = Some ip -> existsb (Ascii.eqb ".") l = true.
Proof.
  intros H. rewrite <- (chars_of_chars l) in H |- *. apply parseIPv4_exact in H as (Hl & _ & ->).
  destruct ip as [|v [|w f]]; [done..|]. rewrite dotted_chars. unfold dot_fields. cbn.
  rewrite existsb_app. cbn. by rewrite orb_true_r.
Qed.

(** A text without colon and percent sign is the text of an IPv4 address or no
    address at all. *)
Lemma ParseIP_plain s :
  existsb (Ascii.eqb ":") (chars s) = false -> existsb (Ascii.eqb "%") (chars s) = false ->
  ParseIP s = v4_in_v6 <$> parseIPv4 (chars s).
Proof.
  intros H1 H2. unfold ParseIP. rewrite parse_addr_plain by done.
  destruct (parseIPv4 (chars s)) as [ip|] eqn:E; [|destruct (existsb (Ascii.eqb ".") (chars s)); reflexivity].
  by rewrite (parseIPv4_dot _ _ E).
Qed.

Lemma To4_v4_in_v6 f : length f = 4%nat -> To4 (v4_in_v6 f) = Some f.
Proof.
  intros H. destruct f as [|a [|b [|c [|d [|e f]]]]]; try done.
Qed.

Lemma dotted_inj f g :
  length f = 4%nat -> length g = 4%nat -> Forall is_byte f -> Forall is_byte g -> dotted f = dotted g -> f = g.
Proof.
  intros Hf Hg Bf Bg E. assert (parseIPv4 (chars (dotted f)) = Some f) as Pf by by apply parseIPv4_exact.
  assert (parseIPv4 (chars (dotted g)) = Some g) as Pg by by apply parseIPv4_exact.
  rewrite E, Pg in Pf. by injection Pf.
Qed.

Lemma To4_length ip f : To4 ip = Some f -> length f = 4%nat.
Proof.
  unfold To4. destruct (Nat.eqb_spec (length ip) 4); [by intros [= <-]|].
  destruct (Nat.eqb_spec (length ip) 16); [|done]. destruct (bool_decide _); [|done].
  intros [= <-]. rewrite length_drop. lia.
Qed.

Lemma To4_bytes ip f : Forall is_byte ip -> To4 ip = Some f -> Forall is_byte f.
Proof.
  intros Hb. unfold To4. destruct (_ =? 4)%nat; [by intros [= <-]|]. destruct (_ && _); [|done].
  intros [= <-]. by apply Forall_drop.
Qed.
