(* ===== verification/FsPath.v ===== *)
(** * Paths

    [std::filesystem::path] of a POSIX system: the sequence of elements
    [begin()..end()] iterates over, [parent_path], [filename], [operator/],
    [lexically_relative], and [std::mismatch] over element sequences; libc's
    [dirname].  On top of them [isSubpath] of process-tools.cc, which decides
    whether the elements of one path are an initial segment of another's. *)

From S2P Require Import Prelude CxxString.
From Stdlib Require Import Ascii.
Open Scope sbx_scope.

(** ** Elements *)

(** The segments between slashes, the empty ones included. *)
Fixpoint split_slash (s : string) : list string :=
  match s with
  | EmptyString => [""]
  | String c s' =>
      if Ascii.eqb c slash then "" :: split_slash s'
      else match split_slash s' with
           | [] => [String c ""]
           | seg :: segs => String c seg :: segs
           end
  end.

(** The names of a path without its root directory: empty segments are
    skipped, a slash after the last name gives one empty element. *)
Definition relative_elems (segs : list string) : list string :=
  let names := filter (fun seg => seg ≠ "") segs in
  match names with
  | [] => []
  | _ => names ++ (if decide (last segs = Some "") then [""] else [])
  end.

(** [path(s).begin() .. path(s).end()] *)
Definition path_elems (s : string) : list string :=
  if empty s then []
  else if is_absolute s then "/" :: relative_elems (split_slash s)
  else relative_elems (split_slash s).

(** [path == path], element by element. *)
Definition path_eq (p q : string) : bool := bool_decide (path_elems p = path_elems q).

(** ** Decomposition and composition *)

Definition is_slash (c : ascii) : bool := Ascii.eqb c slash.
Definition not_slash (c : ascii) : bool := negb (is_slash c).

(** [path::parent_path]: without the last element and the slashes before it;
    a path with no name is its own parent. *)
Definition parent_path (s : string) : string :=
  let r := rev (chars s) in
  if forallb is_slash r then s
  else let r' := skip_while is_slash (skip_while not_slash r) in
       match r' with
       | [] => if is_absolute s then "/" else ""
       | _ => of_chars (rev r')
       end.

(** [path::filename]: the text after the last slash. *)
Definition filename (s : string) : string :=
  let l := chars s in
  of_chars (drop (length (skip_while not_slash (rev l))) l).

(** [p / q] *)
Definition path_append (p q : string) : string :=
  if is_absolute q then q
  else if empty (filename p) then p +:+ q
  else p +:+ "/" +:+ q.

(** [std::mismatch(a.begin(), a.end(), b.begin())]: what is left of both
    ranges; [None] when the second range ends first and is read past its end. *)
Fixpoint mismatch3 (a b : list string) : option (list string * list string) :=
  match a, b with
  | [], _ => Some ([], b)
  | x :: a', y :: b' => if streq x y then mismatch3 a' b' else Some (a, b)
  | _ :: _, [] => None
  end.

(** [std::mismatch] over two bounded ranges. *)
Fixpoint mismatch4 (a b : list string) : list string * list string :=
  match a, b with
  | x :: a', y :: b' => if streq x y then mismatch4 a' b' else (a, b)
  | _, _ => (a, b)
  end.

(** The number of levels the rest of the base path goes down. *)
Definition levels (rest : list string) : Z :=
  foldr (fun e n => if streq e ".." then n - 1
                    else if empty e || streq e "." then n else n + 1)%Z 0%Z rest.

(** [p.lexically_relative(base)] *)
Definition lexically_relative (p base : string) : string :=
  if negb (Bool.eqb (is_absolute p) (is_absolute base)) then ""
  else
    let '(a, b) := mismatch4 (path_elems p) (path_elems base) in
    match a, b with
    | [], [] => "."
    | _, _ =>
        let n := levels b in
        if (n <? 0)%Z then ""
        else if (n =? 0)%Z && match a with [] => true | e :: _ => empty e end then "."
        else foldl path_append "" (replicate (Z.to_nat n) ".." ++ a)
    end.

(** [path::lexically_normal]: the names kept so far, the last one first, and
    whether a slash ends the path. *)
Definition normal_step (absolute : bool) (st : list string * bool) (e : string) : list string * bool :=
  let '(names, trailing) := st in
  if streq e "/" then st
  else if empty e || streq e "." then (names, true)
  else if streq e ".." then
    match names with
    | [] => if absolute then st else ([".."], false)
    | n :: names' => if streq n ".." then (".." :: names, false) else (names', true)
    end
  else (e :: names, false).

Definition lexically_normal (s : string) : string :=
  if empty s then ""
  else
    let '(names, trailing) := foldl (normal_step (is_absolute s)) ([], false) (path_elems s) in
    match names with
    | [] => if is_absolute s then "/" else "."
    | n :: _ =>
        (if is_absolute s then "/" else "") +:+ String.concat "/" (rev names)
        +:+ (if trailing && negb (streq n "..") then "/" else "")
    end.

(** glibc's [dirname]. *)
Definition dirname (s : string) : string :=
  let root (slashes : list ascii) := if length slashes =? 2 then "//" else "/" in
  let r := rev (chars s) in
  match r with
  | [] => "."
  | _ =>
      match skip_while is_slash r with
      | [] => root r
      | r1 => match skip_while not_slash r1 with
              | [] => "."
              | r2 => match skip_while is_slash r2 with
                      | [] => root r2
                      | r3 => of_chars (rev r3)
                      end
              end
      end
  end.

(** ** isSubpath *)

(** The loop of [isSubpath]: both iterators advance while the elements agree. *)
Fixpoint advance (baseIt subIt : list string) : list string * list string :=
  match baseIt, subIt with
  | b :: baseIt', x :: subIt' =>
      if streq b x then advance baseIt' subIt' else (baseIt, subIt)
  | _, _ => (baseIt, subIt)
  end.

Definition isSubpath (base sub : string) : bool :=
  match fst (advance (path_elems base) (path_elems sub)) with
  | [] => true
  | _ :: _ => false
  end.

(** ** Facts *)

Lemma advance_spec a b :
  fst (advance a b) = [] <-> a `prefix_of` b.
Proof.
  revert b. induction a as [|x a IH]; intros b; simpl.
  - split; [intros _; apply prefix_nil | by destruct b].
  - destruct b as [|y b]; simpl.
    + split; [done | intros H; by apply prefix_nil_not in H].
    + destruct (streq x y) eqn:E.
      * apply streq_true in E as ->. rewrite IH. split; [apply prefix_cons|].
        apply prefix_cons_inv_2.
      * split; [done | intros H]. apply prefix_cons_inv_1 in H. by apply streq_false in E.
Qed.

Lemma isSubpath_prefix base sub :
  isSubpath base sub = true <-> path_elems base `prefix_of` path_elems sub.
Proof.
  rewrite <- advance_spec. unfold isSubpath. by destruct (fst _).
Qed.

Lemma mismatch3_spec a b a' b' :
  mismatch3 a b = Some (a', b') ->
  exists p, a = p ++ a' /\ b = p ++ b' /\
    match a', b' with x :: _, y :: _ => x ≠ y | _ :: _, [] => False | [], _ => True end.
Proof.
  revert b. induction a as [|x a IH]; intros b; simpl.
  { intros [= <- <-]. by exists []. }
  destruct b as [|y b]; [done|]. destruct (streq x y) eqn:E.
  - intros (p & -> & -> & H)%IH. apply streq_true in E as ->. by exists (y :: p).
  - intros [= <- <-]. exists []. split; [done|]. split; [done|]. by apply streq_false.
Qed.

Lemma mismatch3_short a b : length a <= length b -> is_Some (mismatch3 a b).
Proof.
  revert b. induction a as [|x a IH]; intros b; simpl; [eauto|].
  destruct b as [|y b]; simpl; [lia|]. intros H. destruct (streq x y); [apply IH; lia | eauto].
Qed.

Lemma mismatch3_prefix a b b' : mismatch3 a b = Some ([], b') <-> b = a ++ b'.
Proof.
  revert b. induction a as [|x a IH]; intros b; simpl; [split; congruence|].
  destruct b as [|y b]; [done|]. destruct (streq x y) eqn:E.
  - apply streq_true in E as ->. rewrite IH. split; [by intros -> | by intros [= ->]].
  - apply streq_false in E. split; [done | by intros [= -> _]].
Qed.

(** *** Elements of concatenations *)

Lemma split_slash_not_nil s : split_slash s ≠ [].
Proof. destruct s as [|c s]; simpl; [done|]. destruct (Ascii.eqb c slash); [done|]. by destruct (split_slash s). Qed.

Lemma split_slash_app a b :
  split_slash (a +:+ String slash b) = split_slash a ++ split_slash b.
Proof.
  induction a as [|c a IH]; [done|].
  change (split_slash (String c (a +:+ String slash b)) = split_slash (String c a) ++ split_slash b).
  cbn [split_slash]. rewrite IH. destruct (Ascii.eqb c slash); [done|].
  pose proof (split_slash_not_nil a). by destruct (split_slash a).
Qed.

Lemma split_slash_plain s : forallb not_slash (chars s) = true -> split_slash s = [s].
Proof.
  induction s as [|c s IH]; [done|].
  change (not_slash c && forallb not_slash (chars s) = true -> split_slash (String c s) = [String c s]).
  rewrite andb_true_iff. intros [Hc Hs]. cbn [split_slash]. unfold not_slash, is_slash in Hc.
  apply negb_true_iff in Hc. by rewrite Hc, IH.
Qed.

Definition ends_in_slash (s : string) : bool := is_slash (back_char s).

Lemma last_split_slash s :
  s ≠ "" -> ends_in_slash s = false -> last (split_slash s) ≠ Some "".
Proof.
  induction s as [|c s IH]; [done|]. intros _ Hend.
  destruct s as [|d s].
  { cbn. unfold ends_in_slash, is_slash in Hend. cbn in Hend. by rewrite Hend. }
  assert (ends_in_slash (String d s) = false) as Hd by done.
  specialize (IH ltac:(done) Hd). pose proof (split_slash_not_nil (String d s)) as Hne.
  remember (String d s) as t. cbn [split_slash]. destruct (split_slash t) as [|seg segs]; [done|].
  destruct (Ascii.eqb c slash); [exact IH|]. destruct segs; [by intros [=] | exact IH].
Qed.

Lemma relative_elems_app l k :
  last l ≠ Some "" -> relative_elems l `prefix_of` relative_elems (l ++ k).
Proof.
  intros Hl. unfold relative_elems. rewrite filter_app.
  destruct (filter _ l) as [|n ns] eqn:E; [apply prefix_nil|].
  rewrite decide_False by done. rewrite app_nil_r. simpl.
  apply prefix_cons. rewrite <- ?(assoc_L (++)). by apply prefix_app_r.
Qed.

(** What follows a slash extends the sequence of elements. *)
Lemma path_elems_prefix_app p t :
  p ≠ "" -> ends_in_slash p = false ->
  path_elems p `prefix_of` path_elems (p +:+ String slash t).
Proof.
  intros Hp Hend. unfold path_elems.
  assert (empty p = false) as -> by (by destruct p).
  assert (empty (p +:+ String slash t) = false) as -> by (by destruct p).
  assert (is_absolute (p +:+ String slash t) = is_absolute p) as -> by (by destruct p).
  rewrite split_slash_app. pose proof (last_split_slash p Hp Hend) as Hl.
  destruct (is_absolute p); [apply prefix_cons|]; by apply relative_elems_app.
Qed.

Lemma isSubpath_app p t :
  p ≠ "" -> ends_in_slash p = false -> isSubpath p (p +:+ String slash t) = true.
Proof. intros. apply isSubpath_prefix. by apply path_elems_prefix_app. Qed.

#[export] Instance isSubpath_refl : Reflexive (fun a b => isSubpath a b = true).
Proof. intros p. by apply isSubpath_prefix. Qed.

#[export] Instance isSubpath_trans : Transitive (fun a b => isSubpath a b = true).
Proof. intros a b c. rewrite !isSubpath_prefix. apply transitivity. Qed.

(** Two paths below which a third one lies are comparable. *)
Lemma isSubpath_comparable a b c :
  isSubpath a c = true -> isSubpath b c = true -> isSubpath a b = true \/ isSubpath b a = true.
Proof. rewrite !isSubpath_prefix. intros Ha Hb. by destruct (prefix_weak_total _ _ _ Ha Hb); auto. Qed.
