(* ===== verification/Firewall.v ===== *)
(** * The firewall rules of the tap mode (firewall.h, firewall.cc)

    [FirewallRules] holds a table of [MAX_RULES] rows of [MAX_RULE_LENGTH]
    characters, which starts zeroed: [opt] has static storage.  The table is
    modelled as the memory it is, so that rows without a terminating NUL,
    bytes left by earlier rules and accesses past the table are visible. *)

From S2P Require Import Prelude Monad CxxString.
From Stdlib Require Import Ascii.
Open Scope sbx_scope.
Open Scope Z_scope.

Definition MAX_RULE_LENGTH : Z := 1024.
Definition MAX_RULES : Z := 100.
Definition RULES_OVERFLOW : Z := -2.
Definition RULES_CONFIG_ALREADY_SET : Z := -3.

Inductive FirewallMode :=
| FirewallUninitialized
| FirewallEnabled
| FirewallDisabled
| FirewallMaxConnections.

#[export] Instance FirewallMode_eq_dec : EqDecision FirewallMode.
Proof. solve_decision. Defined.

(** [rules] gives the byte at each offset of [char rules[MAX_RULES][MAX_RULE_LENGTH]]. *)
Record FirewallRules := mkFirewallRules {
  rules : Z -> ascii;
  count : Z;
  max_connections : Z;
  mode : FirewallMode
}.

Definition eta_FirewallRules (r : FirewallRules) : FirewallRules :=
  mkFirewallRules (rules r) (count r) (max_connections r) (mode r).
#[export] Instance set_rules : Setter rules := ltac:(derive_setter eta_FirewallRules).
#[export] Instance set_count : Setter count := ltac:(derive_setter eta_FirewallRules).
#[export] Instance set_max_connections_field : Setter max_connections := ltac:(derive_setter eta_FirewallRules).
#[export] Instance set_mode : Setter mode := ltac:(derive_setter eta_FirewallRules).

(** The default member initialisers over zeroed storage. *)
Definition initial_rules : FirewallRules :=
  {| rules := fun _ => NUL; count := 0; max_connections := -1; mode := FirewallUninitialized |}.

Definition TABLE_SIZE : Z := MAX_RULES * MAX_RULE_LENGTH.

(** [memcpy(base + off, s, length s)] *)
Definition memcpy (mem : Z -> ascii) (off : Z) (s : list ascii) : Z -> ascii := fun i =>
  if (off <=? i) && (i <? off + Z.of_nat (length s))
  then default NUL (s !! Z.to_nat (i - off))
  else mem i.

(** The C string at an offset; [None] when no NUL is met within [fuel] bytes. *)
Fixpoint c_string_at (mem : Z -> ascii) (off : Z) (fuel : nat) : option (list ascii) :=
  match fuel with
  | O => None
  | S n => if Ascii.eqb (mem off) NUL then Some []
           else (fun l => mem off :: l) <$> c_string_at mem (off + 1) n
  end.

Definition set_max_connections (max : Z) (fw : FirewallRules) : Z * FirewallRules :=
  (0, fw <| mode := FirewallMaxConnections |> <| max_connections := max |>).

(** [rule] is a C string: its length is [strlen(rule)]. *)
Definition set_firewall_rule (rule : string) (fw : FirewallRules) : outcome (Z * FirewallRules) :=
  let s := until_nul (chars rule) in
  let rule_len := Z.of_nat (length s) in
  if MAX_RULES <? count fw then Ok (RULES_OVERFLOW, fw)
  else if MAX_RULE_LENGTH <? rule_len then Ok (RULES_OVERFLOW, fw)
  else if decide (mode fw = FirewallDisabled) then Ok (RULES_CONFIG_ALREADY_SET, fw)
  else if MAX_RULES <=? count fw then Stop UndefinedBehaviour
  else Ok (0, fw <| mode := FirewallEnabled |>
                 <| rules := memcpy (rules fw) (count fw * MAX_RULE_LENGTH) s |>
                 <| count := count fw + 1 |>).

Definition reset_firewall_rules (fw : FirewallRules) : Z * FirewallRules :=
  if decide (mode fw = FirewallEnabled) then (RULES_CONFIG_ALREADY_SET, fw)
  else (0, fw <| mode := FirewallDisabled |> <| count := 0 |>).

(** The C string [fprintf] prints for [rules[i]]: it goes on into the next
    rows when a row holds no NUL, and leaves the table when none does. *)
Definition rule_text (fw : FirewallRules) (i : Z) : outcome (list ascii) :=
  if MAX_RULES <=? i then Stop UndefinedBehaviour
  else match c_string_at (rules fw) (i * MAX_RULE_LENGTH) (Z.to_nat (TABLE_SIZE - i * MAX_RULE_LENGTH)) with
       | Some l => Ok l
       | None => Stop UndefinedBehaviour
       end.

Fixpoint rules_text (fw : FirewallRules) (i : Z) (n : nat) : outcome (list ascii) :=
  match n with
  | O => Ok []
  | S n' => match rule_text fw i with
            | Stop w => Stop w
            | Ok l => match rules_text fw (i + 1) n' with
                      | Stop w => Stop w
                      | Ok rest => Ok (l ++ LF :: rest)
                      end
            end
  end.

(** What [DumpRules] writes to the file it opened. *)
Definition dump_text (fw : FirewallRules) : outcome (list ascii) :=
  let first := chars (to_string (max_connections fw)) ++ [LF] in
  if max_connections fw <? 0
  then match rules_text fw 0 (Z.to_nat (count fw)) with
       | Stop w => Stop w
       | Ok l => Ok (first ++ l)
       end
  else Ok first.

(** ** The three operations as one step *)

Inductive fw_op :=
| OpRule (rule : string)
| OpMax (n : Z)
| OpReset.

Definition fw_step (fw : FirewallRules) (op : fw_op) : outcome (Z * FirewallRules) :=
  match op with
  | OpRule r => set_firewall_rule r fw
  | OpMax n => Ok (set_max_connections n fw)
  | OpReset => Ok (reset_firewall_rules fw)
  end.

Fixpoint fw_run (fw : FirewallRules) (ops : list fw_op) : outcome FirewallRules :=
  match ops with
  | [] => Ok fw
  | op :: ops' => match fw_step fw op with
                  | Stop w => Stop w
                  | Ok (_, fw') => fw_run fw' ops'
                  end
  end.

Definition is_rule (op : fw_op) : bool := match op with OpRule _ => true | _ => false end.

(** A rule the table stores and gives back: shorter than a row, no NUL, and no
    newline, which separates the rules of the dump. *)
Definition storable (r : string) : Prop :=
  Z.of_nat (String.length r) < MAX_RULE_LENGTH /\
  Forall (fun c => c ≠ NUL /\ c ≠ LF) (chars r).

(** Row [i] of the table is [s] padded with NULs. *)
Definition row_is (fw : FirewallRules) (i : Z) (s : list ascii) : Prop :=
  forall j, 0 <= j < MAX_RULE_LENGTH ->
    rules fw (i * MAX_RULE_LENGTH + j) = default NUL (s !! Z.to_nat j).

(** The table holds exactly the rules [rs]. *)
Definition holds (fw : FirewallRules) (rs : list string) : Prop :=
  count fw = Z.of_nat (length rs) /\ max_connections fw < 0 /\ mode fw ≠ FirewallDisabled /\
  (forall i r, rs !! i = Some r -> row_is fw (Z.of_nat i) (chars r)) /\
  (forall i, Z.of_nat (length rs) <= i < MAX_RULES -> row_is fw i []).

(** ** Facts *)

Lemma until_nul_plain l : Forall (fun c => c ≠ NUL) l -> until_nul l = l.
Proof.
  induction 1 as [|c l Hc _ IH]; simpl; [done|].
  destruct (Ascii.eqb_spec c NUL); [done|]. by rewrite IH.
Qed.

Lemma storable_until_nul r : storable r -> until_nul (chars r) = chars r.
Proof. intros [_ H]. apply until_nul_plain. eapply Forall_impl; [exact H|]. by intros c [? _]. Qed.

Lemma memcpy_inside mem off s i :
  0 <= i < Z.of_nat (length s) -> memcpy mem off s (off + i) = default NUL (s !! Z.to_nat i).
Proof.
  intros Hi. unfold memcpy. rewrite (proj2 (Z.leb_le _ _)), (proj2 (Z.ltb_lt _ _)) by lia.
  simpl. by replace (off + i - off) with i by lia.
Qed.

Lemma memcpy_outside mem off s i :
  i < off \/ off + Z.of_nat (length s) <= i -> memcpy mem off s i = mem i.
Proof.
  intros Hi. unfold memcpy. destruct (Z.leb_spec off i); simpl; [|done].
  destruct (Z.ltb_spec i (off + Z.of_nat (length s))); [lia|done].
Qed.

Lemma c_string_at_spec mem off s fuel :
  Forall (fun c => c ≠ NUL) s -> (length s < fuel)%nat ->
  (forall j, 0 <= j <= Z.of_nat (length s) -> mem (off + j) = default NUL (s !! Z.to_nat j)) ->
  c_string_at mem off fuel = Some s.
Proof.
  revert off fuel. induction s as [|c s IH]; intros off [|fuel] Hs Hf Hm; simpl in *; try lia.
  - specialize (Hm 0 ltac:(lia)). rewrite Z.add_0_r in Hm. by rewrite Hm.
  - apply Forall_cons in Hs as [Hc Hs].
    pose proof (Hm 0 ltac:(lia)) as H0. rewrite Z.add_0_r in H0. simpl in H0. rewrite H0.
    destruct (Ascii.eqb_spec c NUL); [done|]. rewrite (IH (off + 1)); [done | done | lia |].
    intros j Hj. rewrite <- Z.add_assoc, Hm by lia.
    by replace (Z.to_nat (1 + j)) with (S (Z.to_nat j)) by lia.
Qed.

Lemma rule_text_row fw i r :
  0 <= i < MAX_RULES -> storable r -> row_is fw i (chars r) ->
  rule_text fw i = Ok (chars r).
Proof.
  intros Hi [Hlen Hok] Hrow. unfold rule_text, TABLE_SIZE, MAX_RULES, MAX_RULE_LENGTH in *.
  destruct (Z.leb_spec 100 i); [lia|].
  rewrite <- length_chars in Hlen.
  rewrite (c_string_at_spec _ _ (chars r)); [done | | lia |].
  - eapply Forall_impl; [exact Hok|]. by intros c [? _].
  - intros j Hj. apply Hrow. unfold MAX_RULE_LENGTH. lia.
Qed.

Lemma set_firewall_rule_stores fw rs r :
  holds fw rs -> storable r -> Z.of_nat (length rs) < MAX_RULES ->
  exists fw', set_firewall_rule r fw = Ok (0, fw') /\ holds fw' (rs ++ [r]).
Proof.
  intros (Hc & Hm & Hmode & Hrows & Hfree) Hr Hn. unfold set_firewall_rule.
  rewrite (storable_until_nul r Hr). destruct Hr as [Hlen _]. rewrite <- length_chars in Hlen.
  unfold MAX_RULES, MAX_RULE_LENGTH in *. rewrite Hc.
  destruct (Z.ltb_spec 100 (Z.of_nat (length rs))); [lia|].
  destruct (Z.ltb_spec 1024 (Z.of_nat (length (chars r)))); [lia|].
  rewrite decide_False by done. destruct (Z.leb_spec 100 (Z.of_nat (length rs))); [lia|].
  eexists. split; [reflexivity|]. unfold holds, row_is. cbn -[Z.add Z.mul Z.of_nat memcpy].
  rewrite length_app. cbn [length]. split; [lia|]. split; [done|]. split; [done|].
  set (n := Z.of_nat (length rs)) in *.
  assert (forall i j, 0 <= i -> i ≠ n -> 0 <= j < 1024 -> forall mem,
    memcpy mem (n * 1024) (chars r) (i * 1024 + j) = mem (i * 1024 + j)) as Hother.
  { intros i j Hi Hne Hj mem. apply memcpy_outside. lia. }
  split.
  - intros i x Hx j Hj. unfold MAX_RULE_LENGTH in *. fold n.
    destruct (decide (i = length rs)) as [->|Hne].
    + rewrite lookup_app_r, Nat.sub_diag in Hx by lia. injection Hx as <-.
      destruct (Z.ltb_spec j (Z.of_nat (length (chars r)))).
      * by rewrite memcpy_inside by lia.
      * rewrite memcpy_outside by lia. rewrite lookup_ge_None_2 by lia.
        rewrite (Hfree n); unfold MAX_RULE_LENGTH; [done | lia | lia].
    + unfold n in *. assert (i < length rs)%nat as Hi by (apply lookup_lt_Some in Hx; rewrite length_app in Hx; simpl in Hx; lia).
      rewrite lookup_app_l in Hx by done. rewrite Hother by lia. by apply Hrows.
  - intros i Hi j Hj. unfold MAX_RULE_LENGTH, MAX_RULES in *. unfold n in *. rewrite Hother by lia. apply Hfree; [lia|done].
Qed.

Lemma initial_holds : holds initial_rules [].
Proof.
  split; [done|]. split; [done|]. split; [done|]. split; [by intros i r Hr|].
  intros i _ j _. simpl. done.
Qed.

Lemma fw_run_app fw ops1 ops2 :
  fw_run fw (ops1 ++ ops2) =
  match fw_run fw ops1 with Ok fw' => fw_run fw' ops2 | Stop w => Stop w end.
Proof.
  revert fw. induction ops1 as [|op ops1 IH]; intros fw; simpl; [done|].
  destruct (fw_step fw op) as [[r fw']|w]; [apply IH | done].
Qed.

Lemma fw_run_stores fw rs l :
  holds fw rs -> Forall storable l -> Z.of_nat (length rs + length l) <= MAX_RULES ->
  exists fw', fw_run fw (OpRule <$> l) = Ok fw' /\ holds fw' (rs ++ l).
Proof.
  revert fw rs. induction l as [|r l IH]; intros fw rs Hh Hl Hn; simpl.
  { rewrite app_nil_r. eauto. }
  apply Forall_cons in Hl as [Hr Hl]. simpl in Hn.
  destruct (set_firewall_rule_stores fw rs r Hh Hr ltac:(lia)) as (fw1 & -> & Hh1).
  destruct (IH fw1 (rs ++ [r]) Hh1 Hl) as (fw2 & Hrun & Hh2).
  { rewrite length_app. simpl. lia. }
  exists fw2. split; [done|]. by rewrite <- (assoc_L (++)) in Hh2.
Qed.

(** The text of the rules from the [i]th on. *)
Definition join_rules (rs : list string) : list ascii :=
  concat ((fun r => chars r ++ [LF]) <$> rs).

Lemma rules_text_holds fw done_ rs :
  (forall i r, (done_ ++ rs) !! i = Some r -> row_is fw (Z.of_nat i) (chars r)) ->
  Forall storable rs -> Z.of_nat (length done_ + length rs) <= MAX_RULES ->
  rules_text fw (Z.of_nat (length done_)) (length rs) = Ok (join_rules rs).
Proof.
  revert done_. induction rs as [|r rs IH]; intros done_ Hrows Hst Hn; [done|].
  apply Forall_cons in Hst as [Hr Hst]. cbn [length rules_text]. simpl in Hn.
  rewrite (rule_text_row fw _ r); [| lia | done |].
  - specialize (IH (done_ ++ [r])). rewrite length_app in IH. cbn [length] in IH.
    replace (Z.of_nat (length done_) + 1) with (Z.of_nat (length done_ + 1)) by lia.
    rewrite IH; [| | done | lia].
    + unfold join_rules. rewrite fmap_cons, concat_cons. f_equal. by rewrite <- (assoc_L (++)).
    + intros i x Hx. apply Hrows. by rewrite <- (assoc_L (++)) in Hx.
  - apply Hrows. by rewrite lookup_app_r, Nat.sub_diag by lia.
Qed.

Lemma dump_text_holds fw rs :
  holds fw rs -> Forall storable rs -> Z.of_nat (length rs) <= MAX_RULES ->
  dump_text fw = Ok (chars (to_string (max_connections fw)) ++ [LF] ++ join_rules rs).
Proof.
  intros (Hc & Hm & _ & Hrows & _) Hst Hn. unfold dump_text.
  destruct (Z.ltb_spec (max_connections fw) 0); [|lia]. rewrite Hc, Nat2Z.id.
  change 0 with (Z.of_nat (length (@nil string))).
  rewrite (rules_text_holds fw [] rs); [by rewrite <- (assoc_L (++)) | done | done | done].
Qed.

(** Reading back the lines of a text. *)
Lemma getlines_aux_line cur l rest :
  Forall (fun c => c ≠ LF) l ->
  getlines_aux cur (l ++ LF :: rest) = (rev cur ++ l) :: getlines_aux [] rest.
Proof.
  revert cur. induction l as [|c l IH]; intros cur Hl; simpl.
  - by rewrite app_nil_r.
  - apply Forall_cons in Hl as [Hc Hl]. destruct (Ascii.eqb_spec c LF); [done|].
    rewrite IH by done. simpl. by rewrite <- (assoc_L (++)).
Qed.

Lemma getlines_join rs :
  Forall storable rs -> getlines_aux [] (join_rules rs) = chars <$> rs.
Proof.
  induction 1 as [|r rs Hr _ IH]; [done|]. unfold join_rules in *. rewrite fmap_cons, concat_cons.
  rewrite <- (assoc_L (++)). simpl. rewrite getlines_aux_line; [by rewrite IH|].
  destruct Hr as [_ Hr]. eapply Forall_impl; [exact Hr|]. by intros c [_ ?].
Qed.

(** Every operation keeps the count within [0 .. MAX_RULES] unless it leaves
    the table. *)
Lemma fw_step_count fw op r fw' :
  0 <= count fw <= MAX_RULES -> fw_step fw op = Ok (r, fw') -> 0 <= count fw' <= MAX_RULES.
Proof.
  intros Hc. destruct op as [rule|n|]; simpl.
  - unfold set_firewall_rule. repeat split_match; try done; intros [= <- <-]; try done.
    cbn -[Z.add]. destruct (Z.leb_spec MAX_RULES (count fw)); [done|]. lia.
  - intros [= <- <-]. done.
  - unfold reset_firewall_rules. case_decide; intros [= <- <-]; [done|].
    cbn. unfold MAX_RULES. lia.
Qed.

Lemma fw_run_rules_max fw l fw' :
  fw_run fw (OpRule <$> l) = Ok fw' -> max_connections fw' = max_connections fw.
Proof.
  revert fw. induction l as [|r l IH]; intros fw; simpl; [by intros [= ->]|].
  unfold set_firewall_rule. repeat split_match; try done; intros H; simplify_eq/=; by rewrite (IH _ H).
Qed.

Lemma set_firewall_rule_full fw r :
  count fw = MAX_RULES -> mode fw ≠ FirewallDisabled -> storable r ->
  set_firewall_rule r fw = Stop UndefinedBehaviour.
Proof.
  intros Hc Hm Hr. unfold set_firewall_rule. rewrite (storable_until_nul r Hr), Hc.
  destruct Hr as [Hlen _]. rewrite length_chars.
  rewrite (proj2 (Z.ltb_ge MAX_RULES MAX_RULES)), (proj2 (Z.ltb_ge _ _)) by lia.
  by rewrite decide_False, (proj2 (Z.leb_le MAX_RULES MAX_RULES)) by (done || lia).
Qed.

(** A run in which at most [n] rules are set from a count of [c] stays in the
    table as long as [c + n <= MAX_RULES]. *)
Lemma fw_run_in_table fw ops :
  0 <= count fw -> count fw + Z.of_nat (length (filter is_rule ops)) <= MAX_RULES ->
  exists fw', fw_run fw ops = Ok fw' /\ 0 <= count fw' <= MAX_RULES.
Proof.
  revert fw. induction ops as [|op ops IH]; intros fw H0 Hn; [exists fw; simpl in *; split; [done|lia]|].
  rewrite filter_cons in Hn. cbn [fw_run]. destruct op as [r|n|]; cbn [fw_step is_rule] in *.
  - rewrite decide_True in Hn by done. cbn [length] in Hn. unfold set_firewall_rule.
    destruct (Z.ltb_spec MAX_RULES (count fw)); [lia|].
    destruct (MAX_RULE_LENGTH <? _); [apply IH; lia|].
    destruct (decide _); [apply IH; lia|].
    destruct (Z.leb_spec MAX_RULES (count fw)); [lia|]. apply IH; cbn; lia.
  - rewrite decide_False in Hn by (intros []). apply IH; done.
  - rewrite decide_False in Hn by (intros []). unfold reset_firewall_rules.
    case_decide; [by apply IH|]. apply IH; cbn; lia.
Qed.

(** The dump of a table filled from the initial state, line by line. *)
Lemma dump_lines rs :
  Forall storable rs -> Z.of_nat (length rs) <= MAX_RULES ->
  exists fw text, fw_run initial_rules (OpRule <$> rs) = Ok fw /\
    dump_text fw = Ok text /\ getlines (of_chars text) = "-1" :: rs.
Proof.
  intros Hst Hn. destruct (fw_run_stores initial_rules [] rs initial_holds Hst Hn) as (fw & Hrun & Hh).
  exists fw. eexists. split; [done|]. split; [by apply (dump_text_holds fw rs)|].
  rewrite (fw_run_rules_max _ _ _ Hrun). unfold getlines. rewrite chars_of_chars.
  cbn [app]. rewrite getlines_aux_line by (vm_compute; repeat constructor; done).
  rewrite getlines_join by done.
  rewrite fmap_cons. f_equal. rewrite <- list_fmap_compose.
  rewrite <- (list_fmap_id rs) at 2. apply list_fmap_ext. intros i r _. apply of_chars_chars.
Qed.

(** ** Properties *)

(** From the initial state, allowing at most [MAX_RULES] rules that are
    shorter than a row and hold no NUL or newline, then dumping the table,
    gives a file whose first line is the default connection bound [-1] and
    whose other lines are exactly the rules, in the order they were allowed. *)
Theorem dump_roundtrip (l : list string) :
  Forall storable l -> Z.of_nat (length l) <= MAX_RULES ->
  exists fw text, fw_run initial_rules (OpRule <$> l) = Ok fw /\
    dump_text fw = Ok text /\ getlines (of_chars text) = "-1" :: l.
Proof. apply dump_lines. Qed.

Definition two_rules : list string := ["www.example.org"; "10.0.0.1"].

Lemma dump_roundtrip_witness :
  exists fw text, fw_run initial_rules (OpRule <$> two_rules) = Ok fw /\
    dump_text fw = Ok text /\ getlines (of_chars text) = "-1" :: two_rules.
Proof.
  apply (dump_roundtrip two_rules); [|by vm_compute].
  repeat constructor; vm_compute; done.
Defined.

(** The guard [count > MAX_RULES] of set_firewall_rule is one too weak:
    a run that allows storable rules from the initial state stays within the
    table exactly when there are at most [MAX_RULES] of them, and the rule
    after the last row is written outside it instead of being refused with
    RULES_OVERFLOW. *)
Theorem rule_table_overflow (l : list string) :
  Forall storable l ->
  (Z.of_nat (length l) <= MAX_RULES <-> exists fw, fw_run initial_rules (OpRule <$> l) = Ok fw) /\
  (MAX_RULES < Z.of_nat (length l) ->
   fw_run initial_rules (OpRule <$> l) = Stop UndefinedBehaviour).
Proof.
  intros Hst.
  assert (MAX_RULES < Z.of_nat (length l) ->
          fw_run initial_rules (OpRule <$> l) = Stop UndefinedBehaviour) as Hover.
  { intros Hn. rewrite <- (take_drop 100 l), fmap_app, fw_run_app.
    assert (length (take 100 l) = 100%nat) as Hlen.
    { rewrite length_take. unfold MAX_RULES in Hn. lia. }
    destruct (fw_run_stores initial_rules [] (take 100 l) initial_holds) as (fw & -> & Hh).
    { by apply Forall_take. } { simpl. by rewrite Hlen. }
    destruct (drop 100 l) as [|r rest] eqn:E.
    { apply (f_equal length) in E. rewrite length_drop in E. unfold MAX_RULES in Hn. simpl in E. lia. }
    assert (storable r) as Hr.
    { rewrite <- (take_drop 100 l), E in Hst. apply Forall_app in Hst as [_ Hst]. by inv Hst. }
    destruct Hh as (Hc & _ & Hm & _). simpl. rewrite set_firewall_rule_full; [done | | done | done].
    by rewrite Hc, app_nil_l, Hlen. }
  split; [|done]. split.
  - intros Hn. destruct (fw_run_stores initial_rules [] l initial_holds Hst Hn) as (fw & H & _). eauto.
  - intros [fw Hrun]. destruct (Z.le_gt_cases (Z.of_nat (length l)) MAX_RULES) as [|Hn]; [done|].
    by rewrite Hover in Hrun.
Qed.

Lemma rule_table_overflow_witness :
  fw_run initial_rules (OpRule <$> replicate 101 "a.b") = Stop UndefinedBehaviour.
Proof.
  apply (rule_table_overflow (replicate 101 "a.b")); [|by vm_compute].
  apply Forall_replicate. split; [by vm_compute|]. repeat constructor; vm_compute; done.
Defined.



(** Once a bound on the number of connections is set, a rule that is
    accepted afterwards (return value 0) turns the mode back to the firewall
    but never reaches the dumped policy, which is the bound alone. *)
Theorem rule_after_max_is_dropped (fw : FirewallRules) (n : Z) (r : string) fw' :
  0 <= n -> set_firewall_rule r (snd (set_max_connections n fw)) = Ok (0, fw') ->
  mode fw' = FirewallEnabled /\ dump_text fw' = Ok (chars (to_string n) ++ [LF]).
Proof.
  intros Hn. unfold set_firewall_rule, set_max_connections. cbn [snd].
  repeat split_match; try done; intros H; simplify_eq/=. split; [done|].
  unfold dump_text. cbn. by rewrite (proj2 (Z.ltb_ge n 0)).
Qed.

Lemma rule_after_max_is_dropped_witness :
  exists fw', set_firewall_rule "a.b" (snd (set_max_connections 5 initial_rules)) = Ok (0, fw') /\
    dump_text fw' = Ok (chars (to_string 5) ++ [LF]).
Proof.
  eexists. split; [reflexivity|].
  apply (rule_after_max_is_dropped initial_rules 5 "a.b"); [lia | reflexivity].
Defined.

(** The firewall modes are a state machine in which allowing all domains
    and allowing a rule exclude each other: after a rule was accepted a reset
    is refused and changes nothing, and after a reset was accepted the table
    is empty and every further rule that is not too long is refused and
    changes nothing. *)
Theorem firewall_modes_exclusive (fw fw' : FirewallRules) (r r' : string) :
  (set_firewall_rule r fw = Ok (0, fw') ->
   reset_firewall_rules fw' = (RULES_CONFIG_ALREADY_SET, fw')) /\
  (reset_firewall_rules fw = (0, fw') ->
   rules_text fw' 0 (Z.to_nat (count fw')) = Ok [] /\
   exists e, set_firewall_rule r' fw' = Ok (e, fw') /\ e < 0).
Proof.
  split.
  - unfold set_firewall_rule. repeat split_match; try done; intros H; simplify_eq/=. done.
  - unfold reset_firewall_rules. case_decide; intros Heq; simplify_eq/=. split; [done|].
    unfold set_firewall_rule. cbn -[Z.ltb].
    destruct (MAX_RULES <? 0) eqn:E; [done|].
    destruct (MAX_RULE_LENGTH <? _); eexists; split; try reflexivity; done.
Qed.

Lemma firewall_modes_exclusive_witness :
  exists fw', set_firewall_rule "a.b" initial_rules = Ok (0, fw') /\
    reset_firewall_rules fw' = (RULES_CONFIG_ALREADY_SET, fw').
Proof.
  eexists. split; [reflexivity|].
  apply (firewall_modes_exclusive initial_rules _ "a.b" "c.d"). reflexivity.
Defined.

(** The calls that leave bytes of an old rule in the table. *)
Definition stale_calls : list fw_op :=
  [OpRule "intranet.example.org"; OpMax 0; OpReset; OpMax (-1); OpRule "a.b"].

(** Set_firewall_rule copies a rule without its terminating NUL and
    reset_firewall_rules does not clear the rows: after the calls
    [stale_calls] the only rule allowed is "a.b", but the dumped policy names
    the host "a.branet.example.org", the new rule followed by bytes of the old. *)
Theorem stale_rule_bytes :
  match fw_run initial_rules stale_calls with
  | Ok fw => dump_text fw = Ok (chars ("-1" +:+ String LF ("a.branet.example.org" +:+ String LF "")))
  | Stop _ => False
  end.
Proof. vm_compute. reflexivity. Qed.
