(* ===== verification/Kernel.v ===== *)
(** * The operating system, as an interface

    The kernel and the file system are not code of the repository: they are a
    type class.  Calls that act ([mount], [fork], [mkdir], ...) go through one
    function from a kernel state and a [syscall] to a [reply]; calls that only
    look ([stat], [readdir], the contents of a file, ...) are functions of the
    kernel state.  Nothing is assumed about their answers, so a theorem about
    a program holds for every kernel, failing calls included; a law a theorem
    needs is one of its hypotheses. *)

From S2P Require Import Prelude Monad CxxString.
Open Scope sbx_scope.
Open Scope Z_scope.

Inductive errno :=
| ENONE | EPERM | ENOENT | EINTR | ECHILD | EACCES | EEXIST | ENODEV | ENOTDIR
| EINVAL | ENOTTY | ELOOP | ESTALE | EOTHER (n : Z).

#[export] Instance errno_eq_dec : EqDecision errno.
Proof. solve_decision. Defined.

Inductive file_type := FRegular | FDirectory | FSymlink | FOther.

#[export] Instance file_type_eq_dec : EqDecision file_type.
Proof. solve_decision. Defined.

(** The part of [struct stat] the code reads. *)
Record stat_t := mkStat { st_type : file_type; st_dev : Z }.

(** [struct mntent]; the options as the comma-separated words of [mnt_opts]. *)
Record mntent := mkMntent { mnt_dir : string; mnt_type : string; mnt_opts : list string }.

(** [hasmntopt(ent, o) != nullptr]: the option alone or with a value. *)
Definition hasmntopt (ent : mntent) (o : string) : bool :=
  existsb (fun w => streq w o || has_prefix (o +:+ "=") w) (mnt_opts ent).

(** ** Constants of the system headers *)

Definition MS_RDONLY : Z := 1.
Definition MS_NOSUID : Z := 2.
Definition MS_NODEV : Z := 4.
Definition MS_NOEXEC : Z := 8.
Definition MS_REMOUNT : Z := 32.
Definition MS_NOATIME : Z := 1024.
Definition MS_NODIRATIME : Z := 2048.
Definition MS_BIND : Z := 4096.
Definition MS_REC : Z := 16384.
Definition MS_SLAVE : Z := 524288.
Definition MS_RELATIME : Z := 2097152.
Definition MS_MGC_VAL : Z := 3236757504.
Definition MNT_DETACH : Z := 2.

Definition ST_NOSUID : Z := 2.
Definition ST_NODEV : Z := 4.
Definition ST_NOEXEC : Z := 8.
Definition ST_NOATIME : Z := 1024.
Definition ST_NODIRATIME : Z := 2048.
Definition ST_RELATIME : Z := 4096.

Definition CLONE_NEWNS : Z := 131072.
Definition CLONE_NEWUTS : Z := 67108864.
Definition CLONE_NEWIPC : Z := 134217728.
Definition CLONE_NEWUSER : Z := 268435456.
Definition CLONE_NEWPID : Z := 536870912.
Definition CLONE_NEWNET : Z := 1073741824.

Definition SIGINT : Z := 2.
Definition SIGKILL : Z := 9.
Definition SIGUSR1 : Z := 10.
Definition SIGALRM : Z := 14.
Definition SIGTERM : Z := 15.
Definition SIGCHLD : Z := 17.
Definition SIGSTOP : Z := 19.
Definition SIGTTIN : Z := 21.
Definition SIGTTOU : Z := 22.
Definition NSIG : Z := 65.

Definition O_RDONLY : Z := 0.
Definition O_WRONLY : Z := 1.
Definition O_CREAT : Z := 64.
Definition O_EXCL : Z := 128.
Definition O_TRUNC : Z := 512.
Definition O_CLOEXEC : Z := 524288.

Definition PR_SET_PDEATHSIG : Z := 1.
Definition INT_MAX : Z := 2147483647.
Definition EXIT_FAILURE : Z := 1.
Definition EXIT_SUCCESS : Z := 0.

(** Decoding of a wait status. *)
Definition WTERMSIG (status : Z) : Z := Z.land status 127.
Definition WEXITSTATUS (status : Z) : Z := Z.land (Z.shiftr status 8) 255.
Definition WIFEXITED (status : Z) : bool := WTERMSIG status =? 0.
(** [((signed char) ((status & 0x7f) + 1) >> 1) > 0] *)
Definition WIFSIGNALED (status : Z) : bool := (1 <=? WTERMSIG status) && (WTERMSIG status <=? 126).

(** How a signal is disposed of: [SIG_DFL], [SIG_IGN] or a handler of the program. *)
Inductive disposition :=
| SIG_DFL
| SIG_IGN
| Handler (name : string).

#[export] Instance disposition_eq_dec : EqDecision disposition.
Proof. solve_decision. Defined.

(** ** The calls that act *)

Inductive syscall :=
| Mount (source : option string) (target : string) (fstype : option string) (flags : Z) (data : option string)
| Umount2 (target : string) (flags : Z)
| PivotRoot (new_root put_old : string)
| Chroot (path : string)
| Chdir (path : string)
| Mkdir (path : string) (perm : Z)
| Rmdir (path : string)
| Mkdtemp (template : string)
| Link (old new : string)
| Symlink (target link : string)
| Open (path : string) (flags perm : Z)
| Close (fd : Z)
| Read (fd n : Z)
| Write (fd : Z) (data : string)
| Fsync (fd : Z)
| AddPerms (path : string)           (* [fs::permissions(.., perm_options::add)] of rwx for all *)
| RemoveAll (path : string)          (* [fs::remove_all] *)
| Random                             (* a draw of [std::random_device] or of the clock *)
| Pipe
| Fork
| Clone (flags : Z)
| Unshare (flags : Z)
| Setns (fd nstype : Z)
| Wait
| Waitpid (pid : Z)
| Wait4 (pid : Z)
| Kill (pid sig : Z)
| Alarm (secs : Z)
| Pause
| Execvp (file : string) (args : list string)
| Sigaction (sig : Z) (act : disposition) (block_all : bool)
| Sigprocmask_empty
| Prctl (option arg : Z)
| Setpgid (pid pgid : Z)
| Tcsetpgrp (fd : Z)
| Umask (mask : Z)
| Sethostname (name : string)
| Setdomainname (name : string)
| Socket
| IoctlIfUp (fd : Z) (ifname : string)
| Capget
| Capset (words : list (Z * Z * Z)). (* effective, permitted, inheritable *)

Record reply := mkReply {
  r_ret : Z;
  r_errno : errno;
  r_out : list Z;    (** numbers returned through pointers *)
  r_str : string     (** a name returned through a pointer *)
}.

Definition failed (r : reply) : bool := r_ret r <? 0.

(** The [i]th number the call returned through a pointer. *)
Definition out (i : nat) (r : reply) : Z := default 0 (r_out r !! i).

(** ** The interface *)

Class Kernel := {
  kstate : Type;
  ksys : kstate -> syscall -> reply * kstate;
  kstat : kstate -> string -> errno + stat_t;
  klstat : kstate -> string -> errno + stat_t;
  krealpath : kstate -> string -> errno + string;
  kreadlink : kstate -> string -> option string;
  kobject : kstate -> option string;      (* [dladdr]: the file the code was loaded from *)
  kreaddir : kstate -> string -> errno + list string;
  kcontents : kstate -> string -> option string;
  kcwd : kstate -> errno + string;
  kmntent : kstate -> string -> option (list mntent);
  kstatvfs : kstate -> string -> option Z;
  kstatfs : kstate -> string -> option Z;
  kaccess : kstate -> string -> bool;
  kifindex : kstate -> string -> Z;
  kpasswd : kstate -> string -> option (Z * Z);
  kgroup : kstate -> string -> option Z;
  kpid : kstate -> Z;
  kppid : kstate -> Z;
  kuid : kstate -> Z;
  kgid : kstate -> Z;
  kstrerror : errno -> string
}.
