(* ===== verification/SimKernel.v ===== *)
(** * A concrete kernel for evaluating the programs

    An instance of the kernel interface small enough to compute with: a table
    of files, symbolic links and other names with the path they resolve to, directory
    contents, file contents and mount tables.  [mkdir], [open(O_CREAT)],
    [chdir] and [rmdir] change it; every other call takes its reply from a
    script, or succeeds with 0 when the script is over.  The witnesses of the
    theorems run on it. *)

From S2P Require Import Prelude Monad CxxString Kernel.
Open Scope sbx_scope.
Open Scope Z_scope.

Record sim := mkSim {
  sim_nodes : gmap string file_type;
  sim_links : gmap string string;
  sim_aliases : gmap string string;   (* other names of a file, no symbolic link last *)
  sim_dirs : gmap string (list string);
  sim_texts : gmap string string;
  sim_tables : gmap string (list mntent);
  sim_cwd : string;
  sim_pid : Z;
  sim_script : list reply
}.

Definition eta_sim (k : sim) : sim :=
  mkSim (sim_nodes k) (sim_links k) (sim_aliases k) (sim_dirs k) (sim_texts k) (sim_tables k)
    (sim_cwd k) (sim_pid k) (sim_script k).
#[export] Instance set_sim_nodes : Setter sim_nodes := ltac:(derive_setter eta_sim).
#[export] Instance set_sim_links : Setter sim_links := ltac:(derive_setter eta_sim).
#[export] Instance set_sim_aliases : Setter sim_aliases := ltac:(derive_setter eta_sim).
#[export] Instance set_sim_dirs : Setter sim_dirs := ltac:(derive_setter eta_sim).
#[export] Instance set_sim_texts : Setter sim_texts := ltac:(derive_setter eta_sim).
#[export] Instance set_sim_tables : Setter sim_tables := ltac:(derive_setter eta_sim).
#[export] Instance set_sim_cwd : Setter sim_cwd := ltac:(derive_setter eta_sim).
#[export] Instance set_sim_pid : Setter sim_pid := ltac:(derive_setter eta_sim).
#[export] Instance set_sim_script : Setter sim_script := ltac:(derive_setter eta_sim).

(** A machine on which only "/" and "/tmp" exist. *)
Definition empty_sim : sim :=
  mkSim {[ "/" := FDirectory; "/tmp" := FDirectory ]} ∅ ∅ ∅ ∅ ∅ "/" 1 [].

Definition ok_reply : reply := mkReply 0 ENONE [] "".
Definition ret_reply (z : Z) : reply := mkReply z ENONE [] "".
Definition err_reply (e : errno) : reply := mkReply (-1) e [] "".
Definition status_reply (pid status : Z) : reply := mkReply pid ENONE [status] "".

Definition sim_scripted (k : sim) : reply * sim :=
  match sim_script k with
  | r :: rs => (r, k <| sim_script := rs |>)
  | [] => (ok_reply, k)
  end.

Definition sim_sys (k : sim) (c : syscall) : reply * sim :=
  match c with
  | Mkdir p _ =>
      match sim_nodes k !! p with
      | Some _ => (err_reply EEXIST, k)
      | None => (ok_reply, k <| sim_nodes ::= insert p FDirectory |>)
      end
  | Open p flags _ =>
      if Z.land flags O_CREAT =? 0 then sim_scripted k
      else (ret_reply 3, k <| sim_nodes ::= insert p FRegular |>)
  | Chdir p => (ok_reply, k <| sim_cwd := p |>)
  | Rmdir p => (ok_reply, k <| sim_nodes ::= delete p |>)
  | _ => sim_scripted k
  end.

Definition sim_resolve (k : sim) (p : string) : string :=
  match sim_links k !! p with Some q => q | None => default p (sim_aliases k !! p) end.

Definition sim_stat (k : sim) (p : string) : errno + stat_t :=
  match sim_nodes k !! sim_resolve k p with
  | Some t => inr (mkStat t 0)
  | None => inl ENOENT
  end.

Definition sim_lstat (k : sim) (p : string) : errno + stat_t :=
  match sim_links k !! p with
  | Some _ => inr (mkStat FSymlink 0)
  | None => sim_stat k p
  end.

Definition sim_realpath (k : sim) (p : string) : errno + string :=
  match sim_nodes k !! sim_resolve k p with
  | Some _ => inr (sim_resolve k p)
  | None => inl ENOENT
  end.

#[export] Instance SimKernel : Kernel := {|
  kstate := sim;
  ksys := sim_sys;
  kstat := sim_stat;
  klstat := sim_lstat;
  krealpath := sim_realpath;
  kreadlink := fun k p => sim_links k !! p;
  kobject := fun _ => Some "/opt/lib/libmini-sandbox.so";
  kreaddir := fun k p =>
    match sim_dirs k !! p with Some l => inr l | None => inl ENOENT end;
  kcontents := fun k p => sim_texts k !! p;
  kcwd := fun k => inr (sim_cwd k);
  kmntent := fun k p => sim_tables k !! p;
  kstatvfs := fun _ _ => Some 0;
  kstatfs := fun _ _ => Some 0;
  kaccess := fun k p => bool_decide (is_Some (sim_nodes k !! p));
  kifindex := fun _ _ => 1;
  kpasswd := fun _ _ => Some (65534, 65534);
  kgroup := fun _ _ => Some 5;
  kpid := sim_pid;
  kppid := fun _ => 1;
  kuid := fun _ => 1000;
  kgid := fun _ => 1000;
  kstrerror := fun _ => "error"
|}.

(** A machine on which every call succeeds and changes nothing, every path is a
    directory, and the mount table is fixed: it satisfies the laws some
    theorems ask of the kernel. *)
Definition calm_table : list mntent :=
  [ mkMntent "/" "ext4" ["rw"; "relatime"]; mkMntent "/proc" "proc" ["rw"; "nosuid"];
    mkMntent "/usr" "ext4" ["ro"; "nosuid"; "nodev"] ].

Definition calm_machine {T : Type} (missing : string -> bool) (answer : T -> syscall -> reply * T) : Kernel := {|
  kstate := T;
  ksys := answer;
  kstat := fun _ p => if missing p then inl ENOENT else inr (mkStat FDirectory 0);
  klstat := fun _ p => if missing p then inl ENOENT else inr (mkStat FDirectory 0);
  krealpath := fun _ p => inr p;
  kreadlink := fun _ _ => None;
  kobject := fun _ => None;
  kreaddir := fun _ _ => inr ["usr"; "home"; "tmp"];
  kcontents := fun _ _ => None;
  kcwd := fun _ => inr "/";
  kmntent := fun _ _ => Some calm_table;
  kstatvfs := fun _ _ => Some 0;
  kstatfs := fun _ _ => Some 0;
  kaccess := fun _ _ => true;
  kifindex := fun _ _ => 1;
  kpasswd := fun _ _ => Some (65534, 65534);
  kgroup := fun _ _ => Some 5;
  kpid := fun _ => 1;
  kppid := fun _ => 1;
  kuid := fun _ => 1000;
  kgid := fun _ => 1000;
  kstrerror := fun _ => "error"
|}.

(** One whose answers depend on the call alone. *)
Definition constant_kernel (answer : syscall -> reply) : Kernel := 
  calm_machine (fun _ => false) (fun (k : unit) c => (answer c, k)).

(** The kernel every call succeeds on, and one that allows no mount. *)
Definition CalmKernel : Kernel := constant_kernel (fun _ => ok_reply).

Definition StrictKernel : Kernel :=
  constant_kernel (fun c => match c with Mount _ _ _ _ _ => err_reply EPERM | _ => ok_reply end).

(** One on which the forks return the numbers listed, and then 0, and a process
    that waits for a signal receives SIGUSR1; no file of rules exists. *)
Definition ForkKernel : Kernel :=
  calm_machine (fun p => bool_decide (String.substring (String.length p - 6) 6 p = ".rules")) (fun (forks : list N) c =>
    match c, forks with
    | Fork, pid :: rest => (ret_reply (Z.of_N pid), rest)
    | Pause, _ => (mkReply (-1) EINTR [SIGUSR1] "", forks)
    | _, _ => (ok_reply, forks)
    end).
