(* ===== verification/State.v ===== *)
(** * The state of a process of the program

    [Options] and the enumerations of linux-sandbox-options.h, the error codes
    of error-handling.h, the other globals of the program, and the record
    [proc] that holds them with the environment, the kernel and the trace of
    the calls made so far.  Programs are [prog proc A]. *)

From S2P Require Import Prelude Monad CxxString Firewall Kernel.
From Stdlib Require Import Ascii.
Open Scope sbx_scope.
Open Scope Z_scope.

(** The four binaries the Makefile builds differ by two macros. *)
Class Build := { LIBMINISANDBOX : bool; MINITAP : bool }.

(** The four builds. *)
Definition lib_build : Build := {| LIBMINISANDBOX := true; MINITAP := false |}.
Definition lib_tap_build : Build := {| LIBMINISANDBOX := true; MINITAP := true |}.
Definition cli_build : Build := {| LIBMINISANDBOX := false; MINITAP := false |}.
Definition cli_tap_build : Build := {| LIBMINISANDBOX := false; MINITAP := true |}.

Inductive NetNamespaceOption := NETNS_WITH_LOOPBACK | NO_NETNS | NETNS.
Inductive DockerMode := NO_CONTAINER | UNPRIVILEGED_CONTAINER | PRIVILEGED_CONTAINER.
Inductive MiniSbxStatus := NOT_RUNNING | RUNNING | FAILED.
Inductive UserNamespaceSupport := NON_INIT | USER_NS_SUPPORTED | USER_NS_NOT_SUPPORTED.

#[export] Instance NetNamespaceOption_eq_dec : EqDecision NetNamespaceOption.
Proof. solve_decision. Defined.
#[export] Instance DockerMode_eq_dec : EqDecision DockerMode.
Proof. solve_decision. Defined.
#[export] Instance MiniSbxStatus_eq_dec : EqDecision MiniSbxStatus.
Proof. solve_decision. Defined.
#[export] Instance UserNamespaceSupport_eq_dec : EqDecision UserNamespaceSupport.
Proof. solve_decision. Defined.

Definition TMP : string := "/tmp".
Definition MINI_SBX_TMP : string := "mini-sandbox-tmp".
Definition MINI_SBX_INIT : string := "mini-sandbox-init".

Record Options := mkOptions {
  working_dir : string;
  timeout_secs : Z;
  kill_delay_secs : Z;
  sigint_sends_sigterm : bool;
  writable_files : list string;
  tmpfs_dirs : list string;
  bind_mount_sources : list string;
  bind_mount_targets : list string;
  fake_hostname : bool;
  create_netns : NetNamespaceOption;
  fake_root : bool;
  fake_username : bool;
  enable_pty : bool;
  debug_path : string;
  hermetic : bool;
  sandbox_root : string;
  use_overlayfs : bool;
  tmp_overlayfs : string;
  overlayfsmount : list string;
  args : list string;
  use_default : bool;
  docker : bool;
  parents_writable : bool;
  is_running : MiniSbxStatus;
  firewall_rules_path : string;
  fw_rules : FirewallRules
}.

(** The value of the global [opt] at start-up. *)
Definition initial_options : Options := {|
  working_dir := ""; timeout_secs := 0; kill_delay_secs := 0;
  sigint_sends_sigterm := false; writable_files := []; tmpfs_dirs := [];
  bind_mount_sources := []; bind_mount_targets := []; fake_hostname := false;
  create_netns := NETNS_WITH_LOOPBACK; fake_root := false; fake_username := false;
  enable_pty := false; debug_path := ""; hermetic := false; sandbox_root := "";
  use_overlayfs := false; tmp_overlayfs := ""; overlayfsmount := []; args := [];
  use_default := false; docker := false; parents_writable := false;
  is_running := NOT_RUNNING; firewall_rules_path := ""; fw_rules := initial_rules |}.

Definition eta_Options (o : Options) : Options :=
  mkOptions (working_dir o) (timeout_secs o) (kill_delay_secs o) (sigint_sends_sigterm o)
    (writable_files o) (tmpfs_dirs o) (bind_mount_sources o) (bind_mount_targets o)
    (fake_hostname o) (create_netns o) (fake_root o) (fake_username o) (enable_pty o)
    (debug_path o) (hermetic o) (sandbox_root o) (use_overlayfs o) (tmp_overlayfs o)
    (overlayfsmount o) (args o) (use_default o) (docker o) (parents_writable o)
    (is_running o) (firewall_rules_path o) (fw_rules o).

#[export] Instance set_working_dir : Setter working_dir := ltac:(derive_setter eta_Options).
#[export] Instance set_timeout_secs : Setter timeout_secs := ltac:(derive_setter eta_Options).
#[export] Instance set_kill_delay_secs : Setter kill_delay_secs := ltac:(derive_setter eta_Options).
#[export] Instance set_sigint_sends_sigterm : Setter sigint_sends_sigterm := ltac:(derive_setter eta_Options).
#[export] Instance set_writable_files : Setter writable_files := ltac:(derive_setter eta_Options).
#[export] Instance set_tmpfs_dirs : Setter tmpfs_dirs := ltac:(derive_setter eta_Options).
#[export] Instance set_bind_mount_sources : Setter bind_mount_sources := ltac:(derive_setter eta_Options).
#[export] Instance set_bind_mount_targets : Setter bind_mount_targets := ltac:(derive_setter eta_Options).
#[export] Instance set_fake_hostname : Setter fake_hostname := ltac:(derive_setter eta_Options).
#[export] Instance set_create_netns : Setter create_netns := ltac:(derive_setter eta_Options).
#[export] Instance set_fake_root : Setter fake_root := ltac:(derive_setter eta_Options).
#[export] Instance set_fake_username : Setter fake_username := ltac:(derive_setter eta_Options).
#[export] Instance set_enable_pty : Setter enable_pty := ltac:(derive_setter eta_Options).
#[export] Instance set_debug_path : Setter debug_path := ltac:(derive_setter eta_Options).
#[export] Instance set_hermetic : Setter hermetic := ltac:(derive_setter eta_Options).
#[export] Instance set_sandbox_root : Setter sandbox_root := ltac:(derive_setter eta_Options).
#[export] Instance set_use_overlayfs : Setter use_overlayfs := ltac:(derive_setter eta_Options).
#[export] Instance set_tmp_overlayfs : Setter tmp_overlayfs := ltac:(derive_setter eta_Options).
#[export] Instance set_overlayfsmount : Setter overlayfsmount := ltac:(derive_setter eta_Options).
#[export] Instance set_args : Setter args := ltac:(derive_setter eta_Options).
#[export] Instance set_use_default : Setter use_default := ltac:(derive_setter eta_Options).
#[export] Instance set_parents_writable : Setter parents_writable := ltac:(derive_setter eta_Options).
#[export] Instance set_is_running : Setter is_running := ltac:(derive_setter eta_Options).
#[export] Instance set_firewall_rules_path : Setter firewall_rules_path := ltac:(derive_setter eta_Options).
#[export] Instance set_fw_rules : Setter fw_rules := ltac:(derive_setter eta_Options).

(** ** Errors *)

Inductive ErrorCode :=
| ENone | InvalidFunctioningMode | SandboxRootNotUnique | InvalidFolder
| OverlayOptionNotSet | PathDoesNotExist | NotAnAbsolutePath | LogFileNotUnique
| IllegalConfiguration | FileReadAndWrite | IllegalNetworkConfiguration
| TmpNotRemounted | GeneralOSError | NestedSandbox | SandboxAlreadyStarted | Unknown.

#[export] Instance ErrorCode_eq_dec : EqDecision ErrorCode.
Proof. solve_decision. Defined.

(** [MiniSbxError]: a buffer of [MAX_ERR_LEN] characters and a code. *)
Record MiniSbxError := mkError { err_msg : list ascii; err_code : ErrorCode }.

Definition MAX_ERR_LEN : nat := 255.

(** ** A process *)

Record proc `{Kernel} := mkProc {
  opt : Options;
  sbx_err : MiniSbxError;
  docker_mode : DockerMode;
  user_ns_support : UserNamespaceSupport;
  home_dir : string;                (* linux-sandbox-pid1.cc *)
  ReadOnlyPaths : list string;      (* linux-sandbox-pid1.cc: a std::set, in its order *)
  global_debug : option Z;          (* the descriptor of the open log file *)
  global_outer_uid : Z;
  global_outer_gid : Z;
  main_child_pid : Z;               (* global_child_pid of linux-sandbox.cc *)
  pid1_child_pid : Z;               (* global_child_pid of linux-sandbox-pid1.cc *)
  need_polite_sigterm : Z;
  initial_ppid : Z;
  MinitapBin : string;
  signal_received : bool;
  environ : gmap string string;
  kern : kstate;
  trace : list (syscall * reply)    (* newest first *)
}.

Section Setters.
Context `{Kernel}.

Definition eta_proc (s : proc) : proc :=
  mkProc _ (opt s) (sbx_err s) (docker_mode s) (user_ns_support s) (home_dir s)
    (ReadOnlyPaths s) (global_debug s) (global_outer_uid s) (global_outer_gid s)
    (main_child_pid s) (pid1_child_pid s) (need_polite_sigterm s) (initial_ppid s)
    (MinitapBin s) (signal_received s) (environ s) (kern s) (trace s).

#[export] Instance set_opt : Setter opt := ltac:(derive_setter eta_proc).
#[export] Instance set_sbx_err : Setter sbx_err := ltac:(derive_setter eta_proc).
#[export] Instance set_docker_mode : Setter docker_mode := ltac:(derive_setter eta_proc).
#[export] Instance set_user_ns_support : Setter user_ns_support := ltac:(derive_setter eta_proc).
#[export] Instance set_home_dir : Setter home_dir := ltac:(derive_setter eta_proc).
#[export] Instance set_ReadOnlyPaths : Setter ReadOnlyPaths := ltac:(derive_setter eta_proc).
#[export] Instance set_global_debug : Setter global_debug := ltac:(derive_setter eta_proc).
#[export] Instance set_global_outer_uid : Setter global_outer_uid := ltac:(derive_setter eta_proc).
#[export] Instance set_global_outer_gid : Setter global_outer_gid := ltac:(derive_setter eta_proc).
#[export] Instance set_main_child_pid : Setter main_child_pid := ltac:(derive_setter eta_proc).
#[export] Instance set_pid1_child_pid : Setter pid1_child_pid := ltac:(derive_setter eta_proc).
#[export] Instance set_need_polite_sigterm : Setter need_polite_sigterm := ltac:(derive_setter eta_proc).
#[export] Instance set_initial_ppid : Setter initial_ppid := ltac:(derive_setter eta_proc).
#[export] Instance set_MinitapBin : Setter MinitapBin := ltac:(derive_setter eta_proc).
#[export] Instance set_signal_received : Setter signal_received := ltac:(derive_setter eta_proc).
#[export] Instance set_environ : Setter environ := ltac:(derive_setter eta_proc).
#[export] Instance set_kern : Setter kern := ltac:(derive_setter eta_proc).
#[export] Instance set_trace : Setter trace := ltac:(derive_setter eta_proc).

End Setters.

Section Effects.
Context `{K : Kernel}.

(** The first state of a process: static storage, an environment and a kernel. *)
Definition initial_proc (env : gmap string string) (k : kstate) : proc := {|
  opt := initial_options; sbx_err := mkError (replicate MAX_ERR_LEN NUL) ENone;
  docker_mode := NO_CONTAINER; user_ns_support := NON_INIT; home_dir := "";
  ReadOnlyPaths := []; global_debug := None; global_outer_uid := 0; global_outer_gid := 0;
  main_child_pid := 0; pid1_child_pid := 0; need_polite_sigterm := 0; initial_ppid := 0;
  MinitapBin := ""; signal_received := false; environ := env; kern := k; trace := [] |}.

(** One call: the reply, the kernel's next state, and the call on the trace. *)
Definition sys (c : syscall) : prog proc reply := fun s =>
  let '(r, k') := ksys (kern s) c in
  (Ok r, s <| kern := k' |> <| trace ::= cons (c, r) |>).

Definition query {A} (f : kstate -> A) : prog proc A := gets (fun s => f (kern s)).

Definition get_opt {A} (f : Options -> A) : prog proc A := gets (fun s => f (opt s)).
Definition mod_opt (f : Options -> Options) : prog proc unit :=
  modify (fun s => s <| opt ::= f |>).

(** [getenv] *)
Definition getenv (name : string) : prog proc (option string) :=
  gets (fun s => environ s !! name).

(** [DIE(...)]: a message on stderr and [exit(EXIT_FAILURE)]. *)
Definition DIE {A} : prog proc A := exit_ EXIT_FAILURE.

(** ** Why a configuration call may not return *)

(** The process exits with a failure, or a [std::string] is made from a null
    pointer. *)
Inductive api_stop : stop -> Prop :=
| api_exit : api_stop (Exited EXIT_FAILURE)
| api_logic : api_stop (Thrown LogicError).

Lemma stops_get_opt {A} W (f : Options -> A) : stops W (get_opt f).
Proof. apply stops_gets. Qed.

Lemma stops_mod_opt W f : stops W (mod_opt f).
Proof. apply stops_modify. Qed.

Lemma stops_getenv W n : stops W (getenv n).
Proof. apply stops_gets. Qed.

(** ** Relations between states a computation can respect *)

(** The options stay as they are. *)
Definition same_opt (s s' : proc) : Prop := opt s' = opt s.

(** Only calls satisfying [P] are added to the trace, and the options stay. *)
Definition calls (P : syscall -> reply -> Prop) (s s' : proc) : Prop :=
  exists l, trace s' = l ++ trace s /\ Forall (fun e => P e.1 e.2) l.

(** Nothing but the last error changes. *)
Definition only_error (s s' : proc) : Prop :=
  exists e, s' = s <| sbx_err := e |>.

(** Only the kernel and the trace change. *)
Definition only_kernel (s s' : proc) : Prop :=
  exists k t, s' = s <| kern := k |> <| trace := t |>.

#[export] Instance same_opt_preorder : PreOrder same_opt.
Proof. split; [by intros s | intros a b c H1 H2; unfold same_opt in *; congruence]. Qed.

#[export] Instance calls_preorder P : PreOrder (calls P).
Proof.
  split; [intros s; by exists [] | intros a b c (l & Hl & Hf) (l' & Hl' & Hf')].
  exists (l' ++ l). split; [by rewrite Hl', Hl, (assoc_L (++)) | by apply Forall_app].
Qed.

#[export] Instance only_error_preorder : PreOrder only_error.
Proof.
  split; [intros s; exists (sbx_err s); by destruct s|].
  intros a b c [e ->] [e' ->]. by exists e'.
Qed.

#[export] Instance only_kernel_preorder : PreOrder only_kernel.
Proof.
  split; [intros s; exists (kern s), (trace s); by destruct s|].
  intros a b c (k & t & ->) (k' & t' & ->). by exists k', t'.
Qed.

Lemma calls_weaken (P Q : syscall -> reply -> Prop) s s' :
  (forall c r, P c r -> Q c r) -> calls P s s' -> calls Q s s'.
Proof.
  intros HPQ (l & Hl & Hf). exists l. split; [done|]. eapply Forall_impl; [exact Hf|]. intros e. apply HPQ.
Qed.

Lemma respects_weaken {A} (R R' : proc -> proc -> Prop) (m : prog proc A) :
  (forall s s', R s s' -> R' s s') -> respects R m -> respects R' m.
Proof. intros H Hm s. apply H, Hm. Qed.

Lemma respects_query {A} (R : proc -> proc -> Prop) `{!PreOrder R} (f : kstate -> A) :
  respects R (query f).
Proof. by apply respects_gets. Qed.

Lemma respects_get_opt {A} (R : proc -> proc -> Prop) `{!PreOrder R} (f : Options -> A) :
  respects R (get_opt f).
Proof. by apply respects_gets. Qed.

Lemma respects_getenv (R : proc -> proc -> Prop) `{!PreOrder R} n : respects R (getenv n).
Proof. by apply respects_gets. Qed.

Lemma respects_DIE {A} (R : proc -> proc -> Prop) `{!PreOrder R} : respects R (DIE : prog proc A).
Proof. by apply respects_stop. Qed.

Lemma only_kernel_sys c : respects only_kernel (sys c).
Proof.
  intros s. unfold final, sys. destruct (ksys (kern s) c) as [r k']. simpl.
  by exists k', ((c, r) :: trace s).
Qed.

Lemma same_opt_sys c : respects same_opt (sys c).
Proof. intros s. unfold final, sys. by destruct (ksys (kern s) c). Qed.

Lemma calls_sys (P : syscall -> reply -> Prop) c :
  (forall r, P c r) -> respects (calls P) (sys c).
Proof.
  intros HP s. unfold final, sys. destruct (ksys (kern s) c) as [r k']. simpl.
  exists [(c, r)]. split; [done|]. constructor; [apply HP | done].
Qed.

Lemma only_kernel_same_opt s s' : only_kernel s s' -> same_opt s s'.
Proof. by intros (k & t & ->). Qed.

Lemma only_error_same_opt s s' : only_error s s' -> same_opt s s'.
Proof. by intros (e & ->). Qed.

End Effects.

#[export] Hint Resolve respects_query respects_get_opt respects_getenv respects_DIE
  only_kernel_sys same_opt_sys : respects.
#[export] Hint Extern 1 (PreOrder _) => apply _ : respects.

Arguments sys {K} c : simpl never.

#[export] Hint Resolve stops_get_opt stops_mod_opt stops_getenv : stops.
