(* ===== verification/Fs.v ===== *)
(** * std::filesystem over the kernel interface

    The operations of [std::filesystem] the sources call.  A status query maps
    [ENOENT] and [ENOTDIR] to "not found"; any other error makes the throwing
    overloads throw [filesystem_error] and the others set an error code. *)

From S2P Require Import Prelude Monad CxxString FsPath Firewall Kernel State.
Open Scope sbx_scope.
Open Scope Z_scope.

Definition is_not_found (e : errno) : bool :=
  match e with ENOENT | ENOTDIR => true | _ => false end.

(** What [fs::status(p, ec)] tells. *)
Inductive fs_status := StKnown (t : file_type) | StNotFound | StError (e : errno).

Definition status_of (r : errno + stat_t) : fs_status :=
  match r with
  | inr st => StKnown (st_type st)
  | inl e => if is_not_found e then StNotFound else StError e
  end.

Section Fs.
Context `{K : Kernel}.

Definition status (p : string) : prog proc fs_status := query (fun k => status_of (kstat k p)).
Definition symlink_status (p : string) : prog proc fs_status := query (fun k => status_of (klstat k p)).

(** A throwing test on a status. *)
Definition test_status (st : prog proc fs_status) (f : file_type -> bool) : prog proc bool :=
  r ← st;
  match r with
  | StKnown t => mret (f t)
  | StNotFound => mret false
  | StError _ => throw FilesystemError
  end.

Definition fs_exists (p : string) : prog proc bool := test_status (status p) (fun _ => true).
Definition fs_is_directory (p : string) : prog proc bool :=
  test_status (status p) (fun t => bool_decide (t = FDirectory)).
Definition fs_is_regular_file (p : string) : prog proc bool :=
  test_status (status p) (fun t => bool_decide (t = FRegular)).
Definition fs_is_symlink (p : string) : prog proc bool :=
  test_status (symlink_status p) (fun t => bool_decide (t = FSymlink)).

(** [fs::exists(p, ec)]: the answer, and whether [ec] is set. *)
Definition fs_exists_ec (p : string) : prog proc (bool * option errno) :=
  r ← status p;
  mret match r with
       | StKnown _ => (true, None)
       | StNotFound => (false, None)
       | StError e => (false, Some e)
       end.

(** [fs::is_directory(p, ec)]: a missing file sets [ec] here. *)
Definition fs_is_directory_ec (p : string) : prog proc (bool * option errno) :=
  r ← query (fun k => kstat k p);
  mret match r with
       | inr st => (bool_decide (st_type st = FDirectory), None)
       | inl e => (false, Some e)
       end.

(** [fs::is_symlink(p, ec)], whose error the caller does not read. *)
Definition fs_is_symlink_ec (p : string) : prog proc bool :=
  r ← symlink_status p;
  mret match r with StKnown FSymlink => true | _ => false end.

Definition fs_canonical (p : string) : prog proc string :=
  r ← query (fun k => krealpath k p);
  match r with inr q => mret q | inl _ => throw FilesystemError end.

Definition fs_current_path : prog proc string :=
  r ← query kcwd;
  match r with inr q => mret q | inl _ => throw FilesystemError end.

Definition fs_absolute (p : string) : prog proc string :=
  if empty p then throw FilesystemError
  else if is_absolute p then mret p
  else cwd ← fs_current_path; mret (path_append cwd p).

(** [fs::directory_iterator(p, skip_permission_denied)]: the paths of the entries. *)
Definition fs_directory_iterator (p : string) (skip_denied : bool) : prog proc (list string) :=
  r ← query (fun k => kreaddir k p);
  match r with
  | inr names => mret (path_append p <$> names)
  | inl EACCES => if skip_denied then mret [] else throw FilesystemError
  | inl _ => throw FilesystemError
  end.

(** [fs::weakly_canonical(p)]: the leading elements that exist made canonical,
    the others appended. *)
Fixpoint existing_prefix (acc : string) (elems : list string) : prog proc (string * list string) :=
  match elems with
  | [] => mret (acc, [])
  | e :: es =>
      let tmp := path_append acc e in
      ex ← fs_exists tmp;
      if ex : bool then existing_prefix tmp es else mret (acc, elems)
  end.

Definition fs_weakly_canonical (p : string) : prog proc string :=
  ex ← fs_exists p;
  if ex : bool then fs_canonical p
  else
    '(found, rest) ← existing_prefix "" (path_elems p);
    root ← (if empty found then mret "" else fs_canonical found);
    mret (lexically_normal (foldl path_append root rest)).

(** [fs::relative(p, base)] *)
Definition fs_relative (p base : string) : prog proc string :=
  a ← fs_weakly_canonical p;
  b ← fs_weakly_canonical base;
  mret (lexically_relative a b).

(** [fs::create_directory(p, ec)]: an existing directory is no error. *)
Definition fs_create_directory (p : string) : prog proc (option errno) :=
  r ← sys (Mkdir p 511);
  if failed r then
    d ← status p;
    mret match r_errno r, d with
         | EEXIST, StKnown FDirectory => None
         | e, _ => Some e
         end
  else mret None.

(** [p] and its parents that do not exist, the outermost first; the walk stops
    at a directory or at the end of the path. *)
Fixpoint missing_dirs (fuel : nat) (p : string) (missing : list string) : prog proc (errno + list string) :=
  match fuel with
  | O => mret (inl (EOTHER 36))   (* ENAMETOOLONG: more than a thousand levels *)
  | S n =>
      let f := filename p in
      let missing := if streq f "." || streq f ".." then missing else p :: missing in
      let pp := parent_path p in
      if empty pp then mret (inr missing)
      else
        st ← status pp;
        match st with
        | StKnown FDirectory => mret (inr missing)
        | StKnown _ => mret (inl ENOTDIR)
        | StError e => mret (inl e)
        | StNotFound => missing_dirs n pp missing
        end
  end.

(** [mkdir] of each directory until one fails. *)
Definition create_each (l : list string) : prog proc (option errno) :=
  for_return l (fun p => fs_create_directory p).

Definition MAX_MISSING : nat := 1000.

(** [fs::create_directories(p, ec)] *)
Definition fs_create_directories (p : string) : prog proc (option errno) :=
  if empty p then mret (Some EINVAL)
  else
    st ← status p;
    match st with
    | StKnown FDirectory => mret None
    | StKnown _ => mret (Some ENOTDIR)
    | StError e => mret (Some e)
    | StNotFound =>
        let pp := if negb (empty p) && empty (filename p) then parent_path p else p in
        m ← missing_dirs MAX_MISSING pp [];
        match m with
        | inl e => mret (Some e)
        | inr l => create_each l
        end
    end.

(** [fs::remove_all(p)], which throws on failure. *)
Definition fs_remove_all (p : string) : prog proc unit :=
  r ← sys (RemoveAll p);
  if failed r then throw FilesystemError else mret tt.

(** ** Closed forms *)

Lemma fs_exists_ec_eq p s :
  fs_exists_ec p s = (Ok match status_of (kstat (kern s) p) with
                         | StKnown _ => (true, None)
                         | StNotFound => (false, None)
                         | StError e => (false, Some e)
                         end, s).
Proof. done. Qed.

Lemma test_status_eq f p s :
  test_status (status p) f s =
  (match status_of (kstat (kern s) p) with
   | StKnown t => Ok (f t)
   | StNotFound => Ok false
   | StError _ => Stop (Thrown FilesystemError)
   end, s).
Proof. unfold test_status, status, query, gets, mbind, prog_bind. by destruct (status_of _). Qed.

(** ** The exceptions that escape *)

Section FsStops.
Context (W : stop -> Prop).

Lemma stops_query {A} (f : kstate -> A) : stops W (query f).
Proof. apply stops_gets. Qed.

Lemma stops_sys c : stops W (sys c).
Proof. intros s w. unfold result, sys. by destruct (ksys (kern s) c). Qed.

Lemma stops_test st f : W (Thrown FilesystemError) -> stops W st -> stops W (test_status st f).
Proof. intros Hw H. unfold test_status. apply stops_bind; [done|]. intros [t| |e]; solve_stops. Qed.

Lemma stops_fs_exists p : W (Thrown FilesystemError) -> stops W (fs_exists p).
Proof. intros Hw. apply stops_test; [done | apply stops_query]. Qed.

Lemma stops_fs_is_directory p : W (Thrown FilesystemError) -> stops W (fs_is_directory p).
Proof. intros Hw. apply stops_test; [done | apply stops_query]. Qed.

Lemma stops_fs_is_regular_file p : W (Thrown FilesystemError) -> stops W (fs_is_regular_file p).
Proof. intros Hw. apply stops_test; [done | apply stops_query]. Qed.

Lemma stops_fs_is_symlink p : W (Thrown FilesystemError) -> stops W (fs_is_symlink p).
Proof. intros Hw. apply stops_test; [done | apply stops_query]. Qed.

Lemma stops_fs_exists_ec p : stops W (fs_exists_ec p).
Proof. by intros s w. Qed.

Lemma stops_fs_is_directory_ec p : stops W (fs_is_directory_ec p).
Proof. by intros s w. Qed.

Lemma stops_fs_is_symlink_ec p : stops W (fs_is_symlink_ec p).
Proof. by intros s w. Qed.

Lemma stops_fs_canonical p : W (Thrown FilesystemError) -> stops W (fs_canonical p).
Proof. intros Hw. unfold fs_canonical. apply stops_bind; [apply stops_query|]. intros [e|q]; solve_stops. Qed.

Lemma stops_fs_current_path : W (Thrown FilesystemError) -> stops W fs_current_path.
Proof. intros Hw. unfold fs_current_path. apply stops_bind; [apply stops_query|]. intros [e|q]; solve_stops. Qed.

Lemma stops_fs_weakly_canonical p : W (Thrown FilesystemError) -> stops W (fs_weakly_canonical p).
Proof.
  intros Hw.
  assert (forall es acc, stops W (existing_prefix acc es)) as Hpre.
  { induction es as [|e es IH]; intros acc; cbn [existing_prefix]; [apply stops_ret|].
    apply stops_bind; [by apply stops_fs_exists | intros []; [apply IH | apply stops_ret]]. }
  unfold fs_weakly_canonical. apply stops_bind; [by apply stops_fs_exists | intros []; [by apply stops_fs_canonical|]].
  apply stops_bind; [apply Hpre | intros [found rest]]. apply stops_bind; [|intros; apply stops_ret].
  destruct (empty found); [apply stops_ret | by apply stops_fs_canonical].
Qed.

Lemma stops_fs_relative p b : W (Thrown FilesystemError) -> stops W (fs_relative p b).
Proof.
  intros Hw. unfold fs_relative. apply stops_bind; [by apply stops_fs_weakly_canonical | intros a].
  apply stops_bind; [by apply stops_fs_weakly_canonical | intros; apply stops_ret].
Qed.

Lemma stops_fs_absolute p : W (Thrown FilesystemError) -> stops W (fs_absolute p).
Proof.
  intros Hw. unfold fs_absolute. destruct (empty p); [by apply stops_stop|].
  destruct (is_absolute p); [apply stops_ret|]. apply stops_bind; [by apply stops_fs_current_path|].
  intros q. apply stops_ret.
Qed.

Lemma stops_fs_directory_iterator p b : W (Thrown FilesystemError) -> stops W (fs_directory_iterator p b).
Proof.
  intros Hw. unfold fs_directory_iterator. apply stops_bind; [apply stops_query|].
  intros [[]|q]; try destruct b; solve_stops.
Qed.

Lemma stops_fs_create_directory p : stops W (fs_create_directory p).
Proof. unfold fs_create_directory, status. apply stops_bind; [apply stops_sys|]. intros r. destruct (failed r); solve_stops. Qed.

Lemma stops_fs_create_directories p : stops W (fs_create_directories p).
Proof.
  assert (forall n q l, stops W (missing_dirs n q l)) as Hm.
  { induction n as [|n IH]; intros q l; cbn [missing_dirs]; [apply stops_ret|].
    destruct (empty (parent_path q)); [apply stops_ret|]. apply stops_bind; [apply stops_query|].
    intros [[]| |e]; try apply stops_ret. apply IH. }
  unfold fs_create_directories. destruct (empty p); [apply stops_ret|]. apply stops_bind; [apply stops_query|].
  intros [[]| |e]; try apply stops_ret. apply stops_bind; [apply Hm|]. intros [e|l]; [apply stops_ret|].
  apply stops_for_return. intros q _. apply stops_fs_create_directory.
Qed.

Lemma stops_fs_remove_all p : W (Thrown FilesystemError) -> stops W (fs_remove_all p).
Proof. intros Hw. unfold fs_remove_all. apply stops_bind; [apply stops_sys|]. intros r. destruct (failed r); solve_stops. Qed.

End FsStops.

(** ** Frames *)

Context (R : proc -> proc -> Prop) `{!PreOrder R}.

Lemma respects_test st f : respects R st -> respects R (test_status st f).
Proof. intros H. unfold test_status. apply respects_bind; [done|done|]. intros [t| |e]; solve_respects. Qed.

Lemma respects_status p : respects R (status p).
Proof. by apply respects_gets. Qed.

Lemma respects_fs_exists p : respects R (fs_exists p).
Proof. apply respects_test, respects_status. Qed.

Lemma respects_fs_is_directory p : respects R (fs_is_directory p).
Proof. apply respects_test, respects_status. Qed.

Lemma respects_fs_is_regular_file p : respects R (fs_is_regular_file p).
Proof. apply respects_test, respects_status. Qed.

Lemma respects_fs_is_symlink p : respects R (fs_is_symlink p).
Proof. apply respects_test. by apply respects_gets. Qed.

Lemma respects_fs_exists_ec p : respects R (fs_exists_ec p).
Proof. unfold fs_exists_ec, status. solve_respects. Qed.

Lemma respects_fs_is_directory_ec p : respects R (fs_is_directory_ec p).
Proof. unfold fs_is_directory_ec. solve_respects. Qed.

Lemma respects_fs_is_symlink_ec p : respects R (fs_is_symlink_ec p).
Proof. unfold fs_is_symlink_ec, symlink_status. solve_respects. Qed.

Lemma respects_fs_canonical p : respects R (fs_canonical p).
Proof. unfold fs_canonical. solve_respects. Qed.

Lemma respects_fs_relative p b : respects R (fs_relative p b).
Proof.
  assert (forall es acc, respects R (existing_prefix acc es)) as Hpre.
  { induction es as [|e es IH]; intros acc; cbn [existing_prefix]; [by apply respects_ret|].
    apply respects_bind; [done | apply respects_fs_exists | intros []; [apply IH | by apply respects_ret]]. }
  assert (forall q, respects R (fs_weakly_canonical q)) as Hw.
  { intros q. unfold fs_weakly_canonical.
    apply respects_bind; [done | apply respects_fs_exists | intros []; [apply respects_fs_canonical|]].
    apply respects_bind; [done | apply Hpre | intros [found rest]].
    apply respects_bind; [done | destruct (empty found); [by apply respects_ret | apply respects_fs_canonical] |].
    intros; by apply respects_ret. }
  unfold fs_relative. apply respects_bind; [done | apply Hw | intros a].
  apply respects_bind; [done | apply Hw | intros; by apply respects_ret].
Qed.

Lemma respects_fs_current_path : respects R fs_current_path.
Proof. unfold fs_current_path. solve_respects. Qed.

Lemma respects_fs_absolute p : respects R (fs_absolute p).
Proof. unfold fs_absolute, fs_current_path. solve_respects. Qed.

Lemma respects_fs_directory_iterator p b : respects R (fs_directory_iterator p b).
Proof. unfold fs_directory_iterator. solve_respects. Qed.

Lemma respects_missing_dirs n p l : respects R (missing_dirs n p l).
Proof.
  revert p l. induction n as [|n IH]; intros p l; simpl; [by apply respects_ret|].
  destruct (empty (parent_path p)); [by apply respects_ret|].
  apply respects_bind; [done | apply respects_status |].
  intros [[]| |e]; try (by apply respects_ret). apply IH.
Qed.

(** The only calls [create_directories] makes are [mkdir]s. *)
Lemma respects_fs_create_directories p :
  (forall q, respects R (sys (Mkdir q 511))) -> respects R (fs_create_directories p).
Proof.
  intros Hmk. unfold fs_create_directories. destruct (empty p); [by apply respects_ret|].
  apply respects_bind; [done | apply respects_status |].
  intros [[]| |e]; try (by apply respects_ret).
  apply respects_bind; [done | apply respects_missing_dirs |].
  intros [e|l]; [by apply respects_ret|]. apply respects_for_return; [done|].
  intros q _. unfold fs_create_directory, status. solve_respects.
Qed.

Lemma respects_fs_remove_all p : respects R (sys (RemoveAll p)) -> respects R (fs_remove_all p).
Proof. intros H. unfold fs_remove_all. solve_respects. Qed.

End Fs.

#[export] Hint Resolve respects_status respects_fs_exists respects_fs_is_directory
  respects_fs_is_regular_file respects_fs_is_symlink respects_fs_exists_ec
  respects_fs_is_directory_ec respects_fs_is_symlink_ec respects_fs_canonical
  respects_fs_current_path respects_fs_absolute respects_fs_directory_iterator
  respects_fs_create_directories respects_fs_remove_all respects_fs_relative : respects.

#[export] Hint Resolve stops_query stops_sys stops_fs_exists_ec stops_fs_is_directory_ec
  stops_fs_is_symlink_ec stops_fs_create_directory stops_fs_create_directories : stops.
#[export] Hint Extern 1 (stops _ (fs_exists _)) => apply stops_fs_exists; stop_kind : stops.
#[export] Hint Extern 1 (stops _ (fs_is_directory _)) => apply stops_fs_is_directory; stop_kind : stops.
#[export] Hint Extern 1 (stops _ (fs_is_regular_file _)) => apply stops_fs_is_regular_file; stop_kind : stops.
#[export] Hint Extern 1 (stops _ (fs_is_symlink _)) => apply stops_fs_is_symlink; stop_kind : stops.
#[export] Hint Extern 1 (stops _ (fs_canonical _)) => apply stops_fs_canonical; stop_kind : stops.
#[export] Hint Extern 1 (stops _ fs_current_path) => apply stops_fs_current_path; stop_kind : stops.
#[export] Hint Extern 1 (stops _ (fs_relative _ _)) => apply stops_fs_relative; stop_kind : stops.
#[export] Hint Extern 1 (stops _ (fs_absolute _)) => apply stops_fs_absolute; stop_kind : stops.
#[export] Hint Extern 1 (stops _ (fs_directory_iterator _ _)) => apply stops_fs_directory_iterator; stop_kind : stops.
#[export] Hint Extern 1 (stops _ (fs_remove_all _)) => apply stops_fs_remove_all; stop_kind : stops.
