(* ===== verification/Errors.v ===== *)
(** * Error reporting and clean-up (error-handling.h, error-handling.cc, and
      makeWritable and Cleanup of process-tools.cc)

    A reported error fills the global [sbx_err] and gives the caller a negative
    value, or, in the command-line program when the error is not recoverable,
    cleans up and leaves the process. *)

From S2P Require Import Prelude Monad CxxString FsPath Firewall Kernel SimKernel State Fs.
From Stdlib Require Import Ascii.
Open Scope sbx_scope.
Open Scope Z_scope.

(** ** Error codes and messages *)

Definition UNRECOVERABLE_FAIL : Z := -1.
Definition RECOVERABLE_FAIL : Z := -2.
Definition RECOVERABLE_ERROR_CODES : Z := -200.

Definition code_value (c : ErrorCode) : Z :=
  match c with
  | ENone => 0
  | InvalidFunctioningMode => -1
  | SandboxRootNotUnique => -2
  | InvalidFolder => -3
  | OverlayOptionNotSet => -4
  | PathDoesNotExist => -5
  | NotAnAbsolutePath => -6
  | LogFileNotUnique => -7
  | IllegalConfiguration => -8
  | FileReadAndWrite => -9
  | IllegalNetworkConfiguration => -10
  | TmpNotRemounted => -11
  | GeneralOSError => -100
  | NestedSandbox => -201
  | SandboxAlreadyStarted => -202
  | Unknown => -1000
  end.

Definition GetErrorMessage (c : ErrorCode) : string :=
  match c with
  | ENone => "No error"
  | InvalidFunctioningMode => "Only one between default, overlayfs and hermetic must be used"
  | SandboxRootNotUnique => "Only one sandbox root directory is allowed"
  | InvalidFolder => "Specify a valid directory"
  | OverlayOptionNotSet => "Overlay option not enabled"
  | PathDoesNotExist => "Path does not exist"
  | NotAnAbsolutePath => "Must use absolute paths"
  | LogFileNotUnique => "Cannot write debug output to more than one file"
  | IllegalConfiguration => "Illegal configuration. Overlay folder/sandbox root can't be inside a writable directory"
  | FileReadAndWrite => "Illegal configuration. File mounted as read and write at the same time"
  | NestedSandbox => " : Cannot nest multiple sandbox. The process is already running inside mini-sandbox."
  | SandboxAlreadyStarted => " : Sandbox was already started. Cannot change the configuration."
  | GeneralOSError => "OS Error"
  | IllegalNetworkConfiguration => "Cannot allow all domains after specifying one network rule"
  | TmpNotRemounted => "/tmp cannot be remounted when running in default mode"
  | Unknown => "Unknown error occurred"
  end.

Definition recoverable (c : ErrorCode) : bool := code_value c <? RECOVERABLE_ERROR_CODES.

Definition GenErrorMessage (err_msg : string) (line : Z) (func : string) : string :=
  "[" +:+ func +:+ ":" +:+ to_string line +:+ "]: " +:+ err_msg.

(** The buffer after [memset], [strncpy] of [MAX_ERR_LEN - 1] characters and
    the terminating NUL. *)
Definition message_buffer (err_msg : string) : list ascii :=
  strncpy (chars err_msg) (MAX_ERR_LEN - 1) ++ [NUL].

Definition MAX_DEPTH_SANDBOX_ROOT : Z := 5.
Definition MAX_DEPTH_OVERLAYFS_ROOT : Z := 12.

Section Errors.
Context `{B : Build} `{K : Kernel}.

(** ** Clean-up *)

(** [fuel] bounds the depth of the recursion; [max_depth - depth + 2] levels
    are enough. *)
Fixpoint makeWritable (fuel : nat) (dir : string) (depth max_depth : Z) : prog proc unit :=
  match fuel with
  | O => stop_with OutOfFuel
  | S n =>
      _ ← sys (AddPerms dir);
      if max_depth <? depth then mret tt
      else
        entries ← fs_directory_iterator dir true;
        for_each entries (fun entry =>
          d ← fs_is_directory entry;
          when d (makeWritable n entry (depth + 1) max_depth))
  end.

Definition depth_fuel (max_depth : Z) : nat := Z.to_nat (max_depth + 2).

Definition Cleanup : prog proc unit :=
  debug ← get_opt debug_path;
  if negb (empty debug) then mret tt
  else
    o ← get_opt id;
    if use_default o || use_overlayfs o || hermetic o then
      catch_std
        (_ ← makeWritable (depth_fuel MAX_DEPTH_SANDBOX_ROOT) (sandbox_root o) 0 MAX_DEPTH_SANDBOX_ROOT;
         _ ← fs_remove_all (sandbox_root o);
         when (negb (hermetic o))
           (_ ← makeWritable (depth_fuel MAX_DEPTH_OVERLAYFS_ROOT) (tmp_overlayfs o) 0 MAX_DEPTH_OVERLAYFS_ROOT;
            fs_remove_all (tmp_overlayfs o)))
        (mret tt)
    else mret tt.

(** ** Reporting *)

Definition MiniSbxSetError (err_msg : string) (code : ErrorCode) : prog proc Z :=
  let rec := recoverable code in
  if LIBMINISANDBOX || rec then
    _ ← modify (fun s => s <| sbx_err := mkError (message_buffer err_msg) code |>);
    mret (if rec then RECOVERABLE_FAIL else UNRECOVERABLE_FAIL)
  else
    _ ← Cleanup;
    exit_ EXIT_FAILURE.

(** [MiniSbxReportErrorAndMessage_impl]; [func] and [line] are the caller's. *)
Definition MiniSbxReportErrorAndMessage (func : string) (line : Z) (err_msg : string) (code : ErrorCode) : prog proc Z :=
  let code_msg := GetErrorMessage code in
  let code_msg := if empty err_msg then code_msg else code_msg +:+ ": " +:+ err_msg in
  MiniSbxSetError (GenErrorMessage code_msg line func) code.

Definition MiniSbxReportError (func : string) (line : Z) (code : ErrorCode) : prog proc Z :=
  MiniSbxReportErrorAndMessage func line "" code.

Definition MiniSbxReportGenericError (func : string) (line : Z) (err_msg : string) : prog proc Z :=
  MiniSbxReportErrorAndMessage func line err_msg GeneralOSError.

Definition MiniSbxGetErrorMsg : prog proc string :=
  gets (fun s => of_chars (until_nul (err_msg (sbx_err s)))).

Definition MiniSbxGetErrorCode : prog proc Z := gets (fun s => code_value (err_code (sbx_err s))).

(** ** Facts *)

(** What [makeWritable] can end with: it throws nothing but [filesystem_error]. *)
Definition returns_or_throws {A} (o : outcome A) : Prop :=
  match o with Ok _ | Stop (Thrown _) => True | _ => False end.

(** The calls of the clean-up. *)
Definition cleanup_call (c : syscall) (_ : reply) : Prop :=
  match c with AddPerms _ | RemoveAll _ => True | _ => False end.

Lemma fs_test_returns st f s :
  returns_or_throws (result st s) -> returns_or_throws (result (test_status st f) s).
Proof.
  unfold result, test_status, mbind, prog_bind. by destruct (st s) as [[[]|[]] s'].
Qed.

Lemma for_each_returns {A} (l : list A) (body : A -> prog proc unit) :
  (forall x s, returns_or_throws (result (body x) s)) ->
  forall s, returns_or_throws (result (for_each l body) s).
Proof.
  intros H. induction l as [|x l IH]; intros s; [done|].
  specialize (H x s). unfold result in *. cbn [for_each]. unfold mbind, prog_bind.
  destruct (body x s) as [[[]|w] s']; [apply IH | done].
Qed.

Lemma makeWritable_returns fuel dir d m s :
  m + 2 - d <= Z.of_nat fuel -> d <= m + 1 -> returns_or_throws (result (makeWritable fuel dir d m) s).
Proof.
  revert dir d s. induction fuel as [|n IH]; intros dir d s Hf Hd; [lia|].
  cbn [makeWritable]. unfold result, mbind, prog_bind, sys.
  destruct (ksys (kern s) (AddPerms dir)) as [r k']. destruct (Z.ltb_spec m d); [done|].
  unfold fs_directory_iterator, query, gets, mbind, prog_bind.
  destruct (kreaddir _ dir) as [e|names]; [by destruct e|].
  apply for_each_returns. intros x s1. unfold result, mbind, prog_bind.
  pose proof (fs_test_returns (status x) (fun t => bool_decide (t = FDirectory)) s1 I) as Ht.
  unfold fs_is_directory. unfold result in Ht.
  destruct (test_status _ _ s1) as [[b|w] s2]; [|done].
  destruct b; [|done]. apply IH; lia.
Qed.

Lemma seq_returns {A} (m : prog proc unit) (f : prog proc A) s :
  returns_or_throws (result m s) -> (forall s, returns_or_throws (result f s)) ->
  returns_or_throws (result (_ ← m; f) s).
Proof.
  intros Hm Hf. unfold result, mbind, prog_bind in *.
  destruct (m s) as [[[]|w] s1]; [apply Hf|done].
Qed.

Lemma remove_all_returns p s : returns_or_throws (result (fs_remove_all p) s).
Proof.
  unfold result, fs_remove_all, sys, mbind, prog_bind.
  destruct (ksys _ _) as [r k']. by destruct (failed r).
Qed.

Lemma catch_std_ok (m : prog proc unit) s :
  returns_or_throws (result m s) -> result (catch_std m (mret tt)) s = Ok tt.
Proof. unfold result, catch_std, try_catch. by destruct (m s) as [[[]|[]] s1]. Qed.

Lemma Cleanup_ok s : result Cleanup s = Ok tt.
Proof.
  unfold Cleanup, get_opt, gets. unfold result at 1, mbind at 1, prog_bind at 1.
  destruct (negb _); [done|]. unfold mbind at 1, prog_bind at 1.
  destruct (_ || _); [|done]. apply catch_std_ok.
  apply seq_returns; [by apply makeWritable_returns|]. intros s1.
  apply seq_returns; [apply remove_all_returns|]. intros s2.
  destruct (negb _); [|done].
  apply seq_returns; [by apply makeWritable_returns|]. apply remove_all_returns.
Qed.

Lemma respects_makeWritable (R : proc -> proc -> Prop) `{!PreOrder R} fuel dir d m :
  (forall p, respects R (sys (AddPerms p))) -> respects R (makeWritable fuel dir d m).
Proof.
  intros Hp. revert dir d. induction fuel as [|n IH]; intros dir d; simpl; [by apply respects_stop|].
  apply respects_bind; [done | apply Hp | intros _].
  destruct (m <? d); [by apply respects_ret|].
  apply respects_bind; [done | by apply respects_fs_directory_iterator | intros l].
  apply respects_for_each; [done|]. intros e _.
  apply respects_bind; [done | by apply respects_fs_is_directory | intros b].
  by apply respects_when.
Qed.

Lemma respects_Cleanup (R : proc -> proc -> Prop) `{!PreOrder R} :
  (forall p, respects R (sys (AddPerms p))) -> (forall p, respects R (sys (RemoveAll p))) ->
  respects R Cleanup.
Proof.
  intros H1 H2. unfold Cleanup. solve_respects.
  all: first [by apply respects_makeWritable | by apply respects_fs_remove_all].
Qed.

(** Reporting an error changes the last error, or cleans up before leaving. *)
Lemma respects_ReportErrorAndMessage (R : proc -> proc -> Prop) `{!PreOrder R} f l m c :
  (forall s e, R s (s <| sbx_err := e |>)) ->
  (forall p, respects R (sys (AddPerms p))) -> (forall p, respects R (sys (RemoveAll p))) ->
  respects R (MiniSbxReportErrorAndMessage f l m c).
Proof.
  intros He H1 H2. unfold MiniSbxReportErrorAndMessage, MiniSbxSetError.
  destruct (LIBMINISANDBOX || recoverable c).
  - apply respects_bind; [done | intros s; apply He | intros _; by apply respects_ret].
  - apply respects_bind; [done | by apply respects_Cleanup | intros _; by apply respects_stop].
Qed.

Lemma same_opt_report f l m c : respects same_opt (MiniSbxReportErrorAndMessage f l m c).
Proof. apply respects_ReportErrorAndMessage; [apply _ | done | eauto with respects ..]. Qed.

Lemma same_opt_error f l c : respects same_opt (MiniSbxReportError f l c).
Proof. unfold MiniSbxReportError. apply same_opt_report. Qed.

Lemma same_opt_generic f l m : respects same_opt (MiniSbxReportGenericError f l m).
Proof. unfold MiniSbxReportGenericError. apply same_opt_report. Qed.

(** An error that is reported and returned from, in closed form. *)
Lemma report_returns f l m c s :
  LIBMINISANDBOX || recoverable c = true ->
  MiniSbxReportErrorAndMessage f l m c s =
  (Ok (if recoverable c then RECOVERABLE_FAIL else UNRECOVERABLE_FAIL),
   s <| sbx_err := mkError (message_buffer (GenErrorMessage
        (if empty m then GetErrorMessage c else GetErrorMessage c +:+ ": " +:+ m) l f)) c |>).
Proof. intros H. unfold MiniSbxReportErrorAndMessage, MiniSbxSetError. by rewrite H. Qed.

(** A reported error never gives a non-negative value. *)
Lemma report_negative f l m c s z s' :
  MiniSbxReportErrorAndMessage f l m c s = (Ok z, s') -> z < 0.
Proof.
  unfold MiniSbxReportErrorAndMessage, MiniSbxSetError. destruct (LIBMINISANDBOX || recoverable c).
  - destruct (recoverable c); intros H; inv H; done.
  - unfold mbind, prog_bind. by destruct (Cleanup s) as [[]].
Qed.

Lemma length_message_buffer m : length (message_buffer m) = MAX_ERR_LEN.
Proof.
  unfold message_buffer, strncpy. rewrite !length_app, length_replicate, length_take.
  cbn [length]. unfold MAX_ERR_LEN. lia.
Qed.

Lemma until_nul_app l k : Forall (fun c => c ≠ NUL) l -> until_nul (l ++ NUL :: k) = l.
Proof.
  induction 1 as [|c l Hc _ IH]; simpl; [done|]. destruct (Ascii.eqb_spec c NUL); [done|]. by rewrite IH.
Qed.

Lemma until_nul_no_nul l : Forall (fun c => c ≠ NUL) (until_nul l).
Proof.
  induction l as [|c l IH]; simpl; [done|]. destruct (Ascii.eqb_spec c NUL); by constructor.
Qed.

Lemma message_buffer_text m :
  until_nul (message_buffer m) = take (MAX_ERR_LEN - 1) (until_nul (chars m)).
Proof.
  unfold message_buffer, strncpy. set (t := take _ _).
  assert (Forall (fun c => c ≠ NUL) t) as Ht by (apply Forall_take, until_nul_no_nul).
  destruct (MAX_ERR_LEN - 1 - length t)%nat as [|n] eqn:E.
  - simpl. rewrite app_nil_r. by apply until_nul_app.
  - simpl. rewrite <- (assoc_L (++)). by apply until_nul_app.
Qed.

(** Reporting only stops by leaving the process. *)
Lemma stops_report (W : stop -> Prop) f l m c :
  W (Exited EXIT_FAILURE) -> stops W (MiniSbxReportErrorAndMessage f l m c).
Proof.
  intros Hw s w. unfold result, MiniSbxReportErrorAndMessage, MiniSbxSetError.
  destruct (LIBMINISANDBOX || recoverable c); [done|]. unfold mbind, prog_bind.
  pose proof (Cleanup_ok s) as HC. unfold result in HC.
  destruct (Cleanup s) as [[[]|v] s1]; [by intros [= <-] | done].
Qed.

Lemma stops_error (W : stop -> Prop) f l c :
  W (Exited EXIT_FAILURE) -> stops W (MiniSbxReportError f l c).
Proof. unfold MiniSbxReportError. apply stops_report. Qed.

Lemma stops_generic (W : stop -> Prop) f l m :
  W (Exited EXIT_FAILURE) -> stops W (MiniSbxReportGenericError f l m).
Proof. unfold MiniSbxReportGenericError. apply stops_report. Qed.

End Errors.

#[export] Hint Extern 1 (stops _ (MiniSbxReportErrorAndMessage _ _ _ _)) => apply stops_report; stop_kind : stops.
#[export] Hint Extern 1 (stops _ (MiniSbxReportError _ _ _)) => apply stops_error; stop_kind : stops.
#[export] Hint Extern 1 (stops _ (MiniSbxReportGenericError _ _ _)) => apply stops_generic; stop_kind : stops.
#[export] Hint Resolve same_opt_report same_opt_error same_opt_generic respects_Cleanup : respects.
#[global] Arguments MiniSbxReportErrorAndMessage {B K} func line err_msg code : simpl never.
#[global] Arguments MiniSbxReportError {B K} func line code : simpl never.
#[global] Arguments MiniSbxReportGenericError {B K} func line err_msg : simpl never.

(** ** Properties *)

Section Properties.
Context `{B : Build} `{K : Kernel}.

(** Reporting an error fills the whole buffer, always with a terminated C
    string: the message reported, cut to MAX_ERR_LEN - 1 characters, which
    MiniSbxGetErrorMsg then returns; the code is the one MiniSbxGetErrorCode
    returns; the caller gets -2 exactly for the recoverable codes and -1
    otherwise, and nothing else changes. *)
Theorem report_error_spec f l m c s :
  LIBMINISANDBOX = true ->
  exists e, MiniSbxReportErrorAndMessage f l m c s =
      (Ok (if recoverable c then -2 else -1), s <| sbx_err := e |>) /\
    length (err_msg e) = MAX_ERR_LEN /\ last (err_msg e) = Some NUL /\
    result MiniSbxGetErrorCode (s <| sbx_err := e |>) = Ok (code_value c) /\
    result MiniSbxGetErrorMsg (s <| sbx_err := e |>) =
      Ok (of_chars (take 254 (until_nul (chars (GenErrorMessage
        (if empty m then GetErrorMessage c else GetErrorMessage c +:+ ": " +:+ m) l f))))).
Proof.
  intros Hlib. eexists. split; [apply report_returns; by rewrite Hlib|].
  split; [apply length_message_buffer|]. split; [by apply last_snoc|]. split; [done|].
  unfold result, MiniSbxGetErrorMsg, gets. cbn [fst sbx_err err_msg map_field set_sbx_err].
  by rewrite message_buffer_text.
Qed.

(** The clean-up always comes to an end and never throws, whatever the
    kernel answers: the recursion of makeWritable stays within its depth bound
    and every exception is caught. *)
Theorem Cleanup_total s : result Cleanup s = Ok tt.
Proof. apply Cleanup_ok. Qed.

(** In the command-line program an error that is not recoverable never
    returns to the caller: the process exits with EXIT_FAILURE after the
    clean-up, whose only calls make directories writable and remove trees;
    options and the last error are untouched. *)
Theorem cli_error_exits f l m c s :
  LIBMINISANDBOX = false -> recoverable c = false ->
  result (MiniSbxReportErrorAndMessage f l m c) s = Stop (Exited EXIT_FAILURE) /\
  calls cleanup_call s (final (MiniSbxReportErrorAndMessage f l m c) s) /\
  only_kernel s (final (MiniSbxReportErrorAndMessage f l m c) s).
Proof.
  intros Hlib Hc. unfold MiniSbxReportErrorAndMessage, MiniSbxSetError. rewrite Hlib, Hc. cbn [orb].
  assert (respects (calls cleanup_call) Cleanup) as HC.
  { apply respects_Cleanup; [apply _ | | ]; intros p; by apply calls_sys. }
  assert (respects only_kernel Cleanup) as HK.
  { apply respects_Cleanup; [apply _ | | ]; intros p; apply only_kernel_sys. }
  specialize (HC s). specialize (HK s). pose proof (Cleanup_ok s) as HO.
  unfold result, final, mbind, prog_bind in *. by destruct (Cleanup s) as [[[]|w] s1].
Qed.

End Properties.

(** *** Instances *)

Lemma report_error_spec_witness :
  exists e, MiniSbxReportErrorAndMessage (B := lib_build) "f" 1 "etc" NotAnAbsolutePath (initial_proc (K := SimKernel) ∅ empty_sim) =
      (Ok (-1), (initial_proc (K := SimKernel) ∅ empty_sim) <| sbx_err := e |>) /\ length (err_msg e) = MAX_ERR_LEN.
Proof.
  destruct (report_error_spec (B := lib_build) (K := SimKernel) "f" 1 "etc" NotAnAbsolutePath
    (initial_proc (K := SimKernel) ∅ empty_sim) eq_refl) as (e & H1 & H2 & _).
  exists e. split; [exact H1 | exact H2].
Defined.

Lemma cli_error_exits_witness :
  result (MiniSbxReportErrorAndMessage (B := cli_build) "f" 1 "" InvalidFolder) (initial_proc (K := SimKernel) ∅ empty_sim) =
  Stop (Exited EXIT_FAILURE).
Proof. apply (cli_error_exits (B := cli_build) (K := SimKernel)); reflexivity. Defined.
