(* ===== verification/ProcessTools.v ===== *)
(** * Process, directory and text helpers (process-tools.cc)

    Signals and pipes, creation of directories and of fresh names, the mount
    point of a directory, the parsing of /proc and /etc files, and the probe for
    user namespaces.  [isSubpath] is in FsPath, [trim], [unquote] and
    [GetFirstFolder] in CxxString, [Cleanup] in Errors. *)

From S2P Require Import Prelude Monad CxxString FsPath Firewall Kernel SimKernel State Fs Errors.
From Stdlib Require Import Ascii.
Open Scope sbx_scope.
Open Scope Z_scope.

(** A bound on the loops the kernel ends: calls retried on [EINTR], waiting
    for a given child, names drawn until one is free. *)
Class Bound := { loop_bound : nat }.

(** ** Vectors *)

(** [std::find(v.begin(), v.end(), x) != v.end()] *)
Definition contains (v : list string) (x : string) : bool := existsb (fun y => streq y x) v.

Definition addIfNotPresent (paths : list string) (path : string) : list string :=
  if contains paths path then paths else paths ++ [path].

(** ** Text *)

(** What [fgets(line, size, f)] calls read: up to [size - 1] characters or a newline. *)
Fixpoint fgets_aux (size : nat) (cur : list ascii) (l : list ascii) : list (list ascii) :=
  match l with
  | [] => match cur with [] => [] | _ => [rev cur] end
  | c :: l' =>
      let cur' := c :: cur in
      if Ascii.eqb c LF || (size - 1 <=? length cur')%nat then rev cur' :: fgets_aux size [] l'
      else fgets_aux size cur' l'
  end.

(** [%u]: the value [strtoul] gives, cut to 32 bits. *)
Definition scan_uint (l : list ascii) : option (Z * list ascii) :=
  match scan_int l with
  | None => None
  | Some (v, rest) =>
      let v := if Z.abs v <? 2 ^ 64 then v mod 2 ^ 64 else 2 ^ 64 - 1 in
      Some (v mod 2 ^ 32, rest)
  end.

(** [sscanf(line, "%u %u %u", &inside, &outside, &size) == 3] *)
Definition scan_map_line (line : list ascii) : option (Z * Z * Z) :=
  match scan_uint line with
  | None => None
  | Some (inside, l) =>
      match scan_uint l with
      | None => None
      | Some (outside, l) =>
          match scan_uint l with
          | None => None
          | Some (size, _) => Some (inside, outside, size)
          end
      end
  end.

Definition ID_ERROR : Z := 2 ^ 32 - 1.   (* (uid_t)-1 *)

(** The loop of [get_outer_uid] and [get_outer_gid] over the lines of the map. *)
Fixpoint outer_of (lines : list (list ascii)) : Z :=
  match lines with
  | [] => ID_ERROR
  | line :: lines' =>
      match scan_map_line line with
      | Some (inside, outside, _) => if inside =? 0 then outside else outer_of lines'
      | None => outer_of lines'
      end
  end.

(** One line of /etc/os-release: the names found so far, updated. *)
Definition os_line (line : string) (acc : string * string) : string * string :=
  let '(name, version) := acc in
  if empty line || Ascii.eqb (front_char line) "#"%char then acc
  else match find_char "="%char 0 line with
       | None => acc
       | Some eq_pos =>
           let key := trim (take_str eq_pos line) in
           let value := unquote (trim (drop_str (eq_pos + 1) line)) in
           if streq key "NAME" then (value, version)
           else if streq key "VERSION_ID" then (name, value)
           else acc
       end.

(** The loop: it stops when both are found, after a line that could set one. *)
Fixpoint os_lines (lines : list string) (acc : string * string) : string * string :=
  match lines with
  | [] => acc
  | line :: lines' =>
      let acc' := os_line line acc in
      if negb (empty acc'.1) && negb (empty acc'.2) then acc' else os_lines lines' acc'
  end.

(** [iss >> n] for an [int]: out of range fails. *)
Definition read_int (l : list ascii) : option (Z * list ascii) :=
  match scan_int l with
  | Some (v, rest) => if (- 2 ^ 31 <=? v) && (v <=? INT_MAX) then Some (v, rest) else None
  | None => None
  end.

Definition parseVersion (versionStr : string) : option (Z * Z) :=
  match read_int (chars versionStr) with
  | None => None
  | Some (major, l) =>
      match skip_while isspace l with
      | [] => None
      | dot :: l =>
          if negb (Ascii.eqb dot "."%char) then None
          else match read_int l with
               | None => None
               | Some (minor, _) => Some (major, minor)
               end
      end
  end.

Section ProcessTools.
Context `{B : Build} `{N : Bound} `{K : Kernel}.

(** ** Signals *)

(** [sigemptyset] and [sigfillset] cannot fail on a valid set; a failure of
    [sigaction] is only logged. *)
Definition InstallSignalHandler (signum : Z) (handler : disposition) : prog proc unit :=
  let block_all := match handler with Handler _ => true | _ => false end in
  _ ← sys (Sigaction signum handler block_all);
  mret tt.

Definition IgnoreSignal (signum : Z) : prog proc unit :=
  when (negb (signum =? SIGSTOP) && negb (signum =? SIGKILL)) (InstallSignalHandler signum SIG_IGN).

Definition ClearSignalMask : prog proc unit :=
  r ← sys Sigprocmask_empty;
  _ ← (if failed r then MiniSbxReportGenericError "ClearSignalMask" 105 "sigprocmask" else mret 0);
  for_each (Z.of_nat <$> seq 1 (Z.to_nat NSIG - 1)) (fun i =>
    if (i =? SIGKILL) || (i =? SIGSTOP) then mret tt
    else _ ← sys (Sigaction i SIG_DFL false); mret tt).

(** ** Files and pipes *)

(** [fopen(.., "w")], one formatted write, [fclose]. *)
Definition WriteFile (filename text : string) : prog proc unit :=
  r ← sys (Open filename (Z.lor O_WRONLY (Z.lor O_CREAT O_TRUNC)) 438);
  if failed r then DIE
  else
    w ← sys (Write (r_ret r) text);
    if failed w then DIE
    else
      c ← sys (Close (r_ret r));
      if failed c then DIE else mret tt.

Definition DieOrReport (msg : string) (die_on_error : bool) : prog proc Z :=
  if die_on_error then DIE else MiniSbxReportGenericError "DieOrReport" 149 msg.

(** A pipe: its reading and its writing end. *)
Definition WaitPipe (pipe : Z * Z) (die_on_error : bool) : prog proc Z :=
  r ← sys (Close pipe.2);
  if failed r then DieOrReport "close" die_on_error
  else
    r ← sys (Read pipe.1 1);
    if failed r then DieOrReport "read" die_on_error
    else
      r ← sys (Close pipe.1);
      if failed r then DieOrReport "close" die_on_error else mret 0.

Definition SignalPipe (pipe : Z * Z) (die_on_error : bool) : prog proc Z :=
  r ← sys (Close pipe.1);
  if failed r then DieOrReport "close" die_on_error
  else
    r ← sys (Write pipe.2 (String NUL ""));
    if failed r then DieOrReport "write" die_on_error
    else
      r ← sys (Close pipe.2);
      if failed r then DieOrReport "close" die_on_error else mret 0.

Definition KillAndWait (pid : Z) : prog proc unit :=
  _ ← sys (Kill pid SIGKILL);
  _ ← sys (Waitpid pid);
  mret tt.

(** ** Directories *)

(** The result and the out-parameter. *)
Definition CreateDirectory (base_path dir_name : string) : prog proc (Z * string) :=
  let out := base_path +:+ "/" +:+ dir_name in
  '(ex, ec) ← fs_exists_ec out;
  ec ← (if ex : bool then mret ec else fs_create_directories out);
  match ec with
  | Some e => z ← MiniSbxReportGenericError "CreateDirectory" 206 (kstrerror e); mret (z, out)
  | None => mret (0, out)
  end.

Definition CreateDirectories (base_path : string) : prog proc Z :=
  ec ← fs_create_directories base_path;
  match ec with
  | Some e => MiniSbxReportGenericError "CreateDirectories" 216 (kstrerror e)
  | None => mret 0
  end.

Definition MAX_ATTEMPTS : nat := 100.

(** [dis(gen)]: a value of [1000 .. INT_MAX]. *)
Definition random_id : prog proc Z :=
  r ← sys Random;
  mret (1000 + r_ret r mod (INT_MAX - 1000 + 1)).

(** One attempt of [CreateTempDirectory]: a name that does not exist is made a
    directory and returned, even when making it failed. *)
Definition temp_attempt (base_path : string) : prog proc (option string) :=
  randomID ← random_id;
  let tempDirPath := base_path +:+ "/temp_" +:+ to_string randomID in
  '(ex, _) ← fs_exists_ec tempDirPath;
  if ex : bool then mret None
  else
    res ← CreateDirectories tempDirPath;
    _ ← (if res <? 0
         then MiniSbxReportGenericError "CreateTempDirectory" 239
                ("Could not create temporary directory:" +:+ tempDirPath)
         else mret 0);
    mret (Some tempDirPath).

(** After [MAX_ATTEMPTS] names that exist it returns a string made from a null
    pointer. *)
Definition CreateTempDirectory (base_path : string) : prog proc string :=
  found ← for_return (seq 0 MAX_ATTEMPTS) (fun _ => temp_attempt base_path);
  match found with
  | Some p => mret p
  | None => throw LogicError
  end.

Definition CreateRandomFilename (base_path : string) : prog proc string :=
  loop loop_bound (
    randomNumber ← random_id;
    let filename := base_path +:+ "/" +:+ to_string randomNumber +:+ ".rules" in
    ex ← fs_exists filename;
    mret (if ex : bool then None else Some filename)).

(** The result, and what is appended to the out-parameter. *)
Definition GetCWD : prog proc (Z * string) :=
  r ← query kcwd;
  match r with
  | inr p => mret (0, p)
  | inl _ => z ← MiniSbxReportGenericError "GetCWD" 274 "Filesystem error"; mret (z, "")
  end.

Definition GetCurrentWorkingDirectory : prog proc string := fs_current_path.
Definition GetParentCWD : prog proc string := currentPath ← fs_current_path; mret (parent_path currentPath).

Definition CountMounts : prog proc Z :=
  t ← query (fun k => kmntent k "/proc/self/mounts");
  mret match t with None => -1 | Some l => Z.of_nat (length l) end.

(** 0 when the mount point is on the device. *)
Definition ValidateDevId (k : kstate) (mnt_dir : string) (dev : Z) : Z :=
  match kstat k mnt_dir with
  | inr st => if dev =? st_dev st then 0 else -1
  | inl _ => -1
  end.

(** The loop body of [GetMountPointOf]: [mountPoint] and [currMountPointLen]. *)
Definition mount_point_step (k : kstate) (dir : string) (dev : Z) (acc : string * Z) (ent : mntent) : string * Z :=
  let '(mountPoint, currMountPointLen) := acc in
  if isSubpath (mnt_dir ent) dir then
    if ValidateDevId k (mnt_dir ent) dev =? 0 then
      if empty mountPoint then (mnt_dir ent, Z.of_nat (String.length (mnt_dir ent)))
      else
        let newMountPointLen := Z.of_nat (String.length (mnt_dir ent)) in
        if currMountPointLen <? newMountPointLen then (mnt_dir ent, currMountPointLen) else acc
    else acc
  else acc.

Definition mount_point_of (k : kstate) (dir : string) : string :=
  match kstat k dir with
  | inl _ => ""
  | inr st =>
      match kmntent k "/etc/mtab" with
      | None => ""
      | Some mtab => fst (foldl (mount_point_step k dir (st_dev st)) ("", 0) mtab)
      end
  end.

Definition GetMountPointOf (dir : string) : prog proc string := query (fun k => mount_point_of k dir).

(** ** Environment *)

(** [std::string(std::getenv("HOME"))] *)
Definition GetHomeDir : prog proc string :=
  h ← getenv "HOME";
  match h with Some d => mret d | None => throw LogicError end.

Definition GetLocalBin : prog proc string := h ← GetHomeDir; mret (h +:+ "/.local/bin").
Definition GetLocalLib : prog proc string := h ← GetHomeDir; mret (h +:+ "/.local/lib").
Definition GetRngSeed : prog proc string := h ← GetHomeDir; mret (h +:+ "/.rnd").

Definition INTERNAL_MINI_SANDBOX_ENV : string := "__INTERNAL_MINI_SANDBOX_ON".

(** [setenv] changes the process's own environment; it only fails for lack of memory. *)
Definition MiniSbxSetInternalEnv : prog proc Z :=
  _ ← modify (fun s => s <| environ ::= insert INTERNAL_MINI_SANDBOX_ENV "1" |>);
  mret 0.

Definition MiniSbxGetInternalEnv : prog proc Z :=
  v ← getenv INTERNAL_MINI_SANDBOX_ENV;
  mret match v with Some _ => 0 | None => -1 end.

Definition get_outer_id (map_file : string) : prog proc Z :=
  t ← query (fun k => kcontents k map_file);
  mret match t with
       | None => ID_ERROR
       | Some text => outer_of (fgets_aux 256 [] (chars text))
       end.

Definition get_outer_uid : prog proc Z := get_outer_id "/proc/self/uid_map".
Definition get_outer_gid : prog proc Z := get_outer_id "/proc/self/gid_map".

(** Whether a name was found, the name and the version. *)
Definition GetOSName : prog proc (bool * string * string) :=
  t ← query (fun k => kcontents k "/etc/os-release");
  mret match t with
       | None => (false, "", "")
       | Some text =>
           let '(name, version) := os_lines (getlines text) ("", "") in
           (negb (empty name) || negb (empty version), name, version)
       end.

(** ** User namespaces *)

Definition namespace_files : list string :=
  ["/proc/self/ns/user"; "/proc/self/ns/pid"; "/proc/self/ns/net"; "/proc/self/ns/ipc"].

Definition HasUserNamespaceSupport : prog proc bool :=
  query (fun k => forallb (kaccess k) namespace_files).

(** [do w = waitpid(pid, ..) while (w == -1 && errno == EINTR)] *)
Definition waitpid_retry (pid : Z) : prog proc reply :=
  loop loop_bound (
    r ← sys (Waitpid pid);
    mret (if (r_ret r =? -1) && bool_decide (r_errno r = EINTR) then None else Some r)).

Definition CanCreateUserNamespace : prog proc bool :=
  r ← sys (Clone (Z.lor SIGCHLD CLONE_NEWUSER));
  let pid := r_ret r in
  if pid =? 0 then
    rv ← sys (Unshare CLONE_NEWPID);
    exit_ (if r_ret rv =? 0 then 0 else 1)
  else if pid =? -1 then mret false
  else
    w ← waitpid_retry pid;
    if r_ret w =? -1 then mret false
    else mret (WIFEXITED (out 0 w) && (WEXITSTATUS (out 0 w) =? 0)).

Definition UserNamespaceSupported : prog proc bool :=
  cached ← gets user_ns_support;
  if decide (cached = NON_INIT) then
    force ← getenv "MINI_SANDBOX_FORCE_USER_NAMESPACE";
    match force with
    | Some _ => mret true
    | None =>
        has ← HasUserNamespaceSupport;
        res ← (if has : bool then CanCreateUserNamespace else mret false);
        _ ← modify (fun s => s <| user_ns_support :=
                       if res : bool then USER_NS_SUPPORTED else USER_NS_NOT_SUPPORTED |>);
        mret res
    end
  else mret (bool_decide (cached = USER_NS_SUPPORTED)).

End ProcessTools.

(** ** Facts *)

Lemma contains_spec v x : contains v x = true <-> x ∈ v.
Proof.
  unfold contains. rewrite existsb_true_elem. split.
  - by intros (y & Hy & ->%streq_true).
  - intros H. exists x. split; [done|]. by apply streq_true.
Qed.

Lemma elem_of_addIfNotPresent v p x : x ∈ addIfNotPresent v p <-> x ∈ v \/ x = p.
Proof.
  unfold addIfNotPresent. destruct (contains v p) eqn:E.
  - apply contains_spec in E. split; [auto | by intros [| ->]].
  - rewrite elem_of_app, list_elem_of_singleton. done.
Qed.

Lemma NoDup_addIfNotPresent v p : NoDup v -> NoDup (addIfNotPresent v p).
Proof.
  unfold addIfNotPresent. destruct (contains v p) eqn:E; [done|]. intros Hv.
  apply NoDup_app. split; [done|]. split; [|by apply NoDup_singleton].
  intros x Hx ->%list_elem_of_singleton. apply contains_spec in Hx. congruence.
Qed.

Lemma prefix_addIfNotPresent v p : v `prefix_of` addIfNotPresent v p.
Proof. unfold addIfNotPresent. destruct (contains v p); [done|]. by apply prefix_app_r. Qed.

(** *** Numbers are digits *)

Lemma isdigit_pretty_char n : isdigit (pretty_N_char n) = true.
Proof. unfold pretty_N_char. by repeat case_match. Qed.

Lemma pretty_N_go_digits n t :
  Forall (fun c => isdigit c = true) (chars t) ->
  Forall (fun c => isdigit c = true) (chars (pretty_N_go n t)).
Proof.
  revert t. induction (N.lt_wf_0 n) as [n _ IH]; intros t Ht.
  destruct (decide (0 < n)%N) as [Hn|Hn].
  - rewrite pretty_N_go_step by done. apply IH; [by apply N.div_lt|].
    constructor; [apply isdigit_pretty_char | done].
  - assert (n = 0%N) as -> by lia. by rewrite pretty_N_go_0.
Qed.

Lemma to_string_digits z :
  0 <= z -> Forall (fun c => isdigit c = true) (chars (to_string z)).
Proof.
  intros Hz. unfold to_string, pretty, pretty_Z, pretty_positive, pretty, pretty_N.
  destruct z; [by vm_compute; repeat constructor | | lia].
  case_decide; [done|]. by apply pretty_N_go_digits.
Qed.

Lemma back_char_digits a d :
  d ≠ "" -> Forall (fun c => isdigit c = true) (chars d) ->
  isdigit (back_char (a +:+ d)) = true.
Proof.
  intros Hd Hf. induction a as [|c a IH].
  - change ("" +:+ d) with d. induction d as [|x d IHd]; [done|].
    apply Forall_cons in Hf as [Hx Hf]. destruct d as [|y d]; [done|]. by apply IHd.
  - change (String c a +:+ d) with (String c (a +:+ d)). destruct a as [|e a].
    + change ("" +:+ d) with d in *. by destruct d.
    + exact IH.
Qed.

Lemma pretty_N_go_nonempty n t : t ≠ "" -> pretty_N_go n t ≠ "".
Proof.
  revert t. induction (N.lt_wf_0 n) as [n _ IH]; intros t Ht.
  destruct (decide (0 < n)%N) as [Hn|Hn].
  - rewrite pretty_N_go_step by done. apply IH; [by apply N.div_lt | done].
  - assert (n = 0%N) as -> by lia. by rewrite pretty_N_go_0.
Qed.

Lemma to_string_nonempty z : to_string z ≠ "".
Proof.
  unfold to_string, pretty, pretty_Z, pretty_positive, pretty, pretty_N.
  destruct z; [done | |done].
  case_decide; [done|]. rewrite pretty_N_go_step by lia. by apply pretty_N_go_nonempty.
Qed.

(** *** Fresh directories *)

Section TempDirectory.
Context `{B : Build} `{N : Bound} `{K : Kernel}.

(** The kernel after [n] draws, the number the next draw gives, the name made
    from it, and whether that name is known to exist. *)
Fixpoint after_draws (n : nat) (k : kstate) : kstate :=
  match n with O => k | S n => after_draws n (snd (ksys k Random)) end.

Definition draw (k : kstate) : Z := 1000 + r_ret (fst (ksys k Random)) mod (INT_MAX - 1000 + 1).

Definition temp_name (base : string) (k : kstate) : string :=
  base +:+ "/temp_" +:+ to_string (draw k).

Definition temp_taken (base : string) (k : kstate) : bool :=
  match status_of (kstat (snd (ksys k Random)) (temp_name base k)) with
  | StKnown _ => true
  | _ => false
  end.

Lemma draw_range k : 1000 <= draw k <= INT_MAX.
Proof. unfold draw. pose proof (Z.mod_pos_bound (r_ret (fst (ksys k Random))) (INT_MAX - 1000 + 1) ltac:(done)). unfold INT_MAX in *. lia. Qed.

Lemma random_id_eq s :
  random_id s = (Ok (draw (kern s)),
    s <| kern := snd (ksys (kern s) Random) |> <| trace ::= cons (Random, fst (ksys (kern s) Random)) |>).
Proof. unfold random_id, sys, mbind, prog_bind, draw. by destruct (ksys (kern s) Random). Qed.

Lemma temp_attempt_taken base s :
  temp_taken base (kern s) = true ->
  exists s', temp_attempt base s = (Ok None, s') /\ kern s' = after_draws 1 (kern s).
Proof.
  unfold temp_taken, temp_attempt. intros H. rewrite (bind_ok _ _ _ _ _ (random_id_eq s)).
  rewrite (bind_ok _ _ _ _ _ (fs_exists_ec_eq _ _)). cbn [kern map_field set_kern set_trace].
  fold (temp_name base (kern s)) in *. destruct (status_of _); try done. eauto.
Qed.

Lemma create_directories_ok p s : exists r s', fs_create_directories p s = (Ok r, s').
Proof.
  assert (forall q s, exists r s', fs_create_directory q s = (Ok r, s')) as Hone.
  { intros q s0. unfold fs_create_directory, sys, status, query, gets, mbind, prog_bind, mret, prog_ret.
    destruct (ksys _ _) as [r k']. destruct (failed r); eauto. }
  assert (forall l s, exists r s', create_each l s = (Ok r, s')) as Heach.
  { induction l as [|q l IH]; intros s0; [by eexists _, _|]. unfold create_each in *. cbn [for_return].
    destruct (Hone q s0) as ([r|] & s1 & H1); rewrite (bind_ok _ _ _ _ _ H1); [by eexists _, _ | apply IH]. }
  assert (forall n q l s, exists r s', missing_dirs n q l s = (Ok r, s')) as Hmiss.
  { induction n as [|n IH]; intros q l s0; cbn [missing_dirs]; [by eexists _, _|].
    destruct (empty (parent_path q)); [by eexists _, _|].
    unfold status, query, gets, mbind, prog_bind. destruct (status_of _) as [[]| |]; try (by eexists _, _). apply IH. }
  unfold fs_create_directories. destruct (empty p); [by eexists _, _|].
  unfold status, query, gets, mbind, prog_bind. destruct (status_of _) as [[]| |]; try (by eexists _, _).
  destruct (Hmiss MAX_MISSING (if negb false && empty (filename p) then parent_path p else p) [] s) as ([e|l] & s1 & ->); [by eexists _, _|].
  apply Heach.
Qed.

(** Whether an error of [code] returns to the caller. *)
Definition returns_errors (code : ErrorCode) : Prop := LIBMINISANDBOX || recoverable code = true.

Lemma CreateDirectories_ok p s :
  returns_errors GeneralOSError -> exists z s', CreateDirectories p s = (Ok z, s').
Proof.
  intros H. unfold CreateDirectories. destruct (create_directories_ok p s) as ([e|] & s1 & H1);
    rewrite (bind_ok _ _ _ _ _ H1); [|by eexists _, _].
  unfold MiniSbxReportGenericError. rewrite report_returns by done. by eexists _, _.
Qed.

Lemma temp_attempt_fresh base s :
  returns_errors GeneralOSError -> temp_taken base (kern s) = false ->
  result (temp_attempt base) s = Ok (Some (temp_name base (kern s))).
Proof.
  intros Hret. unfold temp_taken, temp_attempt. intros H.
  unfold result. rewrite (bind_ok _ _ _ _ _ (random_id_eq s)).
  fold (temp_name base (kern s)) in *. set (p := temp_name _ _) in *.
  rewrite (bind_ok _ _ _ _ _ (fs_exists_ec_eq _ _)). cbn [kern map_field set_kern set_trace].
  set (s1 := s <| kern := _ |> <| trace ::= _ |>).
  destruct (CreateDirectories_ok p s1 Hret) as (z & s2 & H2).
  destruct (status_of _) as [t| |e]; [done| |]; rewrite (bind_ok _ _ _ _ _ H2); destruct (z <? 0); try done.
  all: unfold MiniSbxReportGenericError, mbind, prog_bind; by rewrite report_returns by done.
Qed.

Lemma attempts_taken base l s :
  (forall i, (i < length l)%nat -> temp_taken base (after_draws i (kern s)) = true) ->
  exists s', for_return l (fun _ : nat => temp_attempt base) s = (Ok None, s') /\
    kern s' = after_draws (length l) (kern s).
Proof.
  revert s. induction l as [|x l IH]; intros s H; [by eexists|]. cbn [for_return length].
  destruct (temp_attempt_taken base s (H 0%nat ltac:(simpl; lia))) as (s1 & H1 & Hk).
  rewrite (bind_ok _ _ _ _ _ H1). destruct (IH s1) as (s2 & H2 & Hk2).
  { intros i Hi. rewrite Hk. apply (H (S i)). simpl. lia. }
  exists s2. split; [done|]. by rewrite Hk2, Hk.
Qed.

Lemma for_return_app {A R} (l1 l2 : list A) (body : A -> prog proc (option R)) s s' :
  for_return l1 body s = (Ok None, s') -> for_return (l1 ++ l2) body s = for_return l2 body s'.
Proof.
  revert s. induction l1 as [|x l1 IH]; intros s; [by intros [= ->]|]. cbn [for_return app].
  unfold mbind, prog_bind. destruct (body x s) as [[[r|]|w] s1]; [done | apply IH | done].
Qed.

(** CreateTempDirectory returns the name made from the first of the
    first MAX_ATTEMPTS draws that is not known to exist, its number lies in
    [1000 .. INT_MAX] as the distribution says, and when all the names are
    taken it throws, making a std::string from a null pointer. *)
Theorem CreateTempDirectory_first_fresh base s :
  LIBMINISANDBOX = true ->
  (forall i, (i < MAX_ATTEMPTS)%nat ->
     (forall j, (j < i)%nat -> temp_taken base (after_draws j (kern s)) = true) ->
     temp_taken base (after_draws i (kern s)) = false ->
     result (CreateTempDirectory base) s = Ok (temp_name base (after_draws i (kern s))) /\
     1000 <= draw (after_draws i (kern s)) <= INT_MAX) /\
  ((forall i, (i < MAX_ATTEMPTS)%nat -> temp_taken base (after_draws i (kern s)) = true) ->
   result (CreateTempDirectory base) s = Stop (Thrown LogicError)).
Proof.
  intros Hlib. assert (returns_errors GeneralOSError) as Hret by (unfold returns_errors; by rewrite Hlib).
  unfold result, CreateTempDirectory. split.
  - intros i Hi Htaken Hfresh. split; [|apply draw_range].
    replace (seq 0 MAX_ATTEMPTS) with (seq 0 i ++ i :: seq (S i) (MAX_ATTEMPTS - S i)).
    2: { change (i :: seq (S i) (MAX_ATTEMPTS - S i)) with (seq (0 + i) (S (MAX_ATTEMPTS - S i))).
         rewrite <- seq_app. f_equal. lia. }
    destruct (attempts_taken base (seq 0 i) s) as (s1 & H1 & Hk).
    { rewrite length_seq. exact Htaken. }
    rewrite length_seq in Hk. unfold mbind, prog_bind. rewrite (for_return_app _ _ _ _ _ H1).
    cbn [for_return]. rewrite <- Hk in *. pose proof (temp_attempt_fresh base s1 Hret Hfresh) as H2.
    unfold result, mbind, prog_bind in *. by destruct (temp_attempt base s1) as [[o|w] s2]; simplify_eq/=.
  - intros Htaken. destruct (attempts_taken base (seq 0 MAX_ATTEMPTS) s) as (s1 & H1 & _).
    { rewrite length_seq. exact Htaken. }
    by rewrite (bind_ok _ _ _ _ _ H1).
Qed.

(** Whatever the build, a returned name has the announced form. *)
Lemma CreateTempDirectory_name base s p s' :
  CreateTempDirectory base s = (Ok p, s') ->
  exists id, 1000 <= id <= INT_MAX /\ p = base +:+ "/temp_" +:+ to_string id.
Proof.
  assert (forall s q s', temp_attempt base s = (Ok (Some q), s') ->
    exists id, 1000 <= id <= INT_MAX /\ q = base +:+ "/temp_" +:+ to_string id) as Hone.
  { intros s0 q s1 H. unfold temp_attempt in H. apply bind_inv_ok in H as (id & s2 & Hid & H).
    rewrite random_id_eq in Hid. injection Hid as <- _.
    apply bind_inv_ok in H as ([[] ec] & s3 & _ & H); [done|].
    apply bind_inv_ok in H as (z & s4 & _ & H). apply bind_inv_ok in H as (z' & s5 & _ & H).
    injection H as <- _. eexists. split; [apply draw_range | done]. }
  unfold CreateTempDirectory. intros H. apply bind_inv_ok in H as ([q|] & s1 & H1 & H2); [|done].
  injection H2 as <- _. revert s H1. induction (seq 0 MAX_ATTEMPTS) as [|x l IH]; intros s H1; [done|].
  cbn [for_return] in H1. apply bind_inv_ok in H1 as ([r|] & s2 & Ha & Hb); [|by eapply IH].
  injection Hb as <- _. by eapply Hone.
Qed.

End TempDirectory.

(** ** Concrete processes *)

(** A process of the simulated machine with [HOME=/home/u]. *)
Definition sim_proc (k : sim) : proc (H := SimKernel) := initial_proc {[ "HOME" := "/home/u" ]} k.
Definition some_bound : Bound := {| loop_bound := 8 |}.

Lemma CreateTempDirectory_first_fresh_witness :
  result (CreateTempDirectory (B := lib_build) "/tmp") (sim_proc empty_sim) = Ok "/tmp/temp_1000".
Proof.
  destruct (CreateTempDirectory_first_fresh (B := lib_build) (K := SimKernel) "/tmp" (sim_proc empty_sim) eq_refl)
    as [H _].
  apply (H 0%nat).
  - unfold MAX_ATTEMPTS. lia.
  - intros j Hj. lia.
  - vm_compute. reflexivity.
Defined.
