(* ===== verification/OptionsApi.v ===== *)
(** * The configuration operations (linux-sandbox-options.cc)

    Validation of paths, the creation of the sandbox root and of the overlay
    directory, and the operations that fill [opt]: the functions behind the
    library's entry points and the flags of the command line. *)

From S2P Require Import Prelude Monad CxxString FsPath Firewall Kernel SimKernel State Fs Errors ProcessTools.
From Stdlib Require Import Ascii.
Open Scope sbx_scope.
Open Scope Z_scope.

(** [std::distance] of two element sequences and the comparison of
    [ValidateOverlayOutOfFolder]; [None] when [std::mismatch] reads past the
    end of the overlay path. *)
Definition overlay_out_of_folder (overlay_path folder_path : list string) : option Z :=
  if (length overlay_path <? length folder_path)%nat then Some 0
  else match mismatch3 folder_path overlay_path with
       | None => None
       | Some ([], _) => Some (-1)
       | Some (_ :: _, _) => Some 0
       end.

(** 0 or -1: is some path both readable and writable? *)
Definition ValidateReadWritePaths (readables writables : list string) : Z :=
  if existsb (fun r => existsb (fun w => streq r w) writables) readables then -1 else 0.

Definition ValidateTmpNotRemounted (o : Options) (paths : list string) : Z :=
  if use_default o && existsb (fun p => streq p TMP) paths then -1 else 0.

Section OptionsApi.
Context `{B : Build} `{N : Bound} `{K : Kernel}.

(** [if (opt.is_running != NOT_RUNNING) { report; return -1; }] *)
Definition if_not_started (func : string) (line : Z) (body : prog proc Z) : prog proc Z :=
  running ← get_opt is_running;
  if decide (running = NOT_RUNNING) then body
  else _ ← MiniSbxReportError func line SandboxAlreadyStarted; mret (-1).

(** ** Validation *)

Definition ValidateDirAndCreate (dir : string) : prog proc Z :=
  catch_fs
    (ex ← fs_exists dir;
     isdir ← (if ex : bool then fs_is_directory dir else mret false);
     if isdir : bool then mret 0
     else
       res ← CreateDirectories dir;
       if res <? 0 then MiniSbxReportError "ValidateDirAndCreate" 133 InvalidFolder else mret 0)
    (MiniSbxReportError "ValidateDirAndCreate" 137 InvalidFolder).

(** The result and [*exist]. *)
Definition ValidatePath (path : string) : prog proc (Z * bool) :=
  if negb (is_absolute path) then
    z ← MiniSbxReportErrorAndMessage "ValidatePath" 146 path NotAnAbsolutePath; mret (z, false)
  else catch_fs (ex ← fs_exists path; mret (0, ex)) (mret (0, false)).

Definition ValidateDirPath (path : string) : prog proc Z :=
  if negb (is_absolute path) then
    MiniSbxReportErrorAndMessage "ValidateDirPath" 163 path NotAnAbsolutePath
  else
    catch_fs
      (ex ← fs_exists path;
       if negb ex then MiniSbxReportErrorAndMessage "ValidateDirPath" 168 path PathDoesNotExist
       else
         isdir ← fs_is_directory path;
         if negb isdir then MiniSbxReportErrorAndMessage "ValidateDirPath" 171 path PathDoesNotExist
         else mret 0)
      (MiniSbxReportErrorAndMessage "ValidateDirPath" 175 path PathDoesNotExist).

Definition ValidateOverlayOutOfFolder (overlay_dir folder : string) : prog proc Z :=
  catch_fs
    (overlay_path ← fs_canonical overlay_dir;
     folder_path ← fs_canonical folder;
     match overlay_out_of_folder (path_elems overlay_path) (path_elems folder_path) with
     | Some z => mret z
     | None => stop_with UndefinedBehaviour
     end)
    (mret (-1)).

(** A string made from a null pointer when the file system refuses to answer. *)
Definition CanonicPath (path_str : string) (resolve_symlink : bool) : prog proc string :=
  catch_fs
    (ex ← fs_exists path_str;
     if ex : bool then
       link ← (if resolve_symlink then mret false else fs_is_symlink path_str);
       if link : bool then fs_absolute path_str else fs_canonical path_str
     else mret path_str)
    (_ ← MiniSbxReportGenericError "CanonicPath" 293 "Fs exception"; throw LogicError).

(** ** The sandbox root and the overlay directory *)

Definition CreateSandboxRoot (base_dir : string) : prog proc Z :=
  res ← ValidateDirAndCreate base_dir;
  if res =? UNRECOVERABLE_FAIL then mret res
  else
    root ← get_opt sandbox_root;
    if empty root then
      rand_sandbox_root ← CreateTempDirectory base_dir;
      if Ascii.eqb (back_char rand_sandbox_root) slash then
        _ ← mod_opt (fun o => o <| sandbox_root := take_str (String.length rand_sandbox_root - 1) rand_sandbox_root |>);
        root ← get_opt sandbox_root;
        if Ascii.eqb (back_char root) slash
        then MiniSbxReportError "CreateSandboxRoot" 242 InvalidFolder
        else mret 0
      else
        _ ← mod_opt (fun o => o <| sandbox_root := rand_sandbox_root |>);
        mret 0
    else MiniSbxReportError "CreateSandboxRoot" 249 SandboxRootNotUnique.

Definition CreateOverlayfsDir (base_dir : string) : prog proc Z :=
  res ← ValidateDirAndCreate base_dir;
  if res =? UNRECOVERABLE_FAIL then mret res
  else
    default_mode ← get_opt use_default;
    docker ← gets docker_mode;
    tmp_overlay ← CreateTempDirectory
      (if negb default_mode then base_dir
       else if decide (docker = PRIVILEGED_CONTAINER) then "/tmp" else base_dir);
    _ ← mod_opt (fun o => o <| tmp_overlayfs := tmp_overlay |>);
    mret res.

(** ** Symbolic links of the home directory *)

Definition isInsideHomeDir (path : string) : prog proc bool :=
  path_canon ← CanonicPath path true;
  home ← GetHomeDir;
  mret (isSubpath home path_canon).

(** The body of the loop over the entries of a directory. *)
Definition symlink_parent (entry : string) : prog proc (list string) :=
  link ← fs_is_symlink entry;
  if link : bool then
    resolved ← fs_canonical entry;
    mret [parent_path resolved]
  else mret [].

(** The loop; an exception leaves it with what was collected so far. *)
Fixpoint symlink_loop (entries result : list string) : prog proc (list string) :=
  match entries with
  | [] => mret result
  | e :: es =>
      r ← catch_fs (Some <$> symlink_parent e) (mret None);
      match r with
      | Some dirs => symlink_loop es (result ++ dirs)
      | None => mret result
      end
  end.

Definition getSymlinkedDirs (path : string) : prog proc (list string) :=
  path_canon ← CanonicPath path true;
  catch_fs
    (ex ← fs_exists path_canon;
     isdir ← (if ex : bool then fs_is_directory path_canon else mret false);
     if isdir : bool then
       entries ← fs_directory_iterator path_canon false;
       symlink_loop entries []
     else mret [])
    (mret []).

(** [add] appends a directory to the vectors the caller passes. *)
Definition MountHomeSymlinks (path : string) (add : string -> Options -> Options) : prog proc unit :=
  inside ← isInsideHomeDir path;
  when inside
    (add_folder ← getSymlinkedDirs path;
     for_each add_folder (fun i => mod_opt (add i))).

(** ** Mount requests *)

Definition add_bind (source target : string) (o : Options) : Options :=
  o <| bind_mount_sources ::= fun l => l ++ [source] |>
    <| bind_mount_targets ::= fun l => l ++ [target] |>.

Definition add_bind_missing (d : string) (o : Options) : Options :=
  o <| bind_mount_sources ::= fun l => addIfNotPresent l d |>
    <| bind_mount_targets ::= fun l => addIfNotPresent l d |>.

Definition add_writable (p : string) (o : Options) : Options :=
  o <| writable_files ::= fun l => l ++ [p] |>.

Definition add_writable_missing (d : string) (o : Options) : Options :=
  o <| writable_files ::= fun l => addIfNotPresent l d |>.

Definition add_overlay (p : string) (o : Options) : Options :=
  o <| overlayfsmount ::= fun l => l ++ [p] |>.

Definition add_overlay_missing (d : string) (o : Options) : Options :=
  o <| overlayfsmount ::= fun l => addIfNotPresent l d |>.

Definition MiniSbxMountBind (input_path : string) : prog proc Z :=
  if_not_started "MiniSbxMountBind" 712
    (path ← CanonicPath input_path false;
     '(res, found) ← ValidatePath path;
     if res <? 0 then mret res
     else if negb found then mret res
     else
       _ ← mod_opt (add_bind path path);
       _ ← when (negb (streq path input_path)) (mod_opt (add_bind input_path input_path));
       _ ← MountHomeSymlinks input_path add_bind_missing;
       mret res).

(** The result of [ValidateDirPath] is not used. *)
Definition MiniSbxMountBindSourceToTarget (c_source c_target : string) : prog proc Z :=
  if_not_started "MiniSbxMountBindSourceToTarget" 738
    (source ← CanonicPath c_source false;
     target ← CanonicPath c_target false;
     _ ← ValidateDirPath source;
     _ ← mod_opt (add_bind source target);
     mret 0).

Definition MiniSbxMountWrite (input_path : string) : prog proc Z :=
  if_not_started "MiniSbxMountWrite" 751
    (path ← CanonicPath input_path false;
     '(res, found) ← ValidatePath path;
     if res <? 0 then mret res
     else if negb found then mret res
     else
       _ ← when (negb (streq path input_path)) (mod_opt (add_writable input_path));
       _ ← mod_opt (add_writable path);
       _ ← MountHomeSymlinks input_path add_writable_missing;
       mret res).

Definition MiniSbxMountTmpfs (input_path : string) : prog proc Z :=
  if_not_started "MiniSbxMountTmpfs" 773
    (path ← CanonicPath input_path false;
     res ← ValidateDirPath path;
     if res <? 0 then mret res
     else
       _ ← mod_opt (fun o => o <| tmpfs_dirs ::= fun l => l ++ [path] |>);
       mret res).

(** The second [emplace_back] is the constructor [string(str, pos, len)] with
    the length of the canonical path. *)
Definition MiniSbxMountOverlay (input_path : string) : prog proc Z :=
  if_not_started "MiniSbxMountOverlay" 787
    (path ← CanonicPath input_path false;
     overlay ← get_opt use_overlayfs;
     if overlay : bool then
       '(res, _) ← ValidatePath path;
       if res <? 0 then mret res
       else
         _ ← mod_opt (add_overlay path);
         _ ← when (negb (streq path input_path))
               (mod_opt (add_overlay (take_str (String.length path) input_path)));
         _ ← MountHomeSymlinks input_path add_overlay_missing;
         mret res
     else MiniSbxReportError "MiniSbxMountOverlay" 803 OverlayOptionNotSet).

Definition MiniSbxMountEmptyOutputFile (path_str : string) : prog proc Z :=
  if_not_started "MiniSbxMountEmptyOutputFile" 974
    (path ← CanonicPath path_str false;
     '(ex, ec) ← fs_exists_ec path;
     err ← (if ex : bool then mret None
            else
              handle ← sys (Open path (Z.lor O_CREAT (Z.lor O_WRONLY O_EXCL)) 438);
              if failed handle then
                Some <$> MiniSbxReportGenericError "MiniSbxMountEmptyOutputFile" 982 "open failed"
              else
                c ← sys (Close (r_ret handle));
                if failed c then
                  Some <$> MiniSbxReportGenericError "MiniSbxMountEmptyOutputFile" 985 "close failed"
                else mret None);
     match err, ec with
     | Some z, _ => mret z
     | None, Some _ => mret (-1)
     | None, None => _ ← MiniSbxMountWrite path; mret 0
     end).

Definition MiniSbxMountParentsWrite : prog proc Z :=
  if_not_started "MiniSbxMountParentsWrite" 998
    (_ ← mod_opt (fun o => o <| parents_writable := true |>); mret 0).

Definition MiniSbxSetWorkingDir (input_path : string) : prog proc Z :=
  if_not_started "MiniSbxSetWorkingDir" 1007
    (path ← CanonicPath input_path false;
     res ← ValidateDirPath path;
     if res <? 0 then mret res
     else _ ← mod_opt (fun o => o <| working_dir := path |>); mret 0).

(** The path is kept even when its directory is refused. *)
Definition MiniSbxEnableLog (path : string) : prog proc Z :=
  if_not_started "MiniSbxEnableLog" 647
    (debug ← get_opt debug_path;
     if empty debug then
       res ← ValidateDirPath (parent_path path);
       _ ← mod_opt (fun o => o <| debug_path := path |>);
       mret res
     else MiniSbxReportError "MiniSbxEnableLog" 657 LogFileNotUnique).

(** [#ifndef MINITAP]; it has no guard. *)
Definition MiniSbxShareNetNamespace : prog proc Z :=
  _ ← mod_opt (fun o => o <| create_netns := NO_NETNS |>); mret 0.

(** ** The functioning modes *)

Definition SetupDefaultMounts : prog proc unit :=
  local_bin ← GetLocalBin;
  local_lib ← GetLocalLib;
  rng ← GetRngSeed;
  '(_, bin_exists) ← ValidatePath local_bin;
  '(_, lib_exists) ← ValidatePath local_lib;
  let default_mounts := ["/proc"; "/var"; "/opt"]
    ++ (if bin_exists : bool then [local_bin] else [])
    ++ (if lib_exists : bool then [local_lib] else []) in
  _ ← for_each default_mounts (fun mount => mod_opt (add_bind mount mount));
  _ ← MiniSbxMountEmptyOutputFile rng;
  mret tt.

Definition MiniSbxSetupDefault : prog proc Z :=
  if_not_started "MiniSbxSetupDefault" 857
    (o ← get_opt id;
     if hermetic o || use_overlayfs o then
       MiniSbxReportError "MiniSbxSetupDefault" 862 InvalidFunctioningMode
     else
       _ ← mod_opt (fun o => o <| create_netns := if MINITAP then NO_NETNS else NETNS_WITH_LOOPBACK |>
                               <| use_default := true |> <| use_overlayfs := true |>);
       '(res, sbx_temp_dir) ← CreateDirectory TMP MINI_SBX_TMP;
       if res <? 0 then mret res
       else
         _ ← MiniSbxMountBindSourceToTarget sbx_temp_dir TMP;
         _ ← SetupDefaultMounts;
         r1 ← CreateSandboxRoot TMP;
         r2 ← CreateOverlayfsDir TMP;
         mret (res + r1 + r2)).

Definition MiniSbxSetupSandboxRootWithOverlay (input_path : string) : prog proc Z :=
  if_not_started "MiniSbxSetupSandboxRootWithOverlay" 956
    (_ ← CanonicPath input_path true;
     o ← get_opt id;
     if use_default o || hermetic o then
       MiniSbxReportError "MiniSbxSetupSandboxRootWithOverlay" 962 InvalidFunctioningMode
     else
       _ ← mod_opt (fun o => o <| use_overlayfs := true |>);
       CreateSandboxRoot input_path).

Definition MiniSbxSetupOverlayfsFolder (input_path : string) : prog proc Z :=
  if_not_started "MiniSbxSetupOverlayfsFolder" 942
    (path ← CanonicPath input_path true;
     overlay ← get_opt use_overlayfs;
     if overlay : bool then CreateOverlayfsDir path
     else MiniSbxReportError "MiniSbxSetupOverlayfsFolder" 950 OverlayOptionNotSet).

Definition MiniSbxSetupCustom (overlayfs_dir sdbx_root : string) : prog proc Z :=
  if_not_started "MiniSbxSetupCustom" 888
    (res ← MiniSbxSetupSandboxRootWithOverlay sdbx_root;
     if res <? 0 then mret res
     else
       res ← MiniSbxSetupOverlayfsFolder overlayfs_dir;
       if res <? 0 then mret res
       else
         o ← get_opt id;
         ValidateOverlayOutOfFolder (tmp_overlayfs o) (sandbox_root o)).

(** The report of an invalid mode does not return. *)
Definition MiniSbxSetupHermetic (sdbx_root : string) : prog proc Z :=
  if_not_started "MiniSbxSetupHermetic" 902
    (o ← get_opt id;
     _ ← (if use_default o || use_overlayfs o
          then MiniSbxReportError "MiniSbxSetupHermetic" 907 InvalidFunctioningMode
          else mret 0);
     _ ← mod_opt (fun o => o <| hermetic := true |>);
     CreateSandboxRoot sdbx_root).

(** ** The init file *)

Definition MiniSbxGetInitFile (o : Options) : string :=
  if use_default o then TMP +:+ "/" +:+ MINI_SBX_TMP +:+ "/" +:+ MINI_SBX_INIT
  else if negb (empty (sandbox_root o)) then sandbox_root o +:+ "/" +:+ TMP +:+ "/" +:+ MINI_SBX_INIT
  else TMP +:+ "/" +:+ MINI_SBX_INIT.

Definition MiniSbxReadInit : prog proc Z :=
  o ← get_opt id;
  t ← query (fun k => kcontents k (MiniSbxGetInitFile o));
  mret match t with
       | None => -1
       | Some text =>
           match skip_while isspace (chars text) with
           | "0"%char :: _ => 0
           | "1"%char :: _ => 1
           | _ => -1
           end
       end.

Definition MiniSbxCreateInit : prog proc Z :=
  o ← get_opt id;
  let init_path := MiniSbxGetInitFile o in
  res ← CreateDirectories (parent_path init_path);
  if res <? 0 then mret (-1)
  else
    h ← sys (Open init_path (Z.lor O_WRONLY (Z.lor O_CREAT O_TRUNC)) 438);
    if failed h then MiniSbxReportGenericError "MiniSbxCreateInit" 846 "could not open init file"
    else
      _ ← sys (Write (r_ret h) ("0" +:+ String LF ""));
      _ ← sys (Close (r_ret h));
      mret 0.

End OptionsApi.

(** ** Facts *)

Lemma overlay_out_of_folder_eq a b :
  overlay_out_of_folder a b = Some (if prefixb streq b a then -1 else 0).
Proof.
  unfold overlay_out_of_folder. pose proof (prefixb_spec streq streq_true b a) as Hp.
  destruct (Nat.ltb_spec (length a) (length b)) as [Hl|Hl].
  - destruct (prefixb streq b a); [|done]. apply proj1 in Hp. specialize (Hp eq_refl).
    apply prefix_length in Hp. lia.
  - destruct (mismatch3_short b a Hl) as [[r t] Hm]. rewrite Hm.
    destruct r as [|x r].
    + apply mismatch3_prefix in Hm as ->. rewrite (proj2 Hp); [done | by apply prefix_app_r].
    + destruct (prefixb streq b a) eqn:E; [|done]. apply proj1 in Hp. destruct (Hp eq_refl) as [k ->].
      rewrite (proj2 (mismatch3_prefix b (b ++ k) k)) in Hm; done.
Qed.

Lemma prefixb_isSubpath base sub :
  prefixb streq (path_elems base) (path_elems sub) = isSubpath base sub.
Proof. apply eq_true_iff_eq. by rewrite isSubpath_prefix, (prefixb_spec streq streq_true). Qed.

Section OptionsFacts.
Context `{B : Build} `{N : Bound} `{K : Kernel}.

Lemma if_not_started_run f l (body : prog proc Z) s :
  is_running (opt s) = NOT_RUNNING -> if_not_started f l body s = body s.
Proof. intros H. unfold if_not_started, get_opt, gets, mbind, prog_bind. by rewrite H. Qed.

(** The error every configuration call reports once the sandbox was started. *)
Definition already_started (f : string) (l : Z) : MiniSbxError :=
  mkError (message_buffer (GenErrorMessage (GetErrorMessage SandboxAlreadyStarted) l f)) SandboxAlreadyStarted.

Lemma if_not_started_frozen f l body s :
  is_running (opt s) <> NOT_RUNNING ->
  if_not_started f l body s = (Ok (-1), s <| sbx_err := already_started f l |>).
Proof.
  intros H. unfold if_not_started, get_opt, gets. unfold mbind at 1, prog_bind at 1.
  rewrite decide_False by done. unfold MiniSbxReportError, mbind, prog_bind.
  by rewrite report_returns by (by rewrite orb_true_r).
Qed.

(** Errors that are not recoverable: -1 in the library, an exit otherwise. *)
Definition reported_or_left (o : outcome Z) : Prop :=
  o = Ok (-1) \/ o = Ok (-2) \/ o = Stop (Exited EXIT_FAILURE).

Lemma report_outcome f l m c s :
  reported_or_left (result (MiniSbxReportErrorAndMessage f l m c) s).
Proof.
  unfold reported_or_left, result, MiniSbxReportErrorAndMessage, MiniSbxSetError.
  destruct (LIBMINISANDBOX || recoverable c).
  - destruct (recoverable c); auto.
  - unfold mbind, prog_bind. pose proof (Cleanup_ok s) as HC. unfold result in HC.
    destruct (Cleanup s) as [[[]|w] s1]; [auto|done].
Qed.

Lemma respects_CreateDirectories (R : proc -> proc -> Prop) `{!PreOrder R} p :
  (forall q, respects R (sys (Mkdir q 511))) ->
  (forall f l m c, respects R (MiniSbxReportErrorAndMessage f l m c)) -> respects R (CreateDirectories p).
Proof.
  intros Hmk He. unfold CreateDirectories, MiniSbxReportGenericError. apply respects_bind; [done | | intros [e|]].
  - by apply respects_fs_create_directories.
  - apply He.
  - by apply respects_ret.
Qed.

Lemma same_opt_CreateDirectories p : respects same_opt (CreateDirectories p).
Proof. apply respects_CreateDirectories; [apply _ | intros; apply same_opt_sys | intros; apply same_opt_report]. Qed.

Lemma same_opt_CreateTempDirectory p : respects same_opt (CreateTempDirectory p).
Proof.
  unfold CreateTempDirectory, temp_attempt, random_id.
  repeat first [apply same_opt_CreateDirectories | apply same_opt_generic | apply same_opt_sys
    | apply respects_fs_exists_ec; apply _ | respects_step | intros ?].
Qed.

Lemma same_opt_ValidateDirAndCreate p : respects same_opt (ValidateDirAndCreate p).
Proof.
  unfold ValidateDirAndCreate.
  repeat first [apply same_opt_CreateDirectories | apply same_opt_error
    | apply respects_fs_exists; apply _ | apply respects_fs_is_directory; apply _ | respects_step | intros ?].
Qed.

(** *** Why the operations may not return *)

Lemma stops_CreateDirectories W p : W (Exited EXIT_FAILURE) -> stops W (CreateDirectories p).
Proof. intros Hw. unfold CreateDirectories. solve_stops. Qed.

Lemma stops_ValidateDirAndCreate p : stops api_stop (ValidateDirAndCreate p).
Proof.
  unfold ValidateDirAndCreate. solve_stops. apply stops_CreateDirectories. left. constructor.
Qed.

Lemma stops_CreateTempDirectory p : stops api_stop (CreateTempDirectory p).
Proof.
  unfold CreateTempDirectory, temp_attempt, random_id. solve_stops.
  all: apply stops_CreateDirectories; constructor.
Qed.

Lemma stops_CreateSandboxRoot p : stops api_stop (CreateSandboxRoot p).
Proof.
  unfold CreateSandboxRoot. solve_stops.
  all: first [apply stops_ValidateDirAndCreate | apply stops_CreateTempDirectory].
Qed.

Lemma stops_CreateOverlayfsDir p : stops api_stop (CreateOverlayfsDir p).
Proof.
  unfold CreateOverlayfsDir. solve_stops.
  all: first [apply stops_ValidateDirAndCreate | apply stops_CreateTempDirectory].
Qed.

Lemma stops_CanonicPath p b : stops api_stop (CanonicPath p b).
Proof. unfold CanonicPath. solve_stops. Qed.

Lemma stops_if_not_started f l body : stops api_stop body -> stops api_stop (if_not_started f l body).
Proof. intros H. unfold if_not_started. solve_stops. Qed.

Lemma stops_ValidatePath p : stops api_stop (ValidatePath p).
Proof. unfold ValidatePath. solve_stops. Qed.

Lemma stops_ValidateDirPath p : stops api_stop (ValidateDirPath p).
Proof. unfold ValidateDirPath. solve_stops. Qed.

Lemma stops_ValidateOverlayOutOfFolder a b : stops api_stop (ValidateOverlayOutOfFolder a b).
Proof.
  unfold ValidateOverlayOutOfFolder. apply stops_catch_fs; [|apply stops_ret].
  apply stops_bind; [solve_stops | intros x]. apply stops_bind; [solve_stops | intros y].
  rewrite overlay_out_of_folder_eq. apply stops_ret.
Qed.

Lemma stops_GetHomeDir : stops api_stop GetHomeDir.
Proof. unfold GetHomeDir. solve_stops. Qed.

Lemma stops_MountHomeSymlinks p add : stops api_stop (MountHomeSymlinks p add).
Proof.
  assert (forall es acc, stops api_stop (symlink_loop es acc)) as Hloop.
  { induction es as [|e es IH]; intros acc; cbn [symlink_loop]; [apply stops_ret|].
    apply stops_bind; [unfold symlink_parent; solve_stops | intros [dirs|]; [apply IH | apply stops_ret]]. }
  unfold MountHomeSymlinks, isInsideHomeDir, getSymlinkedDirs. solve_stops.
  all: first [apply stops_CanonicPath | apply stops_GetHomeDir | idtac].
  intros s w Hw. left. revert s w Hw. apply Hloop.
Qed.

End OptionsFacts.

#[export] Hint Resolve stops_ValidateDirAndCreate stops_CreateTempDirectory stops_CreateSandboxRoot
  stops_CreateOverlayfsDir stops_CanonicPath stops_ValidatePath stops_ValidateDirPath
  stops_ValidateOverlayOutOfFolder stops_GetHomeDir stops_MountHomeSymlinks : stops.
#[export] Hint Resolve same_opt_CreateDirectories same_opt_CreateTempDirectory
  same_opt_ValidateDirAndCreate : respects.

(** ** Properties *)

Section Properties.
Context `{B : Build} `{N : Bound} `{K : Kernel}.

(** A name made from a number ends in a digit. *)
Lemma temp_name_no_slash a id :
  0 <= id -> Ascii.eqb (back_char (a +:+ to_string id)) slash = false.
Proof.
  intros Hid. destruct (Ascii.eqb_spec (back_char (a +:+ to_string id)) slash) as [E|]; [|done].
  pose proof (back_char_digits a (to_string id) (to_string_nonempty id) (to_string_digits id Hid)) as H.
  rewrite E in H. by vm_compute in H.
Qed.

Lemma CreateSandboxRoot_cases base s :
  match CreateSandboxRoot base s with
  | (Ok z, s') =>
      (z = 0 /\ sandbox_root (opt s) = "" /\
       exists id, 1000 <= id <= INT_MAX /\
         opt s' = (opt s) <| sandbox_root := base +:+ "/temp_" +:+ to_string id |>) \/
      (z < 0 /\ opt s' = opt s)
  | (Stop w, s') => api_stop w /\ opt s' = opt s
  end.
Proof.
  pose proof (stops_CreateSandboxRoot base s) as Hst. unfold result in Hst. revert Hst.
  unfold CreateSandboxRoot. pose proof (same_opt_ValidateDirAndCreate base s) as H1.
  unfold same_opt, final in H1. unfold mbind, prog_bind.
  destruct (ValidateDirAndCreate base s) as [[z|w] s1]; simpl in H1; [|auto].
  destruct (Z.eqb_spec z UNRECOVERABLE_FAIL) as [->|Hz].
  { intros _. right. split; [done | exact H1]. }
  unfold get_opt, gets. destruct (empty (sandbox_root (opt s1))) eqn:Hroot.
  - pose proof (same_opt_CreateTempDirectory base s1) as H2. unfold same_opt, final in H2.
    destruct (CreateTempDirectory base s1) as [[p|w] s2] eqn:E2; simpl in H2; [|rewrite <- H1, <- H2; auto].
    intros _. destruct (CreateTempDirectory_name _ _ _ _ E2) as (id & Hid & ->).
    rewrite <- app_str_assoc, temp_name_no_slash by lia. left. rewrite <- H1. split; [done|].
    split; [by destruct (sandbox_root (opt s1))|]. exists id. split; [done|].
    cbn. by rewrite H2, app_str_assoc.
  - intros Hst. unfold MiniSbxReportError in *.
    pose proof (same_opt_report "CreateSandboxRoot" 249 "" SandboxRootNotUnique s1) as H2.
    unfold same_opt, final in H2.
    destruct (MiniSbxReportErrorAndMessage _ _ _ _ s1) as [[y|w] s2] eqn:E2; simpl in H2.
    + right. split; [by eapply report_negative | by rewrite H2].
    + split; [by apply Hst | by rewrite H2].
Qed.

Lemma CreateSandboxRoot_options base s :
  opt (final (CreateSandboxRoot base) s) = opt s \/
  (sandbox_root (opt s) = "" /\
   exists p, opt (final (CreateSandboxRoot base) s) = (opt s) <| sandbox_root := p |>).
Proof.
  pose proof (CreateSandboxRoot_cases base s) as H. unfold final.
  destruct (CreateSandboxRoot base s) as [[z|w] s']; [|by left; apply H].
  destruct H as [(_ & Hr & id & _ & Ho)|[_ Ho]]; [right | by left]. split; [done|]. by eexists.
Qed.

(** The sandbox root is set at most once, to a directory right below the
    base directory whose name ends in a number of [1000 .. INT_MAX] (and never
    in a slash); a call that does not return 0 leaves every option as it was,
    and the call can only fail to return by exiting or by making a string from
    a null pointer. *)
Theorem CreateSandboxRoot_spec base s :
  match CreateSandboxRoot base s with
  | (Ok z, s') =>
      (z = 0 /\ sandbox_root (opt s) = "" /\
       exists id, 1000 <= id <= INT_MAX /\
         opt s' = (opt s) <| sandbox_root := base +:+ "/temp_" +:+ to_string id |>) \/
      (z < 0 /\ opt s' = opt s)
  | (Stop w, s') => api_stop w /\ opt s' = opt s
  end.
Proof. apply CreateSandboxRoot_cases. Qed.

Lemma ValidateOverlayOutOfFolder_eq overlay_dir folder s :
  ValidateOverlayOutOfFolder overlay_dir folder s =
  (Ok match krealpath (kern s) overlay_dir, krealpath (kern s) folder with
      | inr a, inr b => if isSubpath b a then -1 else 0
      | _, _ => -1
      end, s).
Proof.
  unfold ValidateOverlayOutOfFolder, catch_fs, try_catch, fs_canonical, query, gets, mbind, prog_bind.
  destruct (krealpath (kern s) overlay_dir) as [e|a]; [done|]. cbn [mret prog_ret].
  destruct (krealpath (kern s) folder) as [e|b]; [done|]. cbn [mret prog_ret].
  by rewrite overlay_out_of_folder_eq, prefixb_isSubpath.
Qed.

Lemma ValidateOverlayOutOfFolder_ok overlay_dir folder s z s' :
  ValidateOverlayOutOfFolder overlay_dir folder s = (Ok z, s') ->
  s' = s /\ z = match krealpath (kern s) overlay_dir, krealpath (kern s) folder with
                | inr a, inr b => if isSubpath b a then -1 else 0
                | _, _ => -1
                end.
Proof. rewrite ValidateOverlayOutOfFolder_eq. by intros [= <- <-]. Qed.

(** The check that keeps the overlay directory out of the sandbox root is
    the sub-path test of the canonical paths: it returns -1 exactly when the
    elements of the folder start the elements of the overlay directory, or when
    one of the two paths has no canonical form; it changes nothing, and the
    three-iterator std::mismatch it uses never reads past the end. *)
Theorem ValidateOverlayOutOfFolder_spec overlay_dir folder s :
  ValidateOverlayOutOfFolder overlay_dir folder s =
  (Ok match krealpath (kern s) overlay_dir, krealpath (kern s) folder with
      | inr a, inr b => if isSubpath b a then -1 else 0
      | _, _ => -1
      end, s).
Proof. apply ValidateOverlayOutOfFolder_eq. Qed.

(** The validation of the mounts accepts exactly the disjoint ones, and a
    /tmp that is not mounted again in default mode. *)
Theorem mount_validation_spec (readables writables : list string) (o : Options) :
  (ValidateReadWritePaths readables writables = 0 <-> forall p, p ∈ readables -> p ∉ writables) /\
  (ValidateTmpNotRemounted o writables = 0 <-> (use_default o = true -> TMP ∉ writables)).
Proof.
  unfold ValidateReadWritePaths, ValidateTmpNotRemounted. split.
  - destruct (existsb _ readables) eqn:E; (split; [try done | ]).
    + intros H. apply existsb_true_elem in E as (r & Hr & (w & Hw & ->%streq_true)%existsb_true_elem).
      by destruct (H w Hr).
    + intros _ p Hp Hw. rewrite existsb_false_forall in E. specialize (E p Hp).
      rewrite existsb_false_forall in E. specialize (E p Hw). by rewrite streq_refl in E.
    + done.
  - destruct (use_default o); cbn [andb]; [|by split].
    destruct (existsb _ writables) eqn:E; (split; [try done|]).
    + intros H. apply existsb_true_elem in E as (w & Hw & ->%streq_true). by destruct (H eq_refl).
    + intros _ _ Hw. rewrite existsb_false_forall in E. specialize (E _ Hw). by rewrite streq_refl in E.
    + done.
Qed.

End Properties.
