(* ===== verification/Rules.v ===== *)
(** * The firewall rules of the tap mode, from files and calls
      (the MINITAP part of linux-sandbox-options.cc, and DumpRules)

    The three regular expressions a rule line is matched against, as syntax
    with a matcher; what they accept, in terms of the fields of a line; the
    operations that add rules to [opt.fw_rules], the reading of a rules file,
    and the dump of the policy that the minitap binary reads. *)

From S2P Require Import Prelude Monad CxxString FsPath Firewall Kernel SimKernel State Fs Errors ProcessTools OptionsApi.
From Stdlib Require Import Ascii.
Open Scope sbx_scope.
Open Scope Z_scope.

(** ** Regular expressions *)

(** The constructions of [std::regex] the three patterns use. *)
Inductive regex :=
| RNone
| REps
| RSet (f : ascii -> bool)
| RSeq (r1 r2 : regex)
| RAlt (r1 r2 : regex)
| RStar (r : regex).

(** The texts an expression denotes. *)
Inductive lang : regex -> list ascii -> Prop :=
| lang_eps : lang REps []
| lang_set f c : f c = true -> lang (RSet f) [c]
| lang_seq r1 r2 l1 l2 : lang r1 l1 -> lang r2 l2 -> lang (RSeq r1 r2) (l1 ++ l2)
| lang_alt_l r1 r2 l : lang r1 l -> lang (RAlt r1 r2) l
| lang_alt_r r1 r2 l : lang r2 l -> lang (RAlt r1 r2) l
| lang_star_nil r : lang (RStar r) []
| lang_star_app r l1 l2 : lang r l1 -> lang (RStar r) l2 -> lang (RStar r) (l1 ++ l2).

Fixpoint nullable (r : regex) : bool :=
  match r with
  | RNone | RSet _ => false
  | REps | RStar _ => true
  | RSeq r1 r2 => nullable r1 && nullable r2
  | RAlt r1 r2 => nullable r1 || nullable r2
  end.

Fixpoint deriv (c : ascii) (r : regex) : regex :=
  match r with
  | RNone | REps => RNone
  | RSet f => if f c then REps else RNone
  | RSeq r1 r2 =>
      if nullable r1 then RAlt (RSeq (deriv c r1) r2) (deriv c r2) else RSeq (deriv c r1) r2
  | RAlt r1 r2 => RAlt (deriv c r1) (deriv c r2)
  | RStar r1 => RSeq (deriv c r1) (RStar r1)
  end.

(** [std::regex_match]: the whole text. *)
Fixpoint regex_match (l : list ascii) (r : regex) : bool :=
  match l with
  | [] => nullable r
  | c :: l' => regex_match l' (deriv c r)
  end.

Definition RChar (c : ascii) : regex := RSet (Ascii.eqb c).

(** [r{n}] and [r{n,n+k}] *)
Fixpoint RTimes (n : nat) (r : regex) : regex :=
  match n with O => REps | S n' => RSeq r (RTimes n' r) end.
Fixpoint RUpTo (k : nat) (r : regex) : regex :=
  match k with O => REps | S k' => RAlt REps (RSeq r (RUpTo k' r)) end.
Definition RBetween (n m : nat) (r : regex) : regex := RSeq (RTimes n r) (RUpTo (m - n) r).

Definition dot : ascii := ".".

(** [\d{1,3}] *)
Definition octet : regex := RBetween 1 3 (RSet isdigit).

(** [^(\d{1,3}\.){3}\d{1,3}$] *)
Definition ipv4_regex : regex := RSeq (RTimes 3 (RSeq octet (RChar dot))) octet.

(** [[a-zA-Z0-9-]] *)
Definition label_char (c : ascii) : bool :=
  isdigit c || Ascii.eqb c "-"
  || ((65 <=? N_of_ascii c)%N && (N_of_ascii c <=? 90)%N)
  || ((97 <=? N_of_ascii c)%N && (N_of_ascii c <=? 122)%N).

Definition label : regex := RSeq (RSet label_char) (RStar (RSet label_char)).

(** [^([a-zA-Z0-9-]+\.)*[a-zA-Z0-9-]+$] *)
Definition domain_regex : regex := RSeq (RStar (RSeq label (RChar dot))) label.

(** [^(\d{1,3}\.){3}\d{1,3}/\d{1,2}$] *)
Definition subnet_regex : regex :=
  RSeq (RTimes 3 (RSeq octet (RChar dot)))
    (RSeq octet (RSeq (RChar slash) (RBetween 1 2 (RSet isdigit)))).

(** ** The operations *)

(** [" \t\r\n"] *)
Definition rule_blank (c : ascii) : bool :=
  existsb (Ascii.eqb c) [" "%char; "009"%char; "013"%char; "010"%char].

(** The two [erase]s. *)
Definition trim_rule (line : string) : string := of_chars (trim_with rule_blank (chars line)).

(** Which of the three operations a trimmed line is given to. *)
Inductive rule_kind := KIpv4 | KDomain | KSubnet | KUnrecognized.

Definition rule_kind_of (line : string) : rule_kind :=
  let l := chars line in
  if regex_match l ipv4_regex then KIpv4
  else if regex_match l domain_regex then KDomain
  else if regex_match l subnet_regex then KSubnet
  else KUnrecognized.

Section Rules.
Context `{B : Build} `{N : Bound} `{K : Kernel}.

Definition ValidateFilePath (path : string) : prog proc Z :=
  catch_fs
    (ex ← fs_exists path;
     if negb ex then MiniSbxReportErrorAndMessage "ValidateFilePath" 523 path PathDoesNotExist
     else
       reg ← fs_is_regular_file path;
       if negb reg then MiniSbxReportErrorAndMessage "ValidateFilePath" 526 path PathDoesNotExist
       else mret 0)
    (MiniSbxReportErrorAndMessage "ValidateFilePath" 530 path PathDoesNotExist).

(** [set_firewall_rule] on [opt.fw_rules]. *)
Definition add_rule (rule : string) : prog proc Z :=
  fw ← get_opt fw_rules;
  match set_firewall_rule rule fw with
  | Stop w => stop_with w
  | Ok (z, fw') => _ ← mod_opt (fun o => o <| fw_rules := fw' |>); mret z
  end.

Definition MiniSbxAllowDomain (domain : string) : prog proc Z :=
  if_not_started "MiniSbxAllowDomain" 601
    (res ← add_rule domain;
     if res <? 0 then MiniSbxReportError "MiniSbxAllowDomain" 607 IllegalNetworkConfiguration
     else mret 0).

Definition MiniSbxAllowIpv4 (ip : string) : prog proc Z :=
  if_not_started "MiniSbxAllowIpv4" 615
    (res ← add_rule ip;
     if res <? 0 then MiniSbxReportError "MiniSbxAllowIpv4" 621 IllegalNetworkConfiguration
     else mret 0).

Definition MiniSbxAllowIpv4Subnet (subnet : string) : prog proc Z :=
  if_not_started "MiniSbxAllowIpv4Subnet" 630 (MiniSbxAllowIpv4 subnet).

Definition MiniSbxAllowMaxConnections (max : Z) : prog proc Z :=
  if_not_started "MiniSbxAllowMaxConnections" 579
    (fw ← get_opt fw_rules;
     let '(z, fw') := set_max_connections max fw in
     _ ← mod_opt (fun o => o <| fw_rules := fw' |>);
     mret z).

Definition MiniSbxAllowAllDomains : prog proc Z :=
  if_not_started "MiniSbxAllowAllDomains" 587
    (fw ← get_opt fw_rules;
     let '(z, fw') := reset_firewall_rules fw in
     _ ← mod_opt (fun o => o <| fw_rules := fw' |>);
     if z =? 0 then mret 0
     else MiniSbxReportError "MiniSbxAllowAllDomains" 594 IllegalNetworkConfiguration).

(** The body of the loop; the results of the three operations are not used. *)
Definition allow_line (line : string) : prog proc bool :=
  let line := trim_rule line in
  match rule_kind_of line with
  | KIpv4 => _ ← MiniSbxAllowIpv4 line; mret true
  | KDomain => _ ← MiniSbxAllowDomain line; mret true
  | KSubnet => _ ← MiniSbxAllowIpv4Subnet line; mret true
  | KUnrecognized => mret false
  end.

Fixpoint allow_lines (lines : list string) (res : Z) : prog proc Z :=
  match lines with
  | [] => mret res
  | line :: lines' => known ← allow_line line; allow_lines lines' (if known : bool then res else -1)
  end.

Definition ReadAllowedConnections (text : string) : prog proc Z := allow_lines (getlines text) 0.

Definition MiniSbxAllowConnections (path : string) : prog proc Z :=
  if_not_started "MiniSbxAllowConnections" 561
    (res ← ValidateFilePath path;
     if res <? 0 then mret res
     else
       file ← query (fun k => kcontents k path);
       match file with
       | None => mret (-1)
       | Some text => ReadAllowedConnections text
       end).

(** [DumpRules(&fw_rules, filepath)]; the writes are buffered by stdio and
    reach the file at [fclose]. *)
Definition DumpRules (fw : FirewallRules) (filepath : string) : prog proc unit :=
  if empty filepath then mret tt
  else
    h ← sys (Open filepath (Z.lor O_WRONLY (Z.lor O_CREAT O_TRUNC)) 438);
    if failed h then mret tt
    else
      match dump_text fw with
      | Stop w => stop_with w
      | Ok text =>
          _ ← sys (Write (r_ret h) (of_chars text));
          _ ← sys (Close (r_ret h));
          mret tt
      end.

End Rules.

(** ** The matcher decides the language *)

Lemma nullable_spec r : nullable r = true <-> lang r [].
Proof.
  induction r as [| |f|r1 IH1 r2 IH2|r1 IH1 r2 IH2|r IH]; simpl.
  - split; [done | intros H; inv H].
  - split; [intros _; constructor | done].
  - split; [done | intros H; inv H].
  - rewrite andb_true_iff, IH1, IH2. split.
    + intros [H1 H2]. apply (lang_seq _ _ [] [] H1 H2).
    + intros H. inversion H as [| |? ? l1 l2 H1 H2 E El| | | |]; subst.
      by apply app_eq_nil in El as [-> ->].
  - rewrite orb_true_iff, IH1, IH2. split.
    + intros [H|H]; [by apply lang_alt_l | by apply lang_alt_r].
    + intros H. inv H; auto.
  - split; [intros _; constructor | done].
Qed.

Lemma star_cons r c l :
  lang (RStar r) (c :: l) -> exists l1 l2, l = l1 ++ l2 /\ lang r (c :: l1) /\ lang (RStar r) l2.
Proof.
  remember (RStar r) as rs eqn:Er. remember (c :: l) as cl eqn:El.
  intros H. revert c l El.
  induction H as [| | | | |r'|r' l1 l2 H1 IH1 H2 IH2]; intros x k El; try done.
  injection Er as ->. destruct l1 as [|d l1].
  - apply (IH2 eq_refl x k El).
  - injection El as -> <-. by exists l1, l2.
Qed.

Lemma deriv_spec c r l : lang (deriv c r) l <-> lang r (c :: l).
Proof.
  revert l. induction r as [| |f|r1 IH1 r2 IH2|r1 IH1 r2 IH2|r IH]; intros l; simpl.
  - split; intros H; inv H.
  - split; intros H; inv H.
  - destruct (f c) eqn:E; split; intros H; inv H; [by constructor | constructor | congruence].
  - assert (lang (RSeq (deriv c r1) r2) l <->
            exists l1 l2, l = l1 ++ l2 /\ lang r1 (c :: l1) /\ lang r2 l2) as Hs.
    { split.
      - intros H. inversion H as [| |? ? l1 l2 H1 H2| | | |]; subst.
        exists l1, l2. by rewrite <- IH1.
      - intros (l1 & l2 & -> & H1 & H2). constructor; [by apply IH1 | done]. }
    assert (lang (RSeq r1 r2) (c :: l) <->
            (exists l1 l2, l = l1 ++ l2 /\ lang r1 (c :: l1) /\ lang r2 l2) \/
            (lang r1 [] /\ lang r2 (c :: l))) as Hc.
    { split.
      - intros H. inversion H as [| |? ? l1 l2 H1 H2 E El| | | |]; subst.
        destruct l1 as [|d l1]; simpl in *; [by right; subst|].
        injection El as -> <-. left. by exists l1, l2.
      - intros [(l1 & l2 & -> & H1 & H2)|[H1 H2]].
        + by apply (lang_seq r1 r2 (c :: l1) l2).
        + by apply (lang_seq r1 r2 [] (c :: l)). }
    rewrite Hc. destruct (nullable r1) eqn:E.
    + apply nullable_spec in E. split.
      * intros H. inv H; [left; by apply Hs | right; by rewrite <- IH2].
      * intros [H|[_ H]]; [apply lang_alt_l; by apply Hs | apply lang_alt_r; by apply IH2].
    + rewrite Hs. split; [by left|]. intros [H|[H _]]; [done|].
      apply nullable_spec in H. congruence.
  - split; intros H; inv H.
    + apply lang_alt_l. by apply IH1.
    + apply lang_alt_r. by apply IH2.
    + apply lang_alt_l. by apply IH1.
    + apply lang_alt_r. by apply IH2.
  - split.
    + intros H. inversion H as [| |? ? l1 l2 H1 H2| | | |]; subst.
      apply (lang_star_app r (c :: l1) l2); [by apply IH | done].
    + intros (l1 & l2 & -> & H1 & H2)%star_cons. constructor; [by apply IH | done].
Qed.

Lemma regex_match_spec l r : regex_match l r = true <-> lang r l.
Proof.
  revert r. induction l as [|c l IH]; intros r; simpl; [apply nullable_spec|].
  by rewrite IH, deriv_spec.
Qed.

(** ** What the three patterns accept, field by field *)

(** The fields of a text between the occurrences of a separator. *)
Fixpoint split_on (sep : ascii) (l : list ascii) : list (list ascii) :=
  match l with
  | [] => [[]]
  | c :: l' =>
      if Ascii.eqb sep c then [] :: split_on sep l'
      else match split_on sep l' with
           | [] => [[c]]
           | f :: fs => (c :: f) :: fs
           end
  end.

Definition digits_between (n m : nat) (l : list ascii) : bool :=
  (n <=? length l)%nat && (length l <=? m)%nat && forallb isdigit l.

(** A name: labels of letters, digits and hyphens, none empty, with dots between. *)
Definition is_domain (l : list ascii) : bool :=
  forallb (fun f => negb (length f =? 0)%nat && forallb label_char f) (split_on dot l).

(** Four numbers of one to three digits, not bounded by 255. *)
Definition is_ipv4 (l : list ascii) : bool :=
  (length (split_on dot l) =? 4)%nat && forallb (digits_between 1 3) (split_on dot l).

(** Four numbers, a slash and one or two digits. *)
Definition is_subnet (l : list ascii) : bool :=
  match split_on slash l with
  | [addr; len] => is_ipv4 addr && digits_between 1 2 len
  | _ => false
  end.

(** Fields, each followed by the separator. *)
Definition ended (sep : ascii) (fs : list (list ascii)) : list ascii := concat ((fun f => f ++ [sep]) <$> fs).

Definition free_of (sep : ascii) (l : list ascii) : Prop := Forall (fun c => c ≠ sep) l.

Lemma split_on_free sep l : free_of sep l -> split_on sep l = [l].
Proof.
  induction 1 as [|c l Hc _ IH]; [done|]. cbn [split_on]. rewrite IH.
  destruct (Ascii.eqb_spec sep c); [congruence | done].
Qed.

Lemma split_on_sep sep f l : free_of sep f -> split_on sep (f ++ sep :: l) = f :: split_on sep l.
Proof.
  induction 1 as [|c f Hc _ IH]; cbn [app split_on].
  - by rewrite Ascii.eqb_refl.
  - rewrite IH. destruct (Ascii.eqb_spec sep c); [congruence | done].
Qed.

Lemma split_on_ended sep fs f :
  Forall (free_of sep) fs -> free_of sep f -> split_on sep (ended sep fs ++ f) = fs ++ [f].
Proof.
  intros Hfs Hf. induction Hfs as [|g fs Hg _ IH]; [by apply split_on_free|].
  unfold ended in *. cbn [fmap list_fmap concat]. rewrite <- !(assoc_L (++)). cbn [app].
  rewrite split_on_sep by done. by rewrite IH.
Qed.

(** A text is its fields put together again. *)
Lemma split_on_join sep l :
  exists fs f, split_on sep l = fs ++ [f] /\ l = ended sep fs ++ f /\
    Forall (free_of sep) fs /\ free_of sep f.
Proof.
  induction l as [|c l (fs & f & Hs & Hl & Hfs & Hf)]; cbn [split_on].
  { exists [], []. repeat split; constructor. }
  rewrite Hs. destruct (Ascii.eqb_spec sep c) as [<-|Hne].
  - exists ([] :: fs), f. split; [done|]. split; [by rewrite Hl at 1|]. split; [by repeat constructor | done].
  - destruct fs as [|g fs]; cbn [app].
    + exists [], (c :: f). split; [done|]. split; [by rewrite Hl|]. split; [done | by constructor; [congruence|]].
    + exists ((c :: g) :: fs), f. split; [done|]. split; [by rewrite Hl|]. split; [|done].
      apply Forall_cons in Hfs as [Hg Hfs]. constructor; [by constructor; [congruence|] | done].
Qed.

(** *** Inversion of the language *)

Lemma lang_seq_iff r1 r2 l :
  lang (RSeq r1 r2) l <-> exists l1 l2, l = l1 ++ l2 /\ lang r1 l1 /\ lang r2 l2.
Proof.
  split; [|intros (l1 & l2 & -> & H1 & H2); by constructor].
  intros H. inversion H as [| |? ? l1 l2 H1 H2| | | |]; subst. by exists l1, l2.
Qed.

Lemma lang_set_iff f l : lang (RSet f) l <-> exists c, l = [c] /\ f c = true.
Proof. split; [|intros (c & -> & H); by constructor]. intros H. inv H; eauto. Qed.

Lemma lang_char_iff c l : lang (RChar c) l <-> l = [c].
Proof.
  unfold RChar. rewrite lang_set_iff. split.
  - by intros (d & -> & ->%Ascii.eqb_eq).
  - intros ->. exists c. by rewrite Ascii.eqb_refl.
Qed.

Lemma lang_alt_iff r1 r2 l : lang (RAlt r1 r2) l <-> lang r1 l \/ lang r2 l.
Proof. split; [intros H; inv H; auto | intros [H|H]; [by apply lang_alt_l | by apply lang_alt_r]]. Qed.

Lemma lang_eps_iff l : lang REps l <-> l = [].
Proof. split; [by intros H; inv H | intros ->; constructor]. Qed.

Lemma lang_times_set n f l :
  lang (RTimes n (RSet f)) l <-> length l = n /\ forallb f l = true.
Proof.
  revert l. induction n as [|n IH]; intros l; cbn [RTimes].
  - rewrite lang_eps_iff. destruct l; simpl; [done|]. split; [done | by intros [? _]].
  - rewrite lang_seq_iff. split.
    + intros (l1 & l2 & -> & (c & -> & Hc)%lang_set_iff & [Hn Hl]%IH). simpl. by rewrite Hn, Hc.
    + destruct l as [|c l]; simpl; [by intros [? _]|]. intros [Hn [Hc Hl]%andb_true_iff].
      exists [c], l. split; [done|]. split; [by apply lang_set_iff; eauto | apply IH; auto].
Qed.

Lemma lang_upto_set k f l :
  lang (RUpTo k (RSet f)) l <-> (length l <= k)%nat /\ forallb f l = true.
Proof.
  revert l. induction k as [|k IH]; intros l; cbn [RUpTo].
  - rewrite lang_eps_iff. destruct l; simpl; [split; [split; [lia|done]|done]|]. split; [done | intros [? _]; lia].
  - rewrite lang_alt_iff, lang_eps_iff, lang_seq_iff. split.
    + intros [->|(l1 & l2 & -> & (c & -> & Hc)%lang_set_iff & [Hn Hl]%IH)]; simpl; [split; [lia|done]|].
      rewrite Hc. split; [lia | done].
    + destruct l as [|c l]; simpl; [by left|]. intros [Hn [Hc Hl]%andb_true_iff]. right.
      exists [c], l. split; [done|]. split; [by apply lang_set_iff; eauto | apply IH; split; [lia|done]].
Qed.

Lemma lang_between_set n m f l : (n <= m)%nat ->
  lang (RBetween n m (RSet f)) l <-> ((n <= length l)%nat /\ (length l <= m)%nat) /\ forallb f l = true.
Proof.
  intros Hnm. unfold RBetween. rewrite lang_seq_iff. split.
  - intros (l1 & l2 & -> & [H1 F1]%lang_times_set & [H2 F2]%lang_upto_set).
    rewrite length_app, forallb_app, F1, F2. split; [lia | done].
  - intros [[H1 H2] Hf]. exists (take n l), (drop n l). split; [by rewrite take_drop|].
    rewrite <- (take_drop n l), forallb_app in Hf. apply andb_true_iff in Hf as [F1 F2].
    split; [apply lang_times_set | apply lang_upto_set]; (split; [|done]);
      rewrite ?length_take, ?length_drop; lia.
Qed.

Lemma digits_between_lang n m l : (n <= m)%nat ->
  lang (RBetween n m (RSet isdigit)) l <-> digits_between n m l = true.
Proof.
  intros Hnm. rewrite lang_between_set by done. unfold digits_between.
  by rewrite !andb_true_iff, !Nat.leb_le.
Qed.

Lemma lang_star_set f l : lang (RStar (RSet f)) l <-> forallb f l = true.
Proof.
  induction l as [|c l IH]; simpl; [split; [done | intros _; constructor]|].
  rewrite andb_true_iff, <- IH. split.
  - intros (l1 & l2 & -> & (d & [= -> ->] & Hd)%lang_set_iff & H2)%star_cons. done.
  - intros [Hc Hl]. apply (lang_star_app _ [c] l); [by constructor | done].
Qed.

(** A sequence of fields, each matching [r] and followed by the separator. *)
Lemma lang_times_ended n r sep l :
  lang (RTimes n (RSeq r (RChar sep))) l <->
  exists fs, length fs = n /\ Forall (lang r) fs /\ l = ended sep fs.
Proof.
  revert l. induction n as [|n IH]; intros l; cbn [RTimes].
  - rewrite lang_eps_iff. split; [intros ->; by exists [] | by intros ([|] & Hn & _ & ->)].
  - rewrite lang_seq_iff. split.
    + intros (l1 & l2 & -> & (f & e & -> & Hf & ->%lang_char_iff)%lang_seq_iff & (fs & Hn & Hfs & ->)%IH).
      exists (f :: fs). split; [by simpl; rewrite Hn|]. split; [by constructor | done].
    + intros ([|f fs] & Hn & Hfs & ->); [done|]. apply Forall_cons in Hfs as [Hf Hfs].
      exists (f ++ [sep]), (ended sep fs). split; [done|]. split.
      * apply lang_seq_iff. exists f, [sep]. by rewrite lang_char_iff.
      * apply IH. exists fs. injection Hn as Hn. done.
Qed.

Lemma lang_star_ended r sep l :
  lang (RStar (RSeq r (RChar sep))) l <-> exists fs, Forall (lang r) fs /\ l = ended sep fs.
Proof.
  split.
  - remember (RStar (RSeq r (RChar sep))) as rs eqn:Er. intros H.
    induction H as [| | | | |r'|r' l1 l2 H1 IH1 H2 IH2]; try done; [by exists []|].
    injection Er as ->. destruct (IH2 eq_refl) as (fs & Hfs & ->).
    apply lang_seq_iff in H1 as (f & e & -> & Hf & ->%lang_char_iff).
    exists (f :: fs). split; [by constructor | done].
  - intros (fs & Hfs & ->). induction Hfs as [|f fs Hf _ IH]; [constructor|].
    apply (lang_star_app _ (f ++ [sep])); [|done]. apply lang_seq_iff. exists f, [sep].
    by rewrite lang_char_iff.
Qed.

(** *** The patterns *)

Section Fields.
Context (r : regex) (ok : list ascii -> bool) (sep : ascii).
Context (Hok : forall f, lang r f <-> ok f = true).
Context (Hfree : forall f, ok f = true -> free_of sep f).

Lemma lang_fields_ok fs : Forall (lang r) fs <-> forallb ok fs = true.
Proof.
  induction fs as [|f fs IH]; simpl; [done|]. by rewrite Forall_cons, andb_true_iff, IH, Hok.
Qed.

Lemma forallb_free fs : forallb ok fs = true -> Forall (free_of sep) fs.
Proof. intros H. apply Forall_forall. intros f Hf. apply Hfree. rewrite forallb_forall in H. by apply H, list_elem_of_In. Qed.

Lemma fields_star l :
  lang (RSeq (RStar (RSeq r (RChar sep))) r) l <-> forallb ok (split_on sep l) = true.
Proof.
  rewrite lang_seq_iff. split.
  - intros (l1 & f & -> & (fs & Hfs%lang_fields_ok & ->)%lang_star_ended & Hf%Hok).
    rewrite split_on_ended by (by apply forallb_free || by apply Hfree).
    by rewrite forallb_app, Hfs; simpl; rewrite Hf.
  - destruct (split_on_join sep l) as (fs & f & -> & Hl & _). rewrite forallb_app. simpl.
    rewrite !andb_true_iff. intros (Hfs & Hf & _). exists (ended sep fs), f.
    split; [done|]. split; [|by apply Hok]. apply lang_star_ended. exists fs. by rewrite lang_fields_ok.
Qed.

Lemma fields_times n l :
  lang (RSeq (RTimes n (RSeq r (RChar sep))) r) l <->
  length (split_on sep l) = S n /\ forallb ok (split_on sep l) = true.
Proof.
  rewrite lang_seq_iff. split.
  - intros (l1 & f & -> & (fs & Hn & Hfs%lang_fields_ok & ->)%lang_times_ended & Hf%Hok).
    rewrite split_on_ended by (by apply forallb_free || by apply Hfree).
    rewrite forallb_app, Hfs, length_app. simpl. rewrite Hf. split; [lia | done].
  - destruct (split_on_join sep l) as (fs & f & -> & Hl & _). rewrite forallb_app, length_app. simpl.
    rewrite !andb_true_iff. intros (Hn & Hfs & Hf & _). exists (ended sep fs), f.
    split; [done|]. split; [|by apply Hok]. apply lang_times_ended. exists fs.
    rewrite lang_fields_ok. split; [lia | done].
Qed.

End Fields.

Definition label_ok (f : list ascii) : bool := negb (length f =? 0)%nat && forallb label_char f.

Lemma lang_label f : lang label f <-> label_ok f = true.
Proof.
  unfold label, label_ok. rewrite lang_seq_iff, andb_true_iff. split.
  - intros (l1 & l2 & -> & (c & -> & Hc)%lang_set_iff & H%lang_star_set). simpl. by rewrite Hc, H.
  - destruct f as [|c f]; simpl; [by intros [? _]|]. intros [_ [Hc Hf]%andb_true_iff].
    exists [c], f. split; [done|]. split; [by constructor | by apply lang_star_set].
Qed.

Lemma forallb_free_of (p : ascii -> bool) sep l : p sep = false -> forallb p l = true -> free_of sep l.
Proof.
  intros Hsep H. apply Forall_forall. intros c Hc ->. rewrite forallb_forall in H.
  rewrite H in Hsep; [done | by apply list_elem_of_In].
Qed.

Lemma digits_free n m sep l : isdigit sep = false -> digits_between n m l = true -> free_of sep l.
Proof. unfold digits_between. intros Hs [_ H]%andb_true_iff. by eapply forallb_free_of. Qed.

Lemma label_free l : label_ok l = true -> free_of dot l.
Proof. unfold label_ok. intros [_ H]%andb_true_iff. by apply (forallb_free_of label_char). Qed.

Lemma lang_ipv4 l : lang ipv4_regex l <-> is_ipv4 l = true.
Proof.
  unfold ipv4_regex, is_ipv4. rewrite (fields_times octet (digits_between 1 3) dot).
  - by rewrite andb_true_iff, Nat.eqb_eq.
  - intros f. unfold octet. apply digits_between_lang. lia.
  - intros f. by apply digits_free.
Qed.

Lemma free_of_ended sep c fs : c ≠ sep -> Forall (free_of sep) fs -> free_of sep (ended c fs).
Proof.
  intros Hc. unfold ended. induction 1 as [|f fs Hf _ IH]; [constructor|].
  apply Forall_app. split; [|done]. apply Forall_app. split; [done | by constructor].
Qed.

Lemma ipv4_free_slash l : is_ipv4 l = true -> free_of slash l.
Proof.
  unfold is_ipv4. intros [_ H]%andb_true_iff.
  destruct (split_on_join dot l) as (fs & f & Hs & -> & _). rewrite Hs in H.
  assert (Forall (free_of slash) (fs ++ [f])) as Hf.
  { apply Forall_forall. intros g Hg. rewrite forallb_forall in H.
    apply (digits_free 1 3); [done|]. apply H. by apply list_elem_of_In. }
  apply Forall_app in Hf as [Hfs Hf]. apply Forall_app. split; [by apply free_of_ended | by inv Hf].
Qed.

Lemma lang_subnet l : lang subnet_regex l <-> is_subnet l = true.
Proof.
  assert (lang subnet_regex l <->
    exists a n, l = a ++ slash :: n /\ is_ipv4 a = true /\ digits_between 1 2 n = true) as ->.
  { unfold subnet_regex. rewrite lang_seq_iff. split.
    - intros (l1 & l2 & -> & H1 & (o & l3 & -> & Ho & (s & n & -> & ->%lang_char_iff & Hn)%lang_seq_iff)%lang_seq_iff).
      exists (l1 ++ o), n. split; [by rewrite <- (assoc_L (++))|].
      split; [|apply digits_between_lang; [lia|done]]. apply lang_ipv4. by constructor.
    - intros (a & n & -> & (l1 & o & -> & H1 & Ho)%lang_ipv4%lang_seq_iff & Hn).
      exists l1, (o ++ slash :: n). split; [by rewrite <- (assoc_L (++))|]. split; [done|].
      apply lang_seq_iff. exists o, (slash :: n). split; [done|]. split; [done|].
      apply lang_seq_iff. exists [slash], n. rewrite lang_char_iff. split; [done|]. split; [done|].
      apply digits_between_lang; [lia|done]. }
  unfold is_subnet. split.
  - intros (a & n & -> & Ha & Hn). rewrite split_on_sep by (by apply ipv4_free_slash).
    rewrite split_on_free by (by eapply digits_free). by rewrite Ha, Hn.
  - destruct (split_on_join slash l) as (fs & f & Hs & Hl & _). rewrite Hs.
    destruct fs as [|a [|b [|]]]; simpl; try done; intros [Ha Hf]%andb_true_iff.
    exists a, f. split; [|done]. rewrite Hl. unfold ended. simpl. by rewrite app_nil_r, <- (assoc_L (++)).
Qed.

Lemma lang_domain l : lang domain_regex l <-> is_domain l = true.
Proof. apply (fields_star label label_ok dot lang_label label_free). Qed.

Lemma ipv4_is_domain l : is_ipv4 l = true -> is_domain l = true.
Proof.
  unfold is_ipv4, is_domain. intros [_ H]%andb_true_iff. rewrite !forallb_forall in *.
  intros f Hf. specialize (H f Hf). unfold digits_between in H.
  rewrite !andb_true_iff, Nat.leb_le in H. destruct H as [[H1 _] H2].
  apply andb_true_iff. split.
  - apply negb_true_iff, Nat.eqb_neq. lia.
  - rewrite forallb_forall in *. intros c Hc. unfold label_char. by rewrite (H2 c Hc).
Qed.

Definition accepted_rule (line : string) : bool := is_domain (chars line) || is_subnet (chars line).

Lemma rule_kind_of_eq line :
  rule_kind_of line =
  if is_ipv4 (chars line) then KIpv4
  else if is_domain (chars line) then KDomain
  else if is_subnet (chars line) then KSubnet else KUnrecognized.
Proof.
  unfold rule_kind_of.
  assert (forall r p, (forall l, lang r l <-> p l = true) -> regex_match (chars line) r = p (chars line)) as H.
  { intros r p Hp. apply eq_true_iff_eq. by rewrite regex_match_spec, Hp. }
  by rewrite (H _ _ lang_ipv4), (H _ _ lang_domain), (H _ _ lang_subnet).
Qed.

Lemma rule_kind_accepted line :
  accepted_rule line = match rule_kind_of line with KUnrecognized => false | _ => true end.
Proof.
  rewrite rule_kind_of_eq. unfold accepted_rule.
  destruct (is_ipv4 _) eqn:E; [by rewrite (ipv4_is_domain _ E)|].
  destruct (is_domain _); [done|]. by destruct (is_subnet _).
Qed.

(** A character no field has, and that is not the separator, is not in the text. *)
Lemma free_of_fields sep c l :
  c ≠ sep -> Forall (free_of sep) (split_on c l) -> free_of sep l.
Proof.
  destruct (split_on_join c l) as (fs & f & -> & Hl & _). intros Hc [Hfs Hf]%Forall_app.
  rewrite Hl. apply Forall_app. split; [by apply free_of_ended | by inv Hf].
Qed.

Lemma domain_free sep l : label_char sep = false -> dot ≠ sep -> is_domain l = true -> free_of sep l.
Proof.
  intros Hs Hd H. apply (free_of_fields sep dot); [done|]. apply Forall_forall. intros f Hf.
  unfold is_domain in H. rewrite forallb_forall in H.
  apply list_elem_of_In, H, andb_true_iff in Hf as [_ Hf]. by apply (forallb_free_of label_char).
Qed.

Lemma subnet_free sep l :
  label_char sep = false -> isdigit sep = false -> dot ≠ sep -> slash ≠ sep ->
  is_subnet l = true -> free_of sep l.
Proof.
  intros Hs Hi Hd Hsl H. apply (free_of_fields sep slash); [done|]. unfold is_subnet in H.
  destruct (split_on slash l) as [|a [|n [|]]]; try done. apply andb_true_iff in H as [Ha Hn].
  apply Forall_cons; split; [by apply domain_free, ipv4_is_domain|].
  apply Forall_singleton. by apply (digits_free 1 2).
Qed.

(** An accepted rule has only characters the table stores and gives back. *)
Lemma accepted_storable line :
  accepted_rule line = true -> Z.of_nat (String.length line) < MAX_RULE_LENGTH -> storable line.
Proof.
  intros H Hl. split; [done|].
  assert (free_of NUL (chars line) /\ free_of LF (chars line)) as [H1 H2].
  { unfold accepted_rule in H. apply orb_true_iff in H as [H|H].
    - split; by apply domain_free.
    - split; by apply subnet_free. }
  unfold free_of in *. rewrite Forall_forall in *. auto.
Qed.

Lemma patterns_spec l :
  regex_match l ipv4_regex = is_ipv4 l /\ regex_match l domain_regex = is_domain l /\
  regex_match l subnet_regex = is_subnet l.
Proof.
  repeat split; apply eq_true_iff_eq; rewrite regex_match_spec;
    [apply lang_ipv4 | apply lang_domain | apply lang_subnet].
Qed.

(** ** Reading a rules file *)

Section RulesFacts.
Context `{B : Build} `{N : Bound} `{K : Kernel}.

(** The trimmed lines of a file that name a host, an address or a subnet. *)
Definition accepted_rules (text : string) : list string :=
  filter (fun l => accepted_rule l = true) (trim_rule <$> getlines text).

Definition all_recognized (text : string) : bool :=
  forallb accepted_rule (trim_rule <$> getlines text).

(** In the library a rule is added or refused; either way the caller goes on. *)
Lemma add_rule_ok r s z fw :
  set_firewall_rule r (fw_rules (opt s)) = Ok (z, fw) ->
  add_rule r s = (Ok z, s <| opt ::= fun o => o <| fw_rules := fw |> |>).
Proof. intros H. unfold add_rule, get_opt, gets, mbind, prog_bind. by rewrite H. Qed.

Lemma allow_rule_ok f1 l1 f2 l2 r s z fw :
  LIBMINISANDBOX = true -> is_running (opt s) = NOT_RUNNING ->
  set_firewall_rule r (fw_rules (opt s)) = Ok (z, fw) ->
  exists z' s', if_not_started f1 l1
      (res ← add_rule r;
       if res <? 0 then MiniSbxReportError f2 l2 IllegalNetworkConfiguration else mret 0) s = (Ok z', s') /\
    opt s' = (opt s) <| fw_rules := fw |>.
Proof.
  intros Hlib Hrun Hadd. rewrite if_not_started_run by done.
  rewrite (bind_ok _ _ _ _ _ (add_rule_ok _ _ _ _ Hadd)).
  destruct (z <? 0); [|by eexists _, _]. unfold MiniSbxReportError.
  rewrite report_returns by (by rewrite Hlib). by eexists _, _.
Qed.

Lemma allow_line_ok line s z fw :
  LIBMINISANDBOX = true -> is_running (opt s) = NOT_RUNNING ->
  accepted_rule (trim_rule line) = true ->
  set_firewall_rule (trim_rule line) (fw_rules (opt s)) = Ok (z, fw) ->
  exists s', allow_line line s = (Ok true, s') /\ opt s' = (opt s) <| fw_rules := fw |>.
Proof.
  intros Hlib Hrun Hacc Hadd. rewrite rule_kind_accepted in Hacc. unfold allow_line. cbv zeta.
  destruct (rule_kind_of (trim_rule line)); try done.
  all: unfold MiniSbxAllowIpv4Subnet; unfold MiniSbxAllowIpv4, MiniSbxAllowDomain;
    unfold mbind at 1, prog_bind at 1; rewrite ?(if_not_started_run "MiniSbxAllowIpv4Subnet") by done.
  all: match goal with |- context [if_not_started ?f1 ?l1 (_ ← _; if _ then MiniSbxReportError ?f2 ?l2 _ else _)] =>
    destruct (allow_rule_ok f1 l1 f2 l2 _ s z fw Hlib Hrun Hadd) as (z' & s' & -> & Ho) end.
  all: by exists s'.
Qed.

Lemma allow_lines_ok lines res s fw :
  LIBMINISANDBOX = true -> is_running (opt s) = NOT_RUNNING ->
  fw_run (fw_rules (opt s)) (OpRule <$> filter (fun l => accepted_rule l = true) (trim_rule <$> lines)) = Ok fw ->
  exists s', allow_lines lines res s =
      (Ok (if forallb accepted_rule (trim_rule <$> lines) then res else -1), s') /\
    opt s' = (opt s) <| fw_rules := fw |>.
Proof.
  intros Hlib. revert res s. induction lines as [|line lines IH]; intros res s Hrun Hfw.
  { injection Hfw as <-. exists s. split; [done|]. by destruct (opt s). }
  cbn [allow_lines fmap list_fmap forallb]. rewrite fmap_cons, filter_cons in Hfw.
  destruct (decide (accepted_rule (trim_rule line) = true)) as [Hacc|Hacc].
  - rewrite Hacc. cbn [fmap list_fmap fw_run fw_step] in Hfw.
    destruct (set_firewall_rule _ _) as [[z fw1]|] eqn:Hadd; [|done].
    destruct (allow_line_ok line s z fw1 Hlib Hrun Hacc Hadd) as (s1 & H1 & Ho).
    rewrite (bind_ok _ _ _ _ _ H1). destruct (IH res s1) as (s2 & H2 & Ho2).
    { by rewrite Ho. } { by rewrite Ho. }
    exists s2. split; [done|]. by rewrite Ho2, Ho.
  - apply not_true_is_false in Hacc. rewrite Hacc.
    assert (allow_line line s = (Ok false, s)) as H1.
    { rewrite rule_kind_accepted in Hacc. unfold allow_line. cbv zeta. by destruct (rule_kind_of _). }
    rewrite (bind_ok _ _ _ _ _ H1). destruct (IH (-1) s Hrun Hfw) as (s2 & H2 & Ho2).
    exists s2. rewrite H2. split; [by destruct (forallb _ _) | done].
Qed.

Lemma ValidateFilePath_regular path s dev :
  kstat (kern s) path = inr (mkStat FRegular dev) -> ValidateFilePath path s = (Ok 0, s).
Proof.
  intros H. unfold ValidateFilePath, catch_fs, try_catch, fs_exists, fs_is_regular_file, mbind, prog_bind.
  rewrite !test_status_eq. unfold status_of. rewrite H. cbn [st_type negb]. rewrite test_status_eq, H. done.
Qed.

Lemma AllowConnections_ok path text dev s fw :
  LIBMINISANDBOX = true -> is_running (opt s) = NOT_RUNNING ->
  kstat (kern s) path = inr (mkStat FRegular dev) -> kcontents (kern s) path = Some text ->
  fw_run (fw_rules (opt s)) (OpRule <$> accepted_rules text) = Ok fw ->
  exists s', MiniSbxAllowConnections path s = (Ok (if all_recognized text then 0 else -1), s') /\
    opt s' = (opt s) <| fw_rules := fw |>.
Proof.
  intros Hlib Hrun Hst Htext Hfw. unfold MiniSbxAllowConnections. rewrite if_not_started_run by done.
  rewrite (bind_ok _ _ _ _ _ (ValidateFilePath_regular _ _ _ Hst)). cbn [Z.ltb Z.compare].
  unfold query, gets, mbind, prog_bind. rewrite Htext. by apply allow_lines_ok.
Qed.

Lemma DumpRules_writes fw file text s :
  empty file = false -> dump_text fw = Ok text ->
  (forall k, failed (fst (ksys k (Open file (Z.lor O_WRONLY (Z.lor O_CREAT O_TRUNC)) 438))) = false) ->
  exists r1 r2 r3 s', DumpRules fw file s = (Ok tt, s') /\
    trace s' = (Close (r_ret r1), r3) :: (Write (r_ret r1) (of_chars text), r2) ::
      (Open file (Z.lor O_WRONLY (Z.lor O_CREAT O_TRUNC)) 438, r1) :: trace s.
Proof.
  intros Hf Ht Ho. unfold DumpRules, sys, mbind, prog_bind. rewrite Hf, Ht. specialize (Ho (kern s)).
  destruct (ksys (kern s) _) as [r1 k1] eqn:E1. cbn [fst] in Ho. rewrite Ho.
  cbn [kern map_field set_kern set_trace].
  destruct (ksys k1 _) as [r2 k2]. cbn [kern map_field set_kern set_trace].
  destruct (ksys k2 _) as [r3 k3]. by exists r1, r2, r3; eexists.
Qed.

End RulesFacts.

(** ** Properties *)

(** C37: the three regular expressions decide what their fields say: an address
    is four dot-separated numbers of one to three digits (with no bound of
    255), a domain is dot-separated labels of letters, digits and hyphens none
    of which is empty, a subnet is an address, a slash and one or two digits. *)
Theorem rule_patterns l :
  regex_match l ipv4_regex = is_ipv4 l /\ regex_match l domain_regex = is_domain l /\
  regex_match l subnet_regex = is_subnet l.
Proof. apply patterns_spec. Qed.

Section Properties.
Context `{B : Build} `{N : Bound} `{K : Kernel}.


(** The calls of an application that allows a file and starts the tap mode. *)
Definition allow_and_dump (path file : string) : prog proc Z :=
  res ← MiniSbxAllowConnections path;
  fw ← get_opt fw_rules;
  _ ← DumpRules fw file;
  mret res.

(** The policy file minitap reads holds what the rules file allowed: starting
    from the initial options, with at most MAX_RULES accepted lines each
    shorter than a row, the last calls made are the opening of the policy file,
    one write and the close, and the lines written are the bound -1 followed by
    the accepted lines. *)
Lemma allow_and_dump_run path file text dev s :
  LIBMINISANDBOX = true -> opt s = initial_options -> empty file = false ->
  kstat (kern s) path = inr (mkStat FRegular dev) -> kcontents (kern s) path = Some text ->
  Z.of_nat (length (accepted_rules text)) <= MAX_RULES ->
  Forall (fun r => Z.of_nat (String.length r) < MAX_RULE_LENGTH) (accepted_rules text) ->
  (forall k, failed (fst (ksys k (Open file (Z.lor O_WRONLY (Z.lor O_CREAT O_TRUNC)) 438))) = false) ->
  exists fd policy r1 r2 r3 s' t, allow_and_dump path file s =
      (Ok (if all_recognized text then 0 else -1), s') /\
    trace s' = (Close fd, r3) :: (Write fd policy, r2) ::
      (Open file (Z.lor O_WRONLY (Z.lor O_CREAT O_TRUNC)) 438, r1) :: t /\
    getlines policy = "-1" :: accepted_rules text.
Proof.
  intros Hlib Hopt Hfile Hst Htext Hn Hlen Hopen.
  assert (Forall storable (accepted_rules text)) as Hstor.
  { apply Forall_forall. intros r Hr. apply accepted_storable; [|rewrite Forall_forall in Hlen; auto].
    unfold accepted_rules in Hr. by apply list_elem_of_filter in Hr as [Hr _]. }
  destruct (dump_lines _ Hstor Hn) as (fw & policy & Hrun & Hdump & Hlines).
  destruct (AllowConnections_ok path text dev s fw) as (s1 & H1 & Ho1); rewrite ?Hopt; try done.
  unfold allow_and_dump. rewrite (bind_ok _ _ _ _ _ H1). unfold get_opt, gets.
  unfold mbind at 1, prog_bind at 1. rewrite Ho1. cbn [fw_rules map_field set_fw_rules].
  destruct (DumpRules_writes fw file policy s1 Hfile Hdump Hopen) as (r1 & r2 & r3 & s2 & H2 & Ht).
  rewrite (bind_ok _ _ _ _ _ H2). by eexists _, _, _, _, _, _, _.
Qed.

End Properties.

(** *** Instances *)

Definition rules_text_example : string :=
  "www.example.org" +:+ String LF ("  10.0.0.1 " +:+ String LF ("192.168.0.0/16" +:+ String LF "")).

Definition rules_sim : sim :=
  empty_sim <| sim_nodes ::= insert "/rules" FRegular |> <| sim_texts ::= insert "/rules" rules_text_example |>.

