(* ===== verification/Logging.v ===== *)
(** * The debug log (src/mini_sandbox/src/main/tools/logging.h, logging.cc, and dumpOpt of linux-sandbox-pid1.cc)

    A message of PRINT_DEBUG is one write to the file of the log, when it is
    open, and nothing else: this is why the other files leave the messages out.
    LogSystem, which the start of the sandbox calls first, is a sequence of
    them. *)

From S2P Require Import Prelude Monad CxxString FsPath Firewall Kernel SimKernel State Fs Errors ProcessTools.
From Stdlib Require Import Ascii.
Open Scope sbx_scope.
Open Scope Z_scope.

Record utsname := mkUtsname { sysname : string; release : string; version : string; machine : string }.

(** What the log asks the system, the C library and the compiler; the text of an
    exception. *)
Class LogHost `{K : Kernel} := {
  clock_gettime : kstate -> Z * Z;        (** seconds and nanoseconds *)
  uname : kstate -> option utsname;
  gnu_get_libc_version : string;
  GLIBCXX_RELEASE : option Z;             (** [_GLIBCXX_RELEASE], when it is defined *)
  GLIBCXX : option Z;
  FILE : string -> string;                (** [__FILE__] of a source file *)
  what : string;
  DEBUG : bool
}.

(** ["%09ld"] *)
Definition pad9 (n : Z) : string :=
  let s := to_string n in of_chars (replicate (9 - String.length s) "0"%char) +:+ s.

(** ["%" PRId64 ".%09ld: %s:%d: " fmt "\n"] *)
Definition log_line (ts : Z * Z) (file : string) (line : Z) (msg : string) : string :=
  to_string ts.1 +:+ "." +:+ pad9 ts.2 +:+ ": " +:+ file +:+ ":" +:+ to_string line +:+ ": " +:+ msg +:+ String LF "".

Section Logging.
Context `{N : Bound} `{K : Kernel} {H : LogHost}.

Definition PRINT_DEBUG (file : string) (line : Z) (msg : string) : prog proc unit :=
  log ← gets global_debug;
  match log with
  | None => mret tt
  | Some fd =>
      ts ← query clock_gettime;
      _ ← sys (Write fd (log_line ts (FILE file) line msg));
      mret tt
  end.

Definition GetKernelInfo : prog proc (option utsname) := query uname.

(** The messages of logging.cc. *)
Definition log (line : Z) (msg : string) : prog proc unit := PRINT_DEBUG "logging.cc" line msg.

(** The message of [perror] goes to the error output. *)
Definition logOSKernel : prog proc unit :=
  res ← GetKernelInfo;
  match res with
  | Some buf =>
      _ ← log 33 ("OS: " +:+ sysname buf);
      _ ← log 34 ("Kernel: " +:+ release buf);
      _ ← log 35 ("Version: " +:+ version buf);
      log 36 ("Machine: " +:+ machine buf)
  | None => mret tt
  end.

Definition logLibc : prog proc unit := log 44 ("libc: " +:+ gnu_get_libc_version).

Definition log_number (line : Z) (name : string) (n : option Z) : prog proc unit :=
  match n with Some z => log line (name +:+ ": " +:+ to_string z) | None => mret tt end.

Definition logLibstdcpp : prog proc unit :=
  _ ← log_number 50 "libstdc++ release" GLIBCXX_RELEASE;
  log_number 54 "__GLIBCXX__" GLIBCXX.

Definition logOSName : prog proc unit :=
  catch_std
    ('(ok, pretty, version) ← GetOSName;
     if negb ok then log 65 "Can't log OS info: /etc/os-release missing or keys not found"
     else
       _ ← (if negb (empty pretty) then log 70 ("OS PRETTY_NAME: " +:+ pretty) else log 72 "OS PRETTY_NAME not found");
       if negb (empty version) then log 76 ("OS VERSION_ID: " +:+ version) else log 78 "OS VERSION_ID not found")
    (log 81 ("Can't log OS info (exception): " +:+ what)).

Definition LogSystem : prog proc unit :=
  _ ← logOSKernel;
  _ ← logOSName;
  _ ← logLibc;
  logLibstdcpp.

(** ** The dump of the options *)

(** [std::boolalpha] is set when the first flag is printed, and stays. *)
Definition bool_text (b : bool) : string := if b then "true" else "false".
Definition dump_list (l : list string) : string := String.concat "" ((fun f => f +:+ " ") <$> l).
Definition NL : string := String LF "".

(** What [dumpOpt] puts on the standard output. *)
Definition dumpOpt (o : Options) : string :=
  if negb DEBUG then ""
  else
    "Working Directory: " +:+ working_dir o +:+ NL +:+
    "Timeout (secs): " +:+ to_string (timeout_secs o) +:+ NL +:+
    "Kill Delay (secs): " +:+ to_string (kill_delay_secs o) +:+ NL +:+
    "SIGINT sends SIGTERM: " +:+ bool_text (sigint_sends_sigterm o) +:+ NL +:+
    "Writable Files: " +:+ dump_list (writable_files o) +:+
    NL +:+ "Tmpfs Dirs: " +:+ dump_list (tmpfs_dirs o) +:+
    NL +:+ "Bind Mount Sources: " +:+ dump_list (bind_mount_sources o) +:+
    NL +:+ "Bind Mount Targets: " +:+ dump_list (bind_mount_targets o) +:+
    NL +:+ "Fake Hostname: " +:+ bool_text (fake_hostname o) +:+ NL +:+
    "Fake Root: " +:+ bool_text (fake_root o) +:+ NL +:+
    "Fake Username: " +:+ bool_text (fake_username o) +:+ NL +:+
    "Enable PTY: " +:+ bool_text (enable_pty o) +:+ NL +:+
    "Debug Path: " +:+ debug_path o +:+ NL +:+
    "Hermetic: " +:+ bool_text (hermetic o) +:+ NL +:+
    "Sandbox Root: " +:+ sandbox_root o +:+ NL +:+
    "Use OverlayFS: " +:+ bool_text (use_overlayfs o) +:+ NL +:+
    "Tmp OverlayFS: " +:+ tmp_overlayfs o +:+ NL +:+
    "OverlayFS Mounts: " +:+ dump_list (overlayfsmount o) +:+
    NL +:+ "Args: " +:+ dump_list (args o) +:+
    NL +:+ "Use Default: " +:+ bool_text (use_default o) +:+ NL.

(** ** The messages, as a list *)

Definition kernel_messages (buf : option utsname) : list (Z * string) :=
  match buf with
  | Some u => [(33, "OS: " +:+ sysname u); (34, "Kernel: " +:+ release u); (35, "Version: " +:+ version u);
               (36, "Machine: " +:+ machine u)]
  | None => []
  end.

Definition os_messages (os_release : option string) : list (Z * string) :=
  match os_release with
  | None => [(65, "Can't log OS info: /etc/os-release missing or keys not found")]
  | Some text =>
      let '(name, version) := os_lines (getlines text) ("", "") in
      if empty name && empty version then [(65, "Can't log OS info: /etc/os-release missing or keys not found")]
      else [(if empty name then (72, "OS PRETTY_NAME not found") else (70, "OS PRETTY_NAME: " +:+ name));
            (if empty version then (78, "OS VERSION_ID not found") else (76, "OS VERSION_ID: " +:+ version))]
  end.

Definition library_messages : list (Z * string) :=
  (44, "libc: " +:+ gnu_get_libc_version) ::
  match GLIBCXX_RELEASE with Some z => [(50, "libstdc++ release: " +:+ to_string z)] | None => [] end ++
  match GLIBCXX with Some z => [(54, "__GLIBCXX__: " +:+ to_string z)] | None => [] end.

(** The messages are printed one after the other: nothing happens while the log
    is closed, and each is a write to the log, at the time the clock says. *)
Inductive prints : list (Z * string) -> proc -> proc -> Prop :=
| prints_none s : prints [] s s
| prints_closed m ms s s' : global_debug s = None -> prints ms s s' -> prints (m :: ms) s s'
| prints_line line msg ms fd s s' r k :
    let c := Write fd (log_line (clock_gettime (kern s)) (FILE "logging.cc") line msg) in
    global_debug s = Some fd -> ksys (kern s) c = (r, k) ->
    prints ms (s <| kern := k |> <| trace ::= cons (c, r) |>) s' -> prints ((line, msg) :: ms) s s'.

Lemma prints_app ms1 ms2 s s1 s2 : prints ms1 s s1 -> prints ms2 s1 s2 -> prints (ms1 ++ ms2) s s2.
Proof.
  induction 1 as [s|m ms s s1 Hg _ IH|line msg ms fd s s1 r k c Hg Hc _ IH]; intros H2; [done|by apply prints_closed; [|apply IH]|].
  by eapply prints_line; [exact Hg | exact Hc | apply IH].
Qed.

(** Printing changes the file of the log and nothing else. *)
Lemma prints_only_writes ms s s' : prints ms s s' ->
  only_kernel s s' /\ calls (fun c _ => exists fd text, global_debug s = Some fd /\ c = Write fd text) s s'.
Proof.
  induction 1 as [s|m ms s s' Hg _ IH|line msg ms fd s s' r k c Hg Hc _ [IH1 IH2]]; [by split | done |].
  split.
  - etransitivity; [|exact IH1]. by eexists _, _.
  - etransitivity; [|exact IH2]. exists [(c, r)]. split; [done|]. constructor; [by eexists _, _ | done].
Qed.

Lemma log_prints line msg s : exists s', log line msg s = (Ok tt, s') /\ prints [(line, msg)] s s'.
Proof.
  unfold log, PRINT_DEBUG, query, gets, sys, mbind, prog_bind. destruct (global_debug s) as [fd|] eqn:Hg.
  - destruct (ksys (kern s) _) as [r k] eqn:Hc. eexists. split; [reflexivity|]. by eapply prints_line; [|exact Hc | constructor].
  - exists s. split; [done|]. by apply prints_closed; [|constructor].
Qed.

(** The program returns, having printed these messages. *)
Definition logs (ms : list (Z * string)) (m : prog proc unit) (s : proc) : Prop :=
  exists s', m s = (Ok tt, s') /\ prints ms s s'.

Lemma logs_bind ms1 ms2 m1 m2 s : logs ms1 m1 s -> (forall s1, logs ms2 m2 s1) -> logs (ms1 ++ ms2) (_ ← m1; m2) s.
Proof.
  intros (s1 & E1 & P1) H2. destruct (H2 s1) as (s2 & E2 & P2). exists s2.
  rewrite (bind_ok _ _ _ _ _ E1). split; [done | by eapply prints_app].
Qed.

Lemma logs_none s : logs [] (mret tt) s.
Proof. exists s. split; [done | constructor]. Qed.

Lemma logOSKernel_logs s : logs (kernel_messages (uname (kern s))) logOSKernel s.
Proof.
  unfold logOSKernel, GetKernelInfo. unfold logs. setoid_rewrite (bind_ok (query uname) _ s (uname (kern s)) s eq_refl).
  destruct (uname (kern s)) as [u|]; [|apply logs_none].
  do 3 (eapply (logs_bind [_]); [apply log_prints | intros ?]). apply log_prints.
Qed.

Lemma logOSName_logs s : logs (os_messages (kcontents (kern s) "/etc/os-release")) logOSName s.
Proof.
  assert (forall m : prog proc unit, logs (os_messages (kcontents (kern s) "/etc/os-release")) m s ->
    forall h, logs (os_messages (kcontents (kern s) "/etc/os-release")) (catch_std m h) s) as Hcatch.
  { intros m (s' & E & P) h. exists s'. unfold catch_std, try_catch. by rewrite E. }
  apply Hcatch. unfold logs. set (os := kcontents (kern s) "/etc/os-release").
  assert (GetOSName s = (Ok match os with
      | None => (false, "", "")
      | Some text => let '(name, version) := os_lines (getlines text) ("", "") in (negb (empty name) || negb (empty version), name, version)
      end, s)) as E by done.
  setoid_rewrite (bind_ok _ _ _ _ _ E). destruct os as [text|]; [|apply log_prints]. cbn [os_messages].
  destruct (os_lines (getlines text) ("", "")) as [name version]. rewrite <- negb_andb, negb_involutive.
  destruct (empty name && empty version); [apply log_prints|].
  apply (logs_bind [_] [_]); [destruct (empty name); apply log_prints | intros s1; destruct (empty version); apply log_prints].
Qed.

Lemma library_logs s : logs library_messages (_ ← logLibc; logLibstdcpp) s.
Proof.
  apply (logs_bind [_]); [apply log_prints | intros s1]. unfold logLibstdcpp. apply logs_bind; [|intros s2].
  - destruct GLIBCXX_RELEASE; [apply log_prints | apply logs_none].
  - destruct GLIBCXX; [apply log_prints | apply logs_none].
Qed.

(** LogSystem returns, whatever the system answers, and what it did is to print
    its messages in order: the names of the kernel, what /etc/os-release says,
    the libraries.  With the log closed the state is the same afterwards; with
    the log open only the kernel saw writes to the log. *)
Theorem LogSystem_prints s :
  exists s' k, LogSystem s = (Ok tt, s') /\
    prints (kernel_messages (uname (kern s)) ++ os_messages (kcontents k "/etc/os-release") ++ library_messages) s s' /\
    (global_debug s = None -> s' = s) /\ only_kernel s s' /\
    calls (fun c _ => exists fd text, global_debug s = Some fd /\ c = Write fd text) s s'.
Proof.
  destruct (logOSKernel_logs s) as (s1 & E1 & P1). destruct (logOSName_logs s1) as (s2 & E2 & P2).
  destruct (library_logs s2) as (s3 & E3 & P3). exists s3, (kern s1).
  assert (prints (kernel_messages (uname (kern s)) ++ os_messages (kcontents (kern s1) "/etc/os-release") ++ library_messages) s s3) as P
    by (eapply prints_app; [exact P1 | by eapply prints_app]).
  split; [unfold LogSystem; by rewrite (bind_ok _ _ _ _ _ E1), (bind_ok _ _ _ _ _ E2)|]. split; [exact P|].
  split; [|by eapply prints_only_writes]. clear E1 E2 E3 P1 P2 P3. intros Hg. revert P. generalize (kernel_messages (uname (kern s)) ++ os_messages (kcontents (kern s1) "/etc/os-release") ++ library_messages).
  intros ms P. clear s1 s2. induction P as [s|m ms s s' _ _ IH|line msg ms fd s s' r k c Hg' _ _ _]; [done | by apply IH | congruence].
Qed.

End Logging.
