(* ===== verification/Api.v ===== *)
(** * The configuration interface (linux-sandbox-api.cc)

    The entry points of the library as one type of calls, how each of them may
    update the options, and what holds of every sequence of them: the mount
    lists only grow, the modes exclude each other, and after the start the
    configuration is frozen. *)

From S2P Require Import Prelude Monad CxxString FsPath Firewall Kernel SimKernel State Fs Errors ProcessTools OptionsApi Rules.
Open Scope sbx_scope.
Open Scope Z_scope.

(** ** The calls *)

(** The [mini_sandbox_*] functions that configure the sandbox. *)
Inductive api_call :=
| CallEnableLog (path : string)
| CallSetupDefault
| CallSetupCustom (overlayfs_dir sandbox_root : string)
| CallSetupHermetic (sandbox_root : string)
| CallSetWorkingDir (path : string)
| CallMountBind (path : string)
| CallMountWrite (path : string)
| CallMountTmpfs (path : string)
| CallMountOverlay (path : string)
| CallMountEmptyOutputFile (path : string)
| CallMountParentsWrite
| CallShareNetwork
| CallAllowMaxConnections (max : Z)
| CallAllowConnections (path : string)
| CallAllowIpv4 (ip : string)
| CallAllowDomain (domain : string)
| CallAllowAllDomains
| CallAllowIpv4Subnet (subnet : string).

(** Whether the build exports the call: [share_network] only without MINITAP,
    the [allow_*] functions only with it. *)
Definition exported `{Build} (c : api_call) : bool :=
  match c with
  | CallShareNetwork => negb MINITAP
  | CallAllowMaxConnections _ | CallAllowConnections _ | CallAllowIpv4 _ | CallAllowDomain _
  | CallAllowAllDomains | CallAllowIpv4Subnet _ => MINITAP
  | _ => true
  end.

(** ** How a call may update the options *)

(** The updates of the calls that do not choose a mode. *)
Inductive mount_update : (Options -> Options) -> Prop :=
| up_bind p : mount_update (add_bind p p)
| up_bind_missing d : mount_update (add_bind_missing d)
| up_writable p : mount_update (add_writable p)
| up_writable_missing d : mount_update (add_writable_missing d)
| up_overlay p : mount_update (add_overlay p)
| up_overlay_missing d : mount_update (add_overlay_missing d)
| up_tmpfs p : mount_update (fun o => o <| tmpfs_dirs ::= fun l => l ++ [p] |>).

Inductive api_update : (Options -> Options) -> Prop :=
| up_mount f : mount_update f -> api_update f
| up_parents : api_update (fun o => o <| parents_writable := true |>)
| up_workdir p : api_update (fun o => o <| working_dir := p |>)
| up_debug p : api_update (fun o => o <| debug_path := p |>)
| up_net : api_update (fun o => o <| create_netns := NO_NETNS |>)
| up_overlay_dir p : api_update (fun o => o <| tmp_overlayfs := p |>)
| up_rules fw : api_update (fun o => o <| fw_rules := fw |>).

Definition set_default_mode `{Build} (o : Options) : Options :=
  o <| create_netns := if MINITAP then NO_NETNS else NETNS_WITH_LOOPBACK |>
    <| use_default := true |> <| use_overlayfs := true |>.

(** The updates of the calls that do. *)
Inductive mode_update `{Build} : (Options -> Options) -> Prop :=
| up_default : mode_update set_default_mode
| up_overlayfs : mode_update (fun o => o <| use_overlayfs := true |>)
| up_hermetic : mode_update (fun o => o <| hermetic := true |>).

Section Api.
Context `{B : Build} `{N : Bound} `{K : Kernel}.

Definition run_call (c : api_call) : prog proc Z :=
  match c with
  | CallEnableLog p => MiniSbxEnableLog p
  | CallSetupDefault => MiniSbxSetupDefault
  | CallSetupCustom d r => MiniSbxSetupCustom d r
  | CallSetupHermetic r => MiniSbxSetupHermetic r
  | CallSetWorkingDir p => MiniSbxSetWorkingDir p
  | CallMountBind p => MiniSbxMountBind p
  | CallMountWrite p => MiniSbxMountWrite p
  | CallMountTmpfs p => MiniSbxMountTmpfs p
  | CallMountOverlay p => MiniSbxMountOverlay p
  | CallMountEmptyOutputFile p => MiniSbxMountEmptyOutputFile p
  | CallMountParentsWrite => MiniSbxMountParentsWrite
  | CallShareNetwork => MiniSbxShareNetNamespace
  | CallAllowMaxConnections n => MiniSbxAllowMaxConnections n
  | CallAllowConnections p => MiniSbxAllowConnections p
  | CallAllowIpv4 ip => MiniSbxAllowIpv4 ip
  | CallAllowDomain d => MiniSbxAllowDomain d
  | CallAllowAllDomains => MiniSbxAllowAllDomains
  | CallAllowIpv4Subnet s => MiniSbxAllowIpv4Subnet s
  end.

(** The calls of an application, one after the other, whatever they return. *)
Fixpoint run_calls (cs : list api_call) : prog proc unit :=
  match cs with
  | [] => mret tt
  | c :: cs' => _ ← run_call c; run_calls cs'
  end.

(** ** Frames

    A relation the operations that add mounts respect: it is kept by the
    kernel's calls that make and remove files, by the last error, and by the
    updates that add a mount. *)

Definition config_call (c : syscall) : bool :=
  match c with
  | Mkdir _ _ | Open _ _ _ | Close _ | Write _ _ | Random | AddPerms _ | RemoveAll _ => true
  | _ => false
  end.

Section Frame.
Context (R : proc -> proc -> Prop) `{!PreOrder R}.
Context (Hsys : forall c, config_call c = true -> respects R (sys c)).
Context (Herr : forall s e, R s (s <| sbx_err := e |>)).
Context (Hmount : forall f, mount_update f -> forall s, R s (s <| opt ::= f |>)).

Lemma frame_mount f : mount_update f -> respects R (mod_opt f).
Proof. intros Hf s. by apply Hmount. Qed.

Lemma frame_report f l m c : respects R (MiniSbxReportErrorAndMessage f l m c).
Proof. apply respects_ReportErrorAndMessage; [done | done | intros; by apply Hsys ..]. Qed.

Lemma frame_error f l c : respects R (MiniSbxReportError f l c).
Proof. unfold MiniSbxReportError. apply frame_report. Qed.

Lemma frame_generic f l m : respects R (MiniSbxReportGenericError f l m).
Proof. unfold MiniSbxReportGenericError. apply frame_report. Qed.

(** Leaves of the configuration programs. *)
Ltac frame_leaf :=
  first
  [ match goal with H : respects _ ?m |- respects _ ?n => constr_eq m n; exact H end
  | lazymatch goal with
    | |- respects _ (sys _) => by apply Hsys
    | |- respects _ (MiniSbxReportErrorAndMessage _ _ _ _) => apply frame_report
    | |- respects _ (MiniSbxReportError _ _ _) => apply frame_error
    | |- respects _ (MiniSbxReportGenericError _ _ _) => apply frame_generic
    | |- respects _ (mod_opt _) => apply frame_mount; solve [constructor]
    | |- respects _ (get_opt _) => apply respects_get_opt; apply _
    | |- respects _ (getenv _) => apply respects_getenv; apply _
    | |- respects _ (query _) => apply respects_query; apply _
    | |- respects _ (fs_exists _) => apply respects_fs_exists; apply _
    | |- respects _ (fs_is_directory _) => apply respects_fs_is_directory; apply _
    | |- respects _ (fs_is_regular_file _) => apply respects_fs_is_regular_file; apply _
    | |- respects _ (fs_is_symlink _) => apply respects_fs_is_symlink; apply _
    | |- respects _ (fs_canonical _) => apply respects_fs_canonical; apply _
    | |- respects _ (fs_absolute _) => apply respects_fs_absolute; apply _
    | |- respects _ (fs_exists_ec _) => apply respects_fs_exists_ec; apply _
    | |- respects _ (fs_directory_iterator _ _) => apply respects_fs_directory_iterator; apply _
    | |- respects _ (fs_create_directories _) =>
        apply respects_fs_create_directories; [apply _ | intros; by apply Hsys]
    end ].
Ltac frame := repeat first [frame_leaf | respects_step].

Lemma frame_CreateDirectories p : respects R (CreateDirectories p).
Proof. unfold CreateDirectories. frame. Qed.

Lemma frame_CreateTempDirectory p : respects R (CreateTempDirectory p).
Proof. unfold CreateTempDirectory, temp_attempt, random_id. frame; apply frame_CreateDirectories. Qed.

Lemma frame_CanonicPath p b : respects R (CanonicPath p b).
Proof. unfold CanonicPath. frame. Qed.

Lemma frame_ValidatePath p : respects R (ValidatePath p).
Proof. unfold ValidatePath. frame. Qed.

Lemma frame_ValidateDirPath p : respects R (ValidateDirPath p).
Proof. unfold ValidateDirPath. frame. Qed.

Lemma frame_if_not_started f l body : respects R body -> respects R (if_not_started f l body).
Proof. intros H. unfold if_not_started. frame. Qed.

Lemma frame_ValidateDirAndCreate p : respects R (ValidateDirAndCreate p).
Proof. unfold ValidateDirAndCreate. frame. apply frame_CreateDirectories. Qed.

Lemma frame_MountHomeSymlinks p add :
  (forall d, mount_update (add d)) -> respects R (MountHomeSymlinks p add).
Proof.
  intros Hadd.
  assert (forall es acc, respects R (symlink_loop es acc)) as Hloop.
  { induction es as [|e es IH]; intros acc; cbn [symlink_loop]; [by apply respects_ret|].
    apply respects_bind; [done | unfold symlink_parent; frame | intros [dirs|]; [apply IH | by apply respects_ret]]. }
  unfold MountHomeSymlinks, isInsideHomeDir, getSymlinkedDirs, GetHomeDir.
  frame; first [apply frame_CanonicPath | apply Hloop | by apply frame_mount].
Qed.

(** The operations, from the leaves up. *)
Ltac frame_known :=
  lazymatch goal with
  | |- respects _ (CreateDirectories _) => apply frame_CreateDirectories
  | |- respects _ (CanonicPath _ _) => apply frame_CanonicPath
  | |- respects _ (ValidatePath _) => apply frame_ValidatePath
  | |- respects _ (ValidateDirPath _) => apply frame_ValidateDirPath
  | |- respects _ (ValidateDirAndCreate _) => apply frame_ValidateDirAndCreate
  end.
Ltac frame_op :=
  repeat first
  [ frame_leaf
  | frame_known
  | lazymatch goal with
    | |- respects _ (if_not_started _ _ _) => apply frame_if_not_started
    | |- respects _ (MountHomeSymlinks _ _) =>
        apply frame_MountHomeSymlinks; intros; solve [constructor]
    end
  | respects_step ].

Lemma frame_MountBind p : respects R (MiniSbxMountBind p).
Proof. unfold MiniSbxMountBind. frame_op. Qed.

Lemma frame_MountWrite p : respects R (MiniSbxMountWrite p).
Proof. unfold MiniSbxMountWrite. frame_op. Qed.

Lemma frame_MountOverlay p : respects R (MiniSbxMountOverlay p).
Proof. unfold MiniSbxMountOverlay. frame_op. Qed.

Lemma frame_MountTmpfs p : respects R (MiniSbxMountTmpfs p).
Proof. unfold MiniSbxMountTmpfs. frame_op. Qed.

Lemma frame_MountEmptyOutputFile p : respects R (MiniSbxMountEmptyOutputFile p).
Proof. unfold MiniSbxMountEmptyOutputFile. frame_op; apply frame_MountWrite. Qed.

Lemma frame_SetupDefaultMounts : respects R SetupDefaultMounts.
Proof.
  unfold SetupDefaultMounts, GetLocalBin, GetLocalLib, GetRngSeed, GetHomeDir.
  frame_op; apply frame_MountEmptyOutputFile.
Qed.

End Frame.

(** A relation every call respects: it is kept by all the listed updates. *)
Section ApiFrame.
Context (R : proc -> proc -> Prop) `{!PreOrder R}.
Context (Hsys : forall c, config_call c = true -> respects R (sys c)).
Context (Herr : forall s e, R s (s <| sbx_err := e |>)).
Context (Hup : forall f, api_update f -> forall s, R s (s <| opt ::= f |>)).

Lemma mount_up f : mount_update f -> forall s, R s (s <| opt ::= f |>).
Proof. intros Hf. by apply Hup, up_mount. Qed.

Lemma frame_mod f : api_update f -> respects R (mod_opt f).
Proof. intros Hf s. by apply Hup. Qed.

Ltac in_context := first [exact _ | exact Hsys | exact Herr | exact mount_up | exact Hup].
Ltac frame_leaf :=
  first
  [ match goal with H : respects _ ?m |- respects _ ?n => constr_eq m n; exact H end
  | lazymatch goal with
    | |- respects _ (sys _) => by apply Hsys
    | |- respects _ (MiniSbxReportErrorAndMessage _ _ _ _) => apply frame_report; in_context
    | |- respects _ (MiniSbxReportError _ _ _) => apply frame_error; in_context
    | |- respects _ (MiniSbxReportGenericError _ _ _) => apply frame_generic; in_context
    | |- respects _ (mod_opt _) => apply frame_mod; solve [constructor | constructor; constructor]
    | |- respects _ (get_opt _) => apply respects_get_opt; apply _
    | |- respects _ (gets _) => apply respects_gets; apply _
    | |- respects _ (query _) => apply respects_query; apply _
    | |- respects _ (fs_canonical _) => apply respects_fs_canonical; apply _
    | |- respects _ (fs_exists _) => apply respects_fs_exists; apply _
    | |- respects _ (fs_is_regular_file _) => apply respects_fs_is_regular_file; apply _
    | |- respects _ (fs_exists_ec _) => apply respects_fs_exists_ec; apply _
    | |- respects _ (fs_create_directories _) =>
        apply respects_fs_create_directories; [apply _ | intros; by apply Hsys]
    | |- respects _ (CreateTempDirectory _) => apply frame_CreateTempDirectory; in_context
    | |- respects _ (CanonicPath _ _) => apply frame_CanonicPath; in_context
    | |- respects _ (ValidatePath _) => apply frame_ValidatePath; in_context
    | |- respects _ (ValidateDirPath _) => apply frame_ValidateDirPath; in_context
    | |- respects _ (ValidateDirAndCreate _) => apply frame_ValidateDirAndCreate; in_context
    | |- respects _ (MiniSbxMountBind _) => apply frame_MountBind; in_context
    | |- respects _ (MiniSbxMountWrite _) => apply frame_MountWrite; in_context
    | |- respects _ (MiniSbxMountOverlay _) => apply frame_MountOverlay; in_context
    | |- respects _ (MiniSbxMountTmpfs _) => apply frame_MountTmpfs; in_context
    | |- respects _ (MiniSbxMountEmptyOutputFile _) => apply frame_MountEmptyOutputFile; in_context
    | |- respects _ SetupDefaultMounts => apply frame_SetupDefaultMounts; in_context
    | |- respects _ (if_not_started _ _ _) => apply frame_if_not_started; try in_context
    end ].
Ltac frame := repeat first [frame_leaf | respects_step].

Lemma frame_CreateOverlayfsDir p : respects R (CreateOverlayfsDir p).
Proof. unfold CreateOverlayfsDir. frame. Qed.

Ltac frame_op :=
  repeat first
  [ frame_leaf
  | lazymatch goal with |- respects _ (CreateOverlayfsDir _) => apply frame_CreateOverlayfsDir end
  | respects_step ].

Lemma frame_SetupOverlayfsFolder p : respects R (MiniSbxSetupOverlayfsFolder p).
Proof. unfold MiniSbxSetupOverlayfsFolder. frame_op. Qed.

Lemma frame_ValidateOverlayOutOfFolder a b : respects R (ValidateOverlayOutOfFolder a b).
Proof. unfold ValidateOverlayOutOfFolder. frame. Qed.

Lemma frame_rules c :
  match c with
  | CallAllowConnections _ | CallAllowIpv4 _ | CallAllowDomain _ | CallAllowIpv4Subnet _ =>
      respects R (run_call c)
  | _ => True
  end.
Proof.
  assert (forall r, respects R (add_rule r)) as Hadd by (intros r; unfold add_rule; frame).
  assert (forall r, respects R (MiniSbxAllowIpv4 r)) as Hip
    by (intros r; unfold MiniSbxAllowIpv4; frame_op; exact (Hadd r)).
  assert (forall r, respects R (MiniSbxAllowDomain r)) as Hdom
    by (intros r; unfold MiniSbxAllowDomain; frame_op; exact (Hadd r)).
  assert (forall r, respects R (MiniSbxAllowIpv4Subnet r)) as Hsub
    by (intros r; unfold MiniSbxAllowIpv4Subnet; frame_leaf; exact (Hip r)).
  assert (forall ls res, respects R (allow_lines ls res)) as Hlines.
  { induction ls as [|l ls IH]; intros res; cbn [allow_lines]; [by apply respects_ret|].
    apply respects_bind; [done | | intros []; exact (IH _)]. unfold allow_line. cbv zeta.
    destruct (rule_kind_of _); [| | |by apply respects_ret];
      (apply respects_bind; [done | | intros _; by apply respects_ret]);
      [exact (Hip _) | exact (Hdom _) | exact (Hsub _)]. }
  destruct c; try exact I; cbn [run_call]; [|exact (Hip _) | exact (Hdom _) | exact (Hsub _)].
  unfold MiniSbxAllowConnections, ValidateFilePath, ReadAllowedConnections. frame_op. exact (Hlines _ _).
Qed.

Lemma frame_BindSourceToTarget a b :
  (forall source target s, R s (s <| opt ::= add_bind source target |>)) ->
  respects R (MiniSbxMountBindSourceToTarget a b).
Proof. intros Hb. unfold MiniSbxMountBindSourceToTarget. frame_op. intros s. apply Hb. Qed.

(** What is left to show of the calls that choose a mode. *)
Definition mode_case (c : api_call) : Prop :=
  match c with
  | CallSetupDefault => respects R MiniSbxSetupDefault
  | CallSetupCustom _ _ => forall p, respects R (MiniSbxSetupSandboxRootWithOverlay p)
  | CallSetupHermetic p => respects R (MiniSbxSetupHermetic p)
  | _ => True
  end.

Lemma frame_SetupCustom a b :
  (forall p, respects R (MiniSbxSetupSandboxRootWithOverlay p)) -> respects R (MiniSbxSetupCustom a b).
Proof.
  intros Hoverlay. unfold MiniSbxSetupCustom.
  frame_op; [apply Hoverlay | apply frame_SetupOverlayfsFolder | apply frame_ValidateOverlayOutOfFolder].
Qed.

(** Every call of the interface respects the relation. *)
Lemma frame_run_call c : mode_case c -> respects R (run_call c).
Proof.
  intros Hc. pose proof (frame_rules c) as Hr. destruct c; cbn [run_call mode_case] in *; try exact Hr.
  - unfold MiniSbxEnableLog. frame_op.
  - exact Hc.
  - by apply frame_SetupCustom.
  - exact Hc.
  - unfold MiniSbxSetWorkingDir. frame_op.
  - frame_leaf.
  - frame_leaf.
  - frame_leaf.
  - frame_leaf.
  - frame_leaf.
  - unfold MiniSbxMountParentsWrite. frame_op.
  - unfold MiniSbxShareNetNamespace. frame_op.
  - unfold MiniSbxAllowMaxConnections, set_max_connections. frame_op.
  - unfold MiniSbxAllowAllDomains, reset_firewall_rules. frame_op.
Qed.

Lemma frame_run_calls cs : Forall mode_case cs -> respects R (run_calls cs).
Proof.
  induction 1 as [|c cs Hc _ IH]; cbn [run_calls]; [by apply respects_ret|].
  apply respects_bind; [done | by apply frame_run_call | done].
Qed.

(** When the mode updates keep the relation too, so do the three calls. *)
Section ModeUpdates.
Context (Hmode : forall f, mode_update f -> forall s, R s (s <| opt ::= f |>)).
Context (Hroot : forall p, respects R (CreateSandboxRoot p)).

Lemma frame_mode f : mode_update f -> respects R (mod_opt f).
Proof. intros Hf s. by apply Hmode. Qed.

Ltac frame_mode_op :=
  repeat first
  [ progress frame_op
  | lazymatch goal with
    | |- respects _ (mod_opt _) => apply frame_mode; solve [constructor]
    end ].

Lemma frame_SetupDefault :
  (forall source target s, R s (s <| opt ::= add_bind source target |>)) ->
  respects R MiniSbxSetupDefault.
Proof.
  intros Hredirect.
  unfold MiniSbxSetupDefault, CreateDirectory. fold set_default_mode.
  frame_mode_op;
    [by apply frame_BindSourceToTarget | apply Hroot].
Qed.

Lemma frame_SetupSandboxRootWithOverlay p : respects R (MiniSbxSetupSandboxRootWithOverlay p).
Proof. unfold MiniSbxSetupSandboxRootWithOverlay. frame_mode_op; apply Hroot. Qed.

Lemma frame_SetupHermetic p : respects R (MiniSbxSetupHermetic p).
Proof. unfold MiniSbxSetupHermetic. frame_mode_op; apply Hroot. Qed.

End ModeUpdates.
End ApiFrame.
End Api.

(** ** Reasoning about one call *)

Section Steps.
Context `{B : Build} `{N : Bound} `{K : Kernel}.
Context (R : proc -> proc -> Prop) `{!PreOrder R}.

(** Reading the options first, and updating them, in a relation. *)
Lemma respects_read {A C} (g : Options -> A) (f : A -> prog proc C) s :
  R s (final (f (g (opt s))) s) -> R s (final (get_opt g ≫= f) s).
Proof. done. Qed.

Lemma respects_update {C} (f : Options -> Options) (k : unit -> prog proc C) s :
  R s (s <| opt ::= f |>) -> respects R (k tt) -> R s (final (mod_opt f ≫= k) s).
Proof. intros H Hk. etransitivity; [exact H|]. apply Hk. Qed.

Lemma respects_skip {A C} (a : A) (f : A -> prog proc C) s :
  R s (final (f a) s) -> R s (final (mret a ≫= f) s).
Proof. done. Qed.

Lemma respects_then {A C} (m : prog proc A) (f : A -> prog proc C) s :
  R s (final m s) -> (forall a, respects R (f a)) -> R s (final (m ≫= f) s).
Proof.
  intros Hm Hf. unfold final, mbind, prog_bind in *. destruct (m s) as [[a|w] s1]; simpl in *; [|done].
  etransitivity; [exact Hm|]. apply (Hf a s1).
Qed.

Lemma respects_started f l body s :
  (is_running (opt s) = NOT_RUNNING -> R s (final body s)) ->
  respects R (MiniSbxReportError f l SandboxAlreadyStarted) ->
  R s (final (if_not_started f l body) s).
Proof.
  intros Hb He. unfold if_not_started. apply respects_read. case_decide; [by apply Hb|].
  apply respects_then; [apply He|]. intros _. by apply respects_ret.
Qed.

End Steps.

(** ** What every sequence of calls keeps *)

Section Invariants.
Context `{B : Build} `{N : Bound} `{K : Kernel}.

(** The options no configuration call touches. *)
Definition cli_options (o : Options) :=
  (timeout_secs o, kill_delay_secs o, sigint_sends_sigterm o, fake_hostname o,
   fake_root o, fake_username o, enable_pty o, args o, is_running o, firewall_rules_path o).

(** Lists grow at their end, flags and the sandbox root are set once and for all. *)
Record grown (o o' : Options) : Prop := {
  grown_sources : bind_mount_sources o `prefix_of` bind_mount_sources o';
  grown_targets : bind_mount_targets o `prefix_of` bind_mount_targets o';
  grown_writable : writable_files o `prefix_of` writable_files o';
  grown_tmpfs : tmpfs_dirs o `prefix_of` tmpfs_dirs o';
  grown_overlay : overlayfsmount o `prefix_of` overlayfsmount o';
  grown_default : use_default o = true -> use_default o' = true;
  grown_overlayfs : use_overlayfs o = true -> use_overlayfs o' = true;
  grown_hermetic : hermetic o = true -> hermetic o' = true;
  grown_root : sandbox_root o <> "" -> sandbox_root o' = sandbox_root o;
  grown_cli : cli_options o' = cli_options o
}.

Definition grows (s s' : proc) : Prop := grown (opt s) (opt s').

#[local] Instance grows_preorder : PreOrder grows.
Proof.
  split; [by intros s; split | intros a b c H1 H2; split].
  all: try (by etransitivity; [apply H1 | apply H2]).
  - intros H. by apply (grown_default _ _ H2), (grown_default _ _ H1).
  - intros H. by apply (grown_overlayfs _ _ H2), (grown_overlayfs _ _ H1).
  - intros H. by apply (grown_hermetic _ _ H2), (grown_hermetic _ _ H1).
  - intros H. rewrite (grown_root _ _ H2); rewrite (grown_root _ _ H1); done.
  - by rewrite (grown_cli _ _ H2), (grown_cli _ _ H1).
Qed.

Lemma grows_same_opt {A} (m : prog proc A) : respects same_opt m -> respects grows m.
Proof. intros H s. unfold grows. by rewrite (H s). Qed.

Lemma grown_update f o : api_update f -> grown o (f o).
Proof.
  intros [g []| |p|p| |p|fw]; split; cbn; try done; try (by apply prefix_app_r); by apply prefix_addIfNotPresent.
Qed.

Lemma grown_mode f o : mode_update f -> grown o (f o).
Proof. intros []; by split. Qed.

Lemma grows_SandboxRoot p : respects grows (CreateSandboxRoot p).
Proof.
  intros s. unfold grows. destruct (CreateSandboxRoot_options p s) as [-> |(He & q & ->)]; [done|].
  by split; cbn; try congruence.
Qed.

Lemma grows_sys c : respects grows (sys c).
Proof. apply grows_same_opt, same_opt_sys. Qed.

(** The side conditions of the frame lemmas for [grows]. *)
Ltac grows_side :=
  lazymatch goal with
  | |- PreOrder _ => apply _
  | |- forall c, config_call c = true -> respects _ (sys c) => intros ? _; apply grows_sys
  | |- forall p, respects _ (CreateSandboxRoot p) => exact grows_SandboxRoot
  | |- forall f, mount_update f -> _ => intros f Hf s; by apply grown_update, up_mount
  | |- forall f, api_update f -> _ => intros f Hf s; by apply grown_update
  | |- forall f, mode_update f -> _ => intros f Hf s; by apply grown_mode
  | |- forall s e, grows s _ => done
  | |- forall a b s, _ => intros a b s; split; cbn; try done; by apply prefix_app_r
  end.

Lemma grows_overlay_root p : respects grows (MiniSbxSetupSandboxRootWithOverlay p).
Proof. apply frame_SetupSandboxRootWithOverlay; grows_side. Qed.

Lemma grows_overlay_folder p : respects grows (MiniSbxSetupOverlayfsFolder p).
Proof. apply frame_SetupOverlayfsFolder; grows_side. Qed.

Lemma grows_hermetic p : respects grows (MiniSbxSetupHermetic p).
Proof. apply frame_SetupHermetic; grows_side. Qed.

Lemma grows_default : respects grows MiniSbxSetupDefault.
Proof. apply frame_SetupDefault; grows_side. Qed.

Lemma grows_call_cases c : mode_case grows c.
Proof.
  destruct c; cbn [mode_case]; try exact I;
    [apply grows_default | apply grows_overlay_root | apply grows_hermetic].
Qed.

Lemma grows_call c : respects grows (run_call c).
Proof.
  apply frame_run_call; try grows_side. apply grows_call_cases.
Qed.

Lemma grows_calls cs : respects grows (run_calls cs).
Proof.
  apply frame_run_calls; try grows_side. apply Forall_forall. intros c _. apply grows_call_cases.
Qed.

(** *** Modes *)

(** Hermetic mode excludes the two overlay modes, and default mode is one of them. *)
Definition mode_ok (o : Options) : Prop :=
  ~ (hermetic o = true /\ use_overlayfs o = true) /\ (use_default o = true -> use_overlayfs o = true).

Definition keeps_mode (s s' : proc) : Prop := mode_ok (opt s) -> mode_ok (opt s').

#[local] Instance keeps_mode_preorder : PreOrder keeps_mode.
Proof. split; [by intros s | intros a b c H1 H2 H; auto]. Qed.

Lemma keeps_mode_same_opt {A} (m : prog proc A) : respects same_opt m -> respects keeps_mode m.
Proof. intros H s. unfold keeps_mode. by rewrite (H s). Qed.

Lemma keeps_mode_root p : respects keeps_mode (CreateSandboxRoot p).
Proof. intros s. unfold keeps_mode. by destruct (CreateSandboxRoot_options p s) as [-> |(_ & q & ->)]. Qed.

Lemma keeps_mode_update f s : api_update f -> keeps_mode s (s <| opt ::= f |>).
Proof. intros [g []| |p|p| |p|fw] H; exact H. Qed.

(** A call that sets a mode when the excluded ones are off. *)
Lemma keeps_mode_default : respects keeps_mode MiniSbxSetupDefault.
Proof.
  assert (forall c, respects keeps_mode (sys c)) as Hsys by (intros c; apply keeps_mode_same_opt, same_opt_sys).
  assert (forall s e, keeps_mode s (s <| sbx_err := e |>)) as Herr by (intros s e H; exact H).
  intros s. unfold MiniSbxSetupDefault. apply respects_started; [apply _ | | apply keeps_mode_same_opt, same_opt_error]. intros _.
  apply respects_read. unfold id. destruct (hermetic (opt s) || use_overlayfs (opt s)) eqn:E.
  { apply (keeps_mode_same_opt _ (same_opt_error _ _ _)). }
  apply orb_false_iff in E as [Eh Eo]. apply respects_update; [apply _ | |].
  { intros _. split; cbn; [by rewrite Eh; intros [] | done]. }
  unfold CreateDirectory.
  repeat first
   [ lazymatch goal with
     | |- respects _ (sys _) => apply Hsys
     | |- respects _ (MiniSbxReportGenericError _ _ _) => apply keeps_mode_same_opt, same_opt_generic
     | |- respects _ (fs_exists_ec _) => apply respects_fs_exists_ec; apply _
     | |- respects _ (fs_create_directories _) => apply respects_fs_create_directories; [apply _ | intros; apply Hsys]
     | |- respects _ (CreateSandboxRoot _) => apply keeps_mode_root
     | |- respects _ (CreateOverlayfsDir _) =>
         apply frame_CreateOverlayfsDir; [apply _ | done | done | intros; by apply keeps_mode_update]
     | |- respects _ SetupDefaultMounts =>
         apply frame_SetupDefaultMounts; [apply _ | done | done | intros; by apply keeps_mode_update, up_mount]
     | |- respects _ (MiniSbxMountBindSourceToTarget _ _) =>
         apply frame_BindSourceToTarget; [apply _ | done | done | intros a b s' H; exact H]
     end
   | respects_step ].
Qed.

Lemma keeps_mode_overlay p : respects keeps_mode (MiniSbxSetupSandboxRootWithOverlay p).
Proof.
  intros s. unfold MiniSbxSetupSandboxRootWithOverlay.
  apply respects_started; [apply _ | | apply keeps_mode_same_opt, same_opt_error]. intros _.
  assert (respects same_opt (CanonicPath p true)) as Hc.
  { apply frame_CanonicPath; [apply _ | intros; apply same_opt_sys | done]. }
  specialize (Hc s). unfold final, mbind, prog_bind in *.
  destruct (CanonicPath p true s) as [[q|w] s1]; cbn in Hc; unfold same_opt in Hc;
    [|intros H; cbn; by rewrite Hc].
  unfold keeps_mode. rewrite <- Hc. unfold get_opt, gets, id. change (snd ?x) with (final (fun _ => x) s).
  destruct (use_default (opt s1) || hermetic (opt s1)) eqn:E.
  { apply (keeps_mode_same_opt _ (same_opt_error _ _ _) s1). }
  apply orb_false_iff in E as [Ed Eh]. cbn. unfold final. cbn.
  intros [_ Hd]. apply (keeps_mode_root p). split; cbn; [by rewrite Eh; intros [] | done].
Qed.

Lemma keeps_mode_hermetic p :
  LIBMINISANDBOX = false -> respects keeps_mode (MiniSbxSetupHermetic p).
Proof.
  intros Hlib s. unfold MiniSbxSetupHermetic.
  apply respects_started; [apply _ | | apply keeps_mode_same_opt, same_opt_error]. intros _.
  apply respects_read. unfold id. destruct (use_default (opt s) || use_overlayfs (opt s)) eqn:E.
  - unfold MiniSbxReportError. pose proof (same_opt_report "MiniSbxSetupHermetic" 907 "" InvalidFunctioningMode s) as Ho.
    unfold same_opt, final, mbind, prog_bind in *. destruct (MiniSbxReportErrorAndMessage _ _ _ _ s) as [[z|w] s1] eqn:Er.
    + unfold MiniSbxReportErrorAndMessage, MiniSbxSetError in Er. rewrite Hlib in Er. cbn [orb recoverable] in Er.
      change (recoverable InvalidFunctioningMode) with false in Er. unfold mbind, prog_bind in Er.
      by destruct (Cleanup s) as [[]].
    + cbn in Ho. intros H. cbn. by rewrite Ho.
  - apply orb_false_iff in E as [Ed Eo]. apply respects_skip, respects_update; [apply _ | | apply keeps_mode_root].
    intros _. split; cbn; [by rewrite Eo; intros [] | by rewrite Ed].
Qed.

Definition is_hermetic (c : api_call) : bool := match c with CallSetupHermetic _ => true | _ => false end.

Lemma keeps_mode_calls cs :
  LIBMINISANDBOX = false \/ existsb is_hermetic cs = false -> respects keeps_mode (run_calls cs).
Proof.
  intros Hc. apply frame_run_calls.
  - apply _.
  - intros c _. apply keeps_mode_same_opt, same_opt_sys.
  - intros s e H. exact H.
  - intros f Hf s. by apply keeps_mode_update.
  - apply Forall_forall. intros c Hin. destruct c; cbn [mode_case]; try exact I.
    + apply keeps_mode_default.
    + apply keeps_mode_overlay.
    + apply keeps_mode_hermetic. destruct Hc as [Hc|Hc]; [done|].
      rewrite existsb_false_forall in Hc. by specialize (Hc _ Hin).
Qed.

(** *** The two bind lists *)

(** The sources and targets of the bind mounts, which are used pairwise. *)
Definition aligned (o : Options) : Prop := bind_mount_sources o = bind_mount_targets o.

Definition keeps_aligned (s s' : proc) : Prop := aligned (opt s) -> aligned (opt s').

#[local] Instance keeps_aligned_preorder : PreOrder keeps_aligned.
Proof. split; [by intros s | intros a b c H1 H2 H; auto]. Qed.

Definition is_default (c : api_call) : bool := match c with CallSetupDefault => true | _ => false end.

Lemma keeps_aligned_calls cs : existsb is_default cs = false -> respects keeps_aligned (run_calls cs).
Proof.
  intros Hc.
  assert (forall c, respects keeps_aligned (sys c)) as Hsys
    by (intros c s H; by rewrite (same_opt_sys c s)).
  assert (forall s e, keeps_aligned s (s <| sbx_err := e |>)) as Herr by (intros s e H; exact H).
  assert (forall f, api_update f -> forall s, keeps_aligned s (s <| opt ::= f |>)) as Hup.
  { intros f Hf s H. unfold keeps_aligned, aligned in *. destruct Hf as [g []| |p|p| |p|fw]; cbn; by rewrite ?H. }
  assert (forall f, mode_update f -> forall s, keeps_aligned s (s <| opt ::= f |>)) as Hmode
    by (intros f [] s H; exact H).
  assert (forall p, respects keeps_aligned (CreateSandboxRoot p)) as Hroot.
  { intros p s H. by destruct (CreateSandboxRoot_options p s) as [-> |(_ & q & ->)]. }
  apply frame_run_calls; [apply _ | done | done | done |]. apply Forall_forall. intros c Hin.
  destruct c; cbn [mode_case]; try exact I.
  - rewrite existsb_false_forall in Hc. by specialize (Hc _ Hin).
  - intros p. apply frame_SetupSandboxRootWithOverlay; try done; apply _.
  - apply frame_SetupHermetic; try done; apply _.
Qed.

(** *** After the start *)

Lemma frozen_call c s :
  c <> CallShareNetwork -> is_running (opt s) <> NOT_RUNNING ->
  exists e, run_call c s = (Ok (-1), s <| sbx_err := e |>) /\ err_code e = SandboxAlreadyStarted.
Proof.
  intros Hc Hrun. destruct c; try done; cbn [run_call]; eexists; split;
    try (apply if_not_started_frozen; exact Hrun); done.
Qed.

(** *** Calls that return *)

Definition is_rule_call (c : api_call) : bool :=
  match c with
  | CallAllowMaxConnections _ | CallAllowConnections _ | CallAllowIpv4 _ | CallAllowDomain _
  | CallAllowAllDomains | CallAllowIpv4Subnet _ => true
  | _ => false
  end.

Ltac stops_op :=
  repeat first
  [ lazymatch goal with
    | |- stops _ (if_not_started _ _ _) => apply stops_if_not_started
    end
  | solve [eauto 2 with stops nocore] | stops_step ].

Lemma stops_MountWrite p : stops api_stop (MiniSbxMountWrite p).
Proof. unfold MiniSbxMountWrite. stops_op. Qed.

Lemma stops_MountEmptyOutputFile p : stops api_stop (MiniSbxMountEmptyOutputFile p).
Proof. unfold MiniSbxMountEmptyOutputFile. stops_op. apply stops_MountWrite. Qed.

Lemma stops_BindSourceToTarget a b : stops api_stop (MiniSbxMountBindSourceToTarget a b).
Proof. unfold MiniSbxMountBindSourceToTarget. stops_op. Qed.

Lemma stops_SetupDefault : stops api_stop MiniSbxSetupDefault.
Proof.
  unfold MiniSbxSetupDefault, CreateDirectory, SetupDefaultMounts, GetLocalBin, GetLocalLib, GetRngSeed.
  stops_op; [apply stops_BindSourceToTarget | apply stops_MountEmptyOutputFile].
Qed.

Lemma stops_SetupCustom a b : stops api_stop (MiniSbxSetupCustom a b).
Proof.
  unfold MiniSbxSetupCustom, MiniSbxSetupSandboxRootWithOverlay, MiniSbxSetupOverlayfsFolder. stops_op.
Qed.

Lemma stops_run_call c : is_rule_call c = false -> stops api_stop (run_call c).
Proof.
  destruct c; try done; intros _; cbn [run_call].
  - unfold MiniSbxEnableLog. stops_op.
  - apply stops_SetupDefault.
  - apply stops_SetupCustom.
  - unfold MiniSbxSetupHermetic. stops_op.
  - unfold MiniSbxSetWorkingDir. stops_op.
  - unfold MiniSbxMountBind. stops_op.
  - apply stops_MountWrite.
  - unfold MiniSbxMountTmpfs. stops_op.
  - unfold MiniSbxMountOverlay. stops_op.
  - apply stops_MountEmptyOutputFile.
  - unfold MiniSbxMountParentsWrite. stops_op.
Qed.

End Invariants.

(** ** Properties *)

Section Properties.
Context `{B : Build} `{N : Bound} `{K : Kernel}.

(** C7: once the sandbox was started every configuration call but one is frozen:
    it returns -1, and its only effect is to make "already started" the last
    error; nothing else of the process changes and no call is made to the
    kernel, in every build.  [mini_sandbox_share_network] is the exception: it
    has no guard, returns 0 and still changes the network option. *)
Theorem api_frozen_after_start c s :
  is_running (opt s) <> NOT_RUNNING ->
  (c <> CallShareNetwork -> exists e,
     run_call c s = (Ok (-1), s <| sbx_err := e |>) /\ err_code e = SandboxAlreadyStarted) /\
  run_call CallShareNetwork s = (Ok 0, s <| opt ::= fun o => o <| create_netns := NO_NETNS |> |>).
Proof. intros H. split; [|done]. intros Hc. by apply frozen_call. Qed.

(** C28: no sequence of configuration calls ever takes a request back: the lists
    of binds, writable files, tmpfs and overlay directories only grow at their
    end, the modes are never switched off, a sandbox root that was set stays,
    and the options of the command line and the running state do not change,
    even when a call ends the process. *)
Theorem api_only_grows cs s : grown (opt s) (opt (final (run_calls cs) s)).
Proof. apply grows_calls. Qed.

(** C8: hermetic mode excludes the overlay and default modes after every
    sequence of configuration calls of the command-line program, and in the
    library after every sequence without a call of MiniSbxSetupHermetic. *)
Theorem modes_exclusive cs s :
  LIBMINISANDBOX = false \/ existsb is_hermetic cs = false ->
  mode_ok (opt s) -> mode_ok (opt (final (run_calls cs) s)).
Proof. intros Hc. by apply keeps_mode_calls. Qed.

(** In the library MiniSbxSetupHermetic does not return after it reports an
    invalid mode: called while an overlay mode is on it switches hermetic mode
    on as well, which the other two mode calls never do. *)
Theorem hermetic_not_exclusive r s :
  LIBMINISANDBOX = true -> is_running (opt s) = NOT_RUNNING -> use_overlayfs (opt s) = true ->
  let o := opt (final (run_call (CallSetupHermetic r)) s) in
  hermetic o = true /\ use_overlayfs o = true /\ ~ mode_ok o.
Proof.
  intros Hlib Hrun Hov. cbn [run_call].
  assert (exists s1, opt s1 = (opt s) <| hermetic := true |> /\
    final (MiniSbxSetupHermetic r) s = final (CreateSandboxRoot r) s1) as (s1 & Ho & ->).
  { unfold MiniSbxSetupHermetic, final. rewrite if_not_started_run by done.
    unfold get_opt, gets, id. unfold mbind at 1, prog_bind at 1. rewrite Hov, orb_true_r.
    unfold MiniSbxReportError. unfold mbind at 1, prog_bind at 1.
    rewrite report_returns by (by rewrite Hlib). eexists. split; [|reflexivity]. done. }
  assert (hermetic (opt (final (CreateSandboxRoot r) s1)) = true /\
          use_overlayfs (opt (final (CreateSandboxRoot r) s1)) = true) as [H1 H2].
  { destruct (CreateSandboxRoot_options r s1) as [-> |(_ & q & ->)]; rewrite Ho; (split; [reflexivity | exact Hov]). }
  cbv zeta. split; [done|]. split; [done|]. intros [H _]. by apply H.
Qed.

(** As long as default mode was not set up, the sources and the targets of
    the bind mounts are the same list, so every path is mounted over itself. *)
Theorem binds_aligned cs s :
  existsb is_default cs = false -> bind_mount_sources (opt s) = bind_mount_targets (opt s) ->
  bind_mount_sources (opt (final (run_calls cs) s)) = bind_mount_targets (opt (final (run_calls cs) s)).
Proof. intros Hc. by apply keeps_aligned_calls. Qed.

(** C40: a configuration call other than the firewall ones returns, or exits with
    EXIT_FAILURE, or throws std::logic_error for a string made from a null
    pointer: no filesystem exception escapes and no access is out of bounds,
    whatever the file system answers. *)
Theorem config_calls_stop c s w :
  is_rule_call c = false -> result (run_call c) s = Stop w -> api_stop w.
Proof. intros Hc. by apply stops_run_call. Qed.

End Properties.

(** *** Instances *)

Definition running_proc : proc (H := SimKernel) :=
  (sim_proc empty_sim) <| opt ::= fun o => o <| is_running := RUNNING |> |>.

Lemma api_frozen_after_start_witness :
  exists e, run_call (B := lib_build) (CallMountWrite "/tmp") running_proc =
    (Ok (-1), running_proc <| sbx_err := e |>) /\ err_code e = SandboxAlreadyStarted.
Proof.
  apply (api_frozen_after_start (B := lib_build) (K := SimKernel) (CallMountWrite "/tmp") running_proc);
    discriminate.
Defined.

Lemma modes_exclusive_witness :
  mode_ok (opt (final (run_calls (B := lib_build) [CallSetupDefault; CallMountWrite "/tmp"]) (sim_proc empty_sim))).
Proof.
  apply (modes_exclusive (B := lib_build) (K := SimKernel)); [right; reflexivity|].
  split; [intros [H _]; discriminate H | discriminate].
Defined.

Definition overlay_proc : proc (H := SimKernel) :=
  (sim_proc empty_sim) <| opt ::= fun o => o <| use_overlayfs := true |> |>.

Lemma hermetic_not_exclusive_witness :
  ~ mode_ok (opt (final (run_call (B := lib_build) (CallSetupHermetic "/tmp")) overlay_proc)).
Proof. apply (hermetic_not_exclusive (B := lib_build) (K := SimKernel) "/tmp" overlay_proc); reflexivity. Defined.

Lemma binds_aligned_witness :
  let o := opt (final (run_calls (B := lib_build) [CallMountBind "/tmp"; CallMountBind "/"]) (sim_proc empty_sim)) in
  bind_mount_sources o = bind_mount_targets o.
Proof.
  apply (binds_aligned (B := lib_build) (K := SimKernel) [CallMountBind "/tmp"; CallMountBind "/"]);
    reflexivity.
Defined.

(** Without HOME the symbolic links of the home directory cannot be looked for. *)
Lemma config_calls_stop_witness : api_stop (Thrown LogicError).
Proof.
  apply (config_calls_stop (B := lib_build) (K := SimKernel) (CallMountBind "/tmp") (initial_proc (K := SimKernel) ∅ empty_sim));
    vm_compute; reflexivity.
Defined.

(** A home directory with a link into /tmp. *)
Definition home_sim : sim :=
  empty_sim <| sim_nodes ::= fun m => insert "/home/u/d" FDirectory (insert "/tmp/x" FRegular m) |>
            <| sim_links ::= insert "/home/u/d/l" "/tmp/x" |>
            <| sim_dirs ::= insert "/home/u/d" ["l"] |>
            <| sim_script := ret_reply <$> [1; 2; 3; 4; 5; 6] |>.

(** Default mode can leave the bind lists with different lengths: the
    directories of symbolic links are added to the two lists separately, each
    if absent, and default mode binds /tmp/mini-sandbox-tmp over /tmp; binding
    a directory of the home that links into /tmp then adds the source /tmp
    without a target. *)
Theorem default_mode_misaligns_binds :
  let o := opt (final (run_calls (B := lib_build) [CallSetupDefault; CallMountBind "/home/u/d"]) (sim_proc home_sim)) in
  bind_mount_sources o = ["/tmp/mini-sandbox-tmp"; "/proc"; "/var"; "/opt"; "/home/u/d"; "/tmp"] /\
  bind_mount_targets o = ["/tmp"; "/proc"; "/var"; "/opt"; "/home/u/d"].
Proof. vm_compute. split; reflexivity. Qed.

(** A machine where "/usr/../etc" is "/etc". *)
Definition dotdot_sim : sim :=
  empty_sim <| sim_nodes ::= fun m => insert "/etc" FDirectory (insert "/usr" FDirectory m) |>
            <| sim_aliases ::= insert "/usr/../etc" "/etc" |>.

(** MiniSbxMountOverlay adds, next to the canonical path, the path as given
    cut to the length of the canonical one: an overlay on "/usr/../etc" is
    also an overlay on "/usr". *)
Theorem mount_overlay_truncates :
  overlayfsmount (opt (final (MiniSbxMountOverlay (B := lib_build) "/usr/../etc")
    ((sim_proc dotdot_sim) <| opt ::= fun o => o <| use_overlayfs := true |> |>))) = ["/etc"; "/usr"].
Proof. vm_compute. reflexivity. Qed.
