(* ===== verification/CommandLine.v ===== *)
(** * The command line (linux-sandbox-options.cc: Usage, ParseCommandLine,
      ExpandArgument, ExpandArguments, ParseOptions)

    Argument files are expanded, the words are scanned by [getopt] and each
    option is handled in its order.  [getopt] has no effect on the state the
    handlers use, so the scan is a function from the words to the options met
    and the operands left, and the handlers run over its result. *)

From S2P Require Import Prelude Monad CxxString FsPath Firewall Kernel SimKernel State Fs Errors ProcessTools OptionsApi Rules Api.
From Stdlib Require Import Ascii.
Open Scope sbx_scope.
Open Scope Z_scope.

(** ** getopt *)

(** What one call of [getopt] returns: an option with [optarg], ['?'], [':']. *)
Inductive opt_event :=
| EvOpt (c : ascii) (optarg : option string)
| EvUnrecognized (c : ascii)
| EvMissing (c : ascii).

(** The characters of [":S:G:W:T:t:il:L:w:e:M:m:h:HnNRUPF:D:o:d:k:x"]: those
    followed by a colon, and the others. *)
Definition with_argument : list ascii := chars "SGWTtlLweMmhFDodk".
Definition without_argument : list ascii := chars "iHnNRUPx".

Definition mem_char (c : ascii) (l : list ascii) : bool := existsb (Ascii.eqb c) l.

(** The options of one word, and whether the next word was taken as the
    argument of the last of them. *)
Fixpoint cluster (next : option string) (l : list ascii) : list opt_event * bool :=
  match l with
  | [] => ([], false)
  | c :: l' =>
      if mem_char c with_argument then
        match l', next with
        | _ :: _, _ => ([EvOpt c (Some (of_chars l'))], false)
        | [], Some a => ([EvOpt c (Some a)], true)
        | [], None => ([EvMissing c], false)
        end
      else
        let e := if mem_char c without_argument then EvOpt c None else EvUnrecognized c in
        let '(es, taken) := cluster next l' in
        (e :: es, taken)
  end.

Definition is_option_word (w : string) : bool :=
  Ascii.eqb (front_char w) "-"%char && (2 <=? String.length w)%nat.

(** The words after the program's name.  Operands found before ["--"] are moved
    behind the options, unless [POSIXLY_CORRECT] is set. *)
Fixpoint scan (posix : bool) (words : list string) : list opt_event * list string :=
  match words with
  | [] => ([], [])
  | w :: ws =>
      if streq w "--" then ([], ws)
      else if is_option_word w then
        let '(es, taken) := cluster (head ws) (drop 1 (chars w)) in
        match ws with
        | _ :: ws' =>
            let '(es', ops) := if taken : bool then scan posix ws' else scan posix ws in
            (es ++ es', ops)
        | [] => (es, [])
        end
      else if posix then ([], w :: ws)
      else let '(es, ops) := scan posix ws in (es, w :: ops)
  end.

(** ** Numbers *)

Definition wrap32 (v : Z) : Z := (v + 2 ^ 31) mod 2 ^ 32 - 2 ^ 31.

(** [sscanf(s, "%d", &n)]: the value [strtol] gives, cut to 32 bits; [None]
    when it does not return 1. *)
Definition scan_d (s : string) : option Z :=
  match scan_int (chars s) with
  | None => None
  | Some (v, _) => Some (wrap32 (Z.max (- 2 ^ 63) (Z.min v (2 ^ 63 - 1))))
  end.

Section CommandLine.
Context `{B : Build} `{N : Bound} `{K : Kernel}.

(** The message goes to stderr. *)
Definition Usage {A} : prog proc A := exit_ EXIT_FAILURE.

Definition ValidateIsAbsolutePath (path : string) : prog proc unit :=
  if negb (is_absolute path) then Usage else mret tt.

(** [if (op(..) < 0) Usage(..)] *)
Definition or_usage (op : prog proc Z) : prog proc unit :=
  res ← op; if res <? 0 then Usage else mret tt.

(** The cases of the switch; an option without a case does nothing. *)
Definition handle_option (c : ascii) (optarg : string) : prog proc unit :=
  match c with
  | "W"%char =>
      wd ← get_opt working_dir;
      if empty wd then
        _ ← ValidateIsAbsolutePath optarg;
        mod_opt (fun o => o <| working_dir := optarg |>)
      else Usage
  | "T"%char =>
      match scan_d optarg with
      | None => Usage
      | Some v => _ ← mod_opt (fun o => o <| timeout_secs := v |>); if v <? 0 then Usage else mret tt
      end
  | "t"%char =>
      match scan_d optarg with
      | None => Usage
      | Some v => _ ← mod_opt (fun o => o <| kill_delay_secs := v |>); if v <? 0 then Usage else mret tt
      end
  | "i"%char => mod_opt (fun o => o <| sigint_sends_sigterm := true |>)
  | "w"%char => or_usage (MiniSbxMountWrite optarg)
  | "e"%char => or_usage (MiniSbxMountTmpfs optarg)
  | "M"%char => or_usage (MiniSbxMountBind optarg)
  | "h"%char => or_usage (MiniSbxSetupHermetic optarg)
  | "H"%char => mod_opt (fun o => o <| fake_hostname := true |>)
  | "n"%char =>
      ns ← get_opt create_netns;
      if decide (ns = NO_NETNS) then Usage
      else mod_opt (fun o => o <| create_netns := NETNS |>)
  | "N"%char =>
      if MINITAP then mret tt
      else
        ns ← get_opt create_netns;
        if decide (ns = NETNS) then Usage
        else _ ← MiniSbxShareNetNamespace; mret tt
  | "F"%char =>
      if MINITAP then
        path ← get_opt firewall_rules_path;
        if empty path then
          _ ← mod_opt (fun o => o <| firewall_rules_path := optarg |>);
          _ ← MiniSbxAllowConnections optarg;
          mret tt
        else Usage
      else mret tt
  | "R"%char =>
      fake ← get_opt fake_username;
      if fake : bool then Usage else mod_opt (fun o => o <| fake_root := true |>)
  | "U"%char =>
      fake ← get_opt fake_root;
      if fake : bool then Usage else mod_opt (fun o => o <| fake_username := true |>)
  | "P"%char => mod_opt (fun o => o <| enable_pty := true |>)
  | "D"%char => or_usage (MiniSbxEnableLog optarg)
  | "o"%char => or_usage (MiniSbxSetupSandboxRootWithOverlay optarg)
  | "d"%char => or_usage (MiniSbxSetupOverlayfsFolder optarg)
  | "k"%char => or_usage (MiniSbxMountOverlay optarg)
  | "x"%char => or_usage MiniSbxSetupDefault
  | _ => mret tt
  end.

Definition handle_event (e : opt_event) : prog proc unit :=
  match e with
  | EvOpt c optarg => handle_option c (default "" optarg)
  | EvUnrecognized _ | EvMissing _ => Usage
  end.

Definition ParseCommandLine (argv : list string) : prog proc unit :=
  posix ← getenv "POSIXLY_CORRECT";
  let '(events, operands) := scan (bool_decide (is_Some posix)) (tail argv) in
  _ ← for_each events handle_event;
  _ ← match operands with
      | [] => mret tt
      | _ :: _ =>
          old ← get_opt args;
          match old with
          | [] => mod_opt (fun o => o <| args := operands |>)
          | _ :: _ => Usage
          end
      end;
  o ← get_opt id;
  if use_overlayfs o then
    res ← ValidateOverlayOutOfFolder (tmp_overlayfs o) (sandbox_root o);
    if res <? 0 then Usage else mret tt
  else mret tt.

(** [fuel] bounds the nesting of argument files, which may include themselves. *)
Fixpoint ExpandArgument (fuel : nat) (expanded : list string) (arg : string) : prog proc (list string) :=
  match fuel with
  | O => stop_with OutOfFuel
  | S n =>
      if Ascii.eqb (front_char arg) "@"%char then
        let filename := drop_str 1 arg in
        f ← query (fun k => kcontents k filename);
        _ ← match f with
            | None => MiniSbxReportGenericError "ExpandArgument" 458 ("opening argument file failed: " +:+ filename)
            | Some _ => mret 0
            end;
        (fix lines (ls : list string) (acc : list string) : prog proc (list string) :=
           match ls with
           | [] => mret acc
           | line :: ls' =>
               if empty line then lines ls' acc
               else acc' ← ExpandArgument n acc line; lines ls' acc'
           end) (getlines (default "" f)) expanded
      else mret (expanded ++ [arg])
  end.

Fixpoint ExpandArguments_from (argv expanded : list string) : prog proc (list string) :=
  match argv with
  | [] => mret expanded
  | arg :: argv' =>
      if streq arg "--" then mret (expanded ++ argv)
      else expanded' ← ExpandArgument loop_bound expanded arg; ExpandArguments_from argv' expanded'
  end.

Definition ExpandArguments (argv : list string) : prog proc (list string) := ExpandArguments_from argv [].

Definition ParseOptions (argv : list string) : prog proc unit :=
  expanded ← ExpandArguments argv;
  _ ← ParseCommandLine expanded;
  wd ← get_opt working_dir;
  _ ← (if empty wd then
         '(z, cwd) ← GetCWD;
         _ ← mod_opt (fun o => o <| working_dir := cwd |>);
         if z <? 0 then Usage else mret tt
       else mret tt);
  command ← get_opt args;
  match command with [] => Usage | _ :: _ => mret tt end.

End CommandLine.

(** ** Facts about the scan *)

Definition is_missing (e : opt_event) : bool := match e with EvMissing _ => true | _ => false end.

(** A word that follows is only looked at when the cluster ends in an option
    without its argument. *)
Lemma cluster_next next l es taken :
  cluster None l = (es, taken) -> existsb is_missing es = false ->
  taken = false /\ cluster next l = (es, false).
Proof.
  revert es taken. induction l as [|c l IH]; cbn [cluster]; intros es taken; [by intros [= <- <-]|].
  destruct (mem_char c with_argument).
  - destruct l as [|d l]; [by intros [= <- <-] | by intros [= <- <-]; destruct next].
  - destruct (cluster None l) as [es' taken'] eqn:E. intros [= <- <-]. cbn [existsb]. rewrite orb_false_iff.
    intros [_ Hm]. destruct (IH _ _ eq_refl Hm) as [-> ->]. done.
Qed.

Lemma scan_app xs cmd es ops :
  "--" ∉ xs -> scan false xs = (es, ops) -> existsb is_missing es = false ->
  scan false (xs ++ "--" :: cmd) = (es, ops ++ cmd).
Proof.
  remember (length xs) as n eqn:Hn. assert (length xs <= n)%nat as Hle by lia. clear Hn.
  revert xs es ops Hle. induction n as [|n IH]; intros xs es ops Hle Hno Hscan Hmiss.
  { destruct xs; [|simpl in Hle; lia]. by injection Hscan as <- <-. }
  destruct xs as [|w ws]; [by injection Hscan as <- <-|].
  apply not_elem_of_cons in Hno as [Hw Hws]. simpl in Hle.
  cbn [scan app] in *. replace (streq w "--") with false in * by (symmetry; by apply streq_false).
  destruct (is_option_word w).
  - destruct ws as [|w2 ws]; cbn [app head] in *.
    + destruct (cluster None _) as [es1 t1] eqn:E. injection Hscan as -> <-.
      destruct (cluster_next (Some "--") _ _ _ E Hmiss) as [_ ->]. cbn. by rewrite app_nil_r.
    + destruct (cluster (Some w2) _) as [es1 t1]. apply not_elem_of_cons in Hws as [Hw2 Hws].
      destruct t1.
      * destruct (scan false ws) as [es2 o2] eqn:E2. injection Hscan as <- <-.
        rewrite existsb_app, orb_false_iff in Hmiss. rewrite (IH ws es2 o2); [done | simpl in Hle; lia | done | done | apply Hmiss].
      * destruct (scan false (w2 :: ws)) as [es2 o2] eqn:E2. injection Hscan as <- <-.
        rewrite existsb_app, orb_false_iff in Hmiss.
        change (w2 :: ws ++ "--" :: cmd) with ((w2 :: ws) ++ "--" :: cmd).
        rewrite (IH (w2 :: ws) es2 o2); [done | simpl in *; lia | by apply not_elem_of_cons | done | apply Hmiss].
  - destruct (scan false ws) as [es2 o2] eqn:E2. injection Hscan as <- <-.
    by rewrite (IH ws es2 o2); [| lia | | |].
Qed.

Section Facts.
Context `{B : Build} `{N : Bound} `{K : Kernel}.

(** *** Words without argument files *)

Definition plain_word (w : string) : Prop := Ascii.eqb (front_char w) "@" = false.

Lemma ExpandArgument_plain n acc w s :
  plain_word w -> (0 < n)%nat -> ExpandArgument n acc w s = (Ok (acc ++ [w]), s).
Proof. intros Hw Hn. destruct n; [lia|]. cbn [ExpandArgument]. unfold plain_word in Hw. by rewrite Hw. Qed.

Lemma ExpandArguments_plain xs cmd acc s :
  (0 < loop_bound)%nat -> Forall plain_word xs -> "--" ∉ xs ->
  ExpandArguments_from (xs ++ "--" :: cmd) acc s = (Ok (acc ++ xs ++ "--" :: cmd), s).
Proof.
  intros Hn. revert acc. induction xs as [|x xs IH]; intros acc Hp Hno; [done|].
  apply Forall_cons in Hp as [Hx Hp]. apply not_elem_of_cons in Hno as [Hne Hno].
  cbn [app ExpandArguments_from]. replace (streq x "--") with false by (symmetry; by apply streq_false).
  rewrite (bind_ok _ _ _ _ _ (ExpandArgument_plain _ acc x s Hx Hn)), IH by done.
  by rewrite <- (assoc_L (++)).
Qed.

(** *** What the handlers keep when they return *)

(** Computations that, when they return, keep a property of the options. *)
Definition ok_keeps {A} (I : Options -> Prop) (m : prog proc A) : Prop :=
  forall s a s', m s = (Ok a, s') -> I (opt s) -> I (opt s').

Section OkKeeps.
Context (I : Options -> Prop).

Lemma ok_ret {A} (a : A) : ok_keeps I (mret a).
Proof. by intros s b s' [= _ <-]. Qed.

Lemma ok_stop {A} w : ok_keeps I (stop_with w : prog proc A).
Proof. by intros s b s'. Qed.

Lemma ok_get {A} (f : Options -> A) : ok_keeps I (get_opt f).
Proof. by intros s b s' [= _ <-]. Qed.

Lemma ok_mod f : (forall o, I o -> I (f o)) -> ok_keeps I (mod_opt f).
Proof. intros H s a s' [= _ <-]. apply H. Qed.

Lemma ok_bind {A C} (m : prog proc A) (f : A -> prog proc C) :
  ok_keeps I m -> (forall a, ok_keeps I (f a)) -> ok_keeps I (m ≫= f).
Proof. intros Hm Hf s b s' (a & s1 & H1 & H2)%bind_inv_ok HI. eapply Hf; [exact H2|]. by eapply Hm. Qed.

Lemma ok_for_each {A} (l : list A) body : (forall x, ok_keeps I (body x)) -> ok_keeps I (for_each l body).
Proof. intros H. induction l as [|x l IH]; [apply ok_ret|]. apply ok_bind; [apply H | by intros _]. Qed.

Lemma ok_grows {A} (m : prog proc A) :
  (forall o o', cli_options o' = cli_options o -> I o -> I o') -> respects grows m -> ok_keeps I m.
Proof.
  intros HI Hg s a s' E. pose proof (Hg s) as H. unfold grows, final in H. rewrite E in H.
  apply HI. apply (grown_cli _ _ H).
Qed.

End OkKeeps.

Ltac ok_walk :=
  repeat first
  [ lazymatch goal with
    | |- ok_keeps _ (mret _) => apply ok_ret
    | |- ok_keeps _ (stop_with _) => apply ok_stop
    | |- ok_keeps _ (exit_ _) => apply ok_stop
    | |- ok_keeps _ Usage => apply ok_stop
    | |- ok_keeps _ (get_opt _) => apply ok_get
    | |- ok_keeps _ (ValidateIsAbsolutePath _) => unfold ValidateIsAbsolutePath
    | |- ok_keeps _ (mbind _ _) => apply ok_bind; [|intros ?]
    | |- ok_keeps _ (match ?x with _ => _ end) => destruct x
    end ].

(** What the command line guarantees of its numeric and user options. *)
Definition cli_ok (o : Options) : Prop :=
  0 <= timeout_secs o <= INT_MAX /\ 0 <= kill_delay_secs o <= INT_MAX /\
  ~ (fake_root o = true /\ fake_username o = true).

Lemma cli_ok_same o o' : cli_options o' = cli_options o -> cli_ok o -> cli_ok o'.
Proof. unfold cli_options, cli_ok. intros [= -> -> _ _ -> -> _ _ _ _]. done. Qed.

Lemma wrap32_range v : - 2 ^ 31 <= wrap32 v <= INT_MAX.
Proof. unfold wrap32, INT_MAX. pose proof (Z.mod_pos_bound (v + 2 ^ 31) (2 ^ 32) ltac:(lia)). lia. Qed.

Lemma scan_d_range s v : scan_d s = Some v -> v <= INT_MAX.
Proof. unfold scan_d. destruct (scan_int _) as [[z l]|]; [|done]. intros [= <-]. apply wrap32_range. Qed.

Lemma or_usage_keeps I op :
  (forall o o', cli_options o' = cli_options o -> I o -> I o') -> respects grows op ->
  ok_keeps I (or_usage op).
Proof.
  intros HI Hg. unfold or_usage. apply ok_bind; [by apply ok_grows|]. intros z.
  destruct (z <? 0); [apply ok_stop | apply ok_ret].
Qed.

(** The invariant of the handlers: the numbers are in range, the user options
    exclude each other, and no command was set. *)
Definition parsing (o : Options) : Prop := cli_ok o /\ args o = [].

Lemma parsing_same o o' : cli_options o' = cli_options o -> parsing o -> parsing o'.
Proof.
  intros H [Hc Ha]. split; [by eapply cli_ok_same|]. unfold cli_options in H. by injection H as _ _ _ _ _ _ _ -> _ _.
Qed.

Lemma ok_number I (v : Z) f :
  v <= INT_MAX -> (forall o, 0 <= v <= INT_MAX -> I o -> I (f o)) ->
  ok_keeps I (_ ← mod_opt f; if v <? 0 then Usage else mret tt).
Proof.
  intros Hv Hf s a s' H HI. apply bind_inv_ok in H as ([] & s1 & [= <-] & H).
  destruct (Z.ltb_spec v 0); [done|]. injection H as _ <-. cbn. by apply Hf.
Qed.

Lemma ok_guarded I (g : Options -> bool) f :
  (forall o, g o = false -> I o -> I (f o)) ->
  ok_keeps I (fake ← get_opt g; if fake : bool then Usage else mod_opt f).
Proof.
  intros Hf s a s' H HI. apply bind_inv_ok in H as (b & s1 & [= <- <-] & H).
  destruct (g (opt s)) eqn:E; [done|]. injection H as _ <-. cbn. by apply Hf.
Qed.

Lemma handle_event_keeps e : ok_keeps parsing (handle_event e).
Proof.
  assert (forall op, respects grows op -> ok_keeps parsing (or_usage op)) as Hop
    by (intros op; apply or_usage_keeps, parsing_same).
  assert (forall f, (forall o, cli_ok o -> cli_ok (f o)) -> (forall o, args (f o) = args o) ->
    ok_keeps parsing (mod_opt f)) as Hmod.
  { intros f H1 H2. apply ok_mod. intros o [Hc Ha]. split; [by apply H1 | by rewrite H2]. }
  destruct e as [c a| |]; try apply ok_stop. cbn [handle_event]. generalize (default "" a) as optarg.
  clear a. intros optarg.
  destruct c as [[] [] [] [] [] [] [] []]; cbn [handle_option]; try apply ok_ret.
  all: lazymatch goal with
    | |- ok_keeps _ (or_usage (MiniSbxMountWrite ?p)) => apply Hop, (grows_call (CallMountWrite p))
    | |- ok_keeps _ (or_usage (MiniSbxMountTmpfs ?p)) => apply Hop, (grows_call (CallMountTmpfs p))
    | |- ok_keeps _ (or_usage (MiniSbxMountBind ?p)) => apply Hop, (grows_call (CallMountBind p))
    | |- ok_keeps _ (or_usage (MiniSbxEnableLog ?p)) => apply Hop, (grows_call (CallEnableLog p))
    | |- ok_keeps _ (or_usage (MiniSbxMountOverlay ?p)) => apply Hop, (grows_call (CallMountOverlay p))
    | |- ok_keeps _ (or_usage MiniSbxSetupDefault) => apply Hop, grows_default
    | |- ok_keeps _ (or_usage (MiniSbxSetupHermetic _)) => apply Hop, grows_hermetic
    | |- ok_keeps _ (or_usage (MiniSbxSetupSandboxRootWithOverlay _)) => apply Hop, grows_overlay_root
    | |- ok_keeps _ (or_usage (MiniSbxSetupOverlayfsFolder _)) => apply Hop, grows_overlay_folder
    | |- ok_keeps _ (mod_opt _) => by apply Hmod
    | _ => idtac
    end.
  - ok_walk; apply Hmod; done.
  - apply ok_guarded. intros o Hr [(H1 & H2 & _) Ha]. repeat split; try done; try apply H1; try apply H2.
    cbn. rewrite Hr. by intros [].
  - ok_walk; apply Hmod; done.
  - ok_walk. apply ok_grows; [apply parsing_same | apply (grows_call CallShareNetwork)].
  - ok_walk; [by apply Hmod|]. apply ok_grows; [apply parsing_same | apply (grows_call (CallAllowConnections optarg))].
  - apply ok_guarded. intros o Hr [(H1 & H2 & _) Ha]. repeat split; try done; try apply H1; try apply H2.
    cbn. rewrite Hr. by intros [].
  - destruct (scan_d optarg) as [v|] eqn:E; [|apply ok_stop]. apply ok_number; [by eapply scan_d_range|].
    intros o Hv [(H1 & H2 & H3) Ha]. done.
  - destruct (scan_d optarg) as [v|] eqn:E; [|apply ok_stop]. apply ok_number; [by eapply scan_d_range|].
    intros o Hv [(H1 & H2 & H3) Ha]. done.
Qed.

(** *** The whole parse *)

Lemma ParseCommandLine_ok argv s s' :
  ParseCommandLine argv s = (Ok tt, s') -> parsing (opt s) ->
  cli_ok (opt s') /\
  args (opt s') = snd (scan (bool_decide (is_Some (environ s !! "POSIXLY_CORRECT"))) (tail argv)) /\
  (use_overlayfs (opt s') = true -> exists a b,
     krealpath (kern s') (tmp_overlayfs (opt s')) = inr a /\
     krealpath (kern s') (sandbox_root (opt s')) = inr b /\ isSubpath b a = false).
Proof.
  unfold ParseCommandLine. intros H Hp. apply bind_inv_ok in H as (px & s1 & [= <- <-] & H).
  destruct (scan _ _) as [es ops] eqn:Es. cbn [snd].
  apply bind_inv_ok in H as ([] & s1 & H1 & H).
  assert (parsing (opt s1)) as [Hc Ha].
  { eapply ok_for_each; [intros e; apply handle_event_keeps | exact H1 | exact Hp]. }
  apply bind_inv_ok in H as ([] & s2 & H2 & H).
  assert (cli_ok (opt s2) /\ args (opt s2) = ops) as [Hc2 Ha2].
  { destruct ops as [|o ops]; [by injection H2 as <-|].
    apply bind_inv_ok in H2 as (old & s3 & [= <- <-] & H2). rewrite Ha in H2. by injection H2 as <-. }
  apply bind_inv_ok in H as (o & s3 & [= <- <-] & H).
  destruct (use_overlayfs (opt s2)) eqn:Eo.
  - apply bind_inv_ok in H as (res & s3 & H3 & H).
    destruct (ValidateOverlayOutOfFolder_ok _ _ _ _ _ H3) as [-> Hv].
    destruct (Z.ltb_spec res 0); [done|]. injection H as <-. split; [done|]. split; [done|]. intros _.
    destruct (krealpath (kern s2) (tmp_overlayfs (opt s2))) as [|a]; [subst; done|].
    destruct (krealpath (kern s2) (sandbox_root (opt s2))) as [|b]; [subst; done|].
    destruct (isSubpath b a) eqn:Ei; [subst; done|]. by exists a, b.
  - injection H as <-. by rewrite Eo.
Qed.

Lemma ParseOptions_inv argv s s' :
  ParseOptions argv s = (Ok tt, s') ->
  exists expanded s1 s2, ExpandArguments argv s = (Ok expanded, s1) /\
    ParseCommandLine expanded s1 = (Ok tt, s2) /\ kern s' = kern s2 /\ args (opt s') <> [] /\
    (exists wd, opt s' = (opt s2) <| working_dir := wd |>).
Proof.
  unfold ParseOptions. intros H. apply bind_inv_ok in H as (expanded & s1 & H1 & H).
  apply bind_inv_ok in H as ([] & s2 & H2 & H). apply bind_inv_ok in H as (wd & s3 & [= <- <-] & H).
  apply bind_inv_ok in H as ([] & s4 & H4 & H). apply bind_inv_ok in H as (cmd & s5 & [= <- <-] & H).
  exists expanded, s1, s2. split; [done|]. split; [done|].
  assert (kern s4 = kern s2 /\ exists wd, opt s4 = (opt s2) <| working_dir := wd |>) as [Hk Ho].
  { destruct (empty _); [|injection H4 as <-; split; [done|]; exists (working_dir (opt s2)); by destruct (opt s2)].
    unfold GetCWD, query, gets, mbind, prog_bind, mret, prog_ret in H4.
    destruct (kcwd (kern s2)) as [e|p].
    - destruct (MiniSbxReportGenericError _ _ _ s2) as [[z|w] s5] eqn:Er; [|done].
      apply report_negative in Er. cbn in H4. by rewrite (proj2 (Z.ltb_lt z 0) Er) in H4.
    - injection H4 as <-. split; [done|]. by exists p. }
  destruct (args (opt s4)) eqn:E; [done|]. injection H as <-. by rewrite E.
Qed.

Lemma same_opt_ExpandArgument n acc arg : respects same_opt (ExpandArgument n acc arg).
Proof.
  revert acc arg. induction n as [|n IH]; intros acc arg; cbn [ExpandArgument]; [by apply respects_stop, _|].
  destruct (Ascii.eqb _ _); [|by apply respects_ret, _].
  apply respects_bind; [apply _ | by apply respects_query, _ | intros f].
  apply respects_bind; [apply _ | destruct f; [by apply respects_ret, _ | apply same_opt_generic] | intros _].
  revert acc. induction (getlines _) as [|line ls IHl]; intros acc; [by apply respects_ret, _|].
  destruct (empty line); [apply IHl|]. apply respects_bind; [apply _ | apply IH | intros acc'; apply IHl].
Qed.

Lemma same_opt_ExpandArguments argv acc : respects same_opt (ExpandArguments_from argv acc).
Proof.
  revert acc. induction argv as [|a argv IH]; intros acc; cbn [ExpandArguments_from]; [by apply respects_ret, _|].
  destruct (streq a "--"); [by apply respects_ret, _|].
  apply respects_bind; [apply _ | apply same_opt_ExpandArgument | intros l; apply IH].
Qed.

(** The working directory is set when the parse returns. *)
Lemma ParseOptions_working_dir argv s s' :
  (forall k : kstate, kcwd k <> inr "") -> ParseOptions argv s = (Ok tt, s') -> working_dir (opt s') <> "".
Proof.
  intros Hcwd H. unfold ParseOptions in H. apply bind_inv_ok in H as (expanded & s1 & _ & H).
  apply bind_inv_ok in H as ([] & s2 & _ & H). apply bind_inv_ok in H as (wd & s3 & [= <- <-] & H).
  apply bind_inv_ok in H as ([] & s4 & H4 & H). apply bind_inv_ok in H as (cmd & s5 & [= <- <-] & H).
  assert (working_dir (opt s4) <> "") as Hw.
  { destruct (empty (working_dir (opt s2))) eqn:E.
    - unfold GetCWD, query, gets, mbind, prog_bind, mret, prog_ret in H4. specialize (Hcwd (kern s2)).
      destruct (kcwd (kern s2)) as [e|p].
      + destruct (MiniSbxReportGenericError _ _ _ s2) as [[z|w] s5] eqn:Er; [|done].
        apply report_negative in Er. cbn in H4. by rewrite (proj2 (Z.ltb_lt z 0) Er) in H4.
      + injection H4 as <-. cbn. intros ->. by apply Hcwd.
    - injection H4 as <-. intros Hn. by rewrite Hn in E. }
  destruct (args (opt s4)); [done|]. by injection H as <-.
Qed.

(** The operands of the scan and the words behind "--" are the command. *)
Lemma ParseOptions_args name opts cmd es ops s s' :
  (0 < loop_bound)%nat -> environ s !! "POSIXLY_CORRECT" = None -> parsing (opt s) ->
  Forall plain_word (name :: opts) -> "--" ∉ name :: opts ->
  scan false opts = (es, ops) -> existsb is_missing es = false ->
  ParseOptions (name :: opts ++ "--" :: cmd) s = (Ok tt, s') ->
  args (opt s') = ops ++ cmd.
Proof.
  intros Hn Hpx Hp Hplain Hno Hscan Hm (expanded & s1 & s2 & H1 & H2 & _ & _ & wd & Ho)%ParseOptions_inv.
  unfold ExpandArguments in H1.
  pose proof (ExpandArguments_plain (name :: opts) cmd [] s Hn Hplain Hno) as He. cbn [app] in He.
  rewrite He in H1. injection H1 as <- <-.
  apply ParseCommandLine_ok in H2 as (_ & Ha & _); [|done]. rewrite Hpx in Ha. cbn [tail] in Ha.
  apply not_elem_of_cons in Hno as [_ Hno].
  replace (bool_decide (is_Some (@None string))) with false in Ha by (symmetry; by apply bool_decide_eq_false, is_Some_None).
  rewrite (scan_app opts cmd es ops Hno Hscan Hm) in Ha. by rewrite Ho.
Qed.

End Facts.

(** ** Properties *)

Section Properties.
Context `{B : Build} `{N : Bound} `{K : Kernel}.

(** C9: when the parsing of the command line returns, the two timeouts are
    non-negative C ints, at most one of fake root and fake user is set, there is
    a command to run, and with an overlay the overlay directory has a canonical
    path that is not below the canonical sandbox root. *)
Theorem ParseOptions_guarantees argv s s' :
  parsing (opt s) -> ParseOptions argv s = (Ok tt, s') ->
  cli_ok (opt s') /\ args (opt s') <> [] /\
  (use_overlayfs (opt s') = true -> exists a b,
     krealpath (kern s') (tmp_overlayfs (opt s')) = inr a /\
     krealpath (kern s') (sandbox_root (opt s')) = inr b /\ isSubpath b a = false).
Proof.
  intros Hp (expanded & s1 & s2 & H1 & H2 & Hk & Ha & wd & Ho)%ParseOptions_inv.
  pose proof (same_opt_ExpandArguments argv [] s) as He. unfold same_opt, final in He.
  unfold ExpandArguments in H1. rewrite H1 in He. cbn in He.
  apply ParseCommandLine_ok in H2 as (Hc & _ & Hov); [|by rewrite He].
  split; [by rewrite Ho|]. split; [done|]. rewrite Hk, Ho. exact Hov.
Qed.

(** C10: the command behind "--" reaches the sandbox word for word, after the
    operands that came before it: whatever it holds (options, "--", "@file"), no
    word of it is expanded, reordered or read as an option, provided the words
    before it name no argument file and the last option has its argument. *)
Theorem command_verbatim name opts cmd es ops s s' :
  (0 < loop_bound)%nat -> environ s !! "POSIXLY_CORRECT" = None -> parsing (opt s) ->
  Forall plain_word (name :: opts) -> "--" ∉ name :: opts ->
  scan false opts = (es, ops) -> existsb is_missing es = false ->
  ParseOptions (name :: opts ++ "--" :: cmd) s = (Ok tt, s') ->
  args (opt s') = ops ++ cmd.
Proof. apply ParseOptions_args. Qed.

End Properties.

(** *** Instances *)

Definition cli_words : list string := ["-T"; "10"; "-w/tmp"; "-H"].

Definition parsed : proc (H := SimKernel) :=
  final (ParseOptions (B := cli_build) (N := some_bound) ("sandbox" :: cli_words ++ "--" :: ["ls"; "-l"; "--"; "@x"]))
    (sim_proc empty_sim).

Lemma ParseOptions_guarantees_witness : cli_ok (opt parsed) /\ args (opt parsed) <> [].
Proof.
  destruct (ParseOptions_guarantees (B := cli_build) (N := some_bound) (K := SimKernel)
    ("sandbox" :: cli_words ++ "--" :: ["ls"; "-l"; "--"; "@x"]) (sim_proc empty_sim) parsed) as (H1 & H2 & _).
  - vm_compute. repeat split; try discriminate. by intros [].
  - vm_compute. reflexivity.
  - split; [exact H1 | exact H2].
Defined.

Lemma command_verbatim_witness : args (opt parsed) = ["ls"; "-l"; "--"; "@x"].
Proof.
  apply (command_verbatim (B := cli_build) (N := some_bound) (K := SimKernel) "sandbox" cli_words
    ["ls"; "-l"; "--"; "@x"] (fst (scan false cli_words)) [] (sim_proc empty_sim)).
  - vm_compute. lia.
  - reflexivity.
  - vm_compute. repeat split; try discriminate. by intros [].
  - repeat constructor.
  - refine (bool_decide_unpack ("--" ∉ _) _). vm_compute. exact I.
  - reflexivity.
  - reflexivity.
  - vm_compute. reflexivity.
Defined.
