(* ===== verification/Mounts.v ===== *)
(** * Building the file system of the sandbox (linux-sandbox-pid1.cc, first part)

    The targets of the mounts, the policies that say how a path is mounted, and
    the functions that mount: bind, tmpfs, overlay and writable mounts, the
    read-only remounts, /dev, /proc and /sys, and the change of root. *)

From S2P Require Import Prelude Monad CxxString FsPath Firewall Kernel SimKernel State Fs Errors ProcessTools OptionsApi.
From Stdlib Require Import Ascii.
Open Scope sbx_scope.
Open Scope Z_scope.

Definition ROOT : string := "/".
Definition XFS_SUPER_MAGIC : Z := 1481003842.
Definition OVELAY_MAX_DEPTH : Z := 5.
Definition OVELAY_DEPTH_THRESHOLD : Z := 2.

Definition isDevPath (str : string) : bool := streq str "/dev".

(** ** Policies: functions of the options *)

(** The paths that are kept writable when everything is remounted read-only. *)
Definition ShouldBeWritable (o : Options) (mnt_dir : string) : bool :=
  if streq mnt_dir (working_dir o) then true
  else if ends_with mnt_dir "/proc" then true
  else if ends_with mnt_dir TMP then true
  else if starts_with mnt_dir "/dev" then true
  else if enable_pty o && streq mnt_dir "/dev/pts" then true
  else if existsb (fun w => streq mnt_dir w) (writable_files o) then true
  else existsb (fun t => streq mnt_dir t) (tmpfs_dirs o).

(** Whether some policy already says how a path is mounted; [home] and [ro] are
    the globals [home_dir] and [ReadOnlyPaths]. *)
Definition ToBeMounted (o : Options) (home : string) (ro : list string) (str : string) : bool :=
  if isSubpath home str || isSubpath str home then true
  else if existsb (fun p => isSubpath p str) (overlayfsmount o) then true
  else if existsb (fun p => isSubpath p str) (writable_files o) then true
  else if existsb (fun p => isSubpath p str) (bind_mount_sources o) then true
  else if existsb (fun p => isSubpath str p) ro then true
  else if isSubpath TMP str then true
  else if isSubpath (working_dir o) str || isSubpath str (working_dir o) then true
  else isDevPath str.

(** [std::set<std::string>::insert]: the set as its elements in order. *)
Fixpoint set_insert (x : string) (l : list string) : list string :=
  match l with
  | [] => [x]
  | y :: l' =>
      match String.compare x y with
      | Lt => x :: l
      | Eq => l
      | Gt => y :: set_insert x l'
      end
  end.

(** The flags of a remount, from the words of the mount table. *)
Definition flag_if (b : bool) (flag acc : Z) : Z := if b then Z.lor acc flag else acc.

Definition mntent_flags (ent : mntent) : Z :=
  flag_if (hasmntopt ent "relatime") MS_RELATIME
  (flag_if (hasmntopt ent "nodiratime") MS_NODIRATIME
  (flag_if (hasmntopt ent "noatime") MS_NOATIME
  (flag_if (hasmntopt ent "nosuid") MS_NOSUID
  (flag_if (hasmntopt ent "noexec") MS_NOEXEC
  (flag_if (hasmntopt ent "nodev") MS_NODEV (Z.lor MS_BIND MS_REMOUNT)))))).

(** The flags of a read-only remount, from [statvfs]. *)
Definition statvfs_flags (f : Z) : Z :=
  let has st := negb (Z.land f st =? 0) in
  flag_if (has ST_RELATIME) MS_RELATIME
  (flag_if (has ST_NODIRATIME) MS_NODIRATIME
  (flag_if (has ST_NOATIME) MS_NOATIME
  (flag_if (has ST_NOEXEC) MS_NOEXEC
  (flag_if (has ST_NODEV) MS_NODEV
  (flag_if (has ST_NOSUID) MS_NOSUID (Z.lor MS_BIND (Z.lor MS_REMOUNT MS_RDONLY))))))).

(** The types of file system that are left alone. *)
Definition network_fs (type : string) : bool :=
  streq type "autofs" || has_prefix "nfs" type || streq type "cifs" || has_prefix "fuse" type.

(** The errors of a remount that are ignored. *)
Definition ignored_remount_error (e : errno) : bool :=
  match e with EACCES | EPERM | EINVAL | ENOENT | ESTALE | ENODEV => true | _ => false end.

Definition dev_nodes : list string :=
  ["/dev/null"; "/dev/random"; "/dev/urandom"; "/dev/zero"; "/dev/full"; "/dev/tty"; "/dev/console"].

Definition dev_links : list (string * string) :=
  [("dev/fd", "/proc/self/fd"); ("dev/stdin", "/proc/self/fd/0");
   ("dev/stdout", "/proc/self/fd/1"); ("dev/stderr", "/proc/self/fd/2")].

Section Mounts.
Context `{B : Build} `{N : Bound} `{K : Kernel}.

Definition isXFS (path : string) : prog proc bool :=
  r ← query (fun k => kstatfs k path);
  mret match r with Some t => t =? XFS_SUPER_MAGIC | None => false end.

(** ** Targets *)

Definition CreateFile (path : string) : prog proc unit :=
  handle ← sys (Open path (Z.lor O_CREAT (Z.lor O_WRONLY O_EXCL)) 438);
  if failed handle then DIE
  else
    c ← sys (Close (r_ret handle));
    if failed c then DIE else mret tt.

Definition LinkFile (path : string) : prog proc unit :=
  r ← sys (Link "tmp/empty_file" path);
  if failed r then CreateFile path else mret tt.

(** The recursion over the parent directories; [errno] is only read by its
    caller itself. *)
Fixpoint CreateTarget_rec (fuel : nat) (path : string) (is_directory : bool) : prog proc Z :=
  match fuel with
  | O => stop_with OutOfFuel
  | S n =>
      sb ← query (fun k => kstat k path);
      match sb with
      | inr st =>
          mret (if bool_decide (st_type st = if is_directory then FDirectory else FRegular) then 0 else -1)
      | inl ENOENT =>
          res ← CreateTarget_rec n (dirname path) true;
          if res <? 0 then DIE
          else if is_directory then
            m ← sys (Mkdir path 493);
            mret (if failed m then -1 else 0)
          else _ ← LinkFile path; mret 0
      | inl _ => mret (-1)
      end
  end.

(** Every step of the recursion shortens the path, down to ["/"] or ["."]. *)
Definition target_fuel (path : string) : nat := String.length path + 2.

Definition CreateTarget (path : string) (is_directory : bool) : prog proc Z :=
  CreateTarget_rec (target_fuel path) path is_directory.

(** [mount(..) < 0] is fatal. *)
Definition mount_or_die (source : option string) (target : string) (fstype : option string) (flags : Z)
    (data : option string) : prog proc unit :=
  r ← sys (Mount source target fstype flags data);
  if failed r then DIE else mret tt.

(** ** The read-only sandbox, without a change of root *)

(** The pairs of the two vectors, in their order; [at] throws when there is no target. *)
Fixpoint mount_binds (sources targets : list string) : prog proc unit :=
  match sources, targets with
  | [], _ => mret tt
  | _ :: _, [] => throw OutOfRangeError
  | source :: ss, target :: ts =>
      _ ← mount_or_die (Some source) target None (Z.lor MS_BIND MS_REC) None;
      mount_binds ss ts
  end.

Definition MountFilesystems : prog proc unit :=
  o ← get_opt id;
  _ ← for_each (tmpfs_dirs o) (fun tmpfs_dir =>
        if has_prefix tmpfs_dir (working_dir o) then DIE else mret tt);
  _ ← mount_binds (bind_mount_sources o) (bind_mount_targets o);
  _ ← for_each (tmpfs_dirs o) (fun tmpfs_dir =>
        mount_or_die (Some "tmpfs") tmpfs_dir (Some "tmpfs") (Z.lor MS_NOSUID (Z.lor MS_NODEV MS_NOATIME)) None);
  _ ← for_each (writable_files o) (fun writable_file =>
        if contains (bind_mount_sources o) writable_file then mret tt
        else mount_or_die (Some writable_file) writable_file None (Z.lor MS_BIND MS_REC) None);
  r ← sys (Mount (Some (working_dir o)) (working_dir o) None MS_BIND None);
  if failed r then
    mount_or_die (Some (working_dir o)) (working_dir o) None (Z.lor MS_BIND MS_REMOUNT) None
  else mret tt.

(** ** Overlays *)

(** The loop over the entries of a directory. *)
Fixpoint keep_directories (entries directories : list string) : prog proc (list string) :=
  match entries with
  | [] => mret directories
  | e :: es => d ← fs_is_directory e; keep_directories es (if d : bool then directories ++ [e] else directories)
  end.

Definition list_directories (path : string) : prog proc (list string) :=
  ex ← fs_exists path;
  isdir ← (if ex : bool then fs_is_directory path else mret false);
  if isdir : bool then entries ← fs_directory_iterator path false; keep_directories entries []
  else DIE.

(** One overlay; [mount_all] is the recursion over the subdirectories. *)
Definition MountOverlayFs (mount_all : list string -> Z -> prog proc unit) (lowerdir : string) (depth : Z) : prog proc unit :=
  o ← get_opt id;
  let overlayfs := tmp_overlayfs o +:+ lowerdir in
  _ ← CreateTarget overlayfs true;
  let workingdir := overlayfs +:+ "/workingdir" in
  _ ← CreateTarget workingdir true;
  let upperdir := overlayfs +:+ "/upperdir" in
  _ ← CreateTarget upperdir true;
  let destinationdir := sandbox_root o +:+ lowerdir in
  _ ← CreateTarget destinationdir true;
  let data := "lowerdir=" +:+ lowerdir +:+ ",upperdir=" +:+ upperdir +:+ ",workdir=" +:+ workingdir in
  r ← sys (Mount (Some "overlay") destinationdir (Some "overlay") MS_MGC_VAL (Some data));
  if failed r then
    if decide (r_errno r = EINVAL) then
      if OVELAY_DEPTH_THRESHOLD <=? depth then
        modify (fun s => s <| ReadOnlyPaths ::= set_insert lowerdir |>)
      else
        directories ← list_directories lowerdir;
        mount_all directories (depth + 1)
    else DIE
  else mret tt.

(** [fuel] bounds the nesting, which ends behind [OVELAY_MAX_DEPTH]. *)
Fixpoint MountAllOverlayFs_rec (fuel : nat) (list_of_dirs : list string) (depth : Z) : prog proc unit :=
  match fuel with
  | O => stop_with OutOfFuel
  | S n =>
      if OVELAY_MAX_DEPTH <? depth then
        match list_of_dirs with [] => mret tt | _ :: _ => DIE end
      else
        for_each list_of_dirs (fun i =>
          catch_fs (MountOverlayFs (MountAllOverlayFs_rec n) i depth) (mret tt))
  end.

Definition MountAllOverlayFs (list_of_dirs : list string) (depth : Z) : prog proc unit :=
  MountAllOverlayFs_rec (S (Z.to_nat (OVELAY_MAX_DEPTH + 1 - depth))) list_of_dirs depth.

Fixpoint existing_paths (paths existingPaths : list string) : prog proc (list string) :=
  match paths with
  | [] => mret existingPaths
  | path :: paths' =>
      ex ← catch_fs (fs_exists path) (mret false);
      existing_paths paths' (if ex : bool then addIfNotPresent existingPaths path else existingPaths)
  end.

Definition GenerateListForOverlayFS : prog proc (list string) :=
  paths ← get_opt overlayfsmount; existing_paths paths [].

(** ** Read-only folders *)

Definition MakeEmptyHome : prog proc unit :=
  home ← gets home_dir;
  if empty home then DIE
  else
    root ← get_opt sandbox_root;
    res ← CreateTarget (root +:+ home) true;
    if res <? 0 then DIE else mret tt.

Definition CanIterateRoot : prog proc bool :=
  query (fun k => match kreaddir k ROOT with inr _ => true | inl _ => false end).

(** The folders of "/" that no policy mentions. *)
Definition leftover_folder (entry : string) : prog proc unit :=
  st ← query (fun k => klstat k entry);
  match st with
  | inl _ => mret tt
  | inr _ =>
      d ← fs_is_directory entry;
      if d : bool then
        deferred_mount ← gets (fun s => ToBeMounted (opt s) (home_dir s) (ReadOnlyPaths s) entry);
        when (negb deferred_mount) (modify (fun s => s <| ReadOnlyPaths ::= set_insert entry |>))
      else mret tt
  end.

Definition AddLeftoverFoldersToReadOnlyPaths : prog proc unit :=
  r ← query (fun k => kreaddir k ROOT);
  match r with
  | inl _ => mret tt
  | inr names => for_each (path_append ROOT <$> names) leftover_folder
  end.

Definition RemountRO (path full_sandbox_path : string) : prog proc Z :=
  vfs ← query (fun k => kstatvfs k path);
  match vfs with
  | None => mret 0
  | Some f =>
      o ← get_opt id;
      if ShouldBeWritable o path || ShouldBeWritable o full_sandbox_path then mret 0
      else r ← sys (Mount None full_sandbox_path None (statvfs_flags f) None); mret (r_ret r)
  end.

(** The result of the first mount is overwritten. *)
Definition MountAndRemountRO (full_sandbox_path item : string) : prog proc unit :=
  sb ← query (fun k => kstat k item);
  match sb with
  | inl _ => DIE
  | inr st =>
      res ← CreateTarget full_sandbox_path (bool_decide (st_type st = FDirectory));
      if res <? 0 then DIE
      else
        _ ← sys (Mount (Some item) full_sandbox_path None (Z.lor MS_REC MS_BIND) None);
        result ← RemountRO item full_sandbox_path;
        if negb (result =? 0) then DIE else mret tt
  end.

Definition MountReadOnly (container : list string) : prog proc unit :=
  for_each container (fun item =>
    root ← get_opt sandbox_root;
    '(_, ec) ← fs_exists_ec (root +:+ item);
    match ec with
    | None => MountAndRemountRO (root +:+ item) item
    | Some _ => mret tt
    end).

(** The pairs of the two vectors; [operator[]] past the end is undefined. *)
Fixpoint mount_binds_ro (sources targets : list string) : prog proc unit :=
  match sources, targets with
  | [], _ => mret tt
  | _ :: _, [] => stop_with UndefinedBehaviour
  | source :: ss, target :: ts =>
      root ← get_opt sandbox_root;
      _ ← MountAndRemountRO (root +:+ target) source;
      mount_binds_ro ss ts
  end.

Definition mount_writable (writable_file : string) : prog proc unit :=
  root ← get_opt sandbox_root;
  let full_writable_path := root +:+ writable_file in
  '(isDir, ec) ← fs_is_directory_ec writable_file;
  match ec with
  | Some _ => mret tt
  | None =>
      _ ← CreateTarget full_writable_path isDir;
      mount_or_die (Some writable_file) full_writable_path None (Z.lor MS_BIND MS_REC) None
  end.

Definition mounts_of (o : Options) : prog proc unit :=
  _ ← for_each (tmpfs_dirs o) (fun tmpfs_dir =>
        _ ← CreateTarget (sandbox_root o +:+ tmpfs_dir) true;
        mount_or_die (Some "tmpfs") tmpfs_dir (Some "tmpfs") (Z.lor MS_NOSUID (Z.lor MS_NODEV MS_NOATIME)) None);
  _ ← mount_binds_ro (bind_mount_sources o) (bind_mount_targets o);
  ro ← gets ReadOnlyPaths;
  _ ← MountReadOnly ro;
  _ ← MountAllOverlayFs (overlayfsmount o) 0;
  _ ← for_each (writable_files o) mount_writable;
  let full_working_dir_path := sandbox_root o +:+ working_dir o in
  _ ← CreateTarget full_working_dir_path true;
  mount_or_die (Some (working_dir o)) full_working_dir_path None (Z.lor MS_REC MS_BIND) None.

Definition MountAllMounts : prog proc unit := o ← get_opt id; mounts_of o.

(** ** The mount table *)

(** What happens to one entry of /proc/self/mounts. *)
Definition remount_entry (need_mount : bool) (ent : mntent) : prog proc unit :=
  o ← get_opt id;
  let full_sandbox_path := sandbox_root o +:+ mnt_dir ent in
  if ends_with (mnt_dir ent) "/proc" then mret tt
  else
    skip ← (if need_mount then
              if network_fs (mnt_type ent) then mret true
              else if isSubpath (sandbox_root o) (mnt_dir ent) then mret true
              else '(exists_, _) ← fs_exists_ec full_sandbox_path; mret exists_
            else mret false);
    if skip : bool then mret tt
    else
      let mountFlags := flag_if (negb (ShouldBeWritable o (mnt_dir ent))) MS_RDONLY (mntent_flags ent) in
      target ← (if need_mount then
                  res ← CreateTarget full_sandbox_path true;
                  if res <? 0 then mret None
                  else
                    r ← sys (Mount (Some (mnt_dir ent)) full_sandbox_path None (Z.lor MS_REC MS_BIND) None);
                    mret (if failed r then None else Some full_sandbox_path)
                else mret (Some (mnt_dir ent)));
      match target with
      | None => mret tt
      | Some target =>
          r ← sys (Mount None target None mountFlags None);
          if failed r && negb (ignored_remount_error (r_errno r)) then DIE else mret tt
      end.

(** The loop reads the table as it is when an entry is reached; [remaining] is
    [num_of_mounts + 1 - count]. *)
Fixpoint remount_entries (need_mount : bool) (remaining count : nat) : prog proc unit :=
  match remaining with
  | O => mret tt
  | S n =>
      ent ← query (fun k => match kmntent k "/proc/self/mounts" with Some t => t !! count | None => None end);
      match ent with
      | None => mret tt
      | Some ent => _ ← remount_entry need_mount ent; remount_entries need_mount n (S count)
      end
  end.

Definition MakeFilesystemPartiallyReadOnly (need_mount : bool) (num_of_mounts : Z) : prog proc unit :=
  mounts ← query (fun k => kmntent k "/proc/self/mounts");
  match mounts with
  | None => DIE
  | Some _ => remount_entries need_mount (Z.to_nat (num_of_mounts + 1)) 0
  end.

Definition MountProcAndSys : prog proc unit :=
  _ ← mount_or_die (Some "/proc") "/proc" (Some "proc") (Z.lor MS_NODEV (Z.lor MS_NOEXEC MS_NOSUID)) None;
  ns ← get_opt create_netns;
  if decide (ns = NO_NETNS) then mret tt
  else mount_or_die (Some "none") "/sys" (Some "sysfs")
         (Z.lor MS_NOEXEC (Z.lor MS_NOSUID (Z.lor MS_NODEV MS_RDONLY))) None.

(** ** The sandbox root *)

Definition MountSandboxAndGoThere : prog proc unit :=
  root ← get_opt sandbox_root;
  _ ← mount_or_die (Some root) root None (Z.lor MS_BIND MS_NOSUID) None;
  r ← sys (Chdir root);
  if failed r then DIE else mret tt.

Definition CreateEmptyFile : prog proc unit :=
  res ← CreateTarget "tmp" true;
  if res <? 0 then DIE else CreateFile "tmp/empty_file".

Definition MountDev : prog proc unit :=
  res ← CreateTarget "dev" true;
  if res <? 0 then DIE
  else
    _ ← for_each dev_nodes (fun dev =>
          st ← query (fun k => kstat k dev);
          match st with
          | inl _ => mret tt
          | inr _ =>
              _ ← LinkFile (drop_str 1 dev);
              mount_or_die (Some dev) (drop_str 1 dev) None MS_BIND None
          end);
    for_each dev_links (fun '(link_path, target) => _ ← sys (Symlink target link_path); mret tt).

(** The name [mkdtemp] made. *)
Definition ChangeRoot : prog proc unit :=
  m ← sys (Mkdtemp "old-root-XXXXXX");
  if failed m then DIE
  else
    let old_root := r_str m in
    p ← sys (PivotRoot "." old_root);
    if failed p then DIE
    else
      c ← sys (Chroot ".");
      if failed c then DIE
      else
        u ← sys (Umount2 old_root MNT_DETACH);
        if failed u then DIE
        else
          r ← sys (Rmdir old_root);
          if failed r then DIE else mret tt.

(** ** The parents of the working directory *)

Definition TopLevelRelativeFolder (mount_point workdir : string) : prog proc string :=
  catch_std
    (rel ← fs_relative workdir mount_point;
     match path_elems rel with
     | [] => mret ""
     | first :: _ =>
         if path_eq (filename rel) "." then mret ""
         else fs_absolute (path_append mount_point first)
     end)
    (mret "").

(** The loop; [fuel] bounds the levels between the two directories. *)
Fixpoint overlay_levels (fuel : nat) (current working_dir : string) : prog proc unit :=
  match fuel with
  | O => stop_with OutOfFuel
  | S n =>
      if path_eq current working_dir then mret tt
      else
        rel ← catch_fs (fs_relative working_dir current) (mret "");
        match path_elems rel with
        | [] => mret tt
        | first :: _ =>
            if path_eq (filename rel) "." then mret tt
            else
              _ ← MiniSbxMountOverlay current;
              overlay_levels n (path_append current first) working_dir
        end
  end.

Definition MountOverlaySubfolders (top_level_dir workdir : string) : prog proc Z :=
  paths ← catch_fs
    (top_level ← fs_canonical top_level_dir;
     working_dir ← fs_canonical workdir;
     mret (Some (top_level, working_dir)))
    (mret None);
  match paths with
  | None => mret 0
  | Some (top_level, working_dir) =>
      if negb (has_prefix top_level working_dir) then mret 1
      else _ ← overlay_levels loop_bound top_level working_dir; mret 0
  end.

Definition MountWorkingDirMountPoint (mount_point : string) : prog proc unit :=
  if empty mount_point then mret tt
  else
    wd ← get_opt working_dir;
    top_level ← TopLevelRelativeFolder mount_point wd;
    if empty top_level then mret tt
    else
      home ← gets home_dir;
      top_level ← (if isSubpath top_level home then TopLevelRelativeFolder home wd else mret top_level);
      if empty top_level then mret tt
      else
        o ← get_opt id;
        res ← (if parents_writable o then MiniSbxMountWrite top_level
               else
                 xfs ← isXFS top_level;
                 if xfs : bool then _ ← MountOverlaySubfolders top_level (working_dir o); mret 0
                 else MiniSbxMountOverlay top_level);
        if res <? 0 then DIE else mret tt.

Definition MountOverlayDirAsTmpfs : prog proc unit :=
  dir ← get_opt tmp_overlayfs;
  r ← sys (Mount (Some "tmpfs") dir (Some "tmpfs") 0 (Some ""));
  if negb (r_ret r =? 0) then DIE else mret tt.

End Mounts.

(** ** Facts about the policies *)

Lemma existsb_streq d l : existsb (fun w => streq d w) l = true <-> d ∈ l.
Proof.
  rewrite existsb_true_elem. split.
  - by intros (w & Hw & ->%streq_true).
  - intros H. exists d. split; [done | apply streq_refl].
Qed.

Lemma ShouldBeWritable_iff o d :
  ShouldBeWritable o d = true <->
  d = working_dir o \/ (exists t, d = t +:+ "/proc") \/ (exists t, d = t +:+ TMP) \/
  (exists t, d = "/dev" +:+ t) \/ d ∈ writable_files o \/ d ∈ tmpfs_dirs o.
Proof.
  unfold ShouldBeWritable. rewrite <- !existsb_streq, <- !ends_with_spec, <- starts_with_spec, <- (streq_true d (working_dir o)).
  destruct (streq d (working_dir o)); [by split; [left|]|].
  destruct (ends_with d "/proc"); [by split; [right; left|]|].
  destruct (ends_with d TMP); [by split; [right; right; left|]|].
  destruct (starts_with d "/dev") eqn:Edev; [by split; [right; right; right; left|]|].
  destruct (enable_pty o && streq d "/dev/pts") eqn:Epts.
  { apply andb_true_iff in Epts as [_ ->%streq_true]. by vm_compute in Edev. }
  destruct (existsb (fun w => streq d w) (writable_files o)); [by split; [do 4 right; left|]|].
  split; [intros H; by do 5 right | intros [|[|[|[|[|]]]]]; done].
Qed.

(** [true] once the path, or a parent of it, was claimed by some policy. *)
Lemma ToBeMounted_false o home ro p :
  ToBeMounted o home ro p = false ->
  isSubpath home p = false /\ isSubpath p home = false /\
  isSubpath (working_dir o) p = false /\ isSubpath p (working_dir o) = false /\
  isSubpath TMP p = false /\ p <> "/dev" /\
  (forall q, q ∈ overlayfsmount o ++ writable_files o ++ bind_mount_sources o -> isSubpath q p = false) /\
  (forall q, q ∈ ro -> isSubpath p q = false).
Proof.
  unfold ToBeMounted.
  destruct (isSubpath home p || isSubpath p home) eqn:E1; [done|].
  destruct (existsb _ (overlayfsmount o)) eqn:E2; [done|].
  destruct (existsb _ (writable_files o)) eqn:E3; [done|].
  destruct (existsb _ (bind_mount_sources o)) eqn:E4; [done|].
  destruct (existsb _ ro) eqn:E5; [done|].
  destruct (isSubpath TMP p) eqn:E6; [done|].
  destruct (isSubpath (working_dir o) p || isSubpath p (working_dir o)) eqn:E7; [done|].
  intros E8%streq_false. apply orb_false_iff in E1 as [? ?], E7 as [? ?].
  rewrite existsb_false_forall in E2, E3, E4, E5.
  do 6 (split; [done|]). split; [|done].
  intros q [Hq|[Hq|Hq]%elem_of_app]%elem_of_app; auto.
Qed.

(** A policy that mentions a path keeps it claimed. *)
Lemma elem_of_set_insert x l y : y ∈ set_insert x l <-> y = x \/ y ∈ l.
Proof.
  induction l as [|z l IH]; cbn [set_insert].
  - by rewrite list_elem_of_singleton; split; [left | intros [|H]; [done | inv H]].
  - destruct (String.compare x z) eqn:E.
    + apply String.compare_eq_iff in E as ->. rewrite elem_of_cons. naive_solver.
    + by rewrite elem_of_cons.
    + rewrite !elem_of_cons, IH. naive_solver.
Qed.

(** *** Flags *)

Lemma testbit_flag_if b f acc n :
  Z.testbit (flag_if b f acc) n = (b && Z.testbit f n) || Z.testbit acc n.
Proof. destruct b; cbn [flag_if andb orb]; [rewrite Z.lor_spec; by rewrite orb_comm | done]. Qed.

(** The bit of a flag that is a power of two. *)
Ltac flag_bits := rewrite ?testbit_flag_if; cbn [Z.testbit MS_BIND MS_REMOUNT]; rewrite ?andb_false_r, ?andb_true_r, ?orb_false_r, ?orb_true_r.

Lemma mntent_flags_bits ent :
  Z.testbit (mntent_flags ent) 0 = false /\
  Z.testbit (mntent_flags ent) 1 = hasmntopt ent "nosuid" /\
  Z.testbit (mntent_flags ent) 2 = hasmntopt ent "nodev" /\
  Z.testbit (mntent_flags ent) 3 = hasmntopt ent "noexec" /\
  Z.testbit (mntent_flags ent) 5 = true /\
  Z.testbit (mntent_flags ent) 10 = hasmntopt ent "noatime" /\
  Z.testbit (mntent_flags ent) 11 = hasmntopt ent "nodiratime" /\
  Z.testbit (mntent_flags ent) 12 = true /\
  Z.testbit (mntent_flags ent) 21 = hasmntopt ent "relatime".
Proof.
  unfold mntent_flags. repeat split.
  all: destruct (hasmntopt ent "relatime"), (hasmntopt ent "nodiratime"), (hasmntopt ent "noatime"),
    (hasmntopt ent "nosuid"), (hasmntopt ent "noexec"), (hasmntopt ent "nodev"); reflexivity.
Qed.

Lemma statvfs_flags_readonly f : Z.testbit (statvfs_flags f) 0 = true.
Proof. unfold statvfs_flags. rewrite !testbit_flag_if. by rewrite !orb_true_r. Qed.

(** ** Termination of CreateTarget *)

Lemma length_dropped f (l : list ascii) : (length (skip_while f l) <= length l)%nat.
Proof. induction l as [|c l IH]; cbn [skip_while]; [lia|]. destruct (f c); cbn [length]; lia. Qed.

Lemma length_of_chars l : String.length (of_chars l) = length l.
Proof. by rewrite <- length_chars, chars_of_chars. Qed.

(** The parent is shorter, or it is ["/"], ["//"] or ["."]. *)
Lemma dirname_shorter p :
  (String.length (dirname p) < String.length p)%nat \/ dirname p = "/" \/ dirname p = "//" \/ dirname p = ".".
Proof.
  unfold dirname. destruct (rev (chars p)) as [|c r] eqn:Er; [auto|].
  assert (String.length p = length (c :: r)) as -> by (by rewrite <- Er, length_rev, length_chars).
  remember (c :: r) as l. destruct (skip_while is_slash l) as [|c1 r1] eqn:E1.
  { destruct (length l =? 2)%nat; auto. }
  destruct (skip_while not_slash (c1 :: r1)) as [|c2 r2] eqn:E2; [auto|].
  destruct (skip_while is_slash (c2 :: r2)) as [|c3 r3] eqn:E3.
  { destruct (length (c2 :: r2) =? 2)%nat; auto. }
  left. rewrite length_of_chars, length_rev.
  pose proof (length_dropped is_slash l) as H1. rewrite E1 in H1.
  pose proof (length_dropped not_slash r1) as H2.
  pose proof (length_dropped is_slash (c2 :: r2)) as H3. rewrite E3 in H3.
  assert (c1 :: r1 <> c2 :: r2) as Hne.
  { intros Heq. rewrite <- Heq in E2. apply skip_while_head in E1. apply skip_while_head in E2.
    unfold not_slash in E2. rewrite E1 in E2. done. }
  cbn [skip_while] in E2. destruct (not_slash c1); [|by rewrite E2 in Hne].
  rewrite E2 in H2. cbn [length] in *. lia.
Qed.

Section MountFacts.
Context `{B : Build} `{N : Bound} `{K : Kernel}.

(** The directories every path ends in exist. *)
Definition roots_exist : Prop :=
  forall (k : kstate) p, p ∈ ["/"; "//"; "."] -> kstat k p <> inl ENOENT.

(** Leaving the process with a failure. *)
Inductive died : stop -> Prop := died_intro : died (Exited EXIT_FAILURE).

Lemma stops_DIE {A} (W : stop -> Prop) : W (Exited EXIT_FAILURE) -> stops W (DIE : prog proc A).
Proof. intros H. by apply stops_stop. Qed.

Lemma stops_mount_or_die (W : stop -> Prop) src tgt ty fl data :
  W (Exited EXIT_FAILURE) -> stops W (mount_or_die src tgt ty fl data).
Proof. intros H. unfold mount_or_die. apply stops_bind; [apply stops_sys|]. intros r. destruct (failed r); [by apply stops_DIE | apply stops_ret]. Qed.

Lemma stops_LinkFile (W : stop -> Prop) p : W (Exited EXIT_FAILURE) -> stops W (LinkFile p).
Proof.
  intros H. unfold LinkFile, CreateFile.
  repeat first [apply stops_sys | apply stops_ret | by apply stops_DIE | apply stops_bind; [|intros ?]
    | match goal with |- stops _ (if ?b then _ else _) => destruct b end].
Qed.

Lemma CreateTarget_rec_stops (W : stop -> Prop) (Hroots : roots_exist) (Hw : W (Exited EXIT_FAILURE)) fuel path d :
  (String.length path + 2 <= fuel)%nat \/ (path ∈ ["/"; "//"; "."] /\ (1 <= fuel)%nat) ->
  stops W (CreateTarget_rec fuel path d).
Proof.
  revert path d. induction fuel as [|n IH]; intros path d Hf; [exfalso; destruct Hf as [|[_ ?]]; lia|].
  cbn [CreateTarget_rec]. intros s w. unfold query, gets. unfold result, mbind at 1, prog_bind at 1.
  destruct (kstat (kern s) path) as [e|st] eqn:Est; [|done]. destruct e; try done.
  destruct Hf as [Hf|[Hr _]]; [|by destruct (Hroots (kern s) path Hr)].
  change (result (res ← CreateTarget_rec n (dirname path) true;
     if res <? 0 then DIE else if d then (m ← sys (Mkdir path 493); mret (if failed m then -1 else 0))
     else (_ ← LinkFile path; mret 0)) s = Stop w -> W w).
  revert s w Est. intros s w _. revert s w.
  change (stops W (res ← CreateTarget_rec n (dirname path) true;
     if res <? 0 then DIE else if d then (m ← sys (Mkdir path 493); mret (if failed m then -1 else 0))
     else (_ ← LinkFile path; mret 0))).
  apply stops_bind.
  - apply IH. destruct (dirname_shorter path) as [H|H]; [left; lia | right]. split; [|lia].
    destruct H as [->|[->| ->]]; set_solver.
  - intros res. destruct (res <? 0); [by apply stops_DIE|]. destruct d.
    + apply stops_bind; [apply stops_sys | intros; apply stops_ret].
    + apply stops_bind; [by apply stops_LinkFile | intros; apply stops_ret].
Qed.

Lemma CreateTarget_stops (W : stop -> Prop) path d :
  roots_exist -> W (Exited EXIT_FAILURE) -> stops W (CreateTarget path d).
Proof. intros Hr Hw. apply CreateTarget_rec_stops; [done | done | left; unfold target_fuel; lia]. Qed.

(** *** Overlays *)

Lemma list_directories_stops (W : stop -> Prop) p :
  W (Thrown FilesystemError) -> W (Exited EXIT_FAILURE) -> stops W (list_directories p).
Proof.
  intros Hf Hd. unfold list_directories. apply stops_bind; [by apply stops_fs_exists | intros ex].
  apply stops_bind; [destruct ex; [by apply stops_fs_is_directory | apply stops_ret] | intros []; [|by apply stops_DIE]].
  apply stops_bind; [by apply stops_fs_directory_iterator | intros entries]. generalize (@nil string).
  induction entries as [|e es IH]; intros acc; cbn [keep_directories]; [apply stops_ret|].
  apply stops_bind; [by apply stops_fs_is_directory | intros b; apply IH].
Qed.

Lemma MountAllOverlayFs_rec_stops (Hroots : roots_exist) fuel dirs depth :
  OVELAY_MAX_DEPTH + 2 - depth <= Z.of_nat fuel -> 1 <= Z.of_nat fuel ->
  stops died (MountAllOverlayFs_rec fuel dirs depth).
Proof.
  revert dirs depth. induction fuel as [|n IH]; intros dirs depth Hf H1; [lia|].
  cbn [MountAllOverlayFs_rec]. destruct (Z.ltb_spec OVELAY_MAX_DEPTH depth) as [Hd|Hd].
  { destruct dirs; [apply stops_ret | apply stops_DIE; constructor]. }
  apply stops_for_each. intros i _. apply stops_catch_fs; [|apply stops_ret].
  assert (or_fs_error died (Exited EXIT_FAILURE)) as Hdied by (left; constructor).
  assert (or_fs_error died (Thrown FilesystemError)) as Hfs by (by right).
  unfold MountOverlayFs.
  apply stops_bind; [apply stops_get_opt | intros o].
  do 4 (apply stops_bind; [by apply CreateTarget_stops | intros _]).
  apply stops_bind; [apply stops_sys | intros r]. destruct (failed r); [|apply stops_ret].
  case_decide; [|by apply stops_DIE]. destruct (OVELAY_DEPTH_THRESHOLD <=? depth); [apply stops_modify|].
  apply stops_bind; [by apply list_directories_stops | intros l].
  intros s w Hw. left. revert s w Hw. apply IH; unfold OVELAY_MAX_DEPTH in *; lia.
Qed.

Lemma MountAllOverlayFs_stops dirs depth :
  roots_exist -> stops died (MountAllOverlayFs dirs depth).
Proof. intros Hr. apply MountAllOverlayFs_rec_stops; [done | lia | lia]. Qed.

(** *** Binds *)

Lemma RemountRO_stops (W : stop -> Prop) a b : stops W (RemountRO a b).
Proof.
  unfold RemountRO. apply stops_bind; [apply stops_query|]. intros [f|]; [|apply stops_ret].
  apply stops_bind; [apply stops_get_opt | intros o].
  destruct (_ || _); [apply stops_ret|]. apply stops_bind; [apply stops_sys | intros; apply stops_ret].
Qed.

Lemma MountAndRemountRO_stops a b : roots_exist -> stops died (MountAndRemountRO a b).
Proof.
  intros Hr. unfold MountAndRemountRO. apply stops_bind; [apply stops_query|].
  intros [e|st]; [apply stops_DIE; constructor|].
  apply stops_bind; [apply CreateTarget_stops; [done | constructor] | intros res].
  destruct (res <? 0); [apply stops_DIE; constructor|].
  apply stops_bind; [apply stops_sys | intros _]. apply stops_bind; [apply RemountRO_stops | intros z].
  destruct (negb _); [apply stops_DIE; constructor | apply stops_ret].
Qed.

Lemma mount_binds_ro_stops sources targets :
  roots_exist -> (length sources <= length targets)%nat -> stops died (mount_binds_ro sources targets).
Proof.
  intros Hr. revert targets. induction sources as [|a ss IH]; intros targets Hl; [apply stops_ret|].
  destruct targets as [|b ts]; simpl in Hl; [lia|]. cbn [mount_binds_ro].
  apply stops_bind; [apply stops_get_opt | intros root].
  apply stops_bind; [by apply MountAndRemountRO_stops | intros _]. apply IH. lia.
Qed.

Lemma mounts_of_stops o :
  roots_exist -> (length (bind_mount_sources o) <= length (bind_mount_targets o))%nat ->
  stops died (mounts_of o).
Proof.
  intros Hr Hl. unfold mounts_of.
  assert (forall src tgt ty fl data, stops died (mount_or_die src tgt ty fl data)) as Hmount
    by (intros; apply stops_mount_or_die; constructor).
  assert (forall p d, stops died (CreateTarget p d)) as Htarget
    by (intros; apply CreateTarget_stops; [done | constructor]).
  apply stops_bind; [|intros _].
  { apply stops_for_each. intros d _. apply stops_bind; [apply Htarget | intros _; apply Hmount]. }
  apply stops_bind; [by apply mount_binds_ro_stops | intros _].
  apply stops_bind; [apply stops_gets | intros ro]. apply stops_bind; [|intros _].
  { apply stops_for_each. intros i _. apply stops_bind; [apply stops_get_opt | intros root].
    apply stops_bind; [apply stops_fs_exists_ec | intros [? [e|]]]; [apply stops_ret | by apply MountAndRemountRO_stops]. }
  apply stops_bind; [by apply MountAllOverlayFs_stops | intros _]. apply stops_bind; [|intros _].
  { apply stops_for_each. intros i _. unfold mount_writable. apply stops_bind; [apply stops_get_opt | intros root].
    apply stops_bind; [apply stops_fs_is_directory_ec | intros [d [e|]]]; [apply stops_ret|].
    apply stops_bind; [apply Htarget | intros _; apply Hmount]. }
  apply stops_bind; [apply Htarget | intros _; apply Hmount].
Qed.

End MountFacts.

(** ** Frames *)

(** The calls that make files and directories. *)
Definition file_call (c : syscall) : bool :=
  match c with Mkdir _ _ | Link _ _ | Open _ _ _ | Close _ => true | _ => false end.

Section MountFrames.
Context `{B : Build} `{N : Bound} `{K : Kernel}.
Context (R : proc -> proc -> Prop) `{!PreOrder R}.
Context (Hfile : forall c, file_call c = true -> respects R (sys c)).

Lemma respects_die {A} : respects R (DIE : prog proc A).
Proof. by apply respects_stop. Qed.

Ltac frame_leaf :=
  lazymatch goal with
  | |- respects _ (sys _) => by apply Hfile
  | |- respects _ DIE => apply respects_die
  | |- respects _ (query _) => apply respects_query; apply _
  | |- respects _ (get_opt _) => apply respects_get_opt; apply _
  | |- respects _ (gets _) => apply respects_gets; apply _
  | |- respects _ (fs_exists _) => apply respects_fs_exists; apply _
  | |- respects _ (fs_is_directory _) => apply respects_fs_is_directory; apply _
  | |- respects _ (fs_exists_ec _) => apply respects_fs_exists_ec; apply _
  | |- respects _ (fs_is_directory_ec _) => apply respects_fs_is_directory_ec; apply _
  | |- respects _ (fs_directory_iterator _ _) => apply respects_fs_directory_iterator; apply _
  end.
Ltac frame := repeat first [frame_leaf | respects_step].

Lemma frame_CreateFile p : respects R (CreateFile p).
Proof. unfold CreateFile. frame. Qed.

Lemma frame_LinkFile p : respects R (LinkFile p).
Proof. unfold LinkFile. frame. apply frame_CreateFile. Qed.

Lemma frame_CreateTarget p d : respects R (CreateTarget p d).
Proof.
  unfold CreateTarget. generalize (target_fuel p) as n. intros n. revert p d.
  induction n as [|n IH]; intros p d; cbn [CreateTarget_rec]; [by apply respects_stop|].
  apply respects_bind; [done | frame_leaf | intros [[]|st]; try by apply respects_ret].
  apply respects_bind; [done | apply IH | intros res]. frame. apply frame_LinkFile.
Qed.

(** With the bind mounts and remounts, which have no type and no data. *)
Section Binds.
Context (Hbind : forall src tgt fl, respects R (sys (Mount src tgt None fl None))).

Lemma frame_bind src tgt fl : respects R (mount_or_die src tgt None fl None).
Proof. unfold mount_or_die. apply respects_bind; [done | apply Hbind | intros r]. frame. Qed.

Lemma frame_MountAndRemountRO a b : respects R (MountAndRemountRO a b).
Proof.
  unfold MountAndRemountRO, RemountRO. apply respects_bind; [done | frame_leaf | intros [e|st]; [apply respects_die|]].
  apply respects_bind; [done | apply frame_CreateTarget | intros res]. destruct (res <? 0); [apply respects_die|].
  apply respects_bind; [done | apply Hbind | intros _]. frame. apply Hbind.
Qed.

Lemma frame_MountReadOnly l : respects R (MountReadOnly l).
Proof. unfold MountReadOnly. frame. apply frame_MountAndRemountRO. Qed.

Lemma frame_mount_binds_ro ss ts : respects R (mount_binds_ro ss ts).
Proof.
  revert ts. induction ss as [|a ss IH]; intros [|b ts]; cbn [mount_binds_ro]; [by frame.. | by apply respects_stop|].
  apply respects_bind; [done | frame_leaf | intros root].
  apply respects_bind; [done | apply frame_MountAndRemountRO | intros _; apply IH].
Qed.

Lemma frame_mount_writable w : respects R (mount_writable w).
Proof. unfold mount_writable. frame; [apply frame_CreateTarget | apply frame_bind]. Qed.

Lemma frame_remount_entry b ent : respects R (remount_entry b ent).
Proof. unfold remount_entry. frame; first [apply Hbind | apply frame_CreateTarget]. Qed.

Lemma frame_MakeFilesystemPartiallyReadOnly b n : respects R (MakeFilesystemPartiallyReadOnly b n).
Proof.
  assert (forall rem count, respects R (remount_entries b rem count)) as Hrem.
  { induction rem as [|rem IH]; intros count; cbn [remount_entries]; [by apply respects_ret|].
    apply respects_bind; [done | frame_leaf | intros [ent|]; [|by apply respects_ret]].
    apply respects_bind; [done | apply frame_remount_entry | intros _; apply IH]. }
  unfold MakeFilesystemPartiallyReadOnly. frame. apply Hrem.
Qed.

(** With the overlay mounts and the set of read-only paths. *)
Section Overlays.
Context (Hoverlay : forall tgt data,
  respects R (sys (Mount (Some "overlay") tgt (Some "overlay") MS_MGC_VAL (Some data)))).
Context (Hro : forall f s, R s (s <| ReadOnlyPaths ::= f |>)).

Lemma frame_list_directories p : respects R (list_directories p).
Proof.
  unfold list_directories. frame. generalize (@nil string).
  match goal with |- forall l, respects _ (keep_directories ?es l) => induction es as [|e es IH]; intros acc end;
    cbn [keep_directories]; [by apply respects_ret|].
  apply respects_bind; [done | frame_leaf | intros b; apply IH].
Qed.

Lemma frame_MountAllOverlayFs dirs depth : respects R (MountAllOverlayFs dirs depth).
Proof.
  unfold MountAllOverlayFs. generalize (S (Z.to_nat (OVELAY_MAX_DEPTH + 1 - depth))) as n. intros n. revert dirs depth.
  induction n as [|n IH]; intros dirs depth; cbn [MountAllOverlayFs_rec]; [by apply respects_stop|].
  destruct (OVELAY_MAX_DEPTH <? depth); [destruct dirs; frame|].
  apply respects_for_each; [done | intros i _]. apply respects_try; [done | | by apply respects_ret].
  unfold MountOverlayFs. apply respects_bind; [done | frame_leaf | intros o].
  do 4 (apply respects_bind; [done | apply frame_CreateTarget | intros _]).
  apply respects_bind; [done | apply Hoverlay | intros r]. destruct (failed r); [|by apply respects_ret].
  case_decide; [|apply respects_die].
  destruct (OVELAY_DEPTH_THRESHOLD <=? depth); [intros s; apply Hro|].
  apply respects_bind; [done | apply frame_list_directories | intros l; apply IH].
Qed.

Lemma frame_mounts_of o :
  (forall d, d ∈ tmpfs_dirs o -> respects R
     (sys (Mount (Some "tmpfs") d (Some "tmpfs") (Z.lor MS_NOSUID (Z.lor MS_NODEV MS_NOATIME)) None))) ->
  respects R (mounts_of o).
Proof.
  intros Htmp. unfold mounts_of. apply respects_bind; [done | | intros _].
  { apply respects_for_each; [done|]. intros d Hd. apply respects_bind; [done | apply frame_CreateTarget | intros _].
    unfold mount_or_die. apply respects_bind; [done | by apply Htmp | intros r; frame]. }
  apply respects_bind; [done | apply frame_mount_binds_ro | intros _].
  apply respects_bind; [done | frame_leaf | intros ro].
  apply respects_bind; [done | apply frame_MountReadOnly | intros _].
  apply respects_bind; [done | apply frame_MountAllOverlayFs | intros _].
  apply respects_bind; [done | apply respects_for_each; [done | intros w _; apply frame_mount_writable] | intros _].
  cbv zeta. apply respects_bind; [done | apply frame_CreateTarget | intros _; apply frame_bind].
Qed.

End Overlays.
End Binds.
End MountFrames.

(** ** The mount table, entry by entry *)

Section MountTable.
Context `{B : Build} `{N : Bound} `{K : Kernel}.

(** The remount of an entry of the table. *)
Definition remount_call (o : Options) (ent : mntent) : syscall :=
  Mount None (mnt_dir ent) None
    (flag_if (negb (ShouldBeWritable o (mnt_dir ent))) MS_RDONLY (mntent_flags ent)) None.

Definition remounted (t : list mntent) : list mntent :=
  filter (fun ent => ends_with (mnt_dir ent) "/proc" = false) t.

(** What the traversal relies on: remounting does not reorder the table, and a
    mount only fails in the ways the code tolerates. *)
Definition stable_table : Prop :=
  forall k c, kmntent (snd (ksys k c)) "/proc/self/mounts" = kmntent k "/proc/self/mounts".

Definition tolerable_mounts : Prop :=
  forall k src t ty fl data, let r := fst (ksys k (Mount src t ty fl data)) in
  failed r = true -> ignored_remount_error (r_errno r) = true.

Lemma remount_entry_false ent s :
  tolerable_mounts ->
  exists s', remount_entry false ent s = (Ok tt, s') /\ opt s' = opt s /\
    (stable_table -> kmntent (kern s') "/proc/self/mounts" = kmntent (kern s) "/proc/self/mounts") /\
    map fst (trace s') = (if ends_with (mnt_dir ent) "/proc" then [] else [remount_call (opt s) ent]) ++ map fst (trace s).
Proof.
  intros Htol. unfold remount_entry, get_opt, gets, id. unfold mbind at 1, prog_bind at 1.
  destruct (ends_with (mnt_dir ent) "/proc"); [by exists s|].
  unfold mbind, prog_bind, mret, prog_ret, sys. fold (remount_call (opt s) ent).
  specialize (Htol (kern s) None (mnt_dir ent) None
    (flag_if (negb (ShouldBeWritable (opt s) (mnt_dir ent))) MS_RDONLY (mntent_flags ent)) None).
  unfold stable_table. destruct (ksys (kern s) (remount_call (opt s) ent)) as [r k'] eqn:E.
  unfold remount_call in E. rewrite E in *. cbn [fst] in Htol.
  destruct (failed r); [rewrite Htol by done|]; cbn [andb negb];
    (eexists; split; [done|]; split; [done|]; split; [|done]).
  all: intros Hst; cbn; specialize (Hst (kern s) (remount_call (opt s) ent)); unfold remount_call in Hst; by rewrite E in Hst.
Qed.

Lemma remount_entries_false rem t count s :
  tolerable_mounts -> stable_table -> kmntent (kern s) "/proc/self/mounts" = Some t ->
  exists s', remount_entries false rem count s = (Ok tt, s') /\
    map fst (trace s') =
      rev (map (remount_call (opt s)) (remounted (take rem (drop count t)))) ++ map fst (trace s).
Proof.
  intros Htol Hst. revert count s. induction rem as [|rem IH]; intros count s Ht; cbn [remount_entries].
  { by exists s. }
  unfold query, gets. unfold mbind at 1, prog_bind at 1. rewrite Ht.
  destruct (t !! count) as [ent|] eqn:Ec.
  - destruct (remount_entry_false ent s Htol) as (s1 & H1 & Ho & Hk & Htr).
    rewrite (bind_ok _ _ _ _ _ H1). destruct (IH (S count) s1) as (s2 & H2 & Htr2); [by rewrite Hk|].
    exists s2. split; [done|]. rewrite Htr2, Htr, Ho.
    rewrite (drop_S _ _ _ Ec). cbn [take remounted]. unfold remounted. rewrite filter_cons.
    destruct (ends_with (mnt_dir ent) "/proc"); [by rewrite decide_False|].
    rewrite decide_True by done. cbn [map rev]. by rewrite <- (assoc_L (++)).
  - exists s. split; [done|]. apply lookup_ge_None_1 in Ec. by rewrite drop_ge, take_nil.
Qed.

(** What a successful change of root called. *)
Lemma ChangeRoot_run s s' :
  ChangeRoot s = (Ok tt, s') ->
  exists m p c u r, trace s' = (Rmdir (r_str m), r) :: (Umount2 (r_str m) MNT_DETACH, u) :: (Chroot ".", c) ::
      (PivotRoot "." (r_str m), p) :: (Mkdtemp "old-root-XXXXXX", m) :: trace s /\
    failed m = false /\ failed p = false /\ failed c = false /\ failed u = false /\ failed r = false /\
    m = (ksys (kern s) (Mkdtemp "old-root-XXXXXX")).1 /\ opt s' = opt s.
Proof.
  unfold ChangeRoot, sys, mbind, prog_bind.
  destruct (ksys (kern s) _) as [m k1]. destruct (failed m) eqn:Em; [done|]. cbn [kern map_field set_kern set_trace].
  destruct (ksys k1 _) as [p k2]. destruct (failed p) eqn:Ep; [done|]. cbn [kern map_field set_kern set_trace].
  destruct (ksys k2 _) as [c k3]. destruct (failed c) eqn:Ec; [done|]. cbn [kern map_field set_kern set_trace].
  destruct (ksys k3 _) as [u k4]. destruct (failed u) eqn:Eu; [done|]. cbn [kern map_field set_kern set_trace].
  destruct (ksys k4 _) as [r k5]. destruct (failed r) eqn:Er; [done|].
  intros [= <-]. by exists m, p, c, u, r.
Qed.

End MountTable.

(** ** The folders of the root *)

Section Leftover.
Context `{B : Build} `{N : Bound} `{K : Kernel}.

(** The set after an entry. *)
Definition with_leftover (s : proc) (e : string) : list string :=
  if ToBeMounted (opt s) (home_dir s) (ReadOnlyPaths s) e then ReadOnlyPaths s else set_insert e (ReadOnlyPaths s).

Lemma leftover_folder_cases e s s' :
  leftover_folder e s = (Ok tt, s') ->
  (s' = s \/ s' = s <| ReadOnlyPaths := with_leftover s e |>) /\
  (is_Some (match klstat (kern s) e with inr t => Some t | inl _ => None end) ->
   status_of (kstat (kern s) e) = StKnown FDirectory -> s' = s <| ReadOnlyPaths := with_leftover s e |>).
Proof.
  unfold leftover_folder, query, gets, mbind, prog_bind. destruct (klstat (kern s) e) as [er|t].
  { intros [= <-]. split; [by left | by intros [? ?]]. }
  unfold fs_is_directory. rewrite test_status_eq. unfold with_leftover.
  destruct (status_of (kstat (kern s) e)) as [ty| |er]; [|intros [= <-]; by split; [left|]|done].
  case_bool_decide as Hd; [|intros [= <-]; split; [by left | intros _ [= ->]; by destruct Hd]].
  destruct (ToBeMounted _ _ _ _); intros [= <-]; (split; [right|intros _ _]); by destruct s.
Qed.

(** A bigger set of read-only paths claims more. *)
Lemma ToBeMounted_mono o home ro ro' p :
  (forall q, q ∈ ro -> q ∈ ro') -> ToBeMounted o home ro p = true -> ToBeMounted o home ro' p = true.
Proof.
  intros Hsub. unfold ToBeMounted.
  destruct (isSubpath home p || isSubpath p home); [done|].
  destruct (existsb _ (overlayfsmount o)); [done|]. destruct (existsb _ (writable_files o)); [done|].
  destruct (existsb _ (bind_mount_sources o)); [done|].
  destruct (existsb _ ro) eqn:E.
  - apply existsb_true_elem in E as (q & Hq & Hp). intros _.
    replace (existsb (fun q => isSubpath p q) ro') with true; [done|]. symmetry. apply existsb_true_elem. eauto.
  - by destruct (existsb _ ro').
Qed.

Lemma with_leftover_spec s e :
  (forall q, q ∈ ReadOnlyPaths s -> q ∈ with_leftover s e) /\
  ToBeMounted (opt s) (home_dir s) (with_leftover s e) e = true /\
  (forall q, q ∈ with_leftover s e -> q ∈ ReadOnlyPaths s \/
     (q = e /\ ToBeMounted (opt s) (home_dir s) (ReadOnlyPaths s) e = false)).
Proof.
  unfold with_leftover. destruct (ToBeMounted _ _ (ReadOnlyPaths s) e) eqn:E; [by auto|].
  split; [intros q Hq; apply elem_of_set_insert; by right|]. split.
  - unfold ToBeMounted in *. destruct (isSubpath _ _ || _); [done|].
    destruct (existsb _ (overlayfsmount _)); [done|]. destruct (existsb _ (writable_files _)); [done|].
    destruct (existsb _ (bind_mount_sources _)); [done|].
    replace (existsb _ (set_insert e _)) with true; [done|]. symmetry. apply existsb_true_elem.
    exists e. split; [apply elem_of_set_insert; by left | apply isSubpath_prefix; done].
  - intros q [->|Hq]%elem_of_set_insert; auto.
Qed.

(** What the traversal does to the set, entry by entry. *)
Lemma leftover_run l s s' :
  for_each l leftover_folder s = (Ok tt, s') ->
  kern s' = kern s /\ opt s' = opt s /\ home_dir s' = home_dir s /\
  (forall q, q ∈ ReadOnlyPaths s -> q ∈ ReadOnlyPaths s') /\
  (forall q, q ∈ ReadOnlyPaths s' -> q ∈ ReadOnlyPaths s \/
     (q ∈ l /\ ToBeMounted (opt s) (home_dir s) [] q = false)) /\
  (forall e, e ∈ l -> is_Some (match klstat (kern s) e with inr t => Some t | inl _ => None end) ->
     status_of (kstat (kern s) e) = StKnown FDirectory ->
     ToBeMounted (opt s) (home_dir s) (ReadOnlyPaths s') e = true).
Proof.
  revert s. induction l as [|e l IH]; intros s; cbn [for_each].
  { intros [= <-]. do 5 (split; [by auto|]). intros e He. inv He. }
  intros H. apply bind_inv_ok in H as ([] & s1 & H1 & H).
  apply leftover_folder_cases in H1 as [Hcase Hdir]. destruct (with_leftover_spec s e) as (Hsub & Hclaim & Hnew).
  assert (kern s1 = kern s /\ opt s1 = opt s /\ home_dir s1 = home_dir s /\
          (forall q, q ∈ ReadOnlyPaths s -> q ∈ ReadOnlyPaths s1) /\
          (forall q, q ∈ ReadOnlyPaths s1 -> q ∈ ReadOnlyPaths s \/
             (q = e /\ ToBeMounted (opt s) (home_dir s) (ReadOnlyPaths s) e = false)))
    as (Hk & Ho & Hh & Hs & Hn) by (destruct Hcase as [->| ->]; do 3 (split; [done|]); auto).
  destruct (IH s1 H) as (Hk2 & Ho2 & Hh2 & Hs2 & Hn2 & Hc2). rewrite Hk, Ho, Hh in *.
  do 3 (split; [done|]). split; [auto|]. split.
  - intros q [Hq|[Hq Hf]]%Hn2; [|right; split; [by right|done]].
    apply Hn in Hq as [Hq|[-> Hf]]; [by left | right]. split; [left|].
    destruct (ToBeMounted _ _ [] e) eqn:E; [|done].
    rewrite (ToBeMounted_mono _ _ [] _ _ ltac:(intros q Hq; inv Hq) E) in Hf. done.
  - intros e' [->|He]%elem_of_cons Hl Hst; [|by apply Hc2].
    rewrite (Hdir Hl Hst) in Hs2. by apply (ToBeMounted_mono _ _ (with_leftover s e)).
Qed.

End Leftover.

(** ** Properties *)

(** The paths kept writable are exactly the working directory, the writable
    files, the tmpfs directories, everything that ends with "/proc" or "/tmp"
    and everything whose text starts with "/dev", a path such as "/development"
    included; the case of "/dev/pts" with a pseudo-terminal adds nothing. *)
Theorem ShouldBeWritable_spec o d :
  ShouldBeWritable o d = true <->
  d = working_dir o \/ (exists t, d = t +:+ "/proc") \/ (exists t, d = t +:+ "/tmp") \/
  (exists t, d = "/dev" +:+ t) \/ d ∈ writable_files o \/ d ∈ tmpfs_dirs o.
Proof. apply ShouldBeWritable_iff. Qed.

(** A remount of the mount table keeps every restriction of the entry: it is
    a bind remount, whose nosuid, nodev, noexec, noatime, nodiratime and
    relatime bits are set exactly when the entry has the option, and whose
    read-only bit is set exactly when the path is not to be kept writable. *)
Theorem remount_flags_faithful o ent :
  let flags := flag_if (negb (ShouldBeWritable o (mnt_dir ent))) MS_RDONLY (mntent_flags ent) in
  Z.testbit flags 0 = negb (ShouldBeWritable o (mnt_dir ent)) /\
  Z.testbit flags 1 = hasmntopt ent "nosuid" /\
  Z.testbit flags 2 = hasmntopt ent "nodev" /\
  Z.testbit flags 3 = hasmntopt ent "noexec" /\
  Z.testbit flags 5 = true /\
  Z.testbit flags 10 = hasmntopt ent "noatime" /\
  Z.testbit flags 11 = hasmntopt ent "nodiratime" /\
  Z.testbit flags 12 = true /\
  Z.testbit flags 21 = hasmntopt ent "relatime".
Proof.
  destruct (mntent_flags_bits ent) as (H0 & H1 & H2 & H3 & H5 & H10 & H11 & H12 & H21). cbv zeta.
  rewrite !testbit_flag_if, H0, H1, H2, H3, H5, H10, H11, H12, H21. cbn [Z.testbit MS_RDONLY].
  by destruct (ShouldBeWritable o (mnt_dir ent)).
Qed.

Section Properties.
Context `{B : Build} `{N : Bound} `{K : Kernel}.


(** How MountAndRemountRO returns: it made the target and the bind, and then
    the remount unless the path is to be kept writable or statvfs fails. *)
Lemma MountAndRemountRO_run full item s s' :
  MountAndRemountRO full item s = (Ok tt, s') ->
  exists d res s0 r1 k1, CreateTarget full d s = (Ok res, s0) /\ opt s0 = opt s /\
    let s1 := s0 <| kern := k1 |> <| trace ::= cons (Mount (Some item) full None (Z.lor MS_REC MS_BIND) None, r1) |> in
    match kstatvfs k1 item with
    | None => s' = s1
    | Some f =>
        if ShouldBeWritable (opt s) item || ShouldBeWritable (opt s) full then s' = s1
        else exists k r, s' = s1 <| kern := k |> <| trace ::= cons (Mount None full None (statvfs_flags f) None, r) |> /\
               r_ret r = 0
    end.
Proof.
  unfold MountAndRemountRO. intros H. apply bind_inv_ok in H as (sb & s0 & [= <- <-] & H).
  destruct (kstat (kern s) item) as [e|st]; [done|]. apply bind_inv_ok in H as (res & s0 & H0 & H).
  assert (opt s0 = opt s) as Ho.
  { pose proof (frame_CreateTarget same_opt (fun c _ => same_opt_sys c) full (bool_decide (st_type st = FDirectory)) s) as Hs.
    unfold final in Hs. by rewrite H0 in Hs. }
  destruct (res <? 0); [done|]. apply bind_inv_ok in H as (r1 & s1 & H1 & H).
  unfold sys in H1. destruct (ksys (kern s0) _) as [r k] eqn:Ek. injection H1 as <- <-.
  exists (bool_decide (st_type st = FDirectory)), res, s0, r, k. split; [done|]. split; [done|]. cbv zeta.
  apply bind_inv_ok in H as (z & s2 & H2 & H). unfold RemountRO, query, gets in H2.
  unfold mbind at 1, prog_bind at 1 in H2. cbn [kern map_field set_kern set_trace] in H2.
  destruct (kstatvfs k item) as [f|]; [|injection H2 as <- <-; by injection H as <-].
  unfold get_opt, gets, id in H2. unfold mbind at 1, prog_bind at 1 in H2. cbn [opt map_field set_kern set_trace] in H2.
  rewrite Ho in H2. destruct (_ || _); [injection H2 as <- <-; by injection H as <-|].
  apply bind_inv_ok in H2 as (r2 & s3 & H3 & H2). injection H2 as <- <-.
  unfold sys in H3. cbn [kern map_field set_kern set_trace] in H3.
  destruct (ksys k (Mount None full None (statvfs_flags f) None)) as [r' k']. injection H3 as <- <-.
  destruct (Z.eqb_spec (r_ret r') 0) as [Hz|]; [|done]. injection H as <-. by exists k', r'.
Qed.

(** A path bound read-only: when MountAndRemountRO returns, its last call but
    for the remount is the recursive bind, and the remount follows, read-only
    and successful, unless the path is to be kept writable or statvfs fails; in
    the last case the bind stays as writable as its source. *)
Theorem ro_bind_is_read_only full item s s' :
  MountAndRemountRO full item s = (Ok tt, s') ->
  exists s1 r1 t, trace s1 = (Mount (Some item) full None (Z.lor MS_REC MS_BIND) None, r1) :: t /\
    opt s1 = opt s /\
    match kstatvfs (kern s1) item with
    | None => s' = s1
    | Some f =>
        if ShouldBeWritable (opt s) item || ShouldBeWritable (opt s) full then s' = s1
        else exists k r, s' = s1 <| kern := k |> <| trace ::= cons (Mount None full None (statvfs_flags f) None, r) |> /\
               r_ret r = 0 /\ Z.testbit (statvfs_flags f) 0 = true
    end.
Proof.
  intros (d & res & s0 & r1 & k1 & _ & Ho & H)%MountAndRemountRO_run. cbv zeta in H.
  exists (s0 <| kern := k1 |> <| trace ::= cons (Mount (Some item) full None (Z.lor MS_REC MS_BIND) None, r1) |>), r1, (trace s0).
  split; [reflexivity|]. split; [exact Ho|]. cbn [kern map_field set_kern set_trace].
  destruct (kstatvfs k1 item) as [f|]; [|exact H]. destruct (_ || _); [exact H|].
  destruct H as (k & r & -> & Hz). exists k, r. split; [done|]. split; [done|]. apply statvfs_flags_readonly.
Qed.

(** CreateTarget comes to an end: each step of its recursion shortens the
    path, so one step per character is enough, and it fails to return only by
    leaving the process. *)
Theorem CreateTarget_terminates path d s w :
  roots_exist -> result (CreateTarget path d) s = Stop w -> w = Exited EXIT_FAILURE.
Proof. intros Hr H. by destruct (CreateTarget_stops died path d Hr died_intro s w H). Qed.

(** C17: with at least as many targets as sources, mounting everything comes to an
    end, whatever the directories hold (the recursion into the directories an
    overlay cannot be mounted on is bounded), reads no target past the end of
    the vector and lets no filesystem exception through: it returns or leaves
    the process. *)
Theorem MountAllMounts_safe s w :
  roots_exist -> (length (bind_mount_sources (opt s)) <= length (bind_mount_targets (opt s)))%nat ->
  result MountAllMounts s = Stop w -> w = Exited EXIT_FAILURE.
Proof. intros Hr Hl H. by destruct (mounts_of_stops (opt s) Hr Hl s w H). Qed.

(** When the root was changed, the five calls that do it were made, in this
    order and successfully: the old root is a fresh directory below the new
    one, and it is detached and removed. *)
Theorem ChangeRoot_sequence s s' :
  ChangeRoot s = (Ok tt, s') ->
  exists m p c u r, trace s' = (Rmdir (r_str m), r) :: (Umount2 (r_str m) MNT_DETACH, u) :: (Chroot ".", c) ::
      (PivotRoot "." (r_str m), p) :: (Mkdtemp "old-root-XXXXXX", m) :: trace s /\
    failed m = false /\ failed p = false /\ failed c = false /\ failed u = false /\ failed r = false.
Proof. intros (m & p & c & u & r & Ht & H1 & H2 & H3 & H4 & H5 & _)%ChangeRoot_run. by exists m, p, c, u, r. Qed.

(** MountAllMounts mounts every tmpfs over a directory as it was requested,
    a path of the old root: the directory it creates for the tmpfs below the
    sandbox root is not what it mounts on, so the tmpfs is not in the sandbox. *)
Theorem tmpfs_mounted_on_old_root s :
  calls (fun c _ => match c with
                    | Mount _ t (Some ty) _ _ => ty = "tmpfs" -> t ∈ tmpfs_dirs (opt s)
                    | _ => True
                    end) s (final MountAllMounts s).
Proof.
  match goal with |- calls ?P _ _ => pose proof (frame_mounts_of (calls P)) as H end.
  refine (H _ _ _ _ (opt s) _ s).
  - intros c Hc. apply calls_sys. intros r. by destruct c.
  - intros src t fl. by apply calls_sys.
  - intros t data. by apply calls_sys.
  - intros f s0. by exists [].
  - intros d Hd. by apply calls_sys.
Qed.

(** After AddLeftoverFoldersToReadOnlyPaths every folder of "/" is claimed by
    some policy, so none is missing from the sandbox; and a folder that was
    added is not below or above the home or the working directory, not below an
    overlay, writable or bound path, and not below /tmp. *)
Theorem leftover_folders_claimed s s' names :
  kreaddir (kern s) ROOT = inr names -> AddLeftoverFoldersToReadOnlyPaths s = (Ok tt, s') ->
  (forall e dev ino, e ∈ path_append ROOT <$> names -> klstat (kern s) e = inr ino ->
     kstat (kern s) e = inr (mkStat FDirectory dev) ->
     ToBeMounted (opt s) (home_dir s) (ReadOnlyPaths s') e = true) /\
  (forall p, p ∈ ReadOnlyPaths s' -> p ∉ ReadOnlyPaths s ->
     p ∈ path_append ROOT <$> names /\
     isSubpath (home_dir s) p = false /\ isSubpath p (home_dir s) = false /\
     isSubpath (working_dir (opt s)) p = false /\ isSubpath p (working_dir (opt s)) = false /\
     isSubpath TMP p = false /\
     (forall q, q ∈ overlayfsmount (opt s) ++ writable_files (opt s) ++ bind_mount_sources (opt s) ->
        isSubpath q p = false)).
Proof.
  intros Hn H. unfold AddLeftoverFoldersToReadOnlyPaths, query, gets in H.
  unfold mbind at 1, prog_bind at 1 in H. rewrite Hn in H.
  destruct (leftover_run _ s s' H) as (_ & _ & _ & _ & Hnew & Hclaim). split.
  - intros e dev ino He Hl Hst. apply Hclaim; [done | by rewrite Hl | by rewrite Hst].
  - intros p Hp Hnp. destruct (Hnew p Hp) as [|[Hin Hf]]; [done|].
    destruct (ToBeMounted_false _ _ _ _ Hf) as (H1 & H2 & H3 & H4 & H5 & _ & H7 & _). done.
Qed.

End Properties.

(** ** Witnesses *)

(** A process of the calm machine: home, working directory, a tmpfs, a bind
    with its target and an overlay. *)
Definition calm_options : Options :=
  initial_options <| working_dir := "/home/u/w" |> <| sandbox_root := "/tmp/s" |>
    <| tmpfs_dirs := ["/tmp"] |> <| bind_mount_sources := ["/usr"] |> <| bind_mount_targets := ["/opt"] |>
    <| writable_files := ["/var"] |> <| overlayfsmount := ["/etc"] |>.
Definition calm_proc : proc (H := CalmKernel) :=
  (initial_proc (K := CalmKernel) ∅ tt) <| opt := calm_options |> <| home_dir := "/home/u" |>.

Lemma calm_roots_exist : roots_exist (K := CalmKernel).
Proof. by intros k p _ [=]. Defined.


Lemma ro_bind_is_read_only_witness :
  exists k r, final (MountAndRemountRO (K := CalmKernel) "/tmp/s/usr" "/usr") calm_proc =
     calm_proc <| trace := [(Mount (Some "/usr") "/tmp/s/usr" None 20480 None, ok_reply)] |>
       <| kern := k |> <| trace ::= cons (Mount None "/tmp/s/usr" None 4129 None, r) |> /\
     r_ret r = 0 /\ Z.testbit 4129 0 = true.
Proof.
  destruct (ro_bind_is_read_only (K := CalmKernel) "/tmp/s/usr" "/usr" calm_proc
    (final (MountAndRemountRO (K := CalmKernel) "/tmp/s/usr" "/usr") calm_proc)) as (s1 & r1 & t & H1 & H2 & H3).
  - vm_compute. reflexivity.
  - exists tt, ok_reply. vm_compute. auto.
Defined.

(** On the machine that allows no mount the first mount fails. *)
Definition strict_proc : proc (H := StrictKernel) :=
  (initial_proc (K := StrictKernel) ∅ tt) <| opt := calm_options |> <| home_dir := "/home/u" |>.

Lemma MountAllMounts_safe_witness :
  result (MountAllMounts (K := StrictKernel)) strict_proc = Stop (Exited EXIT_FAILURE) /\
  Exited EXIT_FAILURE = Exited EXIT_FAILURE.
Proof.
  assert (E : result (MountAllMounts (K := StrictKernel)) strict_proc = Stop (Exited EXIT_FAILURE))
    by (vm_compute; reflexivity).
  split; [exact E|].
  apply (MountAllMounts_safe (K := StrictKernel) strict_proc);
    [intros k p _ [=] | vm_compute; apply le_n | exact E].
Defined.

Lemma ChangeRoot_sequence_witness :
  exists m p c u r, trace (final (ChangeRoot (K := CalmKernel)) calm_proc) =
      [(Rmdir (r_str m), r); (Umount2 (r_str m) MNT_DETACH, u); (Chroot ".", c);
       (PivotRoot "." (r_str m), p); (Mkdtemp "old-root-XXXXXX", m)] /\
    failed m = false /\ failed p = false /\ failed c = false /\ failed u = false /\ failed r = false.
Proof.
  apply (ChangeRoot_sequence (K := CalmKernel) calm_proc (final (ChangeRoot (K := CalmKernel)) calm_proc)).
  vm_compute. reflexivity.
Defined.

Definition leftover_proc : proc (H := CalmKernel) :=
  calm_proc <| opt := calm_options <| bind_mount_sources := [] |> |>.

Lemma leftover_folders_claimed_witness :
  ReadOnlyPaths (final (AddLeftoverFoldersToReadOnlyPaths (K := CalmKernel)) leftover_proc) = ["/usr"] /\
  isSubpath "/home/u" "/usr" = false.
Proof.
  split; [vm_compute; reflexivity|].
  destruct (leftover_folders_claimed (K := CalmKernel) leftover_proc
    (final (AddLeftoverFoldersToReadOnlyPaths (K := CalmKernel)) leftover_proc)
    ["usr"; "home"; "tmp"] eq_refl) as [_ H].
  - vm_compute. reflexivity.
  - destruct (H "/usr") as (_ & H1 & _).
    + vm_compute. left.
    + intros Hin. inv Hin.
    + exact H1.
Defined.
