(* ===== verification/Pid1.v ===== *)
(** * The first process of the sandbox (linux-sandbox-pid1.cc, second part)

    The namespaces, the identity of the user, the network, the capabilities, the
    child that becomes the command, and [Pid1Main], which puts the parts of
    Mounts and of this file in order.  The theorems say what was done before the
    command is executed, what the capabilities become and what the exit status is. *)

From S2P Require Import Prelude Monad CxxString FsPath Firewall Kernel SimKernel State Fs Errors ProcessTools OptionsApi Rules Api Mounts.
From Stdlib Require Import Ascii.
Open Scope sbx_scope.
Open Scope Z_scope.

Definition MINISBX_TMP_INIT : string := "/tmp/mini-sandbox-init".
Definition CAP_WORDS : nat := 2.

Definition CAP_CHOWN : Z := 0.
Definition CAP_DAC_READ_SEARCH : Z := 2.
Definition CAP_FOWNER : Z := 3.
Definition CAP_KILL : Z := 5.
Definition CAP_NET_BIND_SERVICE : Z := 10.
Definition CAP_SYS_RESOURCE : Z := 24.

Definition BIT (n : Z) : Z := Z.shiftl 1 n.

(** ** Capabilities *)

(** [(uint32_t)(keep >> (32 * i))] *)
Definition cap_mask (keep : Z) (i : nat) : Z := Z.land (Z.shiftr keep (32 * Z.of_nat i)) (2 ^ 32 - 1).

(** Word [i] of the three sets [capget] returned. *)
Definition cap_word (data : reply) (i : nat) : Z * Z * Z :=
  (out (3 * i) data, out (3 * i + 1) data, out (3 * i + 2) data).

Definition mask_word (mask : Z) (w : Z * Z * Z) : Z * Z * Z :=
  let '(effective, permitted, inheritable) := w in
  (Z.land effective mask, Z.land permitted mask, Z.land inheritable mask).

Definition masked_caps (keep : Z) (data : reply) : list (Z * Z * Z) :=
  (fun i => mask_word (cap_mask keep i) (cap_word data i)) <$> seq 0 CAP_WORDS.

Definition kept_capabilities : Z :=
  Z.lor (BIT CAP_NET_BIND_SERVICE) (Z.lor (BIT CAP_CHOWN) (Z.lor (BIT CAP_DAC_READ_SEARCH)
    (Z.lor (BIT CAP_KILL) (Z.lor (BIT CAP_SYS_RESOURCE) (BIT CAP_FOWNER))))).

(** ** Exit status *)

(** The value the process of a finished child gives: its exit code, or 128 and
    the signal that ended it. *)
Definition exit_status (status : Z) : Z :=
  if WIFSIGNALED status then 128 + WTERMSIG status else WEXITSTATUS status.

Section Pid1.
Context `{B : Build} `{N : Bound} `{K : Kernel}.

(** ** Namespaces *)

Definition SetupSelfDestruction (pipe_to_parent : Z * Z) : prog proc unit :=
  r ← sys (Prctl PR_SET_PDEATHSIG SIGKILL);
  if failed r then DIE
  else
    r ← sys (Setpgid 0 0);
    if failed r then DIE
    else _ ← SignalPipe pipe_to_parent true; mret tt.

Definition SetupMountNamespace : prog proc unit := mount_or_die None ROOT None (Z.lor MS_REC MS_SLAVE) None.

(** The user and group inside, and the globals afterwards. *)
Definition inner_ids : prog proc (Z * Z) :=
  o ← get_opt id;
  if fake_root o then mret (0, 0)
  else if fake_username o then
    pwd ← query (fun k => kpasswd k "nobody");
    match pwd with None => DIE | Some ids => mret ids end
  else
    ids ← gets (fun s => (global_outer_uid s, global_outer_gid s));
    _ ← when MINITAP (modify (fun s => s <| global_outer_uid := 0 |> <| global_outer_gid := 0 |>));
    mret ids.

Definition id_map (inner outer : Z) : string :=
  to_string inner +:+ " " +:+ to_string outer +:+ " 1" +:+ String LF "".

Definition SetupUserNamespace : prog proc unit :=
  sb ← query (fun k => kstat k "/proc/self/setgroups");
  _ ← match sb with
      | inr _ => WriteFile "/proc/self/setgroups" "deny"
      | inl ENOENT => mret tt
      | inl _ => DIE
      end;
  '(inner_uid, inner_gid) ← inner_ids;
  pty ← get_opt enable_pty;
  inner_gid ← (if pty : bool then
                 grp ← query (fun k => kgroup k "tty");
                 match grp with None => DIE | Some gid => mret gid end
               else mret inner_gid);
  outer_uid ← gets global_outer_uid;
  _ ← WriteFile "/proc/self/uid_map" (id_map inner_uid outer_uid);
  outer_gid ← gets global_outer_gid;
  WriteFile "/proc/self/gid_map" (id_map inner_gid outer_gid).

Definition SetupUtsNamespace : prog proc unit :=
  r ← sys (Sethostname "localhost");
  if failed r then DIE
  else
    r ← sys (Setdomainname "localdomain");
    if failed r then DIE else mret tt.

Definition EnableICMP : prog proc unit := WriteFile "/proc/sys/net/ipv4/ping_group_range" "0 0".

Definition SetupNetworking : prog proc unit :=
  o ← get_opt id;
  _ ← (if decide (create_netns o = NETNS_WITH_LOOPBACK) then
         fd ← sys Socket;
         if failed fd then DIE
         else
           index ← query (fun k => kifindex k "lo");
           if index =? 0 then DIE
           else
             r ← sys (IoctlIfUp (r_ret fd) "lo");
             if failed r then DIE
             else
               c ← sys (Close (r_ret fd));
               if failed c then DIE else mret tt
       else mret tt);
  when (negb (bool_decide (create_netns o = NO_NETNS)) && fake_root o) EnableICMP.

Definition EnterWorkingDirectory : prog proc unit :=
  path ← get_opt working_dir;
  r ← sys (Chdir path);
  if failed r then DIE else mret tt.

(** ** Capabilities *)

Definition drop_caps_ep_except (keep : Z) : prog proc unit :=
  data ← sys Capget;
  if negb (r_ret data =? 0) then DIE
  else
    r ← sys (Capset (masked_caps keep data));
    if negb (r_ret r =? 0) then DIE else mret tt.

Definition DropCapabilities : prog proc unit := drop_caps_ep_except kept_capabilities.

(** ** The child *)

(** The handler of SIGTERM. *)
Definition ForwardSignal (signum : Z) : prog proc unit :=
  child ← gets pid1_child_pid;
  _ ← sys (Kill (- child) signum);
  mret tt.

(** [TEMP_FAILURE_RETRY(wait(&status))] *)
Definition wait_retry : prog proc reply :=
  loop loop_bound (
    r ← sys Wait;
    mret (if (r_ret r =? -1) && bool_decide (r_errno r = EINTR) then None else Some r)).

Definition WaitForChild : prog proc Z :=
  loop loop_bound (
    r ← wait_retry;
    if failed r then DIE
    else
      child ← gets pid1_child_pid;
      mret (if r_ret r =? child then Some (exit_status (out 0 r)) else None)).

(** [execvp(opt.args[0], opt.args.data())]; with no arguments the first pointer
    is null, and [execvp] fails. *)
Definition exec_command : prog proc unit :=
  argv ← get_opt args;
  match argv with
  | [] => DIE
  | file :: _ =>
      r ← sys (Execvp file argv);
      if failed r then DIE else stop_with Execed
  end.

Definition close_log : prog proc unit :=
  log ← gets global_debug;
  match log with
  | None => mret tt
  | Some fd => _ ← sys (Close fd); modify (fun s => s <| global_debug := None |>)
  end.

(** What the child does before it becomes the command. *)
Definition prepare_child : prog proc unit :=
  r ← sys (Setpgid 0 0);
  if failed r then DIE
  else
    t ← sys (Tcsetpgrp 0);
    if failed t && negb (bool_decide (r_errno t = ENOTTY)) then DIE
    else
      _ ← ClearSignalMask;
      _ ← close_log;
      _ ← sys (Umask 18);
      mret tt.

(** The two sides of the fork; [direct] when the parent is to leave with the
    status of the child. *)
Definition after_fork (direct : bool) (pid : Z) : prog proc unit :=
  if pid <? 0 then DIE
  else if pid =? 0 then
    _ ← when (negb direct) prepare_child;
    exec_command
  else if direct then
    w ← sys (Waitpid pid);
    if r_ret w =? -1 then exit_ EXIT_FAILURE
    else if WIFEXITED (out 0 w) then exit_ (WEXITSTATUS (out 0 w))
    else exit_ EXIT_FAILURE
  else mret tt.

Definition SpawnChild (nested : bool) : prog proc unit :=
  f ← sys Fork;
  _ ← modify (fun s => s <| pid1_child_pid := r_ret f |>);
  mode ← gets docker_mode;
  after_fork (bool_decide (mode = UNPRIVILEGED_CONTAINER) || nested) (r_ret f).

(** ** The first process *)

(** 0, or -1 when a step failed. *)
Definition InitDone : prog proc Z :=
  _ ← mod_opt (fun o => o <| is_running := RUNNING |>);
  let path := MINISBX_TMP_INIT in
  fd ← sys (Open path (Z.lor O_WRONLY (Z.lor O_CREAT (Z.lor O_TRUNC O_CLOEXEC))) 420);
  if failed fd then mret (-1)
  else
    n ← sys (Write (r_ret fd) ("1" +:+ String LF ""));
    if negb (r_ret n =? 2) then _ ← sys (Close (r_ret fd)); mret (-1)
    else
      f ← sys (Fsync (r_ret fd));
      if failed f then _ ← sys (Close (r_ret fd)); mret (-1)
      else
        c ← sys (Close (r_ret fd));
        if failed c then mret (-1)
        else
          m ← sys (Mount (Some path) path None MS_BIND None);
          if failed m then mret (-1)
          else
            r ← sys (Mount None path None (Z.lor MS_REMOUNT (Z.lor MS_BIND MS_RDONLY)) None);
            if failed r then _ ← sys (Umount2 path 0); mret (-1)
            else mret 0.

(** The branch of default mode when "/" cannot be listed. *)
Definition light_default : prog proc unit :=
  wd ← get_opt working_dir;
  mount_point ← GetMountPointOf wd;
  _ ← MiniSbxMountWrite mount_point;
  _ ← MiniSbxMountWrite TMP;
  _ ← MountFilesystems;
  mounts ← CountMounts;
  _ ← MakeFilesystemPartiallyReadOnly false mounts;
  MountProcAndSys.

(** The branch of the modes that change the root. *)
Definition chroot_sandbox : prog proc unit :=
  _ ← MountSandboxAndGoThere;
  _ ← CreateEmptyFile;
  _ ← MountDev;
  _ ← MountProcAndSys;
  o ← get_opt id;
  _ ← (if use_default o then
         mount_point ← GetMountPointOf (working_dir o);
         mounts ← CountMounts;
         _ ← MountWorkingDirMountPoint mount_point;
         _ ← AddLeftoverFoldersToReadOnlyPaths;
         _ ← MountAllMounts;
         _ ← MakeFilesystemPartiallyReadOnly true mounts;
         MakeEmptyHome
       else if use_overlayfs o then
         _ ← MountAllOverlayFs (overlayfsmount o) 0;
         _ ← MountAllMounts;
         MakeEmptyHome
       else if hermetic o then MountAllMounts
       else DIE);
  ChangeRoot.

(** The branch of the read-only mode. *)
Definition read_only_sandbox : prog proc unit :=
  _ ← MiniSbxMountWrite TMP;
  _ ← MountFilesystems;
  mounts ← CountMounts;
  _ ← MakeFilesystemPartiallyReadOnly false mounts;
  MountProcAndSys.

Definition build_file_system : prog proc unit :=
  o ← get_opt id;
  can_iterate ← CanIterateRoot;
  if use_default o && negb can_iterate then light_default
  else if use_default o || hermetic o || use_overlayfs o then chroot_sandbox
  else read_only_sandbox.

(** Everything up to the child. *)
Definition setup_sandbox (pipe_to_parent pipe_from_parent : Z * Z) : prog proc unit :=
  _ ← MiniSbxSetInternalEnv;
  home ← GetHomeDir;
  _ ← modify (fun s => s <| home_dir := home |>);
  pid ← query kpid;
  if negb (pid =? 1) then DIE
  else
    _ ← WaitPipe pipe_from_parent true;
    _ ← when (negb LIBMINISANDBOX) (_ ← ClearSignalMask; SetupSelfDestruction pipe_to_parent);
    _ ← SetupMountNamespace;
    _ ← SetupUserNamespace;
    o ← get_opt id;
    _ ← when (fake_hostname o) SetupUtsNamespace;
    mode ← gets docker_mode;
    _ ← when (bool_decide (mode = PRIVILEGED_CONTAINER) && use_overlayfs o) MountOverlayDirAsTmpfs;
    _ ← build_file_system;
    _ ← SetupNetworking;
    _ ← EnterWorkingDirectory;
    _ ← InitDone;
    mret tt.

Definition Pid1Main (pipe_to_parent pipe_from_parent : Z * Z) : prog proc Z :=
  _ ← setup_sandbox pipe_to_parent pipe_from_parent;
  if LIBMINISANDBOX then _ ← drop_caps_ep_except 0; mret 0
  else
    _ ← IgnoreSignal SIGTTIN;
    _ ← IgnoreSignal SIGTTOU;
    _ ← SpawnChild false;
    _ ← InstallSignalHandler SIGTERM (Handler "ForwardSignal");
    WaitForChild.

End Pid1.

(** ** Frames

    Nothing before the child executes a program, and nothing changes the
    command, the working directory or the mode. *)

Definition is_exec (c : syscall) : bool := match c with Execvp _ _ => true | _ => false end.

Definition fixed_options (o : Options) := (working_dir o, args o, use_default o, hermetic o, use_overlayfs o, create_netns o, fake_hostname o).

Section Follows.
Context `{B : Build} `{N : Bound} `{K : Kernel}.

Definition quiet (l : list (syscall * reply)) : Prop := Forall (fun e => is_exec e.1 = false) l.

Definition follows (s s' : proc) : Prop :=
  (exists l, trace s' = l ++ trace s /\ quiet l) /\
  fixed_options (opt s') = fixed_options (opt s) /\ docker_mode s' = docker_mode s.

#[export] Instance follows_preorder : PreOrder follows.
Proof.
  split.
  - intros s. split; [exists []; split; [done | constructor] | done].
  - intros a b c ((l & Hl & Hq) & Ho & Hd) ((l' & Hl' & Hq') & Ho' & Hd'). split; [|by rewrite Ho', Hd'].
    exists (l' ++ l). split; [by rewrite Hl', Hl, (assoc_L (++)) | by apply Forall_app].
Qed.

(** Steps that leave the trace, the mode and the fixed options. *)
Lemma follows_update s s' :
  trace s' = trace s -> fixed_options (opt s') = fixed_options (opt s) -> docker_mode s' = docker_mode s -> follows s s'.
Proof. intros Ht Ho Hd. split; [exists []; split; [done | constructor] | done]. Qed.

Lemma follows_modify (f : proc -> proc) :
  (forall s, trace (f s) = trace s /\ fixed_options (opt (f s)) = fixed_options (opt s) /\ docker_mode (f s) = docker_mode s) ->
  respects follows (modify f).
Proof. intros H s. destruct (H s) as (H1 & H2 & H3). by apply follows_update. Qed.

Lemma follows_sys c : is_exec c = false -> respects follows (sys c).
Proof.
  intros Hc s. unfold final, sys. destruct (ksys (kern s) c) as [r k]. cbn [snd].
  split; [|done]. exists [(c, r)]. split; [done | by repeat constructor].
Qed.

Lemma follows_file c : file_call c = true -> respects follows (sys c).
Proof. intros Hc. apply follows_sys. by destruct c. Qed.

Lemma follows_config c : config_call c = true -> respects follows (sys c).
Proof. intros Hc. apply follows_sys. by destruct c. Qed.

Lemma follows_error (s : proc) (e : MiniSbxError) : follows s (s <| sbx_err := e |>).
Proof. by apply follows_update. Qed.

Lemma follows_mount f : mount_update f -> forall s : proc, follows s (s <| opt ::= f |>).
Proof. intros Hf s. apply follows_update; [done | by destruct Hf | done]. Qed.

Lemma follows_ro (f : list string -> list string) (s : proc) : follows s (s <| ReadOnlyPaths ::= f |>).
Proof. by apply follows_update. Qed.

Lemma follows_DIE {A} : respects follows (DIE : prog proc A).
Proof. apply respects_stop, _. Qed.

Lemma follows_mount_or_die src t ty fl data : respects follows (mount_or_die src t ty fl data).
Proof.
  unfold mount_or_die. apply respects_bind; [apply _ | by apply follows_sys | intros r].
  destruct (failed r); [apply follows_DIE | by apply respects_ret, _].
Qed.

End Follows.

(** The leaves, by the head of the program. *)
Ltac follow_leaf :=
  lazymatch goal with
  | |- respects _ (sys _) => apply follows_sys; reflexivity
  | |- respects _ DIE => apply follows_DIE
  | |- respects _ (mount_or_die _ _ _ _ _) => apply follows_mount_or_die
  | |- respects _ (modify _) => apply follows_modify; intros ?; repeat split; reflexivity
  | |- respects _ (mod_opt _) => apply follows_modify; intros ?; repeat split; reflexivity
  | |- respects _ (query _) => apply respects_query; apply _
  | |- respects _ (get_opt _) => apply respects_get_opt; apply _
  | |- respects _ (gets _) => apply respects_gets; apply _
  | |- respects _ (getenv _) => apply respects_getenv; apply _
  | |- respects _ (fs_canonical _) => apply respects_fs_canonical; apply _
  | |- respects _ (fs_relative _ _) => apply respects_fs_relative; apply _
  | |- respects _ (fs_absolute _) => apply respects_fs_absolute; apply _
  | |- respects _ (fs_is_directory _) => apply respects_fs_is_directory; apply _
  | |- respects _ (CreateTarget _ _) => apply frame_CreateTarget; [apply _ | apply follows_file]
  | |- respects _ (CreateFile _) => apply frame_CreateFile; [apply _ | apply follows_file]
  | |- respects _ (LinkFile _) => apply frame_LinkFile; [apply _ | apply follows_file]
  | |- respects _ (MakeFilesystemPartiallyReadOnly _ _) =>
      apply frame_MakeFilesystemPartiallyReadOnly; [apply _ | apply follows_file | intros; by apply follows_sys]
  | |- respects _ (MountAllOverlayFs _ _) =>
      apply frame_MountAllOverlayFs; [apply _ | apply follows_file | intros; by apply follows_sys | apply follows_ro]
  | |- respects _ (mounts_of _) =>
      apply frame_mounts_of; [apply _ | apply follows_file | intros; by apply follows_sys
        | intros; by apply follows_sys | apply follows_ro | intros; by apply follows_sys]
  | |- respects _ (MiniSbxMountWrite _) =>
      apply frame_MountWrite; [apply _ | apply follows_config | apply follows_error | apply follows_mount]
  | |- respects _ (MiniSbxMountBind _) =>
      apply frame_MountBind; [apply _ | apply follows_config | apply follows_error | apply follows_mount]
  | |- respects _ (MiniSbxMountOverlay _) =>
      apply frame_MountOverlay; [apply _ | apply follows_config | apply follows_error | apply follows_mount]
  | |- respects _ (MiniSbxReportGenericError _ _ _) =>
      apply frame_generic; [apply _ | apply follows_config | apply follows_error]
  end.
Ltac follow := repeat first [follow_leaf | respects_step].

Section FollowsMounts.
Context `{B : Build} `{N : Bound} `{K : Kernel}.

Lemma follows_WriteFile p t : respects follows (WriteFile p t).
Proof. unfold WriteFile. follow. Qed.

Lemma follows_ClearSignalMask : respects follows ClearSignalMask.
Proof. unfold ClearSignalMask. follow. Qed.

Lemma follows_IgnoreSignal n : respects follows (IgnoreSignal n).
Proof. unfold IgnoreSignal, InstallSignalHandler. follow. Qed.

Lemma follows_WaitPipe p d : respects follows (WaitPipe p d).
Proof. unfold WaitPipe, DieOrReport. follow. Qed.

Lemma follows_SignalPipe p d : respects follows (SignalPipe p d).
Proof. unfold SignalPipe, DieOrReport. follow. Qed.

Lemma follows_MountFilesystems : respects follows MountFilesystems.
Proof.
  assert (forall ss ts, respects follows (mount_binds ss ts)) as Hbinds.
  { induction ss as [|x ss IH]; intros [|y ts]; cbn [mount_binds]; follow. apply IH. }
  unfold MountFilesystems. follow. apply Hbinds.
Qed.

Lemma follows_MountProcAndSys : respects follows MountProcAndSys.
Proof. unfold MountProcAndSys. follow. Qed.

Lemma follows_MountWorkingDirMountPoint p : respects follows (MountWorkingDirMountPoint p).
Proof.
  assert (forall a b, respects follows (TopLevelRelativeFolder a b)) as Htop
    by (intros a b; unfold TopLevelRelativeFolder; follow).
  assert (forall n a b, respects follows (overlay_levels n a b)) as Hlevels.
  { induction n as [|n IH]; intros a b; cbn [overlay_levels]; follow. apply IH. }
  unfold MountWorkingDirMountPoint, MountOverlaySubfolders, isXFS. follow; [apply Htop | apply Htop | apply Hlevels].
Qed.

Lemma follows_AddLeftover : respects follows AddLeftoverFoldersToReadOnlyPaths.
Proof. unfold AddLeftoverFoldersToReadOnlyPaths, leftover_folder. follow. Qed.

Lemma follows_MakeEmptyHome : respects follows MakeEmptyHome.
Proof. unfold MakeEmptyHome. follow. Qed.

Lemma follows_MountDev : respects follows MountDev.
Proof. unfold MountDev. follow. Qed.

Lemma follows_chroot : respects follows chroot_sandbox.
Proof.
  unfold chroot_sandbox, MountSandboxAndGoThere, CreateEmptyFile, GetMountPointOf, CountMounts, ChangeRoot, MountAllMounts.
  follow; first [apply follows_MountDev | apply follows_MountProcAndSys | apply follows_MountWorkingDirMountPoint
    | apply follows_AddLeftover | apply follows_MakeEmptyHome].
Qed.

Lemma follows_build : respects follows build_file_system.
Proof.
  unfold build_file_system, CanIterateRoot, light_default, read_only_sandbox, GetMountPointOf, CountMounts. follow;
    first [apply follows_chroot | apply follows_MountFilesystems | apply follows_MountProcAndSys].
Qed.

Lemma follows_SetupNetworking : respects follows SetupNetworking.
Proof. unfold SetupNetworking, EnableICMP. follow. apply follows_WriteFile. Qed.

Lemma follows_InitDone : respects follows InitDone.
Proof. unfold InitDone. follow. Qed.

Lemma follows_SetupUserNamespace : respects follows SetupUserNamespace.
Proof. unfold SetupUserNamespace, inner_ids. follow; apply follows_WriteFile. Qed.

Lemma follows_setup a b : respects follows (setup_sandbox a b).
Proof.
  unfold setup_sandbox, MiniSbxSetInternalEnv, GetHomeDir, SetupSelfDestruction, SetupMountNamespace,
    SetupUtsNamespace, MountOverlayDirAsTmpfs, EnterWorkingDirectory.
  follow; first [apply follows_WaitPipe | apply follows_ClearSignalMask | apply follows_SignalPipe
    | apply follows_SetupUserNamespace | apply follows_build | apply follows_SetupNetworking | apply follows_InitDone].
Qed.

Lemma follows_prepare_child : respects follows prepare_child.
Proof. unfold prepare_child, close_log. follow. apply follows_ClearSignalMask. Qed.

Lemma follows_WaitForChild : respects follows WaitForChild.
Proof. unfold WaitForChild, wait_retry. follow. Qed.

Lemma follows_drop keep : respects follows (drop_caps_ep_except keep).
Proof. unfold drop_caps_ep_except. follow. Qed.

Lemma follows_final {A} (m : prog proc A) s : respects follows m -> follows s (final m s).
Proof. intros H. apply H. Qed.

Lemma quiet_after s s' : follows s s' -> quiet (trace s) -> quiet (trace s').
Proof. intros ((l & -> & Hl) & _) Hq. by apply Forall_app. Qed.

(** The only call that executes a program is the last one of a quiet trace. *)
Lemma quiet_exec t1 c r t2 c' r' t : quiet t -> is_exec c = true -> t1 ++ (c, r) :: t2 = (c', r') :: t -> t1 = [] /\ t2 = t.
Proof.
  intros Hq Hc. destruct t1 as [|e t1]; [by intros [= _ _ ->]|]. intros [= _ <-]. exfalso.
  apply Forall_app in Hq as [_ Hq]. inv Hq. cbn in *. congruence.
Qed.

Lemma quiet_no_exec t1 c r t2 : is_exec c = true -> ~ quiet (t1 ++ (c, r) :: t2).
Proof. intros Hc [_ Hq]%Forall_app. inv Hq. cbn in *. congruence. Qed.

End FollowsMounts.

Create HintDb follows discriminated.
#[export] Hint Constants Opaque : follows.
#[export] Hint Resolve follows_WriteFile follows_ClearSignalMask follows_IgnoreSignal follows_WaitPipe
  follows_SignalPipe follows_MountFilesystems follows_MountProcAndSys follows_MountWorkingDirMountPoint
  follows_AddLeftover follows_MakeEmptyHome follows_MountDev follows_chroot follows_build
  follows_SetupNetworking follows_InitDone follows_SetupUserNamespace follows_setup follows_prepare_child
  follows_WaitForChild follows_drop : follows.
Ltac follow_known := repeat first [solve [eauto 1 with follows nocore] | follow_leaf | respects_step].

(** ** The order of the set-up *)

Section Order.
Context `{B : Build} `{N : Bound} `{K : Kernel}.

(** The calls [cs] were made, newest first and with others between them, and
    succeeded. *)
Definition did (cs : list syscall) (t : list (syscall * reply)) : Prop :=
  exists es, es.*1 = cs /\ Forall (fun e => failed e.2 = false) es /\ es `sublist_of` t.

(** A computation made the calls, and kept the fixed options. *)
Definition adds (cs : list syscall) (s s' : proc) : Prop :=
  (exists l, trace s' = l ++ trace s /\ did cs l) /\ fixed_options (opt s') = fixed_options (opt s).

Lemma did_nil l : did [] l.
Proof. exists []. split; [done | split; [constructor | apply sublist_nil_l]]. Qed.

Lemma did_cons c r cs l : failed r = false -> did cs l -> did (c :: cs) ((c, r) :: l).
Proof.
  intros Hr (es & <- & Hes & Hl). exists ((c, r) :: es). split; [done | split; [by constructor | by apply sublist_skip]].
Qed.

Lemma did_skip e cs l : did cs l -> did cs (e :: l).
Proof. intros (es & <- & Hes & Hl). exists es. split; [done | split; [done | by apply sublist_cons]]. Qed.

Lemma did_app cs1 cs2 l1 l2 : did cs1 l1 -> did cs2 l2 -> did (cs1 ++ cs2) (l1 ++ l2).
Proof.
  intros (e1 & <- & H1 & S1) (e2 & <- & H2 & S2). exists (e1 ++ e2). rewrite fmap_app.
  split; [done | split; [by apply Forall_app | by apply sublist_app]].
Qed.

Lemma adds_trans cs1 cs2 s s1 s2 : adds cs1 s s1 -> adds cs2 s1 s2 -> adds (cs2 ++ cs1) s s2.
Proof.
  intros [(l1 & H1 & D1) O1] [(l2 & H2 & D2) O2]. split; [|by rewrite O2].
  exists (l2 ++ l1). split; [by rewrite H2, H1, (assoc_L (++)) | by apply did_app].
Qed.

Lemma adds_follows s s' : follows s s' -> adds [] s s'.
Proof. intros ((l & Hl & _) & Ho & _). split; [|done]. exists l. split; [done | apply did_nil]. Qed.

(** A quiet program, run before or after. *)
Lemma adds_before {A} (m : prog proc A) a cs s s1 s2 :
  respects follows m -> m s = (Ok a, s1) -> adds cs s1 s2 -> adds cs s s2.
Proof.
  intros Hm E H. specialize (Hm s). unfold final in Hm. rewrite E in Hm.
  rewrite <- (app_nil_r cs). by eapply adds_trans; [apply adds_follows|].
Qed.

(** *** The init file *)

(** The calls of a successful [InitDone], newest first. *)
Definition init_calls (fd : Z) : list syscall :=
  [Mount None MINISBX_TMP_INIT None (Z.lor MS_REMOUNT (Z.lor MS_BIND MS_RDONLY)) None;
   Mount (Some MINISBX_TMP_INIT) MINISBX_TMP_INIT None MS_BIND None;
   Close fd; Fsync fd; Write fd ("1" +:+ String LF "");
   Open MINISBX_TMP_INIT (Z.lor O_WRONLY (Z.lor O_CREAT (Z.lor O_TRUNC O_CLOEXEC))) 420].

(** One call; in the second goal it did not fail. *)
Ltac init_call :=
  cbv beta iota;
  match goal with |- context [ksys ?k ?c] => destruct (ksys k c) as [? ?] end; cbv beta iota.
Ltac init_step :=
  init_call;
  match goal with |- context [if ?b then _ else _] => destruct b eqn:? end;
  [try init_call; by exists (-1); repeat split; auto | ].

Lemma InitDone_cases s :
  exists z, result InitDone s = Ok z /\ (z = 0 \/ z = -1) /\ is_running (opt (final InitDone s)) = RUNNING /\
    (z = 0 -> exists fd, adds (init_calls fd) s (final InitDone s)).
Proof.
  unfold InitDone, result, final, sys, mod_opt, modify, mbind, prog_bind.
  init_step. init_step. init_step. init_step. init_step. init_step.
  exists 0. cbn [fst snd]. split; [done|]. split; [by left|]. split; [done|]. intros _.
  eexists. split; [|done]. eexists [_; _; _; _; _; _]. split; [reflexivity|].
  do 4 (apply did_cons; [done|]). apply did_cons; [|apply did_cons; [done | apply did_nil]].
  match goal with H : negb _ = false |- _ => apply negb_false_iff, Z.eqb_eq in H; unfold failed; by rewrite H end.
Qed.

Lemma WriteFile_run p t s s' : WriteFile p t s = (Ok tt, s') -> exists fd, adds [Write fd t] s s'.
Proof.
  unfold WriteFile, sys, mbind, prog_bind.
  destruct (ksys (kern s) _) as [o k1]. destruct (failed o) eqn:Eo; [done|]. cbn [kern map_field set_kern set_trace].
  destruct (ksys k1 _) as [w k2]. destruct (failed w) eqn:Ew; [done|]. cbn [kern map_field set_kern set_trace].
  destruct (ksys k2 _) as [c k3]. destruct (failed c) eqn:Ec; [done|].
  intros [= <-]. exists (r_ret o). split; [|reflexivity]. eexists [_; _; _]. split; [reflexivity|].
  apply did_skip, did_cons; [done | apply did_nil].
Qed.

Lemma WriteFile_kernel p t : respects only_kernel (WriteFile p t).
Proof. unfold WriteFile. solve_respects. Qed.

Lemma mount_or_die_run src t ty fl data s s' :
  mount_or_die src t ty fl data s = (Ok tt, s') -> adds [Mount src t ty fl data] s s'.
Proof.
  unfold mount_or_die, sys, mbind, prog_bind. destruct (ksys (kern s) _) as [r k].
  destruct (failed r) eqn:Er; [done|]. intros [= <-]. split; [|reflexivity]. eexists [_]. split; [reflexivity|].
  apply did_cons; [done | apply did_nil].
Qed.

Lemma EnterWorkingDirectory_run s s' :
  EnterWorkingDirectory s = (Ok tt, s') -> adds [Chdir (working_dir (opt s))] s s'.
Proof.
  unfold EnterWorkingDirectory, get_opt, gets, sys, mbind, prog_bind. destruct (ksys (kern s) _) as [r k].
  destruct (failed r) eqn:Er; [done|]. intros [= <-]. split; [|reflexivity]. eexists [_]. split; [reflexivity|].
  apply did_cons; [done | apply did_nil].
Qed.

Definition changes_root (o : Options) : bool := use_default o || hermetic o || use_overlayfs o.

(** The calls of a change of root, newest first. *)
Definition root_change (old : string) : list syscall := [Umount2 old MNT_DETACH; Chroot "."; PivotRoot "." old].

Lemma follows_opt {A} (m : prog proc A) s a s1 :
  respects follows m -> m s = (Ok a, s1) -> fixed_options (opt s1) = fixed_options (opt s).
Proof. intros Hm E. specialize (Hm s) as (_ & Ho & _). unfold final in Ho. by rewrite E in Ho. Qed.

Lemma follows_ChangeRoot : respects follows ChangeRoot.
Proof. unfold ChangeRoot. follow_known. Qed.

Lemma ChangeRoot_adds s s' : ChangeRoot s = (Ok tt, s') -> exists old, adds (root_change old) s s'.
Proof.
  intros H. pose proof (follows_opt _ _ _ _ follows_ChangeRoot H) as Ho.
  apply ChangeRoot_run in H as (m & p & c & u & r & Ht & Hm & Hp & Hc & Hu & Hr).
  exists (r_str m). split; [|exact Ho]. eexists [_; _; _; _; _]. split; [exact Ht|].
  apply did_skip. repeat (apply did_cons; [done|]). apply did_nil.
Qed.

(** Step past a quiet part of a program that returned. *)
Ltac pass H :=
  let a := fresh "a" in let s1 := fresh "s" in let E := fresh "E" in
  apply bind_inv_ok in H as (a & s1 & E & H);
  eapply adds_before; [| exact E |]; [solve [follow_known] |]; clear E.

(** The ids inside: root, nobody, or those outside; with a pseudo-terminal the
    group is tty whatever was asked. *)
Definition inner_of (o : Options) (iu ig uid gid : Z) : Prop :=
  (fake_root o = true -> iu = 0 /\ (enable_pty o = false -> ig = 0)) /\
  (fake_root o = false -> fake_username o = false -> iu = uid /\ (enable_pty o = false -> ig = gid)).

(** The id outside: the one of the user, or 0 in a tap build that keeps the user. *)
Definition outer_id `{Build} (o : Options) (uid : Z) : Z :=
  if MINITAP && negb (fake_root o) && negb (fake_username o) then 0 else uid.

Lemma inner_ids_run s iu ig s' :
  inner_ids s = (Ok (iu, ig), s') ->
  trace s' = trace s /\ opt s' = opt s /\
  global_outer_uid s' = outer_id (opt s) (global_outer_uid s) /\ global_outer_gid s' = outer_id (opt s) (global_outer_gid s) /\
  (fake_root (opt s) = true -> iu = 0 /\ ig = 0) /\
  (fake_root (opt s) = false -> fake_username (opt s) = false -> iu = global_outer_uid s /\ ig = global_outer_gid s).
Proof.
  unfold inner_ids, outer_id, get_opt, query, gets, id. intros H.
  apply bind_inv_ok in H as (o & s1 & [= <- <-] & H).
  destruct (fake_root (opt s)) eqn:Er; [injection H as <- <- <-; rewrite andb_false_r; by repeat split|].
  destruct (fake_username (opt s)) eqn:Eu.
  - apply bind_inv_ok in H as (pwd & s1 & [= <- <-] & H). destruct (kpasswd _ _); [|done]. injection H as -> <-.
    rewrite andb_false_r. by repeat split.
  - apply bind_inv_ok in H as (ids & s1 & [= <- <-] & H). apply bind_inv_ok in H as ([] & s2 & Hw & H).
    injection H as <- <- <-. unfold when in Hw. destruct MINITAP; injection Hw as <-; by repeat split.
Qed.

(** One line each in the maps of the users and of the groups. *)
Lemma SetupUserNamespace_run s s' :
  SetupUserNamespace s = (Ok tt, s') ->
  exists fu fg iu ig,
    adds [Write fg (id_map ig (outer_id (opt s) (global_outer_gid s)));
          Write fu (id_map iu (outer_id (opt s) (global_outer_uid s)))] s s' /\
    inner_of (opt s) iu ig (global_outer_uid s) (global_outer_gid s).
Proof.
  unfold SetupUserNamespace. intros H.
  apply bind_inv_ok in H as (sb & s1 & [= <- <-] & H).
  apply bind_inv_ok in H as ([] & s2 & H2 & H).
  assert (opt s2 = opt s /\ global_outer_uid s2 = global_outer_uid s /\ global_outer_gid s2 = global_outer_gid s)
    as (Ho2 & Hu2 & Hg2).
  { destruct (kstat _ _) as [[]|st]; try done; [by injection H2 as <-|].
    pose proof (WriteFile_kernel "/proc/self/setgroups" "deny" s) as Hk. unfold final in Hk. rewrite H2 in Hk.
    destruct Hk as (k & t & Hk). cbn [snd] in Hk. by subst s2. }
  apply bind_inv_ok in H as ([iu ig] & s3 & H3 & H).
  apply inner_ids_run in H3 as (Ht3 & Ho3 & Hou & Hog & Hroot & Hkeep). rewrite Ho2, Hu2, Hg2 in *.
  apply bind_inv_ok in H as (pty & s4 & [= <- <-] & H).
  apply bind_inv_ok in H as (ig' & s5 & H5 & H).
  assert (s5 = s3 /\ (enable_pty (opt s) = false -> ig' = ig)) as [-> Hpty].
  { rewrite Ho3 in H5. destruct (enable_pty (opt s)); [|by injection H5 as -> ->].
    apply bind_inv_ok in H5 as (g & s6 & [= <- <-] & H5). destruct (kgroup _ _); [|done]. by injection H5 as -> ->. }
  apply bind_inv_ok in H as (ou & s6 & [= <- <-] & H). rewrite Hou in H.
  apply bind_inv_ok in H as ([] & s7 & H7 & H).
  pose proof (WriteFile_kernel "/proc/self/uid_map" (id_map iu (outer_id (opt s) (global_outer_uid s))) s3) as Hk.
  unfold final in Hk. rewrite H7 in Hk. destruct Hk as (k7 & t7 & Hs7). cbn [snd] in Hs7.
  apply bind_inv_ok in H as (og & s8 & [= <- <-] & H).
  assert (global_outer_gid s7 = outer_id (opt s) (global_outer_gid s)) as Hg7 by (rewrite Hs7; exact Hog). rewrite Hg7 in H.
  apply WriteFile_run in H7 as [fu H7]. apply WriteFile_run in H as [fg H].
  exists fu, fg, iu, ig'. split.
  - eapply adds_before; [|exact H2|]; [solve [follow_known]|].
    eapply (adds_trans [] [_; _]).
    + split; [exists []; split; [by rewrite Ht3 | apply did_nil] | by rewrite Ho3, Ho2].
    + exact (adds_trans _ _ _ _ _ H7 H).
  - split; [intros Hr; destruct (Hroot Hr) as [-> ->] | intros Hr Hn; destruct (Hkeep Hr Hn) as [-> ->]];
      (split; [done | exact Hpty]).
Qed.

Lemma chroot_run s s' : chroot_sandbox s = (Ok tt, s') -> exists old, adds (root_change old) s s'.
Proof.
  unfold chroot_sandbox, MountSandboxAndGoThere, CreateEmptyFile. intros H.
  apply bind_inv_ok in H as ([] & s1 & H1 & H). apply bind_inv_ok in H as ([] & s2 & H2 & H).
  apply bind_inv_ok in H as ([] & s3 & H3 & H). apply bind_inv_ok in H as ([] & s4 & H4 & H).
  apply bind_inv_ok in H as (o & s5 & H5 & H). apply bind_inv_ok in H as ([] & s6 & H6 & H).
  apply ChangeRoot_adds in H as [old H]. exists old.
  do 5 (eapply adds_before; [|eassumption|]; [solve [follow_known]|]).
  eapply adds_before; [|exact H6|exact H]. unfold GetMountPointOf, CountMounts, MountAllMounts. follow_known.
Qed.

(** When the folders of "/" can be listed, or default mode is off. *)
Lemma build_run s s' :
  (use_default (opt s) = true -> exists l, kreaddir (kern s) ROOT = inr l) ->
  changes_root (opt s) = true -> build_file_system s = (Ok tt, s') ->
  exists old, adds (root_change old) s s'.
Proof.
  intros Hl Hc. unfold build_file_system, get_opt, CanIterateRoot, query, gets, id, mbind, prog_bind.
  unfold changes_root in Hc. destruct (use_default (opt s)) eqn:Ed; cbn [orb andb] in *.
  - destruct (Hl eq_refl) as [l ->]. cbn [negb]. apply chroot_run.
  - rewrite Hc. apply chroot_run.
Qed.

(** What was called when the sandbox is set up, newest first. *)
Definition confinement (wd : string) (root : list syscall) (fu fg iu ou ig og : Z) : list syscall :=
  Chdir wd :: root ++ [Write fg (id_map ig og); Write fu (id_map iu ou); Mount None ROOT None (Z.lor MS_REC MS_SLAVE) None].

Lemma build_adds s s' :
  (use_default (opt s) = true -> exists l, kreaddir (kern s) ROOT = inr l) -> build_file_system s = (Ok tt, s') ->
  exists root, adds root s s' /\ (changes_root (opt s) = true -> exists old, root = root_change old).
Proof.
  intros Hl H. destruct (changes_root (opt s)) eqn:Hc.
  - destruct (build_run s s' Hl Hc H) as [old Ha]. eauto.
  - exists []. split; [|done]. apply adds_follows. pose proof (follows_final _ s follows_build) as Hf.
    unfold final in Hf. by rewrite H in Hf.
Qed.

Lemma changes_root_fixed o o' : fixed_options o' = fixed_options o -> changes_root o' = changes_root o.
Proof. unfold changes_root. by intros [= _ _ -> -> -> _ _]. Qed.

(** A program that ends with [InitDone] leaves the sandbox marked as running. *)
Lemma InitDone_last s s' :
  (_ ← SetupNetworking; _ ← EnterWorkingDirectory; _ ← InitDone; mret tt) s = (Ok tt, s') -> is_running (opt s') = RUNNING.
Proof.
  intros H. apply bind_inv_ok in H as ([] & s1 & _ & H). apply bind_inv_ok in H as ([] & s2 & _ & H).
  apply bind_inv_ok in H as (z & s3 & H3 & H). injection H as <-.
  destruct (InitDone_cases s2) as (z' & _ & _ & Hr & _). unfold final in Hr. by rewrite H3 in Hr.
Qed.

(** The part behind the identity. *)
Lemma finish_run s s' :
  (use_default (opt s) = true -> exists l, kreaddir (kern s) ROOT = inr l) ->
  (_ ← build_file_system; _ ← SetupNetworking; _ ← EnterWorkingDirectory; _ ← InitDone; mret tt) s = (Ok tt, s') ->
  exists root, adds (Chdir (working_dir (opt s)) :: root) s s' /\
    (changes_root (opt s) = true -> exists old, root = root_change old) /\ is_running (opt s') = RUNNING.
Proof.
  intros Hl H. apply bind_inv_ok in H as ([] & s1 & H1 & H). destruct (build_adds s s1 Hl H1) as (root & Hr & Hc).
  exists root. split; [|split; [done | by eapply InitDone_last]]. apply (adds_trans _ [_] _ _ _ Hr). destruct Hr as [_ Ho].
  apply bind_inv_ok in H as ([] & s2 & H2 & H). apply bind_inv_ok in H as ([] & s3 & H3 & H).
  apply bind_inv_ok in H as (z & s4 & H4 & H). injection H as <-.
  pose proof (follows_opt _ _ _ _ follows_SetupNetworking H2) as E2.
  assert (working_dir (opt s) = working_dir (opt s2)) as -> by (injection Ho; injection E2; congruence).
  eapply adds_before; [|exact H2|]; [follow_known|]. apply EnterWorkingDirectory_run in H3.
  eapply (adds_trans [_] []); [exact H3|].
  pose proof (follows_final InitDone s3 follows_InitDone) as Hf. unfold final in Hf. rewrite H4 in Hf.
  by apply adds_follows.
Qed.

Lemma setup_run a b s s' :
  (use_default (opt s) = true -> forall k, exists l, kreaddir k ROOT = inr l) ->
  setup_sandbox a b s = (Ok tt, s') ->
  exists root fu fg iu ou ig og, adds (confinement (working_dir (opt s)) root fu fg iu ou ig og) s s' /\
    (changes_root (opt s) = true -> exists old, root = root_change old) /\ is_running (opt s') = RUNNING.
Proof.
  intros Hlist. unfold setup_sandbox. intros H.
  apply bind_inv_ok in H as (z & s1 & H1 & H). apply bind_inv_ok in H as (home & s2 & H2 & H).
  apply bind_inv_ok in H as ([] & s3 & H3 & H). apply bind_inv_ok in H as (pid & s4 & H4 & H).
  destruct (negb (pid =? 1)); [done|].
  apply bind_inv_ok in H as (z' & s5 & H5 & H). apply bind_inv_ok in H as ([] & s6 & H6 & H).
  apply bind_inv_ok in H as ([] & s7 & H7 & H). apply bind_inv_ok in H as ([] & s8 & H8 & H).
  apply bind_inv_ok in H as (o & s9 & H9 & H). apply bind_inv_ok in H as ([] & s10 & H10 & H).
  apply bind_inv_ok in H as (mode & s11 & H11 & H). apply bind_inv_ok in H as ([] & s12 & H12 & H).
  apply mount_or_die_run in H7. apply SetupUserNamespace_run in H8 as (fu & fg & iu & ig & H8 & _).
  assert (adds [] s s6) as H06.
  { unfold MiniSbxSetInternalEnv in H1. unfold GetHomeDir in H2. unfold SetupSelfDestruction in H6.
    do 6 (eapply adds_before; [|eassumption|]; [solve [follow_known]|]). apply adds_follows. reflexivity. }
  assert (adds [] s8 s12) as H812.
  { unfold SetupUtsNamespace in H10. unfold MountOverlayDirAsTmpfs in H12.
    do 4 (eapply adds_before; [|eassumption|]; [solve [follow_known]|]). apply adds_follows. reflexivity. }
  pose proof (adds_trans _ _ _ _ _ (adds_trans _ _ _ _ _ (adds_trans _ _ _ _ _ H06 H7) H8) H812) as Hid.
  pose proof Hid as [_ Ho]. cbn [app] in Hid.
  destruct (finish_run s12 s') as (root & Hr & Hc & Hrun); [|exact H|].
  { intros Hd. apply Hlist. injection Ho as _ _ <- _ _ _ _. exact Hd. }
  exists root, fu, fg, iu, (outer_id (opt s7) (global_outer_uid s7)), ig, (outer_id (opt s7) (global_outer_gid s7)).
  split; [|split; [by rewrite <- (changes_root_fixed _ _ Ho) | exact Hrun]].
  replace (working_dir (opt s)) with (working_dir (opt s12)) by (injection Ho; congruence).
  exact (adds_trans _ _ _ _ _ Hid Hr).
Qed.

(** *** The child *)

Lemma exec_command_eq s :
  exec_command s =
  match args (opt s) with
  | [] => (Stop (Exited EXIT_FAILURE), s)
  | f :: l =>
      let '(r, k) := ksys (kern s) (Execvp f (f :: l)) in
      (Stop (if failed r then Exited EXIT_FAILURE else Execed), s <| kern := k |> <| trace ::= cons (Execvp f (f :: l), r) |>)
  end.
Proof.
  unfold exec_command, get_opt, gets. unfold mbind at 1, prog_bind at 1. destruct (args (opt s)) as [|f l]; [done|].
  unfold sys, mbind, prog_bind. destruct (ksys (kern s) _) as [r k]. by destruct (failed r).
Qed.

Lemma exec_command_run s :
  (exists w, result exec_command s = Stop w) /\
  (final exec_command s = s \/
   exists f r, trace (final exec_command s) = (Execvp f (args (opt s)), r) :: trace s /\ head (args (opt s)) = Some f).
Proof.
  unfold result, final. rewrite exec_command_eq. destruct (args (opt s)) as [|f l]; [split; [by eexists | by left]|].
  destruct (ksys (kern s) _) as [r k]. split; [by eexists|]. right. by exists f, r.
Qed.

(** What the two sides of a fork do to a quiet trace. *)
Definition execs_last (pid : Z) (s : proc) {A} (m : prog proc A) : Prop :=
  quiet (trace (final m s)) \/
  exists f r t w, result m s = Stop w /\ trace (final m s) = (Execvp f (args (opt s)), r) :: t ++ trace s /\
    quiet t /\ pid = 0 /\ head (args (opt s)) = Some f.

Lemma after_fork_run direct pid s :
  quiet (trace s) -> execs_last pid s (after_fork direct pid).
Proof.
  intros Hq. unfold after_fork. destruct (pid <? 0); [by left|]. destruct (Z.eqb_spec pid 0) as [->|Hp].
  - assert (respects follows (when (negb direct) prepare_child)) as Hp by follow_known.
    specialize (Hp s). unfold execs_last, result, final, mbind, prog_bind in *.
    destruct (when (negb direct) prepare_child s) as [[[]|w] s1]; cbn [snd fst] in *; [|left; by eapply quiet_after].
    destruct (exec_command_run s1) as [[w Hw] He]. pose proof Hp as ((l & Hl & Hql) & Ho & _).
    destruct He as [He|(f & r & He & Hf)]; [left; unfold final in He; rewrite He; by eapply quiet_after|].
    right. assert (args (opt s1) = args (opt s)) as Ha by (injection Ho; congruence).
    rewrite Ha in *. exists f, r, l, w. unfold final, result in *. by rewrite He, Hl.
  - destruct direct; [left | by left].
    assert (respects follows (w ← sys (Waitpid pid); if r_ret w =? -1 then exit_ EXIT_FAILURE
      else if WIFEXITED (out 0 w) then exit_ (WEXITSTATUS (out 0 w)) else exit_ EXIT_FAILURE : prog proc unit)) as Hw by follow_known.
    by eapply quiet_after; [apply Hw|].
Qed.

Lemma SpawnChild_run nested s :
  quiet (trace s) ->
  (quiet (trace (final (SpawnChild nested) s)) \/
   exists f r t fk w, result (SpawnChild nested) s = Stop w /\
     trace (final (SpawnChild nested) s) = (Execvp f (args (opt s)), r) :: t ++ (Fork, fk) :: trace s /\
     quiet t /\ failed fk = false /\ head (args (opt s)) = Some f).
Proof.
  intros Hq. unfold SpawnChild, sys, modify, gets, result, final, mbind, prog_bind.
  destruct (ksys (kern s) Fork) as [fk k] eqn:Ek. cbn [docker_mode map_field set_kern set_trace set_pid1_child_pid].
  match goal with |- context [after_fork ?d ?p ?s1] => pose proof (after_fork_run d p s1) as [H|(f & r & t & w & H & Ht & Hqt & Hp & Hf)] end.
  - by constructor.
  - by left.
  - right. exists f, r, t, fk, w. do 3 (split; [done|]). split; [unfold failed; by rewrite Hp | done].
Qed.

(** Nothing was executed, or the last call executes the command, after [cs]. *)
Definition exec_ends (argv : list string) (cs : list syscall) (t : list (syscall * reply)) : Prop :=
  quiet t \/
  exists f r t', t = (Execvp f argv, r) :: t' /\ quiet t' /\ did cs t' /\ head argv = Some f.

Lemma ends_after_quiet {A C} (m : prog proc A) (f : A -> prog proc C) argv cs s :
  respects follows m -> quiet (trace s) ->
  (forall a s1, m s = (Ok a, s1) -> quiet (trace s1) -> follows s s1 -> exec_ends argv cs (trace (final (f a) s1))) ->
  exec_ends argv cs (trace (final (m ≫= f) s)).
Proof.
  intros Hm Hq Hf. specialize (Hm s). unfold final, mbind, prog_bind in *.
  destruct (m s) as [[a|w] s1] eqn:E; cbn [snd] in *; [|left; by eapply quiet_after].
  apply (Hf a s1 eq_refl); [by eapply quiet_after | done].
Qed.

Lemma spawn_and_wait_run s argv cs s0 :
  quiet (trace s) -> argv = args (opt s) -> adds cs s0 s ->
  exec_ends argv (Fork :: cs)
    (trace (final (_ ← SpawnChild false; _ ← InstallSignalHandler SIGTERM (Handler "ForwardSignal"); WaitForChild) s)).
Proof.
  intros Hq -> Ha. destruct (SpawnChild_run false s Hq) as [H|(f & r & t & fk & w & Hw & Ht & Hqt & Hfk & Hf)].
  - left. unfold final in *. unfold mbind at 1, prog_bind at 1.
    destruct (SpawnChild false s) as [[[]|w] s1]; [|exact H]. cbn [snd] in H.
    assert (respects follows (_ ← InstallSignalHandler SIGTERM (Handler "ForwardSignal"); WaitForChild)) as Hr
      by (unfold InstallSignalHandler; follow_known).
    by eapply quiet_after; [apply Hr|].
  - right. unfold final, result in *. unfold mbind at 1, prog_bind at 1.
    destruct (SpawnChild false s) as [o s1]. cbn [fst snd] in *. subst o. exists f, r, (t ++ (Fork, fk) :: trace s).
    cbn [snd]. split; [done|]. split; [apply Forall_app; split; [done | by constructor]|]. split; [|done].
    destruct Ha as [(l & -> & Hd) _]. rewrite <- (app_nil_l (Fork :: cs)). apply did_app; [apply did_nil|].
    apply did_cons; [done|]. rewrite <- (app_nil_r cs). by apply did_app, did_nil.
Qed.

Lemma Pid1Main_ends a b s0 cs0 s :
  adds cs0 s0 s ->
  quiet (trace s) -> (use_default (opt s) = true -> forall k, exists l, kreaddir k ROOT = inr l) ->
  quiet (trace (final (Pid1Main a b) s)) \/
  exists root fu fg iu ou ig og,
    exec_ends (args (opt s)) (Fork :: confinement (working_dir (opt s)) root fu fg iu ou ig og ++ cs0)
      (trace (final (Pid1Main a b) s)) /\
    (changes_root (opt s) = true -> exists old, root = root_change old).
Proof.
  intros H0 Hq Hl. unfold Pid1Main. pose proof (follows_final _ s (follows_setup a b)) as Hf. unfold final in Hf at 1.
  destruct (setup_sandbox a b s) as [[[]|w] s1] eqn:E; cbn [snd] in Hf;
    [rewrite (final_bind_ok _ _ _ _ _ E) | left; rewrite (final_bind_stop _ _ _ _ _ E); by eapply quiet_after].
  destruct (setup_run a b s s1 Hl E) as (root & fu & fg & iu & ou & ig & og & Ha & Hr & _).
  right. exists root, fu, fg, iu, ou, ig, og. split; [|done].
  assert (args (opt s) = args (opt s1)) as -> by (destruct Ha as [_ Ho]; injection Ho; congruence).
  assert (quiet (trace s1)) as Hq1 by (by eapply quiet_after).
  destruct LIBMINISANDBOX.
  - left. assert (respects follows (_ ← drop_caps_ep_except 0; mret 0)) as Hd by follow_known.
    by eapply quiet_after; [apply Hd|].
  - apply ends_after_quiet; [follow_known | done | intros [] s2 _ Hq2 H2].
    apply ends_after_quiet; [follow_known | done | intros [] s3 _ Hq3 H3].
    pose proof (adds_follows _ _ (transitivity H2 H3)) as H13. eapply spawn_and_wait_run; [done | |].
    + destruct H13 as [_ Ho]. injection Ho. congruence.
    + exact (adds_trans _ _ _ _ _ (adds_trans _ _ _ _ _ H0 Ha) H13).
Qed.

End Order.

(** ** Facts about capabilities *)

Section Capabilities.

(** Whether one of the three sets, as the list of its words, has capability [c]. *)
Definition has_cap (set : Z * Z * Z -> Z) (words : list (Z * Z * Z)) (c : Z) : bool :=
  match words !! Z.to_nat (c / 32) with Some w => Z.testbit (set w) (c mod 32) | None => false end.

Definition effective_set (w : Z * Z * Z) : Z := w.1.1.
Definition permitted_set (w : Z * Z * Z) : Z := w.1.2.
Definition inheritable_set (w : Z * Z * Z) : Z := w.2.

(** The words [capget] returned. *)
Definition held_caps (data : reply) : list (Z * Z * Z) := cap_word data <$> seq 0 CAP_WORDS.

Lemma cap_mask_bit keep i n : 0 <= n < 32 -> Z.testbit (cap_mask keep i) n = Z.testbit keep (32 * Z.of_nat i + n).
Proof.
  intros Hn. unfold cap_mask. rewrite Z.land_spec, Z.shiftr_spec by lia.
  change (2 ^ 32 - 1) with (Z.ones 32). rewrite Z.ones_spec_low by lia. rewrite andb_true_r. f_equal. lia.
Qed.

Lemma has_cap_masked set keep data c :
  (set = effective_set \/ set = permitted_set \/ set = inheritable_set) -> 0 <= c < 64 ->
  has_cap set (masked_caps keep data) c = has_cap set (held_caps data) c && Z.testbit keep c.
Proof.
  intros Hset Hc. unfold has_cap, masked_caps, held_caps. rewrite !list_lookup_fmap.
  assert (0 <= c / 32 < 2) as Hq by (split; [apply Z.div_pos | apply Z.div_lt_upper_bound]; lia).
  pose proof (Z.mod_pos_bound c 32 ltac:(lia)) as Hm.
  assert (seq 0 CAP_WORDS !! Z.to_nat (c / 32) = Some (Z.to_nat (c / 32))) as ->
    by (apply lookup_seq; unfold CAP_WORDS; lia).
  cbn [fmap option_fmap option_map].
  replace (Z.testbit keep c) with (Z.testbit (cap_mask keep (Z.to_nat (c / 32))) (c mod 32)).
  - destruct Hset as [->|[->| ->]]; unfold mask_word, cap_word, effective_set, permitted_set, inheritable_set; cbn;
      by rewrite Z.land_spec.
  - rewrite cap_mask_bit by done. f_equal. rewrite Z2Nat.id by lia. symmetry. apply Z.div_mod. lia.
Qed.

Lemma kept_capabilities_bits c :
  0 <= c < 64 ->
  Z.testbit kept_capabilities c = true <->
  c ∈ [CAP_CHOWN; CAP_DAC_READ_SEARCH; CAP_FOWNER; CAP_KILL; CAP_NET_BIND_SERVICE; CAP_SYS_RESOURCE].
Proof.
  intros Hc.
  assert (forallb (fun n => Bool.eqb (Z.testbit kept_capabilities (Z.of_nat n))
    (existsb (Z.eqb (Z.of_nat n)) [CAP_CHOWN; CAP_DAC_READ_SEARCH; CAP_FOWNER; CAP_KILL; CAP_NET_BIND_SERVICE; CAP_SYS_RESOURCE]))
    (seq 0 64) = true) as H by (vm_compute; reflexivity).
  rewrite forallb_forall in H. specialize (H (Z.to_nat c) ltac:(apply in_seq; lia)).
  rewrite Z2Nat.id in H by lia. apply Bool.eqb_prop in H. rewrite H, existsb_true_elem. split.
  - by intros (x & Hx & ->%Z.eqb_eq).
  - intros Hin. exists c. split; [done | apply Z.eqb_refl].
Qed.

End Capabilities.

(** ** Facts about waiting *)

Section Waiting.
Context `{B : Build} `{N : Bound} `{K : Kernel}.

(** The kernel answers [rs] to a call made again and again. *)
Inductive answers (c : syscall) : kstate -> list reply -> kstate -> Prop :=
| answers_nil k : answers c k [] k
| answers_cons k r k1 rs k2 : ksys k c = (r, k1) -> answers c k1 rs k2 -> answers c k (r :: rs) k2.

(** The state after these answers. *)
Definition answered (c : syscall) (rs : list reply) (k : kstate) (s : proc) : proc :=
  s <| kern := k |> <| trace ::= app (rev (pair c <$> rs)) |>.

Definition interrupted (r : reply) : bool := (r_ret r =? -1) && bool_decide (r_errno r = EINTR).

Lemma answers_app c k rs1 rs2 k2 :
  answers c k (rs1 ++ rs2) k2 -> exists k1, answers c k rs1 k1 /\ answers c k1 rs2 k2.
Proof.
  revert k. induction rs1 as [|r rs1 IH]; intros k H; cbn in H; [exists k; split; [constructor | done]|].
  inv H. destruct (IH _ H5) as (k3 & H1 & H2). exists k3. split; [by econstructor | done].
Qed.

Lemma sys_run c s r k :
  ksys (kern s) c = (r, k) -> sys c s = (Ok r, s <| kern := k |> <| trace ::= cons (c, r) |>).
Proof. intros H. unfold sys. by rewrite H. Qed.

(** One call that is made again when it was interrupted. *)
Definition retried (c : syscall) : prog proc (option reply) :=
  q ← sys c; mret (if (r_ret q =? -1) && bool_decide (r_errno q = EINTR) then None else Some q).

Lemma retried_run c s r k :
  ksys (kern s) c = (r, k) ->
  retried c s = (Ok (if interrupted r then None else Some r), s <| kern := k |> <| trace ::= cons (c, r) |>).
Proof. intros H. unfold retried. by rewrite (bind_ok _ _ _ _ _ (sys_run _ _ _ _ H)). Qed.

Lemma answered_cons c r rs k k1 s :
  answered c rs k (s <| kern := k1 |> <| trace ::= cons (c, r) |>) = answered c (r :: rs) k s.
Proof. destruct s. unfold answered, map_field, set_trace, set_kern. cbn. by rewrite <- (assoc_L (++)). Qed.

(** A loop around one call, interrupted some times before an answer. *)
Lemma retry_run c n s rs r k :
  (length rs < n)%nat -> answers c (kern s) (rs ++ [r]) k ->
  Forall (fun q => interrupted q = true) rs -> interrupted r = false ->
  loop n (retried c) s = (Ok r, answered c (rs ++ [r]) k s).
Proof.
  revert n s. induction rs as [|q rs IH]; intros [|n] s Hn Ha Hi Hr; cbn in Hn; try lia; cbn [loop app] in *;
    inversion_clear Ha as [|? ? k1 ? ? Hk Ha'].
  - inversion Ha'; subst. rewrite (bind_ok _ _ _ _ _ (retried_run _ _ _ _ Hk)), Hr. done.
  - inversion_clear Hi as [|? ? Hq Hi']. rewrite (bind_ok _ _ _ _ _ (retried_run _ _ _ _ Hk)), Hq.
    rewrite IH; [ by rewrite answered_cons | lia | exact Ha' | done | done].
Qed.

(** Waiting for any child, with its interruptions: the answers up to the first
    that is not one. *)
Lemma split_interrupted rs (r : reply) :
  interrupted r = false ->
  exists rs1 q rs2, rs ++ [r] = rs1 ++ q :: rs2 /\ Forall (fun q => interrupted q = true) rs1 /\ interrupted q = false /\
    (rs2 = [] /\ q = r /\ rs1 = rs \/ exists rs2', rs2 = rs2' ++ [r] /\ rs = rs1 ++ q :: rs2').
Proof.
  intros Hr. induction rs as [|q rs IH].
  - exists [], r, []. by repeat split; auto.
  - destruct (interrupted q) eqn:Eq.
    + destruct IH as (rs1 & x & rs2 & H & Hi & Hx & Hc). exists (q :: rs1), x, rs2. cbn. rewrite H.
      split; [done|]. split; [by constructor|]. split; [done|].
      destruct Hc as [(-> & -> & ->)|(rs2' & -> & ->)]; [by left | right]. by exists rs2'.
    + exists [], q, (rs ++ [r]). split; [done|]. split; [constructor|]. split; [done|]. right. by exists rs.
Qed.

Lemma answered_app c rs1 rs2 k k1 s :
  answered c rs2 k (answered c rs1 k1 s) = answered c (rs1 ++ rs2) k s.
Proof.
  destruct s. unfold answered, map_field, set_trace, set_kern. cbn.
  by rewrite fmap_app, rev_app_distr, (assoc_L (++)).
Qed.

(** The child the process waits for, or another. *)
Definition other_child (child : Z) (r : reply) : Prop := interrupted r = true \/ (0 <= r_ret r /\ r_ret r <> child).

Lemma WaitForChild_loop n s rs r k :
  (length rs < n)%nat -> (length rs < loop_bound)%nat -> answers Wait (kern s) (rs ++ [r]) k ->
  Forall (other_child (pid1_child_pid s)) rs -> r_ret r = pid1_child_pid s -> 0 <= r_ret r ->
  loop n (q ← wait_retry;
          if failed q then DIE
          else child ← gets pid1_child_pid;
               mret (if r_ret q =? child then Some (exit_status (out 0 q)) else None)) s =
  (Ok (exit_status (out 0 r)), answered Wait (rs ++ [r]) k s).
Proof.
  assert (forall q, 0 <= r_ret q -> interrupted q = false) as Hni.
  { intros q Hq. unfold interrupted. destruct (Z.eqb_spec (r_ret q) (-1)); [lia | done]. }
  revert s rs. induction n as [|n IH]; intros s rs Hn Hb Ha Ho Hr Hp; [lia|]. cbn [loop].
  destruct (split_interrupted rs r (Hni _ Hp)) as (rs1 & q & rs2 & Hsplit & Hi & Hq & Hcase).
  rewrite Hsplit in Ha. replace (rs1 ++ q :: rs2) with ((rs1 ++ [q]) ++ rs2) in Ha by (by rewrite <- (assoc_L (++))).
  apply answers_app in Ha as (k1 & Ha1 & Ha2).
  assert (length rs1 < loop_bound)%nat as Hb1.
  { destruct Hcase as [(_ & _ & ->)|(? & _ & ->)]; [done|]. rewrite length_app in Hb. lia. }
  assert (wait_retry s = (Ok q, answered Wait (rs1 ++ [q]) k1 s)) as Hrun
    by exact (retry_run Wait loop_bound s rs1 q k1 Hb1 Ha1 Hi Hq).
  destruct Hcase as [(-> & -> & ->)|(rs2' & -> & ->)].
  - inversion Ha2; subst. erewrite bind_ok; [|erewrite bind_ok; [|exact Hrun]].
    2:{ unfold failed. destruct (Z.ltb_spec (r_ret r) 0); [lia|]. unfold gets, mbind, prog_bind. cbn [fst snd]. reflexivity. }
    cbn. by rewrite Hr, Z.eqb_refl.
  - apply Forall_app in Ho as [_ Ho]. inversion_clear Ho as [|? ? [Hx|[Hx0 Hx]] Ho']; [congruence|].
    erewrite bind_ok; [|erewrite bind_ok; [|exact Hrun]].
    2:{ unfold failed. destruct (Z.ltb_spec (r_ret q) 0); [lia|]. unfold gets, mbind, prog_bind. cbn [fst snd]. reflexivity. }
    cbn. destruct (Z.eqb_spec (r_ret q) (pid1_child_pid s)); [congruence|].
    rewrite length_app in *. cbn in *.
    rewrite (IH (answered Wait (rs1 ++ [q]) k1 s) rs2'); [| lia | lia | exact Ha2 | exact Ho' | exact Hr | exact Hp].
    rewrite answered_app. f_equal. f_equal. by rewrite <- !(assoc_L (++)).
Qed.

End Waiting.

(** ** Properties *)

Section Properties.
Context `{B : Build} `{N : Bound} `{K : Kernel}.


(** C29: when drop_caps_ep_except returns, the process asked for exactly the
    capabilities it held among those to keep: capability c is in its effective,
    permitted or inheritable set afterwards when it was before and bit c of
    [keep] is set; nothing is gained, and with 0 nothing is left. *)
Theorem drop_caps_exact keep s s' :
  drop_caps_ep_except keep s = (Ok tt, s') ->
  exists data r, trace s' = (Capset (masked_caps keep data), r) :: (Capget, data) :: trace s /\ r_ret r = 0 /\
    forall set c, (set = effective_set \/ set = permitted_set \/ set = inheritable_set) -> 0 <= c < 64 ->
      has_cap set (masked_caps keep data) c = has_cap set (held_caps data) c && Z.testbit keep c.
Proof.
  unfold drop_caps_ep_except, sys, mbind, prog_bind. destruct (ksys (kern s) Capget) as [data k1].
  destruct (Z.eqb_spec (r_ret data) 0) as [Hd|]; [|done]. cbn [negb kern map_field set_kern set_trace].
  destruct (ksys k1 _) as [r k2]. destruct (Z.eqb_spec (r_ret r) 0) as [Hr|]; [|done]. intros [= <-].
  exists data, r. split; [done|]. split; [done|]. intros set c Hs Hc. by apply has_cap_masked.
Qed.

(** Without namespaces the process is left with at most six capabilities:
    chown, dac_read_search, fowner, kill, net_bind_service and sys_resource. *)
Theorem DropCapabilities_keeps data set c :
  (set = effective_set \/ set = permitted_set \/ set = inheritable_set) -> 0 <= c < 64 ->
  has_cap set (masked_caps kept_capabilities data) c = true <->
  has_cap set (held_caps data) c = true /\
  c ∈ [CAP_CHOWN; CAP_DAC_READ_SEARCH; CAP_FOWNER; CAP_KILL; CAP_NET_BIND_SERVICE; CAP_SYS_RESOURCE].
Proof.
  intros Hs Hc. rewrite has_cap_masked by done. rewrite andb_true_iff. by rewrite kept_capabilities_bits.
Qed.

(** C27: waiting for the command ends and reports its status: whatever other
    processes are reaped and however often the wait is interrupted before, as
    long as fewer than the bound, WaitForChild returns the exit code of the
    child, or 128 and the signal that killed it, having only called wait. *)
Theorem WaitForChild_status s rs r k :
  answers Wait (kern s) (rs ++ [r]) k -> (length rs < loop_bound)%nat ->
  Forall (other_child (pid1_child_pid s)) rs -> r_ret r = pid1_child_pid s -> 0 <= r_ret r ->
  WaitForChild s = (Ok (exit_status (out 0 r)), answered Wait (rs ++ [r]) k s).
Proof. intros Ha Hb Ho Hr Hp. by apply WaitForChild_loop. Qed.

(** The init file: InitDone always returns and always marks the sandbox as
    running; it returns 0 exactly after the file was opened, "1" was written
    and synchronised, and the file was bound over itself and made read-only. *)
Theorem InitDone_spec s :
  exists z, result InitDone s = Ok z /\ (z = 0 \/ z = -1) /\ is_running (opt (final InitDone s)) = RUNNING /\
    (z = 0 -> exists fd, adds (init_calls fd) s (final InitDone s)).
Proof. apply InitDone_cases. Qed.


End Properties.

(** ** Witnesses *)

Definition hermetic_proc : proc (H := CalmKernel) :=
  (initial_proc (K := CalmKernel) {[ "HOME" := "/home/u" ]} tt)
    <| opt := initial_options <| working_dir := "/w" |> <| sandbox_root := "/tmp/s" |> <| hermetic := true |>
                              <| args := ["ls"; "-l"] |> |>.

Definition hermetic_end : proc (H := CalmKernel) :=
  final (Pid1Main (B := cli_build) (N := some_bound) (K := CalmKernel) (3, 4) (5, 6)) hermetic_proc.


(** A machine on which the process holds all capabilities, and one on which it
    waits: interrupted, another process, then its child with exit code 3. *)
Definition capable_sim : sim := empty_sim <| sim_script := [mkReply 0 ENONE [4294967295; 4294967295; 0; 511; 511; 0] ""] |>.

Definition dropped_proc : proc (H := SimKernel) :=
  final (drop_caps_ep_except (K := SimKernel) (BIT CAP_KILL)) (sim_proc capable_sim).

Lemma drop_caps_exact_witness :
  exists data, trace dropped_proc !! 1%nat = Some (Capget, data) /\
    has_cap permitted_set (masked_caps (BIT CAP_KILL) data) CAP_KILL =
    has_cap permitted_set (held_caps data) CAP_KILL && Z.testbit (BIT CAP_KILL) CAP_KILL.
Proof.
  destruct (drop_caps_exact (K := SimKernel) (BIT CAP_KILL) (sim_proc capable_sim) dropped_proc) as (data & r & Ht & _ & H).
  - vm_compute. reflexivity.
  - exists data. split; [rewrite Ht; reflexivity|]. apply H; [by right; left | unfold CAP_KILL; lia].
Defined.

Lemma DropCapabilities_keeps_witness :
  has_cap effective_set (held_caps (mkReply 0 ENONE [4294967295; 4294967295; 0; 511; 511; 0] "")) CAP_KILL = true /\
  CAP_KILL ∈ [CAP_CHOWN; CAP_DAC_READ_SEARCH; CAP_FOWNER; CAP_KILL; CAP_NET_BIND_SERVICE; CAP_SYS_RESOURCE].
Proof.
  apply (DropCapabilities_keeps (mkReply 0 ENONE [4294967295; 4294967295; 0; 511; 511; 0] "") effective_set CAP_KILL).
  - by left.
  - unfold CAP_KILL. lia.
  - vm_compute. reflexivity.
Defined.

Definition waiting_replies : list reply := [err_reply EINTR; status_reply 77 0].
Definition waiting_proc : proc (H := SimKernel) :=
  (sim_proc (empty_sim <| sim_script := waiting_replies ++ [status_reply 5 768] |>)) <| pid1_child_pid := 5 |>.

Lemma WaitForChild_status_witness :
  WaitForChild (N := some_bound) waiting_proc =
  (Ok 3, answered Wait (waiting_replies ++ [status_reply 5 768]) (empty_sim <| sim_script := [] |>) waiting_proc).
Proof.
  apply (WaitForChild_status (N := some_bound) (K := SimKernel) waiting_proc waiting_replies (status_reply 5 768)).
  - do 3 (econstructor; [reflexivity|]). constructor.
  - cbn. lia.
  - constructor; [left; reflexivity|]. constructor; [right; cbn; lia | constructor].
  - reflexivity.
  - cbn. lia.
Defined.

