(* ===== verification/Docker.v ===== *)
(** * Containers and user namespaces (docker-support.cc)

    How the program decides whether it runs in a container, and in which mode
    it then works.  The theorems give the decision in closed form and say that
    the probe for user namespaces is made once. *)

From S2P Require Import Prelude Monad CxxString FsPath Firewall Kernel SimKernel State Fs Errors ProcessTools.
Open Scope sbx_scope.
Open Scope Z_scope.

Section Docker.
Context `{B : Build} `{N : Bound} `{K : Kernel}.

Definition isDockerEnvPresent : prog proc bool := fs_exists "/.dockerenv".

(** The first entry for "/" decides. *)
Fixpoint root_in_overlay (mounts : list mntent) : bool :=
  match mounts with
  | [] => false
  | ent :: mounts' => if streq (mnt_dir ent) "/" then streq (mnt_type ent) "overlay" else root_in_overlay mounts'
  end.

Definition isRootInOverlay : prog proc bool :=
  mounts ← query (fun k => kmntent k "/proc/self/mounts");
  mret match mounts with None => false | Some l => root_in_overlay l end.

Definition isRunningInDocker : prog proc bool :=
  d ← isDockerEnvPresent;
  if d : bool then mret true else isRootInOverlay.

Definition CheckDockerMode : prog proc DockerMode :=
  unprivileged ← getenv "MINI_SANDBOX_DOCKER_UNPRIVILEGED";
  res ← match unprivileged with
        | Some _ => mret UNPRIVILEGED_CONTAINER
        | None =>
            privileged ← getenv "MINI_SANDBOX_DOCKER_PRIVILEGED";
            match privileged with
            | Some _ => mret PRIVILEGED_CONTAINER
            | None =>
                docker ← isRunningInDocker;
                mret (if docker : bool then UNPRIVILEGED_CONTAINER else NO_CONTAINER)
            end
        end;
  user_namespace ← UserNamespaceSupported;
  mret (if user_namespace : bool then res else UNPRIVILEGED_CONTAINER).

(** ** What the answer depends on *)

(** The mode by the environment, the machine and the probe. *)
Definition mode_of (unprivileged privileged docker user_namespace : bool) : DockerMode :=
  if negb user_namespace || unprivileged then UNPRIVILEGED_CONTAINER
  else if privileged then PRIVILEGED_CONTAINER
  else if docker then UNPRIVILEGED_CONTAINER else NO_CONTAINER.

Definition has_env (s : proc) (name : string) : bool :=
  match environ s !! name with Some _ => true | None => false end.

Definition docker_signs (k : kstate) : bool :=
  match kstat k "/.dockerenv" with
  | inr _ => true
  | inl _ => match kmntent k "/proc/self/mounts" with Some l => root_in_overlay l | None => false end
  end.

Lemma isRunningInDocker_ok s b s' :
  isRunningInDocker s = (Ok b, s') -> s' = s /\ b = docker_signs (kern s).
Proof.
  unfold isRunningInDocker, isDockerEnvPresent. intros H. apply bind_inv_ok in H as (d & s1 & H1 & H).
  unfold fs_exists in H1. rewrite test_status_eq in H1. unfold docker_signs, status_of in *.
  destruct (kstat (kern s) "/.dockerenv") as [e|st].
  - destruct (is_not_found e); [|done]. injection H1 as <- <-. unfold isRootInOverlay, query, gets in H.
    apply bind_inv_ok in H as (m & s1 & [= <- <-] & H). by injection H as <- <-.
  - injection H1 as <- <-. by injection H as <- <-.
Qed.

(** The probe, answered once. *)
Lemma UserNamespaceSupported_again s b s' :
  UserNamespaceSupported s = (Ok b, s') -> UserNamespaceSupported s' = (Ok b, s').
Proof.
  unfold UserNamespaceSupported. intros H. apply bind_inv_ok in H as (c & s1 & [= <- <-] & H).
  case_decide as Hc.
  - apply bind_inv_ok in H as (f & s1 & [= <- <-] & H).
    destruct (environ s !! "MINI_SANDBOX_FORCE_USER_NAMESPACE") as [v|] eqn:Ef.
    + injection H as <- <-. unfold getenv, gets, mbind, prog_bind. rewrite decide_True by done. by rewrite Ef.
    + apply bind_inv_ok in H as (has & s1 & H1 & H). apply bind_inv_ok in H as (res & s2 & H2 & H).
      unfold modify in H. apply bind_inv_ok in H as ([] & s3 & [= <-] & H). injection H as <- <-.
      unfold gets, mbind, prog_bind. cbn. by destruct res.
  - injection H as <- <-. unfold gets, mbind, prog_bind. by rewrite decide_False.
Qed.

Lemma CheckDockerMode_ok s m s' :
  CheckDockerMode s = (Ok m, s') ->
  exists b, UserNamespaceSupported s = (Ok b, s') /\
    m = mode_of (has_env s "MINI_SANDBOX_DOCKER_UNPRIVILEGED") (has_env s "MINI_SANDBOX_DOCKER_PRIVILEGED")
          (docker_signs (kern s)) b.
Proof.
  unfold CheckDockerMode, has_env, mode_of. intros H.
  apply bind_inv_ok in H as (u & s1 & [= <- <-] & H). apply bind_inv_ok in H as (res & s1 & Hres & H).
  apply bind_inv_ok in H as (b & s2 & Hb & H). injection H as <- <-.
  destruct (environ s !! "MINI_SANDBOX_DOCKER_UNPRIVILEGED").
  { injection Hres as <- <-. exists b. rewrite orb_true_r. by destruct b. }
  apply bind_inv_ok in Hres as (p & s3 & [= <- <-] & Hres).
  destruct (environ s !! "MINI_SANDBOX_DOCKER_PRIVILEGED").
  { injection Hres as <- <-. exists b. by destruct b. }
  apply bind_inv_ok in Hres as (d & s3 & Hd & Hres). apply isRunningInDocker_ok in Hd as [-> ->].
  injection Hres as <- <-. exists b. by destruct b.
Qed.

(** ** Properties *)

(** C34: the mode in closed form: without user namespaces, or with the
    UNPRIVILEGED variable, the program works as in an unprivileged container
    whatever else; otherwise the PRIVILEGED variable decides, and last the
    signs of a container, /.dockerenv or a "/" mounted as an overlay. *)
Theorem CheckDockerMode_spec s m s' :
  CheckDockerMode s = (Ok m, s') ->
  exists b, UserNamespaceSupported s = (Ok b, s') /\
    m = mode_of (has_env s "MINI_SANDBOX_DOCKER_UNPRIVILEGED") (has_env s "MINI_SANDBOX_DOCKER_PRIVILEGED")
          (docker_signs (kern s)) b.
Proof. apply CheckDockerMode_ok. Qed.

(** The probe for user namespaces is made once: asked again, the program
    gives the same answer without a call and without changing its state. *)
Theorem probe_made_once s b s' :
  UserNamespaceSupported s = (Ok b, s') -> UserNamespaceSupported s' = (Ok b, s').
Proof. apply UserNamespaceSupported_again. Qed.

End Docker.

(** ** Witnesses *)

(** A machine with the files of the namespaces, where the probing child leaves
    with 0. *)
Definition namespace_sim : sim :=
  empty_sim <| sim_nodes ::= fun m => foldr (fun p => insert p FRegular) m namespace_files |>
            <| sim_script := [ret_reply 7; status_reply 7 0] |>.
Definition namespace_proc : proc (H := SimKernel) := sim_proc namespace_sim.

Lemma CheckDockerMode_spec_witness :
  result (CheckDockerMode (N := some_bound)) namespace_proc = Ok NO_CONTAINER /\
  exists b, NO_CONTAINER = mode_of false false false b.
Proof.
  split; [vm_compute; reflexivity|].
  destruct (CheckDockerMode_spec (N := some_bound) (K := SimKernel) namespace_proc NO_CONTAINER
    (final (CheckDockerMode (N := some_bound)) namespace_proc)) as (b & _ & H).
  - vm_compute. reflexivity.
  - exists b. exact H.
Defined.

Lemma probe_made_once_witness :
  let s' := final (UserNamespaceSupported (N := some_bound)) namespace_proc in
  UserNamespaceSupported (N := some_bound) s' = (Ok true, s').
Proof.
  apply (probe_made_once (N := some_bound) (K := SimKernel) namespace_proc).
  vm_compute. reflexivity.
Defined.
