(* ===== verification/Minitap.v ===== *)
(** * The user-space network of the tap builds (minitap-interface.cc)

    Finding the minitap binary, starting it, waiting for its signal, and joining
    its network namespace; and the wait itself as a step relation with the
    signal as a concurrent step, which shows that the signal can be lost. *)

From S2P Require Import Prelude Monad CxxString FsPath Firewall Kernel SimKernel State Fs Errors ProcessTools OptionsApi.
From Stdlib Require Import Ascii.
Open Scope sbx_scope.
Open Scope Z_scope.

Definition MINITAPBIN : string := "minitap".
Definition PATH_MAX : nat := 4096.

(** [strstr(s, sub) != NULL] *)
Fixpoint has_substring (sub s : string) : bool :=
  has_prefix sub s || match s with "" => false | String _ s' => has_substring sub s' end.

Section Minitap.
Context `{B : Build} `{N : Bound} `{K : Kernel}.

(** ** The binary *)

Definition ResolveSymlink (path : string) : prog proc string :=
  link ← fs_is_symlink_ec path;
  if link : bool then
    r ← query (fun k => krealpath k path);
    mret match r with inr resolved => resolved | inl _ => path end
  else mret path.

(** The out-parameter, when it is set. *)
Definition GetSharedObjectPath : prog proc (option string) :=
  info ← query kobject;
  match info with
  | Some fname => if has_substring ".so" fname then Some <$> ResolveSymlink fname else mret None
  | None => mret None
  end.

Definition LocateBinaryFromParent (exePath : string) : prog proc string :=
  catch_fs
    (let MiniTapBinPath := path_append (parent_path exePath) MINITAPBIN in
     ex ← fs_exists MiniTapBinPath;
     mret (if ex : bool then MiniTapBinPath else ""))
    (mret "").

Definition set_MinitapBin (path : string) : prog proc unit :=
  modify (fun s => s <| MinitapBin := take_str (PATH_MAX - 1) path |>).

Definition GetMinitapBinDir : prog proc Z :=
  bin ← gets MinitapBin;
  if negb (empty bin) then mret 0
  else
    mini_tap_env ← getenv "MINI_SANDBOX_TAP_BINARY";
    match mini_tap_env with
    | Some path => _ ← set_MinitapBin path; mret 0
    | None =>
        exe ← (if LIBMINISANDBOX then GetSharedObjectPath
               else
                 l ← query (fun k => kreadlink k "/proc/self/exe");
                 mret (take_str (PATH_MAX - 1) <$> l));
        match exe with
        | None => mret (-1)
        | Some path =>
            BinPath ← LocateBinaryFromParent path;
            if empty BinPath then mret (-1)
            else _ ← set_MinitapBin BinPath; mret 0
        end
    end.

(** ** Starting it *)

(** The handler of SIGUSR1. *)
Definition handler : prog proc unit := modify (fun s => s <| signal_received := true |>).

(** [pause()] returns when a handler has run; the reply says for which signal. *)
Definition wait_for_signal : prog proc unit :=
  loop loop_bound (
    received ← gets signal_received;
    if received : bool then mret (Some tt)
    else
      r ← sys Pause;
      _ ← when (out 0 r =? SIGUSR1) handler;
      mret None).

Definition RunMinitap (rules : string) : prog proc Z :=
  _ ← sys (Sigaction SIGUSR1 (Handler "handler") false);
  res ← GetMinitapBinDir;
  _ ← when (res <? 0) (modify (fun s => s <| MinitapBin := MINITAPBIN |>));
  bin ← gets MinitapBin;
  p ← sys Fork;
  if r_ret p =? 0 then
    e ← sys (Execvp bin [bin; rules]);
    if failed e then
      parent ← query kppid;
      _ ← sys (Kill parent SIGUSR1);
      exit_ (-1)
    else stop_with Execed
  else
    _ ← wait_for_signal;
    mret (r_ret p).

Definition JoinNetNs (p : Z) : prog proc Z :=
  fd ← sys (Open ("/proc/" +:+ to_string p +:+ "/ns/net") O_RDONLY 0);
  if r_ret fd =? -1 then mret (-1)
  else
    r ← sys (Setns (r_ret fd) CLONE_NEWNET);
    if r_ret r =? -1 then _ ← sys (Close (r_ret fd)); mret (-1)
    else
      c ← sys (Close (r_ret fd));
      mret (if failed c then -1 else 0).

(** The status of a child that was waited for. *)
Definition leave_as (w : reply) : prog proc Z :=
  if r_ret w =? -1 then exit_ EXIT_FAILURE
  else if WIFEXITED (out 0 w) then exit_ (WEXITSTATUS (out 0 w))
  else exit_ EXIT_FAILURE.

(** The process in its own user namespace: its child goes on to the sandbox. *)
Definition network_process (outer_uid outer_gid : Z) (rules : string) : prog proc Z :=
  r ← sys (Unshare CLONE_NEWUSER);
  if negb (r_ret r =? 0) then exit_ 0
  else
    _ ← WriteFile "/proc/self/uid_map" ("0 " +:+ to_string outer_uid +:+ " 1" +:+ String LF "");
    _ ← WriteFile "/proc/self/setgroups" "deny";
    _ ← WriteFile "/proc/self/gid_map" ("0 " +:+ to_string outer_gid +:+ " 1" +:+ String LF "");
    minitap_pid ← sys Fork;
    if r_ret minitap_pid =? 0 then
      tcp_p ← RunMinitap rules;
      j ← JoinNetNs tcp_p;
      if j <? 0 then exit_ 0 else mret 0
    else
      w ← sys (Waitpid (r_ret minitap_pid));
      leave_as w.

Definition RunTCPIP (outer_uid outer_gid : Z) (rules : string) : prog proc Z :=
  extern_pid ← sys Fork;
  if r_ret extern_pid =? 0 then network_process outer_uid outer_gid rules
  else
    w ← sys (Waitpid (r_ret extern_pid));
    if r_ret w =? -1 then exit_ EXIT_FAILURE
    else if WIFEXITED (out 0 w) then
      init_status ← MiniSbxReadInit;
      if init_status =? 0 then mret (-1) else exit_ (WEXITSTATUS (out 0 w))
    else
      _ ← Cleanup;
      exit_ EXIT_FAILURE.

End Minitap.

(** ** The wait as a step relation

    [while (signal_received == 0) pause();] against one signal that arrives at
    any time: reading the flag and calling pause are two steps. *)

Inductive wait_pc :=
| Testing      (* about to read the flag *)
| Calling      (* read 0, about to call pause *)
| Sleeping     (* in pause *)
| Returned.    (* out of the loop *)

Record wait_state := mkWait { pc : wait_pc; received : bool; sent : bool }.

Inductive wait_step : wait_state -> wait_state -> Prop :=
| step_leave b : wait_step (mkWait Testing true b) (mkWait Returned true b)
| step_test b : wait_step (mkWait Testing false b) (mkWait Calling false b)
| step_call r b : wait_step (mkWait Calling r b) (mkWait Sleeping r b)
| step_signal p r : p <> Sleeping -> wait_step (mkWait p r false) (mkWait p true true)
| step_wake r : wait_step (mkWait Sleeping r false) (mkWait Testing true true).

Definition wait_start : wait_state := mkWait Testing false false.
Definition reachable : wait_state -> Prop := rtc wait_step wait_start.

(** The flag says exactly that the signal was sent; the loop is left only then. *)
Definition wait_ok (s : wait_state) : Prop := received s = sent s /\ (pc s = Returned -> sent s = true).

Lemma wait_ok_step s s' : wait_ok s -> wait_step s s' -> wait_ok s'.
Proof. intros [H1 H2] Hs. destruct Hs; cbn in *; subst; split; cbn; auto; done. Qed.

Lemma reachable_ok s : reachable s -> wait_ok s.
Proof.
  intros H. unfold reachable in H. remember wait_start as s0.
  assert (wait_ok s0) as H0 by (by subst; split). clear Heqs0.
  induction H; [done|]. apply IHrtc. by eapply wait_ok_step.
Qed.

(** C33: waiting for minitap: in every interleaving the loop is left only after
    the signal was sent; but the signal can be lost: when it arrives between the
    test of the flag and the call of pause, the process sleeps for ever, in a
    reachable state without a step.  When it arrives at any other time, the
    loop can be left. *)
Theorem signal_can_be_lost :
  (forall s, reachable s -> pc s = Returned -> sent s = true) /\
  reachable (mkWait Sleeping true true) /\ (forall s, ~ wait_step (mkWait Sleeping true true) s) /\
  (forall s s', reachable s -> pc s <> Calling -> sent s = false -> wait_step s s' -> sent s' = true ->
     exists b, rtc wait_step s' (mkWait Returned true b)).
Proof.
  split; [intros s H; apply (reachable_ok s H)|]. split; [|split].
  - unfold reachable, wait_start.
    eapply rtc_l; [apply step_test|]. eapply rtc_l; [by apply step_signal|]. eapply rtc_l; [apply step_call|]. reflexivity.
  - intros s Hs. inversion Hs.
  - intros s s' Hr Hp Hs Hstep Hs'. pose proof (reachable_ok s Hr) as [Hok Hret].
    destruct Hstep as [b|b|r b|p r Hne|r]; cbn in *; try congruence.
    + destruct p; try done; [|by specialize (Hret eq_refl)].
      exists true. eapply rtc_l; [apply step_leave | reflexivity].
    + exists true. eapply rtc_l; [apply step_leave | reflexivity].
Qed.

(** ** Properties *)

Section Facts.
Context `{B : Build} `{N : Bound} `{K : Kernel}.

Lemma wait_for_signal_ok s s' : wait_for_signal s = (Ok tt, s') -> signal_received s' = true.
Proof.
  unfold wait_for_signal. generalize loop_bound as n. intros n. revert s.
  induction n as [|n IH]; intros s; cbn [loop]; [done|]. intros H.
  apply bind_inv_ok in H as (r & s1 & H1 & H). unfold gets, mbind, prog_bind in H1.
  destruct (signal_received s) eqn:E.
  - injection H1 as <- <-. by injection H as <-.
  - destruct (sys Pause s) as [[q|w] s2] eqn:Es; [|done].
    destruct (when (out 0 q =? SIGUSR1) handler s2) as [[[]|w] s3]; [|done]. injection H1 as <- <-. by eapply IH.
Qed.

(** When the namespace was joined. *)
Lemma JoinNetNs_ok p s s' j :
  JoinNetNs p s = (Ok j, s') -> 0 <= j ->
  exists o r c, trace s' = (Close (r_ret o), c) :: (Setns (r_ret o) CLONE_NEWNET, r) ::
      (Open ("/proc/" +:+ to_string p +:+ "/ns/net") O_RDONLY 0, o) :: trace s /\
    r_ret o <> -1 /\ r_ret r <> -1 /\ failed c = false /\ signal_received s' = signal_received s.
Proof.
  unfold JoinNetNs, sys. unfold mbind at 1, prog_bind at 1. destruct (ksys (kern s) _) as [o k1].
  destruct (Z.eqb_spec (r_ret o) (-1)); [intros [= <- <-]; lia|].
  unfold mbind at 1, prog_bind at 1. cbn [kern map_field set_kern set_trace]. destruct (ksys k1 _) as [r k2].
  unfold mbind, prog_bind. destruct (Z.eqb_spec (r_ret r) (-1)); cbn [kern map_field set_kern set_trace];
    destruct (ksys k2 _) as [c k3]; [intros [= <- <-]; lia|].
  destruct (failed c) eqn:Ec; intros [= <- <-]; [lia|]. intros _. by exists o, r, c.
Qed.

Lemma RunMinitap_ok rules s p s' : RunMinitap rules s = (Ok p, s') -> signal_received s' = true.
Proof.
  unfold RunMinitap. intros H. apply bind_inv_ok in H as (r0 & s1 & _ & H).
  apply bind_inv_ok in H as (r1 & s2 & _ & H). apply bind_inv_ok in H as (r2 & s3 & _ & H).
  apply bind_inv_ok in H as (r3 & s4 & _ & H). apply bind_inv_ok in H as (f & s5 & _ & H).
  destruct (r_ret f =? 0).
  - apply bind_inv_ok in H as (e & s6 & _ & H). destruct (failed e); [|done].
    apply bind_inv_ok in H as (? & ? & _ & H). by apply bind_inv_ok in H as (? & ? & _ & H).
  - apply bind_inv_ok in H as ([] & s6 & Hw & H). injection H as _ <-. by apply wait_for_signal_ok in Hw.
Qed.

Lemma leave_as_stops w s z s' : leave_as w s <> (Ok z, s').
Proof. unfold leave_as. destruct (r_ret w =? -1); [done|]. by destruct (WIFEXITED _). Qed.

End Facts.

Section Properties.
Context `{B : Build} `{N : Bound} `{K : Kernel}.

(** RunTCPIP lets a process go on with the sandbox only inside the network
    namespace of another: when it returns 0, the last three calls of the process
    opened, joined and closed /proc/<p>/ns/net of some p, each successfully, and
    the signal of minitap, or of its failed start, had been received. *)
Theorem RunTCPIP_joined uid gid rules s s' :
  RunTCPIP uid gid rules s = (Ok 0, s') ->
  exists p o r c t, trace s' = (Close (r_ret o), c) :: (Setns (r_ret o) CLONE_NEWNET, r) ::
      (Open ("/proc/" +:+ to_string p +:+ "/ns/net") O_RDONLY 0, o) :: t /\
    r_ret o <> -1 /\ r_ret r <> -1 /\ failed c = false /\ signal_received s' = true.
Proof.
  unfold RunTCPIP. intros H. apply bind_inv_ok in H as (f & s1 & _ & H). destruct (r_ret f =? 0).
  2:{ apply bind_inv_ok in H as (w & s2 & _ & H). destruct (r_ret w =? -1); [done|]. destruct (WIFEXITED _).
      - apply bind_inv_ok in H as (i & s3 & _ & H). by destruct (i =? 0).
      - by apply bind_inv_ok in H as (? & ? & _ & H). }
  unfold network_process in H. apply bind_inv_ok in H as (u & s2 & _ & H). destruct (negb _); [done|].
  apply bind_inv_ok in H as ([] & s3 & _ & H). apply bind_inv_ok in H as ([] & s4 & _ & H).
  apply bind_inv_ok in H as ([] & s5 & _ & H). apply bind_inv_ok in H as (m & s6 & _ & H). destruct (r_ret m =? 0).
  - apply bind_inv_ok in H as (p & s7 & Hp & H). apply bind_inv_ok in H as (j & s8 & Hj & H).
    destruct (Z.ltb_spec j 0); [done|]. injection H as <-. apply RunMinitap_ok in Hp.
    apply JoinNetNs_ok in Hj as (o & r & c & Ht & H1 & H2 & H3 & H4); [|done].
    exists p, o, r, c, (trace s7). do 4 (split; [done|]). by rewrite H4.
  - apply bind_inv_ok in H as (w & s7 & _ & H). by apply leave_as_stops in H.
Qed.

End Properties.

(** ** Witnesses *)

(** Forks that give 0, 0 and 9, and the signal at the first pause. *)
Definition tap_sim : sim :=
  empty_sim <| sim_script := [ret_reply 0; ret_reply 0] ++ replicate 6 (ret_reply 0) ++
    [ret_reply 0; ret_reply 0; ret_reply 9; mkReply (-1) EINTR [SIGUSR1] ""; ret_reply 4; ok_reply; ok_reply] |>.
Definition tap_proc : proc (H := SimKernel) := sim_proc tap_sim.
Definition tap_end : proc (H := SimKernel) :=
  final (RunTCPIP (B := cli_tap_build) (N := some_bound) (K := SimKernel) 1000 1000 "/tmp/1.rules") tap_proc.

Lemma RunTCPIP_joined_witness : signal_received tap_end = true.
Proof.
  destruct (RunTCPIP_joined (B := cli_tap_build) (N := some_bound) (K := SimKernel) 1000 1000 "/tmp/1.rules"
    tap_proc tap_end) as (p & o & r & c & t & _ & _ & _ & _ & H).
  - vm_compute. reflexivity.
  - exact H.
Defined.
