(* ===== verification/TapLaunch.v ===== *)
(** * What the start of minitap executes (minitap-interface.cc)

    In the tap builds a second program is executed before the command: minitap.
    The functions of minitap-interface.cc execute nothing else, and a process
    that goes on after them with the sandbox executed nothing itself, owns a user
    namespace and joined a network namespace. *)

From S2P Require Import Prelude Monad CxxString FsPath Firewall Kernel SimKernel State Fs Errors ProcessTools OptionsApi Rules Api Mounts Pid1 Minitap.
From Stdlib Require Import Ascii.
Open Scope sbx_scope.
Open Scope Z_scope.

Section Launch.
Context `{B : Build} `{N : Bound} `{K : Kernel}.

(** Minitap is executed with one argument, the file of the rules, before
    anything else is executed; when that fails the process sends its parent the
    signal, and makes no other call. *)
Definition executes_minitap (pre : list (syscall * reply)) (f : string) (argv : list string) (r : reply)
    (t : list (syscall * reply)) : Prop :=
  (exists rules, argv = [f; rules]) /\ quiet t /\ (pre = [] \/ failed r = true /\ exists p k, pre = [(Kill p SIGUSR1, k)]).

Definition minitap_ran (t : list (syscall * reply)) : Prop :=
  exists pre f argv r t', t = pre ++ (Execvp f argv, r) :: t' /\ executes_minitap pre f argv r t'.

(** It is the only execution. *)
Lemma executes_minitap_only pre f argv r t t1 f' argv' r' t2 :
  executes_minitap pre f argv r t -> t1 ++ (Execvp f' argv', r') :: t2 = pre ++ (Execvp f argv, r) :: t ->
  executes_minitap t1 f' argv' r' t2.
Proof.
  intros (Hr & Hq & Hp) H. assert (t1 = pre /\ t2 = t) as [-> ->].
  { destruct Hp as [->|(_ & p & k & ->)]; [by apply (quiet_exec _ (Execvp f' argv') _ _ _ _ _ Hq eq_refl H)|].
    destruct t1 as [|e t1]; [done|]. injection H as -> H.
    by destruct (quiet_exec _ (Execvp f' argv') _ _ _ _ _ Hq eq_refl H) as [-> ->]. }
  apply app_inv_head in H. by injection H as -> -> ->.
Qed.

(** Every way on is without an execution; a stop may come after that of minitap. *)
Definition guarded {A} (m : prog proc A) : Prop :=
  forall s, quiet (trace s) ->
  match m s with
  | (Ok _, s') => follows s s'
  | (Stop _, s') => quiet (trace s') \/ minitap_ran (trace s')
  end.

Lemma guarded_follows {A} (m : prog proc A) : respects follows m -> guarded m.
Proof.
  intros Hm s Hq. specialize (Hm s). unfold final in Hm. destruct (m s) as [[a|w] s'] eqn:E; [done|].
  left. by eapply quiet_after.
Qed.

Lemma guarded_bind {A C} (m : prog proc A) (f : A -> prog proc C) :
  guarded m -> (forall a, guarded (f a)) -> guarded (m ≫= f).
Proof.
  intros Hm Hf s Hq. specialize (Hm s Hq). destruct (m s) as [[a|w] s1] eqn:E.
  - rewrite (bind_ok _ _ _ _ _ E). specialize (Hf a s1 (quiet_after _ _ Hm Hq)).
    destruct (f a s1) as [[c|w] s2]; [by transitivity s1 | done].
  - by rewrite (bind_stop _ _ _ _ _ E).
Qed.

Lemma guarded_ok {A} (m : prog proc A) s a s' : guarded m -> quiet (trace s) -> m s = (Ok a, s') -> follows s s'.
Proof. intros Hm Hq E. specialize (Hm s Hq). by rewrite E in Hm. Qed.

Lemma guarded_cases {A C} (m : prog proc A) (f : A -> prog proc C) s (Q : outcome C * proc -> Prop) :
  quiet (trace s) -> guarded m ->
  (forall a s1, m s = (Ok a, s1) -> follows s s1 -> quiet (trace s1) -> Q (f a s1)) ->
  (forall w s1, quiet (trace s1) \/ minitap_ran (trace s1) -> Q (Stop w, s1)) -> Q ((m ≫= f) s).
Proof.
  intros Hq Hm Hok Hstop. specialize (Hm s Hq). destruct (m s) as [[a|w] s1] eqn:E.
  - rewrite (bind_ok _ _ _ _ _ E). apply Hok; [done | done | by eapply quiet_after].
  - rewrite (bind_stop _ _ _ _ _ E). by apply Hstop.
Qed.

(** ** The parts that execute nothing *)

Ltac tap_leaf :=
  first
  [ solve [eauto 1 with follows nocore]
  | lazymatch goal with
    | |- respects _ (fs_exists _) => apply respects_fs_exists; apply _
    | |- respects _ (fs_is_symlink_ec _) => apply respects_fs_is_symlink_ec; apply _
    | |- respects _ Cleanup => apply respects_Cleanup; [apply _ | intros; by apply follows_sys | intros; by apply follows_sys]
    end
  | follow_leaf
  | respects_step ].
Ltac tap := repeat tap_leaf.

Lemma follows_GetMinitapBinDir : respects follows GetMinitapBinDir.
Proof. unfold GetMinitapBinDir, GetSharedObjectPath, ResolveSymlink, LocateBinaryFromParent, set_MinitapBin. tap. Qed.

Lemma follows_wait_for_signal : respects follows wait_for_signal.
Proof. unfold wait_for_signal, handler. tap. Qed.

Lemma follows_JoinNetNs p : respects follows (JoinNetNs p).
Proof. unfold JoinNetNs. tap. Qed.

Lemma follows_leave_as w : respects follows (leave_as w).
Proof. unfold leave_as. tap. Qed.

Lemma follows_CreateRandomFilename p : respects follows (CreateRandomFilename p).
Proof. unfold CreateRandomFilename, random_id. tap. Qed.

Lemma follows_DumpRules fw p : respects follows (DumpRules fw p).
Proof. unfold DumpRules. tap. Qed.

(** ** The execution of minitap *)

Lemma guarded_exec bin rules :
  guarded (e ← sys (Execvp bin [bin; rules]);
           if failed e then parent ← query kppid; _ ← sys (Kill parent SIGUSR1); exit_ (-1)
           else stop_with Execed : prog proc Z).
Proof.
  intros s Hq. unfold sys, query, gets, mbind, prog_bind. destruct (ksys (kern s) (Execvp bin [bin; rules])) as [e k1].
  cbn [kern map_field set_kern set_trace]. destruct (failed e) eqn:Ee.
  - cbn. destruct (ksys k1 (Kill (kppid k1) SIGUSR1)) as [q k2]. right.
    exists [(Kill (kppid k1) SIGUSR1, q)], bin, [bin; rules], e, (trace s). split; [reflexivity|].
    split; [by exists rules|]. split; [done|]. right. split; [done|]. by exists (kppid k1), q.
  - cbn. right. exists [], bin, [bin; rules], e, (trace s). split; [reflexivity|].
    split; [by exists rules|]. split; [done | by left].
Qed.

Lemma guarded_RunMinitap rules : guarded (RunMinitap rules).
Proof.
  unfold RunMinitap. do 5 (apply guarded_bind; [apply guarded_follows; tap; apply follows_GetMinitapBinDir | intros ?]).
  destruct (r_ret _ =? 0); [apply guarded_exec | apply guarded_follows].
  apply respects_bind; [apply _ | apply follows_wait_for_signal | intros _; tap].
Qed.

Lemma guarded_network_process uid gid rules : guarded (network_process uid gid rules).
Proof.
  unfold network_process. apply guarded_bind; [apply guarded_follows; tap | intros r].
  destruct (negb _); [apply guarded_follows; tap|].
  do 4 (apply guarded_bind; [apply guarded_follows; tap | intros ?]).
  destruct (r_ret _ =? 0).
  - apply guarded_bind; [apply guarded_RunMinitap | intros p]. apply guarded_follows.
    apply respects_bind; [apply _ | apply follows_JoinNetNs | intros j; tap].
  - apply guarded_follows. apply respects_bind; [apply _ | tap | intros w; apply follows_leave_as].
Qed.

Lemma guarded_RunTCPIP uid gid rules : guarded (RunTCPIP uid gid rules).
Proof.
  unfold RunTCPIP. apply guarded_bind; [apply guarded_follows; tap | intros p].
  destruct (r_ret p =? 0); [apply guarded_network_process | apply guarded_follows].
  unfold MiniSbxReadInit. tap.
Qed.

(** ** The process that goes on *)

(** A failed call of the C library returns -1. *)
Definition libc_errors : Prop := forall (k : kstate) c, -1 <= r_ret (ksys k c).1.

(** The calls that put the process in its network, newest first. *)
Definition network_calls (fd : Z) : list syscall := [Setns fd CLONE_NEWNET; Unshare CLONE_NEWUSER].

Lemma adds_sys c s r s' : sys c s = (Ok r, s') -> failed r = false -> adds [c] s s'.
Proof.
  unfold sys. destruct (ksys (kern s) c) as [q k]. intros [= -> <-] Hr. split; [|done].
  exists [(c, r)]. split; [done|]. apply did_cons; [done | apply did_nil].
Qed.

Lemma adds_guarded {A} (m : prog proc A) a s s' : guarded m -> quiet (trace s) -> m s = (Ok a, s') -> adds [] s s'.
Proof. intros Hm Hq E. apply adds_follows. by eapply guarded_ok. Qed.

Lemma adds_after cs s s1 s2 : follows s s1 -> adds cs s1 s2 -> adds cs s s2.
Proof. intros H H'. rewrite <- (app_nil_r cs). by eapply adds_trans; [apply adds_follows|]. Qed.

(** The first part of a computation that returned. *)
Lemma guarded_inv {A C} (m : prog proc A) (f : A -> prog proc C) s c s' :
  guarded m -> quiet (trace s) -> (m ≫= f) s = (Ok c, s') ->
  exists a s1, m s = (Ok a, s1) /\ f a s1 = (Ok c, s') /\ follows s s1 /\ quiet (trace s1).
Proof.
  intros Hm Hq H. apply bind_inv_ok in H as (a & s1 & E & H). pose proof (guarded_ok _ _ _ _ Hm Hq E) as Hf.
  exists a, s1. do 3 (split; [done|]). by eapply quiet_after.
Qed.

Lemma JoinNetNs_adds p s s' j :
  libc_errors -> quiet (trace s) -> JoinNetNs p s = (Ok j, s') -> 0 <= j -> exists fd, adds [Setns fd CLONE_NEWNET] s s'.
Proof.
  intros Hlibc Hq H Hj. unfold JoinNetNs in H.
  apply guarded_inv in H as (o & s1 & _ & H & F1 & Q1); [|apply guarded_follows; tap | done].
  destruct (r_ret o =? -1); [injection H as <- _; lia|].
  apply guarded_inv in H as (r & s2 & E2 & H & _ & Q2); [|apply guarded_follows; tap | done].
  assert (-1 <= r_ret r) as Hr.
  { specialize (Hlibc (kern s1) (Setns (r_ret o) CLONE_NEWNET)). unfold sys in E2. destruct (ksys _ _) as [q k].
    by injection E2 as <- _. }
  destruct (Z.eqb_spec (r_ret r) (-1)).
  { apply bind_inv_ok in H as (? & ? & _ & H). injection H as <- _. lia. }
  apply guarded_inv in H as (c & s3 & _ & H & F3 & _); [|apply guarded_follows; tap | done]. injection H as _ <-.
  exists (r_ret o). eapply adds_after; [exact F1|].
  eapply (adds_trans [_] []); [eapply adds_sys; [exact E2 | unfold failed; lia] | by apply adds_follows].
Qed.

Lemma network_process_adds uid gid rules s s' z :
  libc_errors -> quiet (trace s) -> network_process uid gid rules s = (Ok z, s') -> exists fd, adds (network_calls fd) s s'.
Proof.
  intros Hlibc Hq H. unfold network_process in H.
  apply guarded_inv in H as (u & s1 & E1 & H & _ & Q1); [|apply guarded_follows; tap | done].
  destruct (Z.eqb_spec (r_ret u) 0) as [Hu|]; [|done]. cbn [negb] in H.
  enough (exists fd, adds [Setns fd CLONE_NEWNET] s1 s') as [fd Hfd].
  { exists fd. refine (adds_trans [_] [_] _ _ _ _ Hfd). eapply adds_sys; [exact E1 | unfold failed; by rewrite Hu]. }
  clear E1 Hq Hu.
  apply guarded_inv in H as ([] & s2 & _ & H & F2 & Q2); [|apply guarded_follows; tap | done].
  apply guarded_inv in H as ([] & s3 & _ & H & F3 & Q3); [|apply guarded_follows; tap | done].
  apply guarded_inv in H as ([] & s4 & _ & H & F4 & Q4); [|apply guarded_follows; tap | done].
  apply guarded_inv in H as (m & s5 & _ & H & F5 & Q5); [|apply guarded_follows; tap | done].
  assert (follows s1 s5) as F by (do 3 (etransitivity; [eassumption|]); exact F5).
  destruct (r_ret m =? 0).
  2:{ apply bind_inv_ok in H as (w & s6 & _ & H). by apply leave_as_stops in H. }
  apply guarded_inv in H as (p & s6 & _ & H & F6 & Q6); [|apply guarded_RunMinitap | done].
  apply bind_inv_ok in H as (j & s7 & Hj & H). destruct (Z.ltb_spec j 0); [done|]. injection H as _ <-.
  apply JoinNetNs_adds in Hj as [fd Hfd]; [|done..]. exists fd. eapply adds_after; [|exact Hfd]. by transitivity s5.
Qed.

(** The process that goes on with the sandbox has its own user namespace and
    joined the network namespace of another process. *)
Lemma RunTCPIP_adds uid gid rules s s' z :
  libc_errors -> quiet (trace s) -> RunTCPIP uid gid rules s = (Ok z, s') -> 0 <= z -> exists fd, adds (network_calls fd) s s'.
Proof.
  intros Hlibc Hq H Hz. unfold RunTCPIP in H.
  apply guarded_inv in H as (p & s1 & _ & H & F1 & Q1); [|apply guarded_follows; tap | done]. destruct (r_ret p =? 0).
  - apply network_process_adds in H as [fd Hfd]; [|done..]. exists fd. by eapply adds_after.
  - apply bind_inv_ok in H as (w & s2 & _ & H). destruct (r_ret w =? -1); [done|]. destruct (WIFEXITED _).
    + apply bind_inv_ok in H as (i & s3 & _ & H). destruct (i =? 0); [injection H as <- _; lia | done].
    + by apply bind_inv_ok in H as (? & ? & _ & H).
Qed.

End Launch.

#[export] Hint Resolve follows_GetMinitapBinDir follows_wait_for_signal follows_JoinNetNs follows_leave_as
  follows_CreateRandomFilename follows_DumpRules : follows.
