(* ===== verification/Start.v ===== *)
(** * Starting the sandbox (linux-sandbox.cc, linux-sandbox-main.cc)

    The handler of time-outs, the descriptors that are closed, the process with
    fresh namespaces, the wait for it, the checks of the options, [MiniSbxStart]
    and [main]. *)

From S2P Require Import Prelude Monad CxxString FsPath Firewall Kernel SimKernel State Fs Errors ProcessTools OptionsApi Rules Api CommandLine Mounts Pid1 Docker Minitap TapLaunch.
From Stdlib Require Import Ascii.
Open Scope sbx_scope.
Open Scope Z_scope.

Definition ETC : string := "/etc".
Definition STDERR_FILENO : Z := 2.
Definition LONG_MAX : Z := 2 ^ 63 - 1.

(** The descriptor a name in /proc/self/fd stands for: it starts with a digit,
    and [strtol] does not report a range error; the value is cut to an [int]. *)
Definition fd_of_name (name : string) : option Z :=
  match chars name with
  | c :: _ =>
      if isdigit c then
        match scan_int (chars name) with
        | Some (v, _) => if v <=? LONG_MAX then Some ((v + 2 ^ 31) mod 2 ^ 32 - 2 ^ 31) else None
        | None => None
        end
      else None
  | [] => None
  end.

(** The flags of [clone] or [unshare]. *)
Definition clone_flags `{Build} (o : Options) : Z :=
  let flags := Z.lor CLONE_NEWUSER (Z.lor CLONE_NEWNS (Z.lor CLONE_NEWIPC CLONE_NEWPID)) in
  let flags := if LIBMINISANDBOX then flags else Z.lor flags SIGCHLD in
  let flags := if decide (create_netns o = NO_NETNS) then flags else Z.lor flags CLONE_NEWNET in
  if fake_hostname o then Z.lor flags CLONE_NEWUTS else flags.

Section Start.
Context `{B : Build} `{N : Bound} `{K : Kernel}.

(** ** The command-line program *)

Definition close_if_left (log : option Z) (dirfd : Z) (name : string) : prog proc unit :=
  match fd_of_name name with
  | None => mret tt
  | Some fd =>
      if (STDERR_FILENO <? fd) && negb (bool_decide (log = Some fd)) && negb (fd =? dirfd) then
        c ← sys (Close fd);
        if failed c then _ ← MiniSbxReportGenericError "CloseFds" 147 "close"; mret tt else mret tt
      else mret tt
  end.

Definition CloseFds : prog proc unit :=
  fds ← sys (Open "/proc/self/fd" O_RDONLY 0);
  _ ← (if failed fds then MiniSbxReportGenericError "CloseFds" 122 "opendir" else mret 0);
  entries ← query (fun k => kreaddir k "/proc/self/fd");
  log ← gets global_debug;
  _ ← match entries with
      | inr names => for_each names (close_if_left log (r_ret fds))
      | inl _ => _ ← MiniSbxReportGenericError "CloseFds" 131 "readdir"; mret tt
      end;
  c ← sys (Close (r_ret fds));
  if failed c then _ ← MiniSbxReportGenericError "CloseFds" 154 "closedir"; mret tt else mret tt.

(** The handler of SIGALRM, SIGTERM and SIGINT. *)
Definition OnTimeoutOrTerm : prog proc unit :=
  child_pid ← gets main_child_pid;
  polite ← gets need_polite_sigterm;
  _ ← modify (fun s => s <| need_polite_sigterm := 0 |>);
  if polite =? 0 then _ ← sys (Kill child_pid SIGKILL); mret tt
  else
    _ ← sys (Kill child_pid SIGTERM);
    secs ← get_opt kill_delay_secs;
    _ ← sys (Alarm secs);
    mret tt.

(** ** The process with fresh namespaces *)

Definition pipe_of (r : reply) : Z * Z := (out 0 r, out 1 r).

(** The side of the parent: the handshake over the pipes. *)
Definition greet_child (pipe_from_child pipe_to_child : Z * Z) (child_pid : Z) : prog proc Z :=
  res ← SignalPipe pipe_to_child false;
  if res <? 0 then _ ← KillAndWait child_pid; mret res
  else
    res ← WaitPipe pipe_from_child false;
    if res <? 0 then _ ← KillAndWait child_pid; mret res
    else mret child_pid.

Definition SpawnPid1 : prog proc Z :=
  p1 ← sys Pipe;
  if failed p1 then MiniSbxReportGenericError "SpawnPid1" 194 "pipe"
  else
    p2 ← sys Pipe;
    if failed p2 then MiniSbxReportGenericError "SpawnPid1" 197 "pipe"
    else
      let pipe_from_child := pipe_of p1 in
      let pipe_to_child := pipe_of p2 in
      flags ← get_opt clone_flags;
      if LIBMINISANDBOX then
        u ← sys (Unshare flags);
        _ ← (if failed u then MiniSbxReportGenericError "SpawnPid1" 225 ("unshare failed" +:+ String LF "") else mret 0);
        f ← sys Fork;
        _ ← (if failed f then MiniSbxReportGenericError "SpawnPid1" 234 "clone" else mret 0);
        if r_ret f =? 0 then
          sandbox_res ← Pid1Main pipe_from_child pipe_to_child;
          _ ← (if sandbox_res <? 0 then MiniSbxReportGenericError "SpawnPid1" 242 ("Failed in Pid1Main" +:+ String LF "")
               else mret 0);
          mret 0
        else greet_child pipe_from_child pipe_to_child (r_ret f)
      else
        c ← sys (Clone flags);
        if r_ret c =? 0 then code ← Pid1Main pipe_from_child pipe_to_child; exit_ code
        else
          _ ← (if failed c then MiniSbxReportGenericError "SpawnPid1" 234 "clone" else mret 0);
          greet_child pipe_from_child pipe_to_child (r_ret c).

(** [None] when the status was never written: the process was handed to
    another parent.  Reading it then is undefined. *)
Definition wait_pid1 (child_pid : Z) : prog proc (option Z) :=
  loop loop_bound (
    r ← sys (Wait4 child_pid);
    if 0 <? r_ret r then mret (Some (Some (out 0 r)))
    else
      parent ← query kppid;
      initial ← gets initial_ppid;
      if negb (parent =? initial) then mret (Some None)
      else if decide (r_errno r = EINTR) then mret None
      else _ ← MiniSbxReportGenericError "WaitForPid1" 301 "wait4"; mret None).

Definition WaitForPid1 (child_pid : Z) : prog proc Z :=
  status ← wait_pid1 child_pid;
  match status with
  | Some child_status => mret (exit_status child_status)
  | None => stop_with UndefinedBehaviour
  end.

(** ** The options *)

Definition check_writable (o : Options) (writable_file : string) : prog proc (option Z) :=
  if use_overlayfs o then
    r ← ValidateOverlayOutOfFolder (tmp_overlayfs o) writable_file;
    if r <? 0 then Some <$> MiniSbxReportError "ValidateOptions" 339 IllegalConfiguration else mret None
  else mret None.

Definition ValidateOptions : prog proc Z :=
  o ← get_opt id;
  r1 ← (if use_overlayfs o then ValidateOverlayOutOfFolder (tmp_overlayfs o) (working_dir o) else mret 0);
  if r1 <? 0 then MiniSbxReportError "ValidateOptions" 325 IllegalConfiguration
  else
    r2 ← (if hermetic o then ValidateOverlayOutOfFolder (sandbox_root o) (working_dir o) else mret 0);
    if r2 <? 0 then MiniSbxReportError "ValidateOptions" 330 IllegalConfiguration
    else if ValidateReadWritePaths (bind_mount_sources o) (writable_files o) <? 0 then
      MiniSbxReportError "ValidateOptions" 334 FileReadAndWrite
    else
      mode ← gets docker_mode;
      r3 ← (if decide (mode = PRIVILEGED_CONTAINER) then mret None
            else for_return (writable_files o) (check_writable o));
      match r3 with
      | Some z => mret z
      | None =>
          if ValidateTmpNotRemounted o (writable_files o) <? 0 then
            MiniSbxReportError "ValidateOptions" 352 TmpNotRemounted
          else if ValidateTmpNotRemounted o (bind_mount_sources o) <? 0 then
            MiniSbxReportError "ValidateOptions" 355 TmpNotRemounted
          else mret 0
      end.

Definition StartLogging : prog proc Z :=
  path ← get_opt debug_path;
  if empty path then mret 0
  else
    f ← sys (Open path (Z.lor O_WRONLY (Z.lor O_CREAT O_TRUNC)) 438);
    if failed f then
      _ ← modify (fun s => s <| global_debug := None |>);
      MiniSbxReportGenericError "StartLogging" 367 ("fopen(" +:+ path +:+ ") failed")
    else
      _ ← modify (fun s => s <| global_debug := Some (r_ret f) |>);
      mret 0.

(** ** Starting *)

Definition MiniSbxIsNestedSandbox : prog proc bool := v ← MiniSbxGetInternalEnv; mret (v =? 0).

Definition MiniSbxIsRunning : prog proc bool :=
  running ← get_opt is_running;
  if decide (running = NOT_RUNNING) then MiniSbxIsNestedSandbox else mret true.

(** The working directory, when none was configured. *)
Definition default_working_dir : prog proc bool :=
  wd ← get_opt working_dir;
  if empty wd then
    cwd ← query kcwd;
    match cwd with
    | inl _ => mret false
    | inr dir => _ ← mod_opt (fun o => o <| working_dir := dir |>); mret true
    end
  else mret true.

(** The process that is the parent of the first process of the sandbox: what
    the signal handlers need to know. *)
Definition arm_handlers (child_pid : Z) : prog proc unit :=
  _ ← modify (fun s => s <| main_child_pid := child_pid |>);
  o ← get_opt id;
  _ ← when (0 <? kill_delay_secs o) (modify (fun s => s <| need_polite_sigterm := 1 |>));
  when (negb LIBMINISANDBOX)
    (_ ← InstallSignalHandler SIGALRM (Handler "OnTimeoutOrTerm");
     _ ← when (0 <? timeout_secs o) (_ ← sys (Alarm (timeout_secs o)); mret tt);
     _ ← InstallSignalHandler SIGTERM (Handler "OnTimeoutOrTerm");
     when (sigint_sends_sigterm o) (InstallSignalHandler SIGINT (Handler "OnTimeoutOrTerm"))).

(** The library: the caller's process, an intermediate one, and the sandbox. *)
Definition start_library : prog proc Z :=
  pid ← sys Fork;
  if failed pid then exit_ (-1)
  else if r_ret pid =? 0 then
    child_pid ← SpawnPid1;
    if child_pid <? 0 then exit_ (-1)
    else if child_pid =? 0 then mret 0
    else
      _ ← arm_handlers child_pid;
      w ← sys (Waitpid child_pid);
      leave_as w
  else
    w ← sys (Waitpid (r_ret pid));
    if r_ret w =? -1 then _ ← Cleanup; exit_ EXIT_FAILURE
    else if WIFEXITED (out 0 w) then
      init_status ← MiniSbxReadInit;
      _ ← Cleanup;
      if init_status =? 0 then
        _ ← mod_opt (fun o => o <| is_running := FAILED |>);
        if MINITAP then exit_ 0 else mret (-1)
      else exit_ (WEXITSTATUS (out 0 w))
    else
      _ ← Cleanup;
      exit_ EXIT_FAILURE.

Definition start_program : prog proc Z :=
  child_pid ← SpawnPid1;
  if child_pid <? 0 then exit_ (-1)
  else
    _ ← arm_handlers child_pid;
    exit_res ← WaitForPid1 child_pid;
    _ ← Cleanup;
    mret exit_res.

(** The network of the tap builds, before the descriptors are closed. *)
Definition start_network (uid gid : Z) : prog proc Z :=
  if MINITAP then
    rules ← CreateRandomFilename "/tmp";
    fw ← get_opt fw_rules;
    _ ← DumpRules fw rules;
    res ← RunTCPIP uid gid rules;
    if res <? 0 then mret res
    else _ ← mod_opt (fun o => o <| create_netns := NO_NETNS |>); mret 0
  else mret 0.

(** Behind the checks: the signals, the ids, the network and the sandbox. *)
Definition launch : prog proc Z :=
  _ ← when (negb LIBMINISANDBOX)
        (_ ← ClearSignalMask;
         _ ← IgnoreSignal SIGTTIN;
         _ ← IgnoreSignal SIGTTOU;
         parent ← query kppid;
         modify (fun s => s <| initial_ppid := parent |>));
  uid ← query kuid;
  gid ← query kgid;
  _ ← modify (fun s => s <| global_outer_uid := uid |> <| global_outer_gid := gid |>);
  res ← start_network uid gid;
  if res <? 0 then mret res
  else if LIBMINISANDBOX then start_library
  else _ ← CloseFds; start_program.

(** The modes of a container, then the checks of the options. *)
Definition start_checked : prog proc Z :=
  mode ← gets docker_mode;
  _ ← (if decide (mode = PRIVILEGED_CONTAINER) then MiniSbxMountBind ETC else mret 0);
  res ← ValidateOptions;
  if res <? 0 then mret res
  else
    res ← MiniSbxCreateInit;
    if res <? 0 then mret res else launch.

Definition start_sandbox : prog proc Z :=
  nested ← MiniSbxGetInternalEnv;
  if LIBMINISANDBOX && (nested =? 0) then MiniSbxReportError "MiniSbxStart" 410 NestedSandbox
  else
    _ ← when (nested =? 0) (SpawnChild true);
    mode ← gets docker_mode;
    if decide (mode = UNPRIVILEGED_CONTAINER) then
      _ ← DropCapabilities;
      if LIBMINISANDBOX then mret 0 else _ ← SpawnChild false; start_checked
    else start_checked.

Definition MiniSbxStart : prog proc Z :=
  running ← get_opt is_running;
  if negb (bool_decide (running = NOT_RUNNING)) then
    _ ← MiniSbxReportError "MiniSbxStart" 376 SandboxAlreadyStarted; mret (-1)
  else
    res ← StartLogging;
    if res <? 0 then mret res
    else
      log ← gets global_debug;
      _ ← match log with Some _ => UserNamespaceSupported | None => mret true end;
      _ ← when LIBMINISANDBOX (mode ← CheckDockerMode; modify (fun s => s <| docker_mode := mode |>));
      r ← sys (Prctl PR_SET_PDEATHSIG SIGKILL);
      _ ← (if failed r then MiniSbxReportGenericError "MiniSbxStart" 392 "prctl" else mret 0);
      has_dir ← default_working_dir;
      if has_dir : bool then start_sandbox else mret (-1).

(** [main]: the exit status of the program. *)
Definition main (argv : list string) : prog proc Z :=
  mode ← CheckDockerMode;
  _ ← modify (fun s => s <| docker_mode := mode |>);
  _ ← ParseOptions argv;
  MiniSbxStart.

End Start.

(** ** Frames *)

Section StartFollows.
Context `{B : Build} `{N : Bound} `{K : Kernel}.

Ltac start_leaf :=
  first
  [ solve [eauto 1 with follows nocore]
  | lazymatch goal with
    | |- respects _ (MiniSbxReportError _ _ _) => apply frame_error; [apply _ | apply follows_config | apply follows_error]
    | |- respects _ (ValidateOverlayOutOfFolder _ _) => apply frame_ValidateOverlayOutOfFolder; apply _
    | |- respects _ (CreateDirectories _) => apply frame_CreateDirectories; [apply _ | apply follows_config | apply follows_error]
    | |- respects _ Cleanup => apply respects_Cleanup; [apply _ | intros; by apply follows_sys | intros; by apply follows_sys]
    | |- respects _ (fs_exists_ec _) => apply respects_fs_exists_ec; apply _
    end
  | follow_leaf
  | respects_step ].
Ltac start := repeat start_leaf.

Lemma follows_CloseFds : respects follows CloseFds.
Proof. unfold CloseFds, close_if_left. start. Qed.

Lemma follows_UserNamespaceSupported : respects follows UserNamespaceSupported.
Proof. unfold UserNamespaceSupported, HasUserNamespaceSupport, CanCreateUserNamespace, waitpid_retry. start. Qed.

Lemma follows_ValidateOptions : respects follows ValidateOptions.
Proof. unfold ValidateOptions, check_writable. start. Qed.

Lemma follows_StartLogging : respects follows StartLogging.
Proof. unfold StartLogging. start. Qed.

Lemma follows_CreateInit : respects follows MiniSbxCreateInit.
Proof. unfold MiniSbxCreateInit. start. Qed.

Lemma follows_greet a b c : respects follows (greet_child a b c).
Proof. unfold greet_child, KillAndWait. start. Qed.

Lemma follows_arm c : respects follows (arm_handlers c).
Proof. unfold arm_handlers, InstallSignalHandler. start. Qed.

Lemma follows_WaitForPid1 c : respects follows (WaitForPid1 c).
Proof. unfold WaitForPid1, wait_pid1. start. Qed.

End StartFollows.

#[export] Hint Resolve follows_CloseFds follows_UserNamespaceSupported follows_ValidateOptions follows_StartLogging
  follows_CreateInit follows_greet follows_arm follows_WaitForPid1 : follows.

(** ** What precedes the command *)

Section Launch.
Context `{B : Build} `{N : Bound} `{K : Kernel}.

(** One of the ends of the program: nothing or minitap was executed, or
    [exec_ends] with calls that are described. *)
Definition launch_ends (argv : list string) (P : list syscall -> Prop) (t : list (syscall * reply)) : Prop :=
  quiet t \/ (MINITAP = true /\ minitap_ran t) \/ exists cs, P cs /\ exec_ends argv cs t.

Lemma launch_after_quiet {A C} (m : prog proc A) (f : A -> prog proc C) argv P s :
  respects follows m -> quiet (trace s) ->
  (forall a s1, m s = (Ok a, s1) -> quiet (trace s1) -> follows s s1 -> launch_ends argv P (trace (final (f a) s1))) ->
  launch_ends argv P (trace (final (m ≫= f) s)).
Proof.
  intros Hm Hq Hf. pose proof (follows_final m s Hm) as Hs. unfold final in Hs.
  destruct (m s) as [[a|w] s1] eqn:E; cbn [snd] in Hs.
  - rewrite (final_bind_ok _ _ _ _ _ E). apply Hf; [done | by eapply quiet_after | done].
  - left. rewrite (final_bind_stop _ _ _ _ _ E). by eapply quiet_after.
Qed.

Lemma launch_quiet {A} (m : prog proc A) argv P s :
  respects follows m -> quiet (trace s) -> launch_ends argv P (trace (final m s)).
Proof. intros Hm Hq. left. by eapply quiet_after; [apply Hm|]. Qed.

(** A part that executes, followed by a quiet one: it only executes when it stops. *)
Lemma launch_before_quiet {A C} (m : prog proc A) (f : A -> prog proc C) argv P s :
  (quiet (trace (final m s)) \/ ((exists w, result m s = Stop w) /\ launch_ends argv P (trace (final m s)))) ->
  (forall a, respects follows (f a)) -> launch_ends argv P (trace (final (m ≫= f) s)).
Proof.
  intros H Hf. destruct (m s) as [[a|w] s1] eqn:E.
  - rewrite (final_bind_ok _ _ _ _ _ E). destruct H as [H|[[w Hw] _]]; [|unfold result in Hw; by rewrite E in Hw].
    apply launch_quiet; [apply Hf|]. unfold final in H. by rewrite E in H.
  - rewrite (final_bind_stop _ _ _ _ _ E). unfold final in H. rewrite E in H. destruct H as [H|[_ H]]; [by left | done].
Qed.

(** The options the sandbox is started with: a tap build has its network. *)
Definition sandbox_options (o : Options) : Options := if MINITAP then o <| create_netns := NO_NETNS |> else o.

(** The calls that joined the network of minitap, in a tap build. *)
Definition in_network (cs : list syscall) : Prop := if MINITAP then exists fd, cs = network_calls fd else cs = [].

(** Calls of the sandbox, newest first, and those before. *)
Definition sandbox_after (before : list syscall) (o : Options) (cs : list syscall) : Prop :=
  exists root fu fg iu ou ig og,
    cs = Fork :: confinement (working_dir o) root fu fg iu ou ig og ++ Clone (clone_flags o) :: before /\
    (changes_root o = true -> exists old, root = root_change old).

(** Calls of the full sandbox. *)
Definition full_sandbox (o : Options) (cs : list syscall) : Prop :=
  exists before, in_network before /\ sandbox_after before (sandbox_options o) cs.

(** An outcome after which nothing was executed, or that is a stop. *)
Definition ends_stopped {A} (argv : list string) (P : list syscall -> Prop) (x : outcome A * proc) : Prop :=
  quiet (trace x.2) \/ ((exists w, x.1 = Stop w) /\ launch_ends argv P (trace x.2)).

Lemma stopped_quiet {A} (m : prog proc A) argv P s :
  respects follows m -> quiet (trace s) -> ends_stopped argv P (m s).
Proof. intros Hm Hq. left. by eapply quiet_after; [apply Hm|]. Qed.

Lemma sys_follows c s : is_exec c = false -> exists r s1, sys c s = (Ok r, s1) /\ follows s s1 /\ opt s1 = opt s /\
  trace s1 = (c, r) :: trace s.
Proof.
  intros Hc. pose proof (follows_sys c Hc s) as Hf. unfold final, sys in *.
  destruct (ksys (kern s) c) as [r k]. eexists r, _. by repeat split; try apply Hf.
Qed.

Lemma SpawnPid1_ends before s0 s :
  LIBMINISANDBOX = false -> adds before s0 s -> quiet (trace s) ->
  (use_default (opt s) = true -> forall k, exists l, kreaddir k ROOT = inr l) ->
  ends_stopped (args (opt s)) (sandbox_after before (opt s)) (SpawnPid1 s).
Proof.
  intros Hlib A0 Hq Hl. unfold SpawnPid1. rewrite Hlib.
  destruct (sys_follows Pipe s eq_refl) as (p1 & s1 & E1 & F1 & O1 & _). rewrite (bind_ok _ _ _ _ _ E1).
  pose proof (quiet_after _ _ F1 Hq) as Q1.
  destruct (failed p1); [apply stopped_quiet; [follow_known | done]|].
  destruct (sys_follows Pipe s1 eq_refl) as (p2 & s2 & E2 & F2 & O2 & _). rewrite (bind_ok _ _ _ _ _ E2).
  pose proof (quiet_after _ _ F2 Q1) as Q2.
  destruct (failed p2); [apply stopped_quiet; [follow_known | done]|]. cbv zeta.
  unfold get_opt. rewrite (bind_ok (gets _) _ s2 (clone_flags (opt s2)) s2 eq_refl).
  destruct (sys_follows (Clone (clone_flags (opt s2))) s2 eq_refl) as (c & s3 & E3 & F3 & O3 & _). rewrite (bind_ok _ _ _ _ _ E3).
  pose proof (quiet_after _ _ F3 Q2) as Q3. rewrite <- O1, <- O2 in *. rewrite <- O3 in Hl.
  destruct (Z.eqb_spec (r_ret c) 0) as [Hc|]; [|apply stopped_quiet; [follow_known | done]].
  assert (adds (Clone (clone_flags (opt s2)) :: before) s0 s3) as A3.
  { eapply (adds_trans before [_]); [|eapply adds_sys; [exact E3 | unfold failed; by rewrite Hc]].
    eapply (adds_trans before []); [exact A0 | apply adds_follows; by transitivity s1]. }
  destruct (Pid1Main_ends (pipe_of p1) (pipe_of p2) s0 _ s3 A3 Q3 Hl) as [Hn|(root & fu & fg & iu & ou & ig & og & He & Hr)];
    unfold final in *; destruct (Pid1Main _ _ s3) as [[code|w] s4] eqn:E4.
  - left. by rewrite (bind_ok _ _ _ _ _ E4).
  - left. by rewrite (bind_stop _ _ _ _ _ E4).
  - right. rewrite (bind_ok _ _ _ _ _ E4). split; [by eexists|]. right. right. eexists. split; [|rewrite <- O3; exact He].
    rewrite <- O3. by exists root, fu, fg, iu, ou, ig, og.
  - right. rewrite (bind_stop _ _ _ _ _ E4). split; [by eexists|]. right. right. eexists. split; [|rewrite <- O3; exact He].
    rewrite <- O3. by exists root, fu, fg, iu, ou, ig, og.
Qed.

Lemma start_program_ends before s0 s :
  LIBMINISANDBOX = false -> adds before s0 s -> quiet (trace s) ->
  (use_default (opt s) = true -> forall k, exists l, kreaddir k ROOT = inr l) ->
  launch_ends (args (opt s)) (sandbox_after before (opt s)) (trace (final start_program s)).
Proof.
  intros Hlib Ha Hq Hl. unfold start_program. apply launch_before_quiet; [by eapply SpawnPid1_ends|].
  intros c. repeat first [solve [eauto 1 with follows nocore] | follow_leaf
    | lazymatch goal with
      | |- respects _ Cleanup => apply respects_Cleanup; [apply _ | intros; by apply follows_sys | intros; by apply follows_sys]
      end | respects_step].
Qed.

(** Options with the same fixed part ask for the same sandbox. *)
Lemma sandbox_after_fixed before o o' cs :
  fixed_options o' = fixed_options o -> sandbox_after before o' cs -> sandbox_after before o cs.
Proof.
  intros Ho (root & fu & fg & iu & ou & ig & og & -> & Hr). exists root, fu, fg, iu, ou, ig, og.
  injection Ho as H1 H2 H3 H4 H5 H6 H7. unfold clone_flags. rewrite H1, H6, H7. split; [done|].
  unfold changes_root in *. by rewrite H3, H4, H5 in Hr.
Qed.

Lemma sandbox_options_fixed o o' :
  fixed_options o' = fixed_options o -> fixed_options (sandbox_options o') = fixed_options (sandbox_options o).
Proof.
  intros Ho. unfold sandbox_options. destruct MINITAP; [|done]. injection Ho as H1 H2 H3 H4 H5 _ H7.
  unfold fixed_options. cbn. by rewrite H1, H2, H3, H4, H5, H7.
Qed.

Lemma full_sandbox_fixed o o' cs : fixed_options o' = fixed_options o -> full_sandbox o' cs -> full_sandbox o cs.
Proof.
  intros Ho (before & Hb & H). exists before. split; [done|].
  eapply sandbox_after_fixed; [by apply sandbox_options_fixed | done].
Qed.

Lemma launch_ends_weaken argv (P Q : list syscall -> Prop) t :
  (forall cs, P cs -> Q cs) -> launch_ends argv P t -> launch_ends argv Q t.
Proof. intros HPQ [H|[H|(cs & Hc & H)]]; [by left | by right; left | right; right]. exists cs. auto. Qed.

Lemma launch_ends_fixed s s' t :
  fixed_options (opt s') = fixed_options (opt s) ->
  launch_ends (args (opt s')) (full_sandbox (opt s')) t -> launch_ends (args (opt s)) (full_sandbox (opt s)) t.
Proof.
  intros Ho. assert (args (opt s') = args (opt s)) as -> by (by injection Ho). apply launch_ends_weaken.
  intros cs. by apply full_sandbox_fixed.
Qed.

(** Listing "/" in default mode, whatever happened before. *)
Definition can_list_root (o : Options) : Prop := use_default o = true -> forall k : kstate, exists l, kreaddir k ROOT = inr l.

Lemma can_list_root_fixed o o' : fixed_options o' = fixed_options o -> can_list_root o -> can_list_root o'.
Proof. unfold can_list_root. by intros [= _ _ -> _ _ _ _]. Qed.

(** The goal of the stages: from any state whose trace is quiet. *)
Definition stage {A} (m : prog proc A) : Prop :=
  forall s, quiet (trace s) -> can_list_root (opt s) ->
  launch_ends (args (opt s)) (full_sandbox (opt s)) (trace (final m s)).

Lemma stage_quiet {A} (m : prog proc A) : respects follows m -> stage m.
Proof. intros Hm s Hq _. by apply launch_quiet. Qed.

Lemma stage_bind {A C} (m : prog proc A) (f : A -> prog proc C) :
  respects follows m -> (forall a, stage (f a)) -> stage (m ≫= f).
Proof.
  intros Hm Hf s Hq Hl. apply launch_after_quiet; [done | done | intros a s1 _ Hq1 (_ & Ho & _)].
  apply (launch_ends_fixed s s1); [done|]. apply Hf; [done | by eapply can_list_root_fixed].
Qed.

(** Errors of the kernel, where a tap build depends on them. *)
Definition tap_errors : Prop := MINITAP = true -> libc_errors.

(** The network was started, in the build that has one. *)
Definition network_outcome (s : proc) (x : outcome Z * proc) : Prop :=
  match x with
  | (Ok z, s') => quiet (trace s') /\ (0 <= z ->
      fixed_options (opt s') = fixed_options (sandbox_options (opt s)) /\
      exists before l, in_network before /\ trace s' = l ++ trace s /\ did before l)
  | (Stop _, s') => quiet (trace s') \/ (MINITAP = true /\ minitap_ran (trace s'))
  end.

Lemma start_network_run uid gid s : tap_errors -> quiet (trace s) -> network_outcome s (start_network uid gid s).
Proof.
  intros Hlibc Hq. unfold start_network, network_outcome, in_network, sandbox_options, tap_errors in *. destruct MINITAP.
  2:{ split; [done|]. intros _. split; [done|]. exists [], []. split; [done|]. split; [done | apply did_nil]. }
  specialize (Hlibc eq_refl).
  apply guarded_cases; [done | apply guarded_follows; follow_known | intros rules s1 _ F1 Q1 | intros w s1 [H|H]; auto].
  apply guarded_cases; [done | apply guarded_follows; follow_known | intros fw s2 _ F2 Q2 | intros w s2 [H|H]; auto].
  apply guarded_cases; [done | apply guarded_follows; follow_known | intros u s3 _ F3 Q3 | intros w s3 [H|H]; auto].
  apply guarded_cases; [done | apply guarded_RunTCPIP | intros res s4 E4 F4 Q4 | intros w s4 [H|H]; auto].
  destruct (Z.ltb_spec res 0); [split; [done | lia]|]. split; [exact Q4|]. intros _.
  assert (follows s s4) as (_ & Ho & _) by (transitivity s3; [transitivity s2; [by transitivity s1 | done] | done]).
  split; [injection Ho as H1 H2 H3 H4 H5 _ H7; unfold fixed_options; cbn; congruence|].
  apply RunTCPIP_adds in E4 as [fd Hfd]; [|done..]. exists (network_calls fd).
  assert (follows s s3) as F by (transitivity s2; [by transitivity s1 | done]).
  destruct (adds_after _ _ _ _ F Hfd) as [(l & Hl & Hd) _].
  exists l. split; [by exists fd | done].
Qed.

Lemma stage_launch : LIBMINISANDBOX = false -> tap_errors -> stage launch.
Proof.
  intros Hlib Htap. unfold launch. rewrite Hlib. cbn [negb when].
  apply stage_bind; [follow_known | intros _]. apply stage_bind; [follow_known | intros uid].
  apply stage_bind; [follow_known | intros gid]. apply stage_bind; [follow_known | intros _].
  intros s Hq Hl. pose proof (start_network_run uid gid s Htap Hq) as Hn.
  destruct (start_network uid gid s) as [[res|w] s1] eqn:E1;
    [rewrite (final_bind_ok _ _ _ _ _ E1) | rewrite (final_bind_stop _ _ _ _ _ E1); destruct Hn as [Hn|Hn]; [by left | by right; left]].
  destruct Hn as [Q1 Hn]. destruct (Z.ltb_spec res 0); [by left|].
  destruct Hn as (Ho & before & l & Hb & Hl1 & Hd); [done|].
  apply launch_after_quiet; [follow_known | done | intros [] s2 E2 Q2 F2].
  assert (fixed_options (opt s2) = fixed_options (sandbox_options (opt s))) as Ho2 by (destruct F2 as (_ & -> & _); exact Ho).
  assert (args (opt s2) = args (opt s) /\ use_default (opt s2) = use_default (opt s)) as [<- Hu].
  { injection Ho2 as _ -> -> _ _ _ _. unfold sandbox_options. by destruct MINITAP. }
  eapply launch_ends_weaken; [intros cs Hc; exists before; split; [exact Hb | by eapply sandbox_after_fixed]|].
  apply (start_program_ends before (s1 <| trace := trace s |>)); [done | | done | by rewrite Hu].
  eapply (adds_trans before []); [|by apply adds_follows]. split; [by exists l | done].
Qed.

Lemma stage_start_checked : LIBMINISANDBOX = false -> tap_errors -> stage start_checked.
Proof.
  intros Hlib Htap. unfold start_checked. apply stage_bind; [follow_known | intros mode].
  apply stage_bind; [follow_known | intros _]. apply stage_bind; [follow_known | intros res].
  destruct (res <? 0); [apply stage_quiet; follow_known|]. apply stage_bind; [follow_known | intros res'].
  destruct (res' <? 0); [apply stage_quiet; follow_known|]. by apply stage_launch.
Qed.

(** A fork whose parent leaves with the status of the child does not return. *)
Lemma after_fork_direct_stops pid s : exists w, result (after_fork true pid) s = Stop w.
Proof.
  unfold after_fork. destruct (pid <? 0); [by eexists|]. destruct (pid =? 0).
  - cbn [negb when]. rewrite (result_bind_ok (mret tt) _ s tt s eq_refl). apply exec_command_run.
  - destruct (sys (Waitpid pid) s) as [[r|w] s1] eqn:E; [|rewrite (result_bind_stop _ _ _ _ _ E); by eexists].
    rewrite (result_bind_ok _ _ _ _ _ E). destruct (r_ret r =? -1); [by eexists|]. destruct (WIFEXITED _); by eexists.
Qed.

(** The command in a fork, behind the calls already made. *)
Lemma SpawnChild_ends nested cs0 s0 s :
  adds cs0 s0 s -> quiet (trace s) ->
  launch_ends (args (opt s)) (eq (Fork :: cs0)) (trace (final (SpawnChild nested) s)).
Proof.
  intros [(l & Hl & Hd) _] Hq. destruct (SpawnChild_run nested s Hq) as [H|(f & r & t & fk & w & _ & Ht & Hqt & Hfk & Hf)]; [by left|].
  right. right. exists (Fork :: cs0). split; [done|]. right. exists f, r, (t ++ (Fork, fk) :: trace s). split; [done|].
  split; [apply Forall_app; split; [done | by constructor]|]. split; [|done].
  rewrite Hl. rewrite <- (app_nil_l (Fork :: cs0)). apply did_app; [apply did_nil|]. apply did_cons; [done|].
  rewrite <- (app_nil_r cs0). by apply did_app, did_nil.
Qed.

Lemma SpawnChild_direct_stops nested s :
  bool_decide (docker_mode s = UNPRIVILEGED_CONTAINER) || nested = true -> exists w, result (SpawnChild nested) s = Stop w.
Proof.
  intros Hd. unfold SpawnChild. destruct (sys Fork s) as [[fk|w] s1] eqn:E1;
    [rewrite (result_bind_ok _ _ _ _ _ E1) | rewrite (result_bind_stop _ _ _ _ _ E1); by eexists].
  assert (docker_mode s1 = docker_mode s) as Hm.
  { pose proof (follows_final _ s (follows_sys Fork eq_refl)) as (_ & _ & Hm). unfold final in Hm. by rewrite E1 in Hm. }
  unfold modify, gets. unfold result, mbind at 1 2, prog_bind at 1 2. cbn [docker_mode map_field set_pid1_child_pid].
  change (docker_mode (s1 <| pid1_child_pid := r_ret fk |>)) with (docker_mode s1). rewrite Hm, Hd.
  apply after_fork_direct_stops.
Qed.

(** How the command may come to be executed. *)
Definition allowed (s : proc) (cs : list syscall) : Prop :=
  (is_Some (environ s !! INTERNAL_MINI_SANDBOX_ENV) /\ cs = [Fork]) \/
  (environ s !! INTERNAL_MINI_SANDBOX_ENV = None /\ docker_mode s = UNPRIVILEGED_CONTAINER /\
     exists data, cs = [Fork; Capset (masked_caps kept_capabilities data)]) \/
  (environ s !! INTERNAL_MINI_SANDBOX_ENV = None /\ docker_mode s <> UNPRIVILEGED_CONTAINER /\ full_sandbox (opt s) cs).

Lemma DropCapabilities_adds s s' :
  DropCapabilities s = (Ok tt, s') ->
  exists data, adds [Capset (masked_caps kept_capabilities data)] s s'.
Proof.
  intros H. pose proof (follows_opt _ _ _ _ (follows_drop _) H) as Ho. revert H.
  unfold DropCapabilities, drop_caps_ep_except, sys, mbind, prog_bind. destruct (ksys (kern s) Capget) as [data k1].
  destruct (negb _); [done|]. destruct (ksys _ _) as [r k2] eqn:E2. destruct (Z.eqb_spec (r_ret r) 0) as [Hr|]; [|done].
  intros [= <-]. exists data. split; [|exact Ho]. eexists [_; _]. split; [reflexivity|].
  apply did_cons; [unfold failed; by rewrite Hr | apply did_nil].
Qed.

Lemma InternalEnv_eq s :
  MiniSbxGetInternalEnv s = (Ok match environ s !! INTERNAL_MINI_SANDBOX_ENV with Some _ => 0 | None => -1 end, s).
Proof. done. Qed.

Lemma start_sandbox_ends s :
  LIBMINISANDBOX = false -> tap_errors -> quiet (trace s) -> can_list_root (opt s) ->
  launch_ends (args (opt s)) (allowed s) (trace (final start_sandbox s)).
Proof.
  intros Hlib Htap Hq Hl. unfold start_sandbox. rewrite (final_bind_ok _ _ _ _ _ (InternalEnv_eq s)), Hlib. cbn [andb].
  destruct (environ s !! INTERNAL_MINI_SANDBOX_ENV) as [v|] eqn:Ev.
  - cbn [Z.eqb when]. destruct (SpawnChild_direct_stops true s ltac:(apply orb_true_r)) as [w Hw].
    pose proof (SpawnChild_ends true [] s s (adds_follows _ _ (reflexivity s)) Hq) as Hs.
    unfold result, final in *. destruct (SpawnChild true s) as [o s1] eqn:E. cbn [fst snd] in *. subst o.
    rewrite (bind_stop _ _ _ _ _ E). cbn [snd]. revert Hs. apply launch_ends_weaken. intros cs <-. left. rewrite Ev. split; [by eexists | done].
  - cbn [Z.eqb when]. rewrite (final_bind_ok (mret tt) _ s tt s eq_refl).
    rewrite (final_bind_ok (gets docker_mode) _ s (docker_mode s) s eq_refl). case_decide as Hd.
    + destruct (DropCapabilities s) as [[[]|w] s1] eqn:E1.
      * rewrite (final_bind_ok _ _ _ _ _ E1). destruct (DropCapabilities_adds _ _ E1) as [data Ha].
        pose proof (follows_final _ s (follows_drop kept_capabilities)) as Hf. unfold DropCapabilities in E1.
        unfold final in Hf. rewrite E1 in Hf. cbn [snd] in Hf. pose proof (quiet_after _ _ Hf Hq) as Hq1.
        destruct Hf as (_ & Ho & Hm).
        destruct (SpawnChild_direct_stops false s1) as [w Hw]; [by rewrite Hm, Hd|].
        pose proof (SpawnChild_ends false _ s s1 Ha Hq1) as Hs.
        unfold result, final in *. destruct (SpawnChild false s1) as [o s2] eqn:E. cbn [fst snd] in *. subst o.
        rewrite (bind_stop _ _ _ _ _ E). cbn [snd].
        replace (args (opt s)) with (args (opt s1)) by (by injection Ho).
        revert Hs. apply launch_ends_weaken. intros cs <-. right. left. eauto.
      * rewrite (final_bind_stop _ _ _ _ _ E1). left. unfold DropCapabilities in E1.
        pose proof (follows_final _ s (follows_drop kept_capabilities)) as Hf. unfold final in Hf. rewrite E1 in Hf.
        by eapply quiet_after.
    + pose proof (stage_start_checked Hlib Htap s Hq Hl) as Hs. revert Hs. apply launch_ends_weaken.
      intros cs Hc. right. by right.
Qed.

(** The environment stays. *)
Definition same_env (s s' : proc) : Prop := environ s' = environ s.

#[local] Instance same_env_preorder : PreOrder same_env.
Proof. split; [by intros s | intros a b c H1 H2; unfold same_env in *; congruence]. Qed.

Lemma same_env_sys c : respects same_env (sys c).
Proof. intros s. destruct (only_kernel_sys c s) as (k & t & H). unfold same_env. by rewrite H. Qed.

Ltac env_step :=
  first
  [ lazymatch goal with
    | |- respects _ (sys _) => apply same_env_sys
    | |- respects _ (MiniSbxReportGenericError _ _ _) =>
        apply respects_ReportErrorAndMessage; [apply _ | by intros | intros; apply same_env_sys ..]
    | |- respects _ (modify _) => by intros s
    | |- respects _ (query _) => apply respects_query; apply _
    | |- respects _ (get_opt _) => apply respects_get_opt; apply _
    | |- respects _ (gets _) => apply respects_gets; apply _
    | |- respects _ (getenv _) => apply respects_getenv; apply _
    end
  | respects_step ].

Lemma same_env_StartLogging : respects same_env StartLogging.
Proof. unfold StartLogging. repeat env_step. Qed.

Lemma same_env_UserNamespaceSupported : respects same_env UserNamespaceSupported.
Proof. unfold UserNamespaceSupported, HasUserNamespaceSupport, CanCreateUserNamespace, waitpid_retry. repeat env_step. Qed.

(** A quiet part that keeps the environment, before the sandbox is started. *)
Definition start_stage {A} (m : prog proc A) : Prop :=
  forall s, quiet (trace s) -> can_list_root (opt s) -> working_dir (opt s) <> "" ->
  launch_ends (args (opt s)) (allowed s) (trace (final m s)).

Lemma allowed_kept s s' cs : follows s s' -> same_env s s' -> allowed s' cs -> allowed s cs.
Proof.
  intros (_ & Ho & Hd) He. unfold allowed. rewrite He, Hd.
  intros [H|[H|(H1 & H2 & H3)]]; [by left | by right; left | right; right].
  do 2 (split; [done|]). by eapply full_sandbox_fixed.
Qed.

Lemma start_stage_bind {A C} (m : prog proc A) (f : A -> prog proc C) :
  respects follows m -> respects same_env m -> (forall a, start_stage (f a)) -> start_stage (m ≫= f).
Proof.
  intros Hm He Hf s Hq Hl Hw. apply launch_after_quiet; [done | done | intros a s1 E Hq1 Hs].
  specialize (He s). unfold final in He. rewrite E in He. cbn [snd] in He. pose proof Hs as (_ & Ho & _).
  replace (args (opt s)) with (args (opt s1)) by (by injection Ho).
  eapply launch_ends_weaken; [intros cs Hc; by eapply allowed_kept|].
  apply Hf; [done | by eapply can_list_root_fixed|]. injection Ho as -> _ _ _ _ _ _. done.
Qed.

Lemma start_stage_quiet {A} (m : prog proc A) : respects follows m -> start_stage m.
Proof. intros Hm s Hq _ _. by apply launch_quiet. Qed.

Lemma MiniSbxStart_ends : LIBMINISANDBOX = false -> tap_errors -> start_stage MiniSbxStart.
Proof.
  intros Hlib Htap. unfold MiniSbxStart. rewrite Hlib. cbn [when].
  apply start_stage_bind; [follow_known | repeat env_step | intros running].
  destruct (negb _).
  { apply start_stage_quiet. apply respects_bind; [apply _ | | intros _; follow_known].
    apply frame_error; [apply _ | apply follows_config | apply follows_error]. }
  apply start_stage_bind; [follow_known | apply same_env_StartLogging | intros res].
  destruct (res <? 0); [apply start_stage_quiet; follow_known|].
  apply start_stage_bind; [follow_known | repeat env_step | intros log].
  apply start_stage_bind; [follow_known | destruct log; [apply same_env_UserNamespaceSupported | repeat env_step] | intros _].
  apply start_stage_bind; [follow_known | repeat env_step | intros _].
  apply start_stage_bind; [follow_known | repeat env_step | intros r].
  apply start_stage_bind; [follow_known | repeat env_step | intros _].
  intros s Hq Hl Hw. destruct (working_dir (opt s)) as [|c d] eqn:Ewd; [done|].
  assert (default_working_dir s = (Ok true, s)) as Hd.
  { unfold default_working_dir, get_opt, gets, mbind, prog_bind. by rewrite Ewd. }
  rewrite (final_bind_ok _ _ _ _ _ Hd). by apply start_sandbox_ends.
Qed.

End Launch.

(** ** The checks, the status and the handler *)

Section Checks.
Context `{B : Build} `{N : Bound} `{K : Kernel}.

(** Whether a folder contains the directory the sandbox is built in, or one of
    them has no canonical form. *)
Definition clash (k : kstate) (overlay_dir folder : string) : bool :=
  match krealpath k overlay_dir, krealpath k folder with
  | inr a, inr b => isSubpath b a
  | _, _ => true
  end.

(** What is wrong with the options, the first problem found. *)
Definition options_problem (k : kstate) (mode : DockerMode) (o : Options) : option ErrorCode :=
  if use_overlayfs o && clash k (tmp_overlayfs o) (working_dir o) then Some IllegalConfiguration
  else if hermetic o && clash k (sandbox_root o) (working_dir o) then Some IllegalConfiguration
  else if existsb (fun r => existsb (fun w => streq r w) (writable_files o)) (bind_mount_sources o) then Some FileReadAndWrite
  else if negb (bool_decide (mode = PRIVILEGED_CONTAINER)) && use_overlayfs o &&
          existsb (clash k (tmp_overlayfs o)) (writable_files o) then Some IllegalConfiguration
  else if use_default o && existsb (fun p => streq p TMP) (writable_files o ++ bind_mount_sources o) then Some TmpNotRemounted
  else None.

Lemma overlay_check_eq overlay_dir folder s :
  ValidateOverlayOutOfFolder overlay_dir folder s = (Ok (if clash (kern s) overlay_dir folder then -1 else 0), s).
Proof.
  rewrite ValidateOverlayOutOfFolder_eq. unfold clash.
  destruct (krealpath _ overlay_dir); [done|]. by destruct (krealpath _ folder).
Qed.

Lemma check_writable_eq o w s :
  check_writable o w s =
  if use_overlayfs o && clash (kern s) (tmp_overlayfs o) w
  then (Some <$> MiniSbxReportError "ValidateOptions" 339 IllegalConfiguration) s else (Ok None, s).
Proof.
  unfold check_writable. destruct (use_overlayfs o); [|done].
  rewrite (bind_ok _ _ _ _ _ (overlay_check_eq (tmp_overlayfs o) w s)). by destruct (clash _ _ _).
Qed.

(** The loop over the writable files. *)
Lemma writable_loop o l s :
  for_return l (check_writable o) s =
  if use_overlayfs o && existsb (clash (kern s) (tmp_overlayfs o)) l
  then (Some <$> MiniSbxReportError "ValidateOptions" 339 IllegalConfiguration) s else (Ok None, s).
Proof.
  induction l as [|w l IH]; cbn [for_return existsb]; [by rewrite andb_false_r|].
  unfold mbind, prog_bind at 1. rewrite check_writable_eq.
  destruct (use_overlayfs o && clash (kern s) (tmp_overlayfs o) w) eqn:E.
  - apply andb_true_iff in E as [-> ->]. cbn [andb orb]. unfold fmap, prog_fmap.
    by destruct (MiniSbxReportError _ _ _ s) as [[z|e] s1].
  - rewrite IH. destruct (use_overlayfs o); [|done]. cbn [andb] in *. by rewrite E.
Qed.

Lemma ValidateOptions_eq s :
  match options_problem (kern s) (docker_mode s) (opt s) with
  | None => ValidateOptions s = (Ok 0, s)
  | Some c => exists line, ValidateOptions s = MiniSbxReportError "ValidateOptions" line c s
  end.
Proof.
  unfold options_problem, ValidateOptions. set (o := opt s).
  rewrite (bind_ok (get_opt id) _ s o s eq_refl).
  rewrite (bind_ok (if use_overlayfs o then _ else _) _ s
    (if use_overlayfs o && clash (kern s) (tmp_overlayfs o) (working_dir o) then -1 else 0) s);
    [|destruct (use_overlayfs o); [apply overlay_check_eq | done]].
  destruct (use_overlayfs o && clash (kern s) (tmp_overlayfs o) (working_dir o)); [by exists 325|]. cbn [Z.ltb Z.compare].
  rewrite (bind_ok (if hermetic o then _ else _) _ s
    (if hermetic o && clash (kern s) (sandbox_root o) (working_dir o) then -1 else 0) s);
    [|destruct (hermetic o); [apply overlay_check_eq | done]].
  destruct (hermetic o && clash (kern s) (sandbox_root o) (working_dir o)); [by exists 330|]. cbn [Z.ltb Z.compare].
  unfold ValidateReadWritePaths, ValidateTmpNotRemounted.
  destruct (existsb (fun r => existsb (fun w => streq r w) (writable_files o)) (bind_mount_sources o)); [by exists 334|].
  cbn [Z.ltb Z.compare]. rewrite (bind_ok (gets docker_mode) _ s (docker_mode s) s eq_refl).
  set (blocked := negb (bool_decide (docker_mode s = PRIVILEGED_CONTAINER)) && use_overlayfs o &&
    existsb (clash (kern s) (tmp_overlayfs o)) (writable_files o)).
  assert ((if decide (docker_mode s = PRIVILEGED_CONTAINER) then mret None
           else for_return (writable_files o) (check_writable o)) s =
          if blocked then (Some <$> MiniSbxReportError "ValidateOptions" 339 IllegalConfiguration) s else (Ok None, s)) as Hw.
  { unfold blocked. case_decide; [by rewrite bool_decide_true | rewrite bool_decide_false by done; apply writable_loop]. }
  destruct blocked.
  - exists 339. unfold mbind, prog_bind at 1. rewrite Hw. unfold fmap, prog_fmap.
    by destruct (MiniSbxReportError _ _ _ s) as [[z|e] s1].
  - rewrite (bind_ok _ _ _ _ _ Hw), existsb_app. destruct (use_default o); cbn [andb]; [|done].
    destruct (existsb _ (writable_files o)); cbn [orb]; [by exists 352|].
    destruct (existsb _ (bind_mount_sources o)); [by exists 355 | done].
Qed.

(** *** The namespaces *)

Definition clone_bit (o : Options) (n : Z) : bool :=
  (n =? 28) || (n =? 17) || (n =? 27) || (n =? 29) ||
  ((n =? 30) && if decide (create_netns o = NO_NETNS) then false else true) ||
  ((n =? 26) && fake_hostname o) || (((n =? 0) || (n =? 4)) && negb LIBMINISANDBOX).

Lemma clone_flags_bits o n : 0 <= n -> Z.testbit (clone_flags o) n = clone_bit o n.
Proof.
  intros Hn. destruct (decide (n < 32)) as [Hlt|Hge].
  - assert (forallb (fun i => Bool.eqb (Z.testbit (clone_flags o) (Z.of_nat i)) (clone_bit o (Z.of_nat i))) (seq 0 32) = true) as H.
    { unfold clone_flags, clone_bit. destruct LIBMINISANDBOX, (decide _), (fake_hostname o); vm_compute; reflexivity. }
    rewrite forallb_forall in H. specialize (H (Z.to_nat n) ltac:(apply in_seq; lia)).
    rewrite Z2Nat.id in H by lia. by apply Bool.eqb_prop in H.
  - transitivity false.
    + apply Z.bits_above_log2.
      * unfold clone_flags. destruct LIBMINISANDBOX, (decide _), (fake_hostname o); vm_compute; done.
      * apply Z.lt_le_trans with 32; [|lia].
        unfold clone_flags. destruct LIBMINISANDBOX, (decide _), (fake_hostname o); vm_compute; done.
    + unfold clone_bit. symmetry. repeat (rewrite (proj2 (Z.eqb_neq n _)) by lia). done.
Qed.

(** *** The handler *)

(** The handler runs [n] times. *)
Fixpoint handler_runs (n : nat) : prog proc unit :=
  match n with O => mret tt | S n' => _ ← OnTimeoutOrTerm; handler_runs n' end.

Lemma handler_run s :
  exists s', OnTimeoutOrTerm s = (Ok tt, s') /\ need_polite_sigterm s' = 0 /\ main_child_pid s' = main_child_pid s /\
    (trace s').*1 = (if need_polite_sigterm s =? 0 then [Kill (main_child_pid s) SIGKILL]
                     else [Alarm (kill_delay_secs (opt s)); Kill (main_child_pid s) SIGTERM]) ++ (trace s).*1.
Proof.
  unfold OnTimeoutOrTerm, get_opt, gets, modify. unfold mbind at 1 2 3, prog_bind at 1 2 3.
  destruct (need_polite_sigterm s =? 0); unfold sys, mbind, prog_bind;
    cbn [kern map_field set_need_polite_sigterm]; destruct (ksys _ _) as [r k]; [by eexists|].
  destruct (ksys _ _) as [r2 k2]. by eexists.
Qed.

Lemma handler_again n s :
  need_polite_sigterm s = 0 ->
  (trace (final (handler_runs n) s)).*1 = replicate n (Kill (main_child_pid s) SIGKILL) ++ (trace s).*1.
Proof.
  revert s. induction n as [|n IH]; intros s Hs; cbn [handler_runs]; [done|].
  destruct (handler_run s) as (s' & E & Hn & Hc & Ht). rewrite (final_bind_ok _ _ _ _ _ E), (IH s' Hn), Ht, Hc, Hs.
  cbn [Z.eqb]. rewrite (assoc_L (++)). f_equal. symmetry. apply (replicate_S_end n).
Qed.

(** *** The status *)

(** What [wait] reports: an exit code, or a signal with the mark of a core dump. *)
Inductive wait_status : Z -> Prop :=
| exited_with c : 0 <= c < 256 -> wait_status (256 * c)
| killed_by sig core : 1 <= sig <= 126 -> core = 0 \/ core = 128 -> wait_status (sig + core).

Lemma exit_status_exited c : 0 <= c < 256 -> exit_status (256 * c) = c.
Proof.
  intros Hc. assert (forallb (fun n => exit_status (256 * Z.of_nat n) =? Z.of_nat n) (seq 0 256) = true) as H
    by (vm_compute; reflexivity).
  rewrite forallb_forall in H. specialize (H (Z.to_nat c) ltac:(apply in_seq; lia)).
  rewrite Z2Nat.id in H by lia. by apply Z.eqb_eq in H.
Qed.

Lemma exit_status_killed sig core : 1 <= sig <= 126 -> core = 0 \/ core = 128 -> exit_status (sig + core) = 128 + sig.
Proof.
  intros Hs Hc. assert (forallb (fun n => (exit_status (Z.of_nat n) =? 128 + Z.of_nat n) &&
      (exit_status (Z.of_nat n + 128) =? 128 + Z.of_nat n)) (seq 1 126) = true) as H by (vm_compute; reflexivity).
  rewrite forallb_forall in H. specialize (H (Z.to_nat sig) ltac:(apply in_seq; lia)).
  rewrite Z2Nat.id in H by lia. apply andb_true_iff in H as [H1 H2]. apply Z.eqb_eq in H1, H2.
  destruct Hc as [-> | ->]; [by rewrite Z.add_0_r | done].
Qed.

(** The status of the command survives the two processes that pass it on. *)
Lemma exit_status_again st : wait_status st -> exit_status (256 * exit_status st) = exit_status st.
Proof.
  intros [c Hc|sig core Hs Hc]; [by rewrite !exit_status_exited; try rewrite exit_status_exited|].
  rewrite exit_status_killed by done. apply exit_status_exited. lia.
Qed.

Lemma wait_pid1_loop n child s rs r k :
  (length rs < n)%nat -> answers (Wait4 child) (kern s) (rs ++ [r]) k -> (forall k, kppid k = initial_ppid s) ->
  Forall (fun q => interrupted q = true) rs -> 0 < r_ret r ->
  loop n (q ← sys (Wait4 child);
    if 0 <? r_ret q then mret (Some (Some (out 0 q)))
    else parent ← query kppid;
         initial ← gets initial_ppid;
         if negb (parent =? initial) then mret (Some None)
         else if decide (r_errno q = EINTR) then mret None
         else _ ← MiniSbxReportGenericError "WaitForPid1" 301 "wait4"; mret None) s =
  (Ok (Some (out 0 r)), answered (Wait4 child) (rs ++ [r]) k s).
Proof.
  revert s n. induction rs as [|q rs IH]; intros s [|n] Hn Ha Hp Hi Hr; cbn in Hn; try lia; cbn [loop app] in *;
    inversion_clear Ha as [|? ? k1 ? ? Hk Ha'].
  - inversion Ha'; subst. erewrite bind_ok; [|rewrite (bind_ok _ _ _ _ _ (sys_run _ _ _ _ Hk))].
    2:{ destruct (Z.ltb_spec 0 (r_ret r)); [reflexivity | lia]. }
    done.
  - inversion_clear Hi as [|? ? Hq Hi']. unfold interrupted in Hq. apply andb_true_iff in Hq as [Hm Hq].
    apply Z.eqb_eq in Hm. apply bool_decide_eq_true in Hq.
    erewrite bind_ok; [|rewrite (bind_ok _ _ _ _ _ (sys_run _ _ _ _ Hk))].
    2:{ rewrite Hm. cbn [Z.ltb Z.compare]. unfold query, gets, mbind, prog_bind. cbn [fst snd].
        cbn [initial_ppid map_field set_kern set_trace]. rewrite Hp, Z.eqb_refl. cbn [negb]. rewrite decide_True by done. reflexivity. }
    rewrite (IH _ n); [by rewrite answered_cons | lia | exact Ha' | exact Hp | done | done].
Qed.

End Checks.

(** ** The library *)

Section Library.
Context `{B : Build} `{N : Bound} `{K : Kernel}.

(** What was done in the process that goes on inside the sandbox. *)
Definition inside_sandbox (s s' : proc) : Prop :=
  is_running (opt s') = RUNNING /\
  exists data root fu fg iu ou ig og,
    adds (Capset (masked_caps 0 data) :: confinement (working_dir (opt s)) root fu fg iu ou ig og) s s' /\
    (changes_root (opt s) = true -> exists old, root = root_change old).

Lemma inside_before {A} (m : prog proc A) a s s1 s2 :
  respects follows m -> m s = (Ok a, s1) -> inside_sandbox s1 s2 -> inside_sandbox s s2.
Proof.
  intros Hm E (Hr & data & root & fu & fg & iu & ou & ig & og & Ha & Hc). split; [done|].
  pose proof (follows_opt _ _ _ _ Hm E) as Ho.
  exists data, root, fu, fg, iu, ou, ig, og. rewrite <- (changes_root_fixed _ _ Ho). split; [|done].
  eapply adds_before; [exact Hm | exact E|]. by injection Ho as <- _ _ _ _ _ _.
Qed.

Lemma drop_all_run s s' :
  drop_caps_ep_except 0 s = (Ok tt, s') -> opt s' = opt s /\ exists data, adds [Capset (masked_caps 0 data)] s s'.
Proof.
  unfold drop_caps_ep_except, sys, mbind, prog_bind. destruct (ksys (kern s) Capget) as [data k1].
  destruct (negb _); [done|]. destruct (ksys _ _) as [r k2] eqn:E2. destruct (Z.eqb_spec (r_ret r) 0) as [Hr|]; [|done].
  intros [= <-]. split; [done|]. exists data. split; [|done]. eexists [_; _]. split; [reflexivity|].
  apply did_cons; [unfold failed; by rewrite Hr | apply did_nil].
Qed.

Lemma Pid1Main_library a b s z s' :
  LIBMINISANDBOX = true -> can_list_root (opt s) -> Pid1Main a b s = (Ok z, s') -> z = 0 /\ inside_sandbox s s'.
Proof.
  intros Hlib Hl H. unfold Pid1Main in H. rewrite Hlib in H. apply bind_inv_ok in H as ([] & s1 & H1 & H).
  apply bind_inv_ok in H as ([] & s2 & H2 & H). injection H as <- <-. split; [done|].
  destruct (setup_run a b s s1 Hl H1) as (root & fu & fg & iu & ou & ig & og & Ha & Hc & Hr).
  destruct (drop_all_run _ _ H2) as (Ho & data & Hd). split; [by rewrite Ho|].
  exists data, root, fu, fg, iu, ou, ig, og. split; [|done]. exact (adds_trans _ _ _ _ _ Ha Hd).
Qed.

Lemma greet_nonzero a b pid s z s' : pid <> 0 -> greet_child a b pid s = (Ok z, s') -> z <> 0.
Proof.
  intros Hp H. unfold greet_child in H. apply bind_inv_ok in H as (r & s1 & _ & H). destruct (Z.ltb_spec r 0).
  - apply bind_inv_ok in H as ([] & s2 & _ & H). injection H as <- _. lia.
  - apply bind_inv_ok in H as (r' & s2 & _ & H). destruct (Z.ltb_spec r' 0).
    + apply bind_inv_ok in H as ([] & s3 & _ & H). injection H as <- _. lia.
    + by injection H as <- _.
Qed.

(** The process that gets 0 is inside the sandbox. *)
Lemma SpawnPid1_library s s' :
  LIBMINISANDBOX = true -> can_list_root (opt s) -> SpawnPid1 s = (Ok 0, s') -> inside_sandbox s s'.
Proof.
  intros Hlib Hl H. unfold SpawnPid1 in H. rewrite Hlib in H.
  apply bind_inv_ok in H as (p1 & s1 & H1 & H). destruct (failed p1).
  { unfold MiniSbxReportGenericError in H. apply report_negative in H. lia. }
  apply bind_inv_ok in H as (p2 & s2 & H2 & H). destruct (failed p2).
  { unfold MiniSbxReportGenericError in H. apply report_negative in H. lia. }
  apply bind_inv_ok in H as (flags & s3 & H3 & H). apply bind_inv_ok in H as (u & s4 & H4 & H).
  apply bind_inv_ok in H as (e & s5 & H5 & H). apply bind_inv_ok in H as (f & s6 & H6 & H).
  apply bind_inv_ok in H as (e' & s7 & H7 & H).
  destruct (Z.eqb_spec (r_ret f) 0) as [Hf|Hf]; [|by apply greet_nonzero in H].
  apply bind_inv_ok in H as (code & s8 & H8 & H). apply bind_inv_ok in H as (e'' & s9 & H9 & H). injection H as <-.
  assert (can_list_root (opt s7)) as Hl7.
  { eapply can_list_root_fixed; [|exact Hl]. enough (adds [] s s7) as [_ Ho] by exact Ho.
    do 7 (eapply adds_before; [|eassumption|]; [solve [follow_known]|]). apply adds_follows. reflexivity. }
  destruct (Pid1Main_library _ _ _ _ _ Hlib Hl7 H8) as [-> Hin]. cbn [Z.ltb Z.compare] in H9. injection H9 as _ <-.
  do 7 (eapply inside_before; [|eassumption|]; [solve [follow_known]|]). exact Hin.
Qed.

Lemma start_library_run s z s' :
  LIBMINISANDBOX = true -> can_list_root (opt s) -> start_library s = (Ok z, s') ->
  (z = -1 /\ is_running (opt s') = FAILED) \/ (z = 0 /\ inside_sandbox s s').
Proof.
  intros Hlib Hl H. unfold start_library in H. apply bind_inv_ok in H as (f & s1 & H1 & H).
  destruct (failed f); [done|]. destruct (r_ret f =? 0).
  - apply bind_inv_ok in H as (c & s2 & H2 & H). destruct (c <? 0); [done|].
    destruct (Z.eqb_spec c 0) as [->|Hc].
    + injection H as <- <-. right. split; [done|]. eapply inside_before; [|exact H1|]; [follow_known|].
      apply SpawnPid1_library; [done | | done]. eapply can_list_root_fixed; [|exact Hl].
      eapply follows_opt; [|exact H1]. follow_known.
    + apply bind_inv_ok in H as ([] & s3 & _ & H). apply bind_inv_ok in H as (w & s4 & _ & H). by apply leave_as_stops in H.
  - apply bind_inv_ok in H as (w & s2 & _ & H). destruct (r_ret w =? -1); [by apply bind_inv_ok in H as (? & ? & _ & H)|].
    destruct (WIFEXITED _); [|by apply bind_inv_ok in H as (? & ? & _ & H)].
    apply bind_inv_ok in H as (i & s3 & _ & H). apply bind_inv_ok in H as ([] & s4 & _ & H). destruct (i =? 0); [|done].
    apply bind_inv_ok in H as ([] & s5 & H5 & H). unfold mod_opt, modify in H5. injection H5 as <-.
    destruct MINITAP; [done|]. injection H as <- <-. by left.
Qed.

End Library.

(** ** Properties *)

Section Properties.
Context `{B : Build} `{N : Bound} `{K : Kernel}.

(** The command-line program executes nothing but the command and, in a tap
    build, minitap.  Each is the last call but one at most of the process that
    does it.  The command is executed in one of three ways: directly in a fork
    when the program already runs inside a sandbox; in a fork after the
    capabilities were dropped, in an unprivileged container; otherwise in a
    process cloned into fresh namespaces, after its mounts were made private,
    its ids mapped, in the modes that change the root the root changed and the
    old one detached, and the working directory entered, all successfully; in a
    tap build after it joined the network of minitap too. *)
Theorem start_confines s t1 f argv r t2 :
  LIBMINISANDBOX = false -> tap_errors -> quiet (trace s) -> can_list_root (opt s) -> working_dir (opt s) <> "" ->
  trace (final MiniSbxStart s) = t1 ++ (Execvp f argv, r) :: t2 ->
  (MINITAP = true /\ executes_minitap t1 f argv r t2) \/
  (t1 = [] /\ argv = args (opt s) /\ head argv = Some f /\ exists cs, allowed s cs /\ did cs t2).
Proof.
  intros Hlib Htap Hq Hl Hw Ht. destruct (MiniSbxStart_ends Hlib Htap s Hq Hl Hw) as [Hn|[Hn|(cs & Hc & [Hn|He])]].
  1,3: rewrite Ht in Hn; by destruct (quiet_no_exec t1 (Execvp f argv) r t2 eq_refl).
  - left. destruct Hn as (Hb & pre & f' & argv' & r' & t' & Ht' & He). split; [done|].
    eapply executes_minitap_only; [exact He | by rewrite <- Ht].
  - right. destruct He as (f' & r' & t' & Ht' & Hq' & Hd & Hf). rewrite Ht in Ht'.
    destruct (quiet_exec t1 (Execvp f argv) _ _ _ _ _ Hq' eq_refl Ht') as [-> ->].
    injection Ht' as -> -> _. do 3 (split; [done|]). by exists cs.
Qed.

(** The library returns from the start in two ways only: with 0 in the
    process inside the sandbox, which is marked as running, dropped all its
    capabilities and was confined as the command of the program is; or with -1
    in the caller's process, marked as failed, when the sandbox did not come up.
    Every other process leaves. *)
Theorem library_start_confined s z s' :
  LIBMINISANDBOX = true -> can_list_root (opt s) -> start_library s = (Ok z, s') ->
  (z = -1 /\ is_running (opt s') = FAILED) \/ (z = 0 /\ inside_sandbox s s').
Proof. apply start_library_run. Qed.

(** C11: the checks before the start, in closed form: the options are accepted,
    without a change of state, exactly when no problem is found; otherwise the
    first problem is the error that is reported. *)
Theorem ValidateOptions_spec s :
  match options_problem (kern s) (docker_mode s) (opt s) with
  | None => ValidateOptions s = (Ok 0, s)
  | Some c => exists line, ValidateOptions s = MiniSbxReportError "ValidateOptions" line c s
  end.
Proof. apply ValidateOptions_eq. Qed.



(** The namespaces: user, mount, ipc and pid namespaces are always asked
    for, a network namespace exactly unless the network is shared, a uts
    namespace exactly with a fake hostname, and no other bit is set, but for
    the SIGCHLD of the program in the low byte. *)
Theorem clone_flags_spec o n :
  0 <= n ->
  Z.testbit (clone_flags o) n = true <->
  n ∈ [28; 17; 27; 29] \/ (n = 30 /\ create_netns o <> NO_NETNS) \/ (n = 26 /\ fake_hostname o = true) \/
  (n ∈ [0; 4] /\ LIBMINISANDBOX = false).
Proof.
  intros Hn. rewrite clone_flags_bits by done. unfold clone_bit. rewrite !elem_of_cons, elem_of_nil.
  destruct LIBMINISANDBOX, (decide (create_netns o = NO_NETNS)), (fake_hostname o);
    rewrite ?andb_true_r, ?andb_false_r, ?orb_false_r, !orb_true_iff, !Z.eqb_eq; intuition congruence.
Qed.

End Properties.

(** ** A fork that fails *)

(** Two pipes, a successful unshare, a fork that fails, and a pipe that cannot
    be written to. *)
Definition no_fork_sim : sim :=
  empty_sim <| sim_script := [mkReply 0 ENONE [3; 4] ""; mkReply 0 ENONE [5; 6] ""; ok_reply;
                              err_reply (EOTHER 11); ok_reply; err_reply (EOTHER 32)] |>.

(** When the fork of the library fails, the error is reported and the start
    goes on with -1 as the process of the child: if the pipe cannot be written
    to either, SIGKILL is sent to every process the caller may signal. *)
Theorem failed_fork_kills_everything :
  let s' := final (SpawnPid1 (B := lib_build) (N := some_bound) (K := SimKernel)) (sim_proc no_fork_sim) in
  (Fork, err_reply (EOTHER 11)) ∈ trace s' /\ Kill (-1) SIGKILL ∈ (trace s').*1.
Proof. vm_compute. split; repeat first [apply list_elem_of_here | apply list_elem_of_further]. Qed.

(** ** Witnesses *)

Definition started_end : proc (H := CalmKernel) :=
  final (MiniSbxStart (B := cli_build) (N := some_bound) (K := CalmKernel)) hermetic_proc.

Lemma start_confines_witness :
  exists cs, allowed (B := cli_build) (K := CalmKernel) hermetic_proc cs /\ did cs (tail (trace started_end)).
Proof.
  destruct (start_confines (B := cli_build) (N := some_bound) (K := CalmKernel) hermetic_proc [] "ls" ["ls"; "-l"] ok_reply
    (tail (trace started_end))) as [([=] & _)|(_ & _ & _ & H)].
  - reflexivity.
  - intros [=].
  - constructor.
  - intros [=].
  - intros [=].
  - vm_compute. reflexivity.
  - exact H.
Defined.

Definition library_end : proc (H := CalmKernel) :=
  final (start_library (B := lib_build) (N := some_bound) (K := CalmKernel)) hermetic_proc.

Lemma library_start_confined_witness :
  (0 = -1 /\ is_running (opt library_end) = FAILED) \/ (0 = 0 /\ inside_sandbox (K := CalmKernel) hermetic_proc library_end).
Proof.
  apply (library_start_confined (B := lib_build) (N := some_bound) (K := CalmKernel) hermetic_proc 0 library_end).
  - reflexivity.
  - intros [=].
  - vm_compute. reflexivity.
Defined.

(** Interrupted once, then the first process left with 137: its command was
    killed by signal 9. *)
Definition killed_sim : sim := empty_sim <| sim_script := [err_reply EINTR; status_reply 8 35072] |>.
Definition killed_proc : proc (H := SimKernel) := (sim_proc killed_sim) <| initial_ppid := 1 |>.


Lemma clone_flags_spec_witness :
  Z.testbit (clone_flags (H := cli_build) (initial_options <| create_netns := NETNS |>)) 30 = true.
Proof.
  apply (clone_flags_spec (B := cli_build)); [lia|]. right. left. split; [reflexivity | intros [=]].
Defined.
