(* ===== verification/NetFilter.v ===== *)
(** * The network filter of minitap (src/minitap: firewall.go, dns.go, mux.go)

    minitap is the process that carries the traffic of the tap mode.  The part
    of it modelled here decides: it reads the policy file the sandbox wrote,
    keeps the table of allowed addresses, answers DNS queries and lets every
    connection through or drops it.  Its package variables are the fields of
    [tap]; the host (files, resolver, the order of a [range] over a map) and the
    functions of the package github.com/miekg/dns are the parameters of
    [TapHost]. *)

From S2P Require Import Prelude Monad CxxString GoStd.
From Stdlib Require Import Ascii.
Open Scope sbx_scope.
Open Scope Z_scope.

Class TapHost := {
  world : Type;
  os_Stat : world -> string -> option bool;                       (** [IsDir()], when [os.Stat] succeeds *)
  os_Open : world -> string -> option string;                     (** the text of the file *)
  LookupIP : world -> string -> option (list IP) * world;         (** [net.DefaultResolver.LookupIP(ctx, "ip4", _)] *)
  range_order : world -> list string -> list string * world;      (** the order in which [range] visits the keys *)
  ClientConfig : world -> option (list string * string * list string * Z);  (** Servers, Port, Search, Ndots *)
  Fqdn : string -> string;                                        (** [dns.Fqdn] *)
  rr : Type;
  NewRR : string -> option rr                                     (** [dns.NewRR] *)
}.

(** ** The state: the package variables *)

Section State.
Context `{H : TapHost}.

(** [lookups] records what was asked of the resolver, the last first. *)
Record tap := mkTap {
  fwRules_Rules : list string;
  fwRules_Count : Z;
  fwRules_MaxConnections : Z;
  allowedIps : gmap string Z;
  deniedDomainMap : list string;
  connections : Z;
  domainMap : gmap string (list string);
  upstreamDNS : string;
  searchDomains : list string;
  ndots : Z;
  net : world;
  lookups : list (string * option (list IP))
}.

Definition eta_tap (s : tap) : tap :=
  mkTap (fwRules_Rules s) (fwRules_Count s) (fwRules_MaxConnections s) (allowedIps s) (deniedDomainMap s)
    (connections s) (domainMap s) (upstreamDNS s) (searchDomains s) (ndots s) (net s) (lookups s).
#[export] Instance set_Rules : Setter fwRules_Rules := ltac:(derive_setter eta_tap).
#[export] Instance set_Count : Setter fwRules_Count := ltac:(derive_setter eta_tap).
#[export] Instance set_MaxConnections : Setter fwRules_MaxConnections := ltac:(derive_setter eta_tap).
#[export] Instance set_allowedIps : Setter allowedIps := ltac:(derive_setter eta_tap).
#[export] Instance set_deniedDomainMap : Setter deniedDomainMap := ltac:(derive_setter eta_tap).
#[export] Instance set_connections : Setter connections := ltac:(derive_setter eta_tap).
#[export] Instance set_domainMap : Setter domainMap := ltac:(derive_setter eta_tap).
#[export] Instance set_upstreamDNS : Setter upstreamDNS := ltac:(derive_setter eta_tap).
#[export] Instance set_searchDomains : Setter searchDomains := ltac:(derive_setter eta_tap).
#[export] Instance set_ndots : Setter ndots := ltac:(derive_setter eta_tap).
#[export] Instance set_net : Setter net := ltac:(derive_setter eta_tap).
#[export] Instance set_lookups : Setter lookups := ltac:(derive_setter eta_tap).

(** The initial values of the variables. *)
Definition initial_tap (w : world) : tap := {|
  fwRules_Rules := []; fwRules_Count := 0; fwRules_MaxConnections := 0;
  allowedIps := ∅; deniedDomainMap := []; connections := 0; domainMap := ∅;
  upstreamDNS := ""; searchDomains := []; ndots := 1; net := w; lookups := []
|}.

End State.

(** [net.TCPAddr], [net.UDPAddr] and the other implementations of [net.Addr],
    which have a text only. *)
Inductive net_addr := TCPAddr (a : addr) | UDPAddr (a : addr) | OtherAddr (text : string).

Definition net_addr_string (a : net_addr) : string :=
  match a with TCPAddr a | UDPAddr a => addr_string a | OtherAddr t => t end.

Definition TypeA : Z := 1.
Definition OpcodeQuery : Z := 0.

(** What a connection is handed to. *)
Inductive tap_handler := HandleDNSPackets | ProxyConn.

(** ** Reading the policy *)

Section NetFilter.
Context `{H : TapHost}.

Definition MiniTapSetupFirewallRule (rule : string) : prog tap unit :=
  modify (fun s => s <| fwRules_Rules ::= fun l => l ++ [rule] |> <| fwRules_Count ::= Z.add 1 |>).

Definition MiniTapSetupMaxConnections (max_connections : Z) : prog tap unit :=
  modify (fun s => s <| fwRules_MaxConnections := max_connections |>).

(** The loop over the lines; a first line that is no number ends it. *)
Fixpoint read_rules (lineno : Z) (lines : list string) : prog tap unit :=
  match lines with
  | [] => mret tt
  | l :: rest =>
      let line := TrimSpace l in
      if lineno =? 0 then
        match ParseInt line with
        | None => mret tt
        | Some n => _ ← MiniTapSetupMaxConnections n; read_rules (lineno + 1) rest
        end
      else _ ← MiniTapSetupFirewallRule line; read_rules lineno rest
  end.

Definition ReadFirewallRules (firewall_rules : string) : prog tap unit :=
  file ← gets (fun s => os_Open (net s) firewall_rules);
  match file with
  | None => mret tt
  | Some text => read_rules 0 (scan_lines text)
  end.

Definition fileExists (path : string) : prog tap bool :=
  gets (fun s => match os_Stat (net s) path with Some isDir => negb isDir | None => false end).

Definition ParseArg (args : list string) : prog tap unit :=
  firewall_rules ←
    match args with
    | _ :: argPath :: _ => ok ← fileExists argPath; mret (if ok : bool then argPath else "")
    | _ => mret ""
    end;
  fallback ← (if empty firewall_rules then fileExists "/tmp/firewall.rules" else mret false);
  let firewall_rules := if fallback : bool then "/tmp/firewall.rules" else firewall_rules in
  if empty firewall_rules then mret tt else ReadFirewallRules firewall_rules.

(** The rules from the last to the first; an index outside the slice panics. *)
Fixpoint init_rules (n : nat) : prog tap unit :=
  match n with
  | O => mret tt
  | S i =>
      rule ← gets (fun s => fwRules_Rules s !! i);
      match rule with
      | None => throw OutOfRangeError
      | Some rule =>
          _ ← (match ParseIP rule with
               | None => modify (fun s => s <| domainMap ::= insert (Fqdn rule) [] |>)
               | Some _ => modify (fun s => s <| allowedIps ::= insert rule 1 |>)
               end);
          init_rules i
      end
  end.

Definition InitFirewall : prog tap unit :=
  n ← gets fwRules_Count;
  if n =? 0 then mret tt else init_rules (Z.to_nat n).

(** ** DNS *)

Definition last_colon (l : list ascii) : option nat :=
  match list_find (fun c => Ascii.eqb c ":" = true) (reverse l) with
  | Some (i, _) => Some (length l - S i)%nat
  | None => None
  end.
Definition first_of (c : ascii) (l : list ascii) : option nat :=
  fst <$> list_find (fun d => Ascii.eqb c d = true) l.
Definition has_char (c : ascii) (l : list ascii) : bool := existsb (Ascii.eqb c) l.

(** [net.JoinHostPort] and the host of [net.SplitHostPort]. *)
Definition JoinHostPort (host port : string) : string :=
  if has_char ":" (chars host) then "[" +:+ host +:+ "]:" +:+ port else host +:+ ":" +:+ port.

Definition SplitHost (hostport : string) : option string :=
  let l := chars hostport in
  match last_colon l with
  | None => None
  | Some i =>
      if Ascii.eqb (front_char hostport) "[" then
        match first_of "]" l with
        | None => None
        | Some e =>
            if (S e =? i)%nat && negb (has_char "[" (drop 1 l)) && negb (has_char "]" (drop (S e) l))
            then Some (of_chars (take (e - 1) (drop 1 l))) else None
        end
      else
        let host := take i l in
        if has_char ":" host || has_char "[" l || has_char "]" l then None else Some (of_chars host)
  end.

Definition setUpstreamDNS : prog tap unit :=
  up ← gets upstreamDNS;
  if negb (empty up) then mret tt
  else
    config ← gets (fun s => ClientConfig (net s));
    _ ← (match config with
         | Some (server :: _, port, search, nd) =>
             _ ← modify (fun s => s <| upstreamDNS := JoinHostPort server (if empty port then "53" else port) |>
                                    <| searchDomains := search |>);
             when (0 <? nd) (modify (fun s => s <| ndots := nd |>))
         | _ => modify (fun s => s <| upstreamDNS := "8.8.8.8:53" |>)
         end);
    up ← gets upstreamDNS;
    match SplitHost up with
    | Some host => modify (fun s => s <| allowedIps ::= insert host 1 |>)
    | None => mret tt
    end.

Definition lookup_ip (cand : string) : prog tap (option (list IP)) := fun s =>
  let '(r, w) := LookupIP (net s) cand in (Ok r, s <| net := w |> <| lookups ::= cons (cand, r) |>).

(** The names asked for, in order: with the search domains behind a name that
    looks fully qualified, in front of one that does not. *)
Definition candidates (search : list string) (nd : Z) (name : string) : list string :=
  let stripped := trim_dot name in
  let suffixed := (fun s => stripped +:+ "." +:+ trim_dot s +:+ ".") <$> search in
  if (nd <=? count_dots stripped) || bool_decide (search = []) then name :: suffixed else suffixed ++ [name].

Definition try_candidate (cand : string) : prog tap (option (string * option (list IP))) :=
  ips ← lookup_ip cand;
  mret (match ips with Some l => Some (cand, Some l) | None => None end).

Definition lookupWithSearch (name : string) : prog tap (string * option (list IP)) :=
  search ← gets searchDomains;
  nd ← gets ndots;
  found ← for_return (candidates search nd name) try_candidate;
  mret (default (name, None) found).

(** The texts a domain is given, the nil addresses left out. *)
Definition ip_texts (ips : list IP) : list string :=
  to4_string <$> List.filter (fun ip => negb (length ip =? 0)%nat) ips.

Definition updateFirewall (domain_name : string) (ips : list IP) : prog tap unit :=
  let fq := Fqdn domain_name in
  modify (fun s =>
    match domainMap s !! fq with
    | Some old =>
        s <| allowedIps ::= fun m => foldl (fun m ip => insert ip 1 m) (foldl (fun m ip => delete ip m) m old)
                                       (ip_texts ips) |>
          <| domainMap ::= insert fq (ip_texts ips) |>
    | None => s <| deniedDomainMap ::= fun l => l ++ [fq] |>
    end).

Definition firewallDns (addr : string) : prog tap bool :=
  gets (fun s =>
    if fwRules_Count s =? 0 then
      if fwRules_MaxConnections s <? 0 then true else connections s <? fwRules_MaxConnections s
    else bool_decide (is_Some (domainMap s !! Fqdn addr))).

(** The answer to a query with these questions; [None] is an error. *)
Definition handleDNSQuery (questions : list (string * Z)) : prog tap (option (list rr)) :=
  match questions with
  | [] => mret (Some [])
  | (name, qtype) :: _ =>
      if qtype =? TypeA then
        allowed ← firewallDns name;
        if negb allowed then mret None
        else
          answer ← lookupWithSearch name;
          match snd answer with
          | None => mret None
          | Some ips =>
              match mapM (fun ip => NewRR (name +:+ " A " +:+ ip_string ip)) ips with
              | None => mret None
              | Some rrs => _ ← updateFirewall name ips; mret (Some rrs)
              end
          end
      else mret None
  end.

(** The message as it was unpacked (its opcode and its questions), and the
    answer section of the reply; [None] when nothing is sent. *)
Definition handleDNS (payload : option (Z * list (string * Z))) : prog tap (option (list rr)) :=
  match payload with
  | None => mret None
  | Some (opcode, questions) =>
      if negb (opcode =? OpcodeQuery) then mret None
      else rrs ← handleDNSQuery questions; mret (Some (default [] rrs))
  end.

Definition solveDomainName (domain_name : string) : prog tap unit :=
  _ ← handleDNSQuery [(Fqdn domain_name, TypeA)]; mret tt.

(** ** Connections *)

(** The names the loop over [domainMap] visits. *)
Definition range_domains : prog tap (list string) := fun s =>
  let '(l, w) := range_order (net s) (fst <$> map_to_list (domainMap s)) in (Ok l, s <| net := w |>).

Definition is_allowed (ip : IP) : prog tap bool :=
  gets (fun s => bool_decide (is_Some (allowedIps s !! to4_string ip))).

(** The decision for a destination: the bound on the connections or, when there
    is none, the rules, for which the allowed domains are resolved again when
    the address is not known. *)
Definition firewall_decision (destination_ip : IP) : prog tap bool :=
  max ← gets fwRules_MaxConnections;
  if 0 <=? max then
    n ← gets connections;
    if n <? max then _ ← modify (fun s => s <| connections ::= Z.add 1 |>); mret true
    else mret false
  else
    n ← gets fwRules_Count;
    if n =? 0 then mret true
    else
      ok ← is_allowed destination_ip;
      if ok : bool then mret true
      else
        domains ← range_domains;
        _ ← for_each domains solveDomainName;
        is_allowed destination_ip.

Definition firewallConnection (a : net_addr) : prog tap bool :=
  match a with
  | OtherAddr _ => mret false
  | TCPAddr a | UDPAddr a => firewall_decision (addr_ip a)
  end.

(** [strings.HasSuffix] is [ends_with]. *)
Definition patternMatches (pattern : string) (a : net_addr) : bool :=
  if streq pattern "*" then true
  else has_prefix ":" pattern && ends_with (net_addr_string a) pattern.

(** The first entry of the table that matches and that the firewall lets
    through; [None] when the connection is dropped. *)
Definition notify (entries : list (string * tap_handler)) (a : net_addr) : prog tap (option tap_handler) :=
  for_return entries (fun entry =>
    if patternMatches (fst entry) a then
      ok ← firewallConnection a;
      mret (if ok : bool then Some (snd entry) else None)
    else mret None).

(** The tables [RunNetwork] sets up. *)
Definition tcpHandlers : list (string * tap_handler) := [("*", ProxyConn)].
Definition udpHandlers : list (string * tap_handler) := [(":53", HandleDNSPackets); ("*", ProxyConn)].

Definition notifyTCP (a : net_addr) : prog tap (option tap_handler) := notify tcpHandlers a.
Definition notifyUDP (a : net_addr) : prog tap (option tap_handler) := notify udpHandlers a.

(** The start of the filter: [main] and what [RunNetwork] does to its state. *)
Definition start_filter (args : list string) : prog tap unit :=
  _ ← ParseArg args;
  _ ← setUpstreamDNS;
  InitFirewall.

(** What the filter is asked: a TCP or UDP connection to an address, or a DNS
    message on a connection it handles. *)
Inductive request :=
| AskTCP (a : addr)
| AskUDP (a : addr)
| AskDNS (payload : option (Z * list (string * Z))).

(** The verdict on a connection; a DNS message has none. *)
Definition serve_one (q : request) : prog tap (option bool) :=
  match q with
  | AskTCP a => h ← notifyTCP (TCPAddr a); mret (Some (bool_decide (is_Some h)))
  | AskUDP a => h ← notifyUDP (UDPAddr a); mret (Some (bool_decide (is_Some h)))
  | AskDNS p => _ ← handleDNS p; mret None
  end.

(** The verdicts on the connections of a sequence of requests. *)
Fixpoint serve (qs : list request) : prog tap (list bool) :=
  match qs with
  | [] => mret []
  | q :: rest =>
      v ← serve_one q;
      vs ← serve rest;
      mret (match v with Some b => b :: vs | None => vs end)
  end.

End NetFilter.

(** ** Facts *)

Section FilterFacts.
Context `{H : TapHost}.

Lemma bind_gets {A B} (f : tap -> A) (k : A -> prog tap B) s : (gets f ≫= k) s = k (f s) s.
Proof. done. Qed.

Lemma bind_is_allowed {B} ip (k : bool -> prog tap B) s :
  (is_allowed ip ≫= k) s = k (bool_decide (is_Some (allowedIps s !! to4_string ip))) s.
Proof. done. Qed.

(** *** What the operations on DNS and connections leave alone *)

(** The address text [k] was given by the resolver to a name of [doms]. *)
Definition answered_for (doms : gset string) (s : tap) (k : string) : Prop :=
  exists name cand ips, Fqdn name ∈ doms /\ cand ∈ candidates (searchDomains s) (ndots s) name /\
    (cand, Some ips) ∈ lookups s /\ k ∈ ip_texts ips.

Definition configuration (s : tap) :=
  (fwRules_Rules s, fwRules_Count s, fwRules_MaxConnections s, connections s, upstreamDNS s,
   searchDomains s, ndots s).

(** A lookup the resolver made. *)
Definition asked (e : string * option (list IP)) : Prop := exists w, fst (LookupIP w (fst e)) = snd e.

(** Same configuration, same domains, no lookup forgotten or invented, and no
    address allowed that the resolver did not give to one of the domains. *)
Record evolves (s s' : tap) : Prop := {
  ev_config : configuration s' = configuration s;
  ev_domains : dom (domainMap s') = dom (domainMap s);
  ev_lookups : lookups s `suffix_of` lookups s';
  ev_asked : Forall asked (lookups s) -> Forall asked (lookups s');
  ev_allowed k : is_Some (allowedIps s' !! k) -> is_Some (allowedIps s !! k) \/ answered_for (dom (domainMap s)) s' k
}.

Lemma answered_for_mono doms s s' k :
  configuration s' = configuration s -> lookups s `suffix_of` lookups s' -> answered_for doms s k -> answered_for doms s' k.
Proof.
  intros Hc [l Hl] (name & cand & ips & H1 & H2 & H3 & H4). injection Hc as _ _ _ _ _ Hs Hn.
  exists name, cand, ips. rewrite Hs, Hn, Hl. set_solver.
Qed.

#[export] Instance evolves_preorder : PreOrder evolves.
Proof.
  split.
  - intros s. by split; [| | | |auto].
  - intros s1 s2 s3 [C1 D1 L1 Q1 A1] [C2 D2 L2 Q2 A2]. split; [congruence..|by etrans|auto|].
    intros k [Hk|Hk]%A2.
    + apply A1 in Hk as [Hk|Hk]; [by left|]. right. by eapply answered_for_mono.
    + right. by rewrite <- D1.
Qed.

(** A step that changes nothing but the host, the lookups and the denied names. *)
Lemma evolves_quiet s s' l :
  configuration s' = configuration s -> domainMap s' = domainMap s -> allowedIps s' = allowedIps s ->
  lookups s' = l ++ lookups s -> Forall asked l -> evolves s s'.
Proof.
  intros Hc Hd Ha Hl Hq. split; [done|by rewrite Hd|by exists l| |rewrite Ha; auto].
  intros Hs. rewrite Hl. by apply Forall_app.
Qed.

Lemma foldl_delete_lookup (old : list string) (m : gmap string Z) k :
  is_Some (foldl (fun m ip => delete ip m) m old !! k) <-> is_Some (m !! k) /\ k ∉ old.
Proof.
  revert m. induction old as [|a old IH]; intros m; cbn [foldl]; [set_solver|].
  rewrite IH, lookup_delete_is_Some. set_solver.
Qed.

Lemma foldl_insert_lookup (new : list string) (m : gmap string Z) k :
  is_Some (foldl (fun m ip => insert ip 1 m) m new !! k) <-> is_Some (m !! k) \/ k ∈ new.
Proof.
  revert m. induction new as [|a new IH]; intros m; cbn [foldl]; [set_solver|].
  rewrite IH, lookup_insert_is_Some. destruct (decide (a = k)); set_solver.
Qed.

(** *** The lookups *)

Lemma try_candidate_eq c s :
  try_candidate c s =
    let '(r, w) := LookupIP (net s) c in
    (Ok (match r with Some l => Some (c, Some l) | None => None end), s <| net := w |> <| lookups ::= cons (c, r) |>).
Proof. unfold try_candidate, lookup_ip, mbind, prog_bind. by destruct (LookupIP (net s) c) as [[ips|] w]. Qed.

Lemma lookup_each cands s :
  exists found w l,
    for_return cands try_candidate s = (Ok found, s <| net := w |> <| lookups := l ++ lookups s |>) /\
    Forall asked l /\
    match found with
    | Some (cand, Some ips) => cand ∈ cands /\ (cand, Some ips) ∈ l
    | Some (_, None) => False
    | None => True
    end.
Proof.
  revert s. induction cands as [|c cands IH]; intros s.
  { exists None, (net s), []. split; [by destruct s | by split]. }
  cbn [for_return]. unfold mbind at 1, prog_bind at 1. rewrite try_candidate_eq.
  assert (asked (c, fst (LookupIP (net s) c))) as Hq by by exists (net s).
  destruct (LookupIP (net s) c) as [[ips|] w] eqn:E; cbn [fst] in Hq.
  - exists (Some (c, Some ips)), w, [(c, Some ips)]. split; [by destruct s|]. split; [by constructor|]. split; left.
  - specialize (IH (s <| net := w |> <| lookups ::= cons (c, None) |>)).
    destruct IH as (found & w' & l & IH & Hl & Hf). cbn. rewrite IH. exists found, w', (l ++ [(c, None)]).
    split; [by destruct s; cbn; rewrite <- app_assoc|]. split; [by apply Forall_app; auto|]. destruct found as [[c' [ips|]]|]; set_solver.
Qed.

Lemma lookupWithSearch_spec name s :
  exists cand ips w l,
    lookupWithSearch name s = (Ok (cand, ips), s <| net := w |> <| lookups := l ++ lookups s |>) /\
    Forall asked l /\
    match ips with
    | Some ips => cand ∈ candidates (searchDomains s) (ndots s) name /\ (cand, Some ips) ∈ l
    | None => True
    end.
Proof.
  unfold lookupWithSearch, gets. unfold mbind, prog_bind.
  destruct (lookup_each (candidates (searchDomains s) (ndots s) name) s) as (found & w & l & -> & Hl & Hf).
  destruct found as [[cand [ips|]]|]; [|done|].
  - by exists cand, (Some ips), w, l.
  - by exists name, None, w, l.
Qed.

(** *** Queries *)

Lemma updateFirewall_evolves name cand ips s :
  cand ∈ candidates (searchDomains s) (ndots s) name -> (cand, Some ips) ∈ lookups s ->
  evolves s (final (updateFirewall name ips) s).
Proof.
  intros Hc Hl. unfold updateFirewall, modify, final. cbn [snd].
  destruct (domainMap s !! Fqdn name) as [old|] eqn:E; [|by apply evolves_quiet with []].
  split; [done| |by exists []|done|].
  - cbn. rewrite dom_insert_L. apply elem_of_dom_2 in E. set_solver.
  - intros k. cbn. rewrite foldl_insert_lookup, foldl_delete_lookup. intros [[Hk _]|Hk]; [by left|].
    right. exists name, cand, ips. cbn. apply elem_of_dom_2 in E. done.
Qed.

(** Every query has an answer or an error, and evolves the state. *)
Lemma handleDNSQuery_runs qs s :
  exists r s', handleDNSQuery qs s = (Ok r, s') /\ evolves s s'.
Proof.
  destruct qs as [|[name qtype] qs]; [by eexists _, s|]. cbn [handleDNSQuery].
  destruct (qtype =? TypeA); [|by eexists _, s].
  unfold firewallDns, gets. unfold mbind at 1, prog_bind at 1. destruct (negb _); [by eexists _, s|].
  destruct (lookupWithSearch_spec name s) as (cand & ips & w & l & E & Hq & Hf). rewrite (bind_ok _ _ _ _ _ E).
  assert (evolves s (s <| net := w |> <| lookups := l ++ lookups s |>)) as He by by apply evolves_quiet with l.
  cbn [snd]. destruct ips as [ips|]; [|by eexists _, _]. destruct (mapM _ ips) as [rrs|]; [|by eexists _, _].
  eexists _, _. split; [reflexivity|]. etrans; [exact He|].
  destruct Hf as [Hc Hl]. apply (updateFirewall_evolves name cand ips); [done|]. cbn. set_solver.
Qed.

Lemma handleDNS_runs p s : exists r s', handleDNS p s = (Ok r, s') /\ evolves s s'.
Proof.
  destruct p as [[opcode qs]|]; [|by eexists _, s]. cbn. destruct (negb _); [by eexists _, s|].
  destruct (handleDNSQuery_runs qs s) as (r & s' & E & He). rewrite (bind_ok _ _ _ _ _ E). by eexists _, _.
Qed.

Lemma solveDomainName_runs d s : exists s', solveDomainName d s = (Ok tt, s') /\ evolves s s'.
Proof.
  unfold solveDomainName. destruct (handleDNSQuery_runs [(Fqdn d, TypeA)] s) as (r & s' & E & He).
  exists s'. by rewrite (bind_ok _ _ _ _ _ E).
Qed.

Lemma solve_each_runs domains s : exists s', for_each domains solveDomainName s = (Ok tt, s') /\ evolves s s'.
Proof.
  revert s. induction domains as [|d domains IH]; intros s; [by exists s|]. cbn [for_each].
  destruct (solveDomainName_runs d s) as (s1 & E & H1). rewrite (bind_ok _ _ _ _ _ E).
  destruct (IH s1) as (s2 & E2 & H2). exists s2. split; [done | by etrans].
Qed.

(** *** Connections *)

Definition net_ip (a : net_addr) : option IP :=
  match a with TCPAddr a | UDPAddr a => Some (addr_ip a) | OtherAddr _ => None end.

Definition allows (s : tap) (a : net_addr) : Prop :=
  exists ip, net_ip a = Some ip /\ is_Some (allowedIps s !! to4_string ip).

Lemma range_domains_runs s : exists l s', range_domains s = (Ok l, s') /\ evolves s s'.
Proof.
  unfold range_domains. destruct (range_order _ _) as [l w]. eexists _, _. split; [done|].
  by apply evolves_quiet with [].
Qed.

(** Under rules the decision evolves the state, and an address let through is in
    the table when it is made. *)
Lemma firewallConnection_rules a s :
  fwRules_MaxConnections s < 0 ->
  exists b s', firewallConnection a s = (Ok b, s') /\ evolves s s' /\
    (b = true -> fwRules_Count s <> 0 -> allows s' a).
Proof.
  intros Hm%Z.leb_gt. destruct a as [x|x|t]; [| |by exists false, s].
  all: cbn [firewallConnection]; unfold firewall_decision; rewrite bind_gets, Hm; cbv iota; rewrite bind_gets.
  all: destruct (Z.eqb_spec (fwRules_Count s) 0); [by exists true, s|].
  all: rewrite bind_is_allowed; destruct (bool_decide _) eqn:E;
    [exists true, s; apply bool_decide_eq_true in E; split_and!; [done..|by exists (addr_ip x)]|].
  all: destruct (range_domains_runs s) as (l & s1 & E1 & H1); rewrite (bind_ok _ _ _ _ _ E1).
  all: destruct (solve_each_runs l s1) as (s2 & E2 & H2); rewrite (bind_ok _ _ _ _ _ E2).
  all: eexists _, s2; split_and!; [reflexivity|by etrans|].
  all: intros Hb%bool_decide_eq_true _; by exists (addr_ip x).
Qed.

Lemma notify_cons pattern h entries a s :
  notify ((pattern, h) :: entries) a s =
    if patternMatches pattern a then
      match firewallConnection a s with
      | (Ok true, s') => (Ok (Some h), s')
      | (Ok false, s') => notify entries a s'
      | (Stop w, s') => (Stop w, s')
      end
    else notify entries a s.
Proof.
  unfold notify. cbn [for_return fst snd]. destruct (patternMatches pattern a); [|done].
  unfold mbind, prog_bind. by destruct (firewallConnection a s) as [[[]|w] s'].
Qed.

Lemma notify_rules entries a s :
  fwRules_MaxConnections s < 0 ->
  exists h s', notify entries a s = (Ok h, s') /\ evolves s s' /\
    (is_Some h -> fwRules_Count s <> 0 -> allows s' a).
Proof.
  revert s. induction entries as [|[pattern h] entries IH]; intros s Hm.
  { exists None, s. split; [done|]. split; [done|]. by intros [? ?]. }
  rewrite notify_cons. destruct (patternMatches pattern a); [|auto].
  destruct (firewallConnection_rules a s Hm) as (b & s1 & -> & H1 & Hb).
  destruct b; [by exists (Some h), s1; auto|].
  assert (configuration s1 = configuration s) as Hc by apply H1. injection Hc as _ Hn Hm1 _ _ _ _.
  destruct (IH s1) as (r & s2 & E2 & H2 & Hr); [by rewrite Hm1|].
  exists r, s2. split; [done|]. split; [by etrans|]. by rewrite Hn in Hr.
Qed.

(** Up to a bound the decision counts. *)
Lemma firewallConnection_limit a s :
  0 <= fwRules_MaxConnections s -> is_Some (net_ip a) ->
  firewallConnection a s =
    if connections s <? fwRules_MaxConnections s then (Ok true, s <| connections ::= Z.add 1 |>) else (Ok false, s).
Proof.
  intros Hm%Z.leb_le Ha. destruct a as [x|x|t]; [| |by destruct Ha]; cbn [firewallConnection].
  all: unfold firewall_decision; rewrite bind_gets, Hm; cbv iota; rewrite bind_gets; by destruct (_ <? _).
Qed.

(** A table whose last entry takes every address. *)
Definition catches_all (entries : list (string * tap_handler)) : Prop :=
  exists l h, entries = l ++ [("*", h)].

Lemma notify_limit entries a s :
  0 <= fwRules_MaxConnections s -> is_Some (net_ip a) -> catches_all entries ->
  exists h, notify entries a s =
      (Ok h, if connections s <? fwRules_MaxConnections s then s <| connections ::= Z.add 1 |> else s) /\
    bool_decide (is_Some h) = (connections s <? fwRules_MaxConnections s).
Proof.
  intros Hm Ha (l & h & ->). induction l as [|[pattern g] l IH]; cbn [app]; rewrite notify_cons.
  - change (patternMatches "*" a) with true. cbv iota.
    rewrite firewallConnection_limit by done. destruct (_ <? _); eexists; done.
  - destruct (patternMatches pattern a); [|done]. rewrite firewallConnection_limit by done.
    destruct (_ <? _) eqn:E; [by exists (Some g) | done].
Qed.

(** *** Sequences of requests *)

Definition request_ip (q : request) : option IP :=
  match q with AskTCP a | AskUDP a => Some (addr_ip a) | AskDNS _ => None end.

Lemma serve_one_rules q s :
  fwRules_MaxConnections s < 0 ->
  exists v s', serve_one q s = (Ok v, s') /\ evolves s s' /\
    (v = Some true -> fwRules_Count s <> 0 ->
     exists ip, request_ip q = Some ip /\ is_Some (allowedIps s' !! to4_string ip)).
Proof.
  intros Hm. destruct q as [a|a|p]; cbn [serve_one request_ip]; unfold notifyTCP, notifyUDP.
  3: { destruct (handleDNS_runs p s) as (r & s' & E & He). rewrite (bind_ok _ _ _ _ _ E). by exists None, s'. }
  1: destruct (notify_rules tcpHandlers (TCPAddr a) s Hm) as (h & s' & E & He & Hb).
  2: destruct (notify_rules udpHandlers (UDPAddr a) s Hm) as (h & s' & E & He & Hb).
  all: rewrite (bind_ok _ _ _ _ _ E); eexists _, s'; split_and!; [reflexivity|done|].
  all: intros [= Hs%bool_decide_eq_true] Hc; destruct (Hb Hs Hc) as (ip & [= <-] & Hi); by exists (addr_ip a).
Qed.

Lemma serve_rules qs s :
  fwRules_MaxConnections s < 0 -> exists vs s', serve qs s = (Ok vs, s') /\ evolves s s'.
Proof.
  revert s. induction qs as [|q qs IH]; intros s Hm; [by exists [], s|]. cbn [serve].
  destruct (serve_one_rules q s Hm) as (v & s1 & E1 & H1 & _). rewrite (bind_ok _ _ _ _ _ E1).
  assert (configuration s1 = configuration s) as Hc by apply H1. injection Hc as _ _ Hm1 _ _ _ _.
  destruct (IH s1) as (vs & s2 & E2 & H2); [by rewrite Hm1|]. rewrite (bind_ok _ _ _ _ _ E2).
  eexists _, s2. split; [reflexivity | by etrans].
Qed.

(** The connections among the requests. *)
Fixpoint connection_count (qs : list request) : nat :=
  match qs with
  | [] => O
  | q :: rest => match request_ip q with Some _ => S (connection_count rest) | None => connection_count rest end
  end.

Lemma serve_one_limit q s :
  0 <= fwRules_MaxConnections s ->
  exists s', serve_one q s =
      (Ok ((fun _ => connections s <? fwRules_MaxConnections s) <$> request_ip q), s') /\
    fwRules_MaxConnections s' = fwRules_MaxConnections s /\
    connections s' = match request_ip q with
                     | Some _ => if connections s <? fwRules_MaxConnections s then 1 + connections s else connections s
                     | None => connections s
                     end.
Proof.
  intros Hm. destruct q as [a|a|p]; cbn [serve_one request_ip]; unfold notifyTCP, notifyUDP.
  3: { destruct (handleDNS_runs p s) as (r & s' & E & [Hc _ _ _ _]). rewrite (bind_ok _ _ _ _ _ E).
       injection Hc as _ _ H1 H2 _ _ _. by exists s'. }
  1: destruct (notify_limit tcpHandlers (TCPAddr a) s Hm) as (h & E & Hb); [done|by exists [], ProxyConn|].
  2: destruct (notify_limit udpHandlers (UDPAddr a) s Hm) as (h & E & Hb);
       [done|by exists [(":53", HandleDNSPackets)], ProxyConn|].
  all: rewrite (bind_ok _ _ _ _ _ E), Hb; eexists; split; [reflexivity|]; by destruct (_ <? _).
Qed.

(** The verdicts up to a bound: as many connections go through as are left. *)
Definition bounded_verdicts (left : Z) (n : nat) : list bool := (fun i => Z.of_nat i <? left) <$> seq 0 n.

Lemma bounded_verdicts_S left n :
  bounded_verdicts left (S n) = (0 <? left) :: bounded_verdicts (if 0 <? left then left - 1 else left) n.
Proof.
  unfold bounded_verdicts. cbn [seq fmap list_fmap]. f_equal. rewrite <- fmap_S_seq, <- list_fmap_compose.
  apply list_fmap_ext. intros i x _. unfold compose. apply eq_bool_prop_intro.
  rewrite !Is_true_true, !Z.ltb_lt. destruct (Z.ltb_spec 0 left); lia.
Qed.

Lemma serve_limit qs s :
  0 <= fwRules_MaxConnections s ->
  exists s', serve qs s = (Ok (bounded_verdicts (fwRules_MaxConnections s - connections s) (connection_count qs)), s').
Proof.
  revert s. induction qs as [|q qs IH]; intros s Hm; [by exists s|]. cbn [serve connection_count].
  destruct (serve_one_limit q s Hm) as (s1 & E1 & Hm1 & Hc1). rewrite (bind_ok _ _ _ _ _ E1).
  destruct (IH s1) as (s2 & E2); [by rewrite Hm1|]. rewrite (bind_ok _ _ _ _ _ E2), Hm1, Hc1.
  exists s2. destruct (request_ip q); [|done]. cbn [fmap option_fmap option_map].
  rewrite bounded_verdicts_S.
  replace (0 <? _ - connections s) with (connections s <? fwRules_MaxConnections s) by
    (destruct (Z.ltb_spec (connections s) (fwRules_MaxConnections s)), (Z.ltb_spec 0 (fwRules_MaxConnections s - connections s)); lia).
  destruct (_ <? _); [|done].
  by replace (fwRules_MaxConnections s - (1 + connections s)) with (fwRules_MaxConnections s - connections s - 1) by lia.
Qed.

(** *** The start *)

(** The bound and the rules of a policy text; [None] when its first line is no
    number. *)
Definition policy_of (text : string) : option (Z * list string) :=
  match scan_lines text with
  | [] => None
  | l :: ls => (fun n => (n, TrimSpace <$> ls)) <$> ParseInt (TrimSpace l)
  end.

Definition is_file (w : world) (path : string) : bool :=
  match os_Stat w path with Some isDir => negb isDir | None => false end.

(** The file the policy is read from. *)
Definition policy_file (w : world) (args : list string) : option string :=
  let given := match args with _ :: p :: _ => if is_file w p then p else "" | _ => "" end in
  if negb (empty given) then Some given
  else if is_file w "/tmp/firewall.rules" then Some "/tmp/firewall.rules" else None.

(** The policy in force; without one no connection is allowed. *)
Definition policy_in (w : world) (path : string) : Z * list string :=
  match os_Open w path with
  | Some text => default (0, []) (policy_of text)
  | None => (0, [])
  end.

Definition policy (w : world) (args : list string) : Z * list string :=
  match policy_file w args with Some p => policy_in w p | None => (0, []) end.

Definition literals (rs : list string) : list string := filter (fun r => is_Some (ParseIP r)) rs.
Definition domains (rs : list string) : list string := Fqdn <$> filter (fun r => ~ is_Some (ParseIP r)) rs.

(** The state behind the start with the bound [n] and the rules [rs]. *)
Record started (n : Z) (rs : list string) (s : tap) : Prop := {
  st_rules : fwRules_Rules s = rs;
  st_count : fwRules_Count s = Z.of_nat (length rs);
  st_max : fwRules_MaxConnections s = n;
  st_connections : connections s = 0;
  st_allowed k : is_Some (allowedIps s !! k) <-> k ∈ literals rs \/ SplitHost (upstreamDNS s) = Some k;
  st_domains d : is_Some (domainMap s !! d) <-> d ∈ domains rs;
  st_fresh d l : domainMap s !! d = Some l -> l = [];
  st_lookups : lookups s = []
}.

Lemma read_rules_more ls s :
  read_rules 1 ls s =
    (Ok tt, s <| fwRules_Rules ::= fun l => l ++ (TrimSpace <$> ls) |> <| fwRules_Count ::= Z.add (Z.of_nat (length ls)) |>).
Proof.
  revert s. induction ls as [|l ls IH]; intros s.
  { destruct s. unfold map_field, set_Rules, set_Count. cbn. by rewrite app_nil_r. }
  cbn [read_rules]. change (1 =? 0) with false. cbv iota zeta.
  rewrite (bind_ok (MiniTapSetupFirewallRule _) _ s tt _ eq_refl), IH.
  destruct s. unfold map_field, set_Rules, set_Count. cbn. rewrite <- app_assoc. do 2 f_equal. lia.
Qed.

Lemma read_rules_eq text s :
  fwRules_Rules s = [] -> fwRules_Count s = 0 ->
  read_rules 0 (scan_lines text) s =
    (Ok tt, match policy_of text with
            | Some (n, rs) => s <| fwRules_MaxConnections := n |> <| fwRules_Rules := rs |> <| fwRules_Count := Z.of_nat (length rs) |>
            | None => s
            end).
Proof.
  intros Hr Hc. unfold policy_of. destruct (scan_lines text) as [|l ls]; [done|]. cbn [read_rules]. cbn iota.
  change (0 =? 0) with true. cbv iota. destruct (ParseInt (TrimSpace l)) as [n|]; [|done].
  cbn [fmap option_fmap option_map]. rewrite (bind_ok (MiniTapSetupMaxConnections n) _ s tt _ eq_refl).
  change (0 + 1) with 1. rewrite read_rules_more. destruct s. cbn in Hr, Hc |- *. subst.
  unfold map_field, set_Rules, set_Count, set_MaxConnections. cbn. rewrite length_fmap. do 2 f_equal. lia.
Qed.

Lemma ParseArg_eq args w :
  ParseArg args (initial_tap w) =
    (Ok tt, (initial_tap w) <| fwRules_MaxConnections := fst (policy w args) |>
              <| fwRules_Rules := snd (policy w args) |>
              <| fwRules_Count := Z.of_nat (length (snd (policy w args))) |>).
Proof.
  assert (forall p, fileExists p (initial_tap w) = (Ok (is_file w p), initial_tap w)) as Hf by done.
  assert (forall p, ReadFirewallRules p (initial_tap w) =
    (Ok tt, (initial_tap w) <| fwRules_MaxConnections := fst (policy_in w p) |>
              <| fwRules_Rules := snd (policy_in w p) |>
              <| fwRules_Count := Z.of_nat (length (snd (policy_in w p))) |>)) as Hread.
  { intros p. unfold ReadFirewallRules, policy_in. rewrite bind_gets. cbn [net initial_tap].
    destruct (os_Open w p) as [text|]; [|done]. rewrite read_rules_eq by done.
    by destruct (policy_of text) as [[n rs]|]. }
  unfold ParseArg, policy, policy_file. set (given := match args with _ :: p :: _ => if is_file w p then p else "" | _ => "" end).
  erewrite (bind_ok _ _ _ given (initial_tap w)); cycle 1.
  { unfold given. destruct args as [|a [|p args]]; [done..|]. by rewrite (bind_ok _ _ _ _ _ (Hf p)). }
  destruct (empty given) eqn:Eg; cbn [negb].
  - rewrite (bind_ok _ _ _ _ _ (Hf _)). destruct (is_file w _); cbn iota; [apply Hread | by rewrite Eg].
  - rewrite (bind_ok (mret false) _ (initial_tap w) false (initial_tap w) eq_refl). cbn iota. by rewrite Eg, Hread.
Qed.

(** The host the upstream server is reached at is allowed from the start. *)
Lemma setUpstreamDNS_runs s :
  upstreamDNS s = "" -> allowedIps s = ∅ ->
  exists up search nd al,
    setUpstreamDNS s = (Ok tt, s <| upstreamDNS := up |> <| searchDomains := search |> <| ndots := nd |> <| allowedIps := al |>) /\
    (forall k, is_Some (al !! k) <-> SplitHost up = Some k).
Proof.
  intros Hup Hal. destruct s as [R C M A D c dm up search nd w lk]. cbn in Hup, Hal. subst up A.
  assert (forall up search nd, exists al,
    (match SplitHost up with
     | Some host => modify (fun s : tap => s <| allowedIps ::= insert host 1 |>)
     | None => mret tt
     end) (mkTap R C M ∅ D c dm up search nd w lk) = (Ok tt, mkTap R C M al D c dm up search nd w lk) /\
    (forall k, is_Some (al !! k) <-> SplitHost up = Some k)) as Hlast.
  { intros up se n. destruct (SplitHost up) as [h|].
    - exists (<[h := 1]> ∅). split; [done|]. intros k. rewrite lookup_insert_is_Some, lookup_empty. split.
      + intros [->|[_ [? ?]]]; done.
      + intros [= ->]. by left.
    - exists ∅. split; [done|]. intros k. rewrite lookup_empty. split; [by intros [? ?] | done]. }
  unfold setUpstreamDNS. rewrite bind_gets. cbn [upstreamDNS empty negb]. cbv iota. rewrite bind_gets. cbn [net].
  destruct (ClientConfig w) as [[[[[|server l] port] se] n]|].
  2: { set (up := JoinHostPort server (if empty port then "53" else port)).
       set (n' := if 0 <? n then n else nd). destruct (Hlast up se n') as (al & E & Hal).
       exists up, se, n', al. split; [|done].
       rewrite (bind_ok _ _ _ tt (mkTap R C M ∅ D c dm up se n' w lk)); [exact E|].
       unfold n'. by destruct (0 <? n). }
  all: destruct (Hlast "8.8.8.8:53" search nd) as (al & E & Hal); exists "8.8.8.8:53", search, nd, al; done.
Qed.

Lemma literals_snoc rs r : literals (rs ++ [r]) = literals rs ++ (if decide (is_Some (ParseIP r)) then [r] else []).
Proof. unfold literals. rewrite filter_app. by rewrite filter_cons. Qed.

Lemma domains_snoc rs r : domains (rs ++ [r]) = domains rs ++ (if decide (is_Some (ParseIP r)) then [] else [Fqdn r]).
Proof.
  unfold domains. rewrite filter_app, fmap_app, filter_cons.
  destruct (decide (~ is_Some (ParseIP r))), (decide (is_Some (ParseIP r))); done.
Qed.

Lemma init_rules_runs n s :
  (n <= length (fwRules_Rules s))%nat ->
  exists al dm,
    init_rules n s = (Ok tt, s <| allowedIps := al |> <| domainMap := dm |>) /\
    (forall k, is_Some (al !! k) <-> is_Some (allowedIps s !! k) \/ k ∈ literals (take n (fwRules_Rules s))) /\
    (forall d, is_Some (dm !! d) <-> is_Some (domainMap s !! d) \/ d ∈ domains (take n (fwRules_Rules s))) /\
    (forall d l, dm !! d = Some l -> l = [] \/ domainMap s !! d = Some l).
Proof.
  revert s. induction n as [|n IH]; intros s Hn.
  { exists (allowedIps s), (domainMap s). split; [by destruct s|]. cbn. set_solver. }
  destruct (lookup_lt_is_Some_2 (fwRules_Rules s) n) as [r Hr]; [lia|].
  cbn [init_rules]. rewrite bind_gets, Hr, (take_S_r _ _ _ Hr), literals_snoc, domains_snoc.
  destruct (ParseIP r) as [ip|] eqn:Er; cbn [is_Some].
  - rewrite (bind_ok _ _ s tt (s <| allowedIps ::= insert r 1 |>) eq_refl).
    destruct (IH (s <| allowedIps ::= insert r 1 |>)) as (al & dm & E & Ha & Hd & Hf); [cbn; lia|].
    exists al, dm. split; [exact E|]. destruct (decide _) as [_|Hx]; [|by destruct Hx]. split_and!.
    + intros k. rewrite Ha. cbn. rewrite lookup_insert_is_Some. destruct (decide (r = k)); set_solver.
    + intros d. rewrite Hd. cbn. by rewrite app_nil_r.
    + exact Hf.
  - rewrite (bind_ok _ _ s tt (s <| domainMap ::= insert (Fqdn r) [] |>) eq_refl).
    destruct (IH (s <| domainMap ::= insert (Fqdn r) [] |>)) as (al & dm & E & Ha & Hd & Hf); [cbn; lia|].
    exists al, dm. split; [exact E|]. destruct (decide _) as [[? ?]|_]; [done|]. split_and!.
    + intros k. rewrite Ha. cbn. by rewrite app_nil_r.
    + intros d. rewrite Hd. cbn. rewrite lookup_insert_is_Some. destruct (decide (Fqdn r = d)); set_solver.
    + intros d l H'. destruct (Hf d l H') as [->|H'']; [by left|]. cbn in H''.
      destruct (decide (Fqdn r = d)) as [<-|]; [rewrite lookup_insert_eq in H''; left; congruence|].
      rewrite lookup_insert_ne in H'' by done. by right.
Qed.

Lemma start_filter_runs args w :
  exists s, start_filter args (initial_tap w) = (Ok tt, s) /\ net s = w /\
    started (fst (policy w args)) (snd (policy w args)) s.
Proof.
  unfold start_filter. rewrite (bind_ok _ _ _ _ _ (ParseArg_eq args w)). destruct (policy w args) as [n rs].
  destruct (setUpstreamDNS_runs ((initial_tap w) <| fwRules_MaxConnections := n |> <| fwRules_Rules := rs |>
    <| fwRules_Count := Z.of_nat (length rs) |>)) as (up & search & nd & al & E & Hal); [done..|].
  rewrite (bind_ok _ _ _ _ _ E). unfold InitFirewall. rewrite bind_gets. cbn [fst snd].
  match goal with |- context [fwRules_Count ?x] => change (fwRules_Count x) with (Z.of_nat (length rs)) end.
  destruct (Z.eqb_spec (Z.of_nat (length rs)) 0) as [Hz|_].
  - eexists. split; [reflexivity|]. split; [done|]. destruct rs; [|done]. split; try done.
    + intros k. cbn. rewrite Hal. set_solver.
    + intros d. cbn. rewrite lookup_empty. split; [by intros [? ?] | set_solver].
  - rewrite Nat2Z.id. match goal with |- context [init_rules _ ?x] =>
      destruct (init_rules_runs (length rs) x) as (al' & dm & E' & Ha & Hd & Hf); [done|] end.
    change (fwRules_Rules _) with rs in Ha, Hd. rewrite take_ge in Ha, Hd by done.
    eexists. split; [exact E'|]. split; [done|]. split; try done.
    + intros k. cbn. rewrite Ha. cbn. rewrite Hal. tauto.
    + intros d. cbn. rewrite Hd. cbn. rewrite lookup_empty. split; [intros [[? ?]|]; done | auto].
    + intros d l Hl. cbn in Hl. destruct (Hf d l Hl) as [|Hx]; [done|]. cbn in Hx. by rewrite lookup_empty in Hx.
Qed.

(** *** Without a policy *)

(** The state in which nothing is allowed. *)
Definition closed (s : tap) : Prop := fwRules_Count s = 0 /\ 0 <= fwRules_MaxConnections s <= connections s.

Lemma handleDNS_closed p s : closed s -> exists r, handleDNS p s = (Ok r, s).
Proof.
  intros [Hc [Hm Hn]]. destruct p as [[opcode [|[name qtype] qs]]|]; cbn; [..|by exists None];
    (destruct (negb _); [by exists None|]); [by eexists|].
  destruct (qtype =? TypeA); [|by eexists]. eexists. unfold mbind, prog_bind, firewallDns, gets.
  rewrite Hc. change (0 =? 0) with true. cbv iota.
  rewrite (proj2 (Z.ltb_ge _ 0)), (proj2 (Z.ltb_ge _ _)) by lia. reflexivity.
Qed.

Lemma serve_closed qs s : closed s -> serve qs s = (Ok (replicate (connection_count qs) false), s).
Proof.
  intros Hs. destruct Hs as [Hc [Hm Hn]] eqn:Es.
  assert ((connections s <? fwRules_MaxConnections s) = false) as Hlt by by apply Z.ltb_ge.
  induction qs as [|q qs IH]; [done|]. cbn [serve connection_count].
  assert (exists v, serve_one q s = (Ok v, s) /\ v = (fun _ => false) <$> request_ip q) as (v & E & ->).
  { destruct q as [a|a|p]; cbn [serve_one request_ip]; unfold notifyTCP, notifyUDP.
    - destruct (notify_limit tcpHandlers (TCPAddr a) s Hm) as (h & E & Hb); [done|by exists [], ProxyConn|].
      rewrite (bind_ok _ _ _ _ _ E), Hb, Hlt. by eexists.
    - destruct (notify_limit udpHandlers (UDPAddr a) s Hm) as (h & E & Hb);
        [done|by exists [(":53", HandleDNSPackets)], ProxyConn|].
      rewrite (bind_ok _ _ _ _ _ E), Hb, Hlt. by eexists.
    - destruct (handleDNS_closed p s Hs) as (r & E). rewrite (bind_ok _ _ _ _ _ E). by eexists. }
  rewrite (bind_ok _ _ _ _ _ E), (bind_ok _ _ _ _ _ IH). by destruct (request_ip q).
Qed.

(** *** Where an admitted address comes from *)

Lemma admitted_origin n rs s qs vs s1 q v s2 :
  started n rs s -> n < 0 -> rs <> [] -> serve qs s = (Ok vs, s1) -> serve_one q s1 = (Ok v, s2) -> v = Some true ->
  exists ip, request_ip q = Some ip /\ Forall asked (lookups s2) /\
    (to4_string ip ∈ literals rs \/ SplitHost (upstreamDNS s) = Some (to4_string ip) \/
     answered_for (list_to_set (domains rs)) s2 (to4_string ip)).
Proof.
  intros [Hr Hc Hm _ Ha Hd _ Hl] Hn Hne E1 E2 Hv.
  destruct (serve_rules qs s) as (vs' & s1' & E1' & H1); [by rewrite Hm|].
  rewrite E1 in E1'. injection E1' as <- <-. pose proof H1 as [C1 _ _ _ _]. injection C1 as _ Hc1 Hm1 _ _ _ _.
  destruct (serve_one_rules q s1) as (v' & s2' & E2' & H2 & Hin); [by rewrite Hm1, Hm|].
  rewrite E2 in E2'. injection E2' as <- <-. destruct (Hin Hv) as (ip & Hip & Hs).
  { rewrite Hc1, Hc. destruct rs; [done|]. cbn. lia. }
  exists ip. split; [done|]. destruct (transitivity H1 H2) as [_ _ _ Q A].
  split; [apply Q; by rewrite Hl|].
  replace (list_to_set (domains rs) : gset string) with (dom (domainMap s)).
  - destruct (A _ Hs) as [Hk|Hk]; [|by right; right]. apply Ha in Hk as [?|?]; auto.
  - apply set_eq. intros d. by rewrite elem_of_dom, elem_of_list_to_set, Hd.
Qed.

(** *** What a rule names *)

(** A rule without colon and percent sign that is an address is the address
    whose text it is. *)
Lemma literal_exact r ip dest :
  has_char ":" (chars r) = false -> has_char "%" (chars r) = false -> ParseIP r = Some ip ->
  Forall is_byte dest -> to4_string dest = r <-> To4 dest = To4 ip.
Proof.
  intros H1 H2 Hp Hb. rewrite ParseIP_plain in Hp by done.
  destruct (parseIPv4 (chars r)) as [f|] eqn:E; [|done]. injection Hp as <-.
  pose proof E as Hf. apply parseIPv4_exact in Hf as (Hl & Hf & ->).
  rewrite To4_v4_in_v6 by done. unfold to4_string. split.
  - destruct (To4 dest) as [g|] eqn:Eg; [|intros Hx; rewrite <- Hx in E; vm_compute in E; discriminate].
    intros Hd. f_equal. apply dotted_inj; [exact (To4_length _ _ Eg)|done|exact (To4_bytes _ _ Hb Eg)|done|done].
  - by intros ->.
Qed.

End FilterFacts.
