(* ===== verification/NetPolicy.v ===== *)
(** * The policy the network filter enforces

    For a host whose resolver always gives the same answers the filter of
    NetFilter.v decides every connection as a fixed policy does, whatever was
    asked before; the properties of the filter, and the instances they are
    shown on. *)

From S2P Require Import Prelude Monad CxxString GoStd NetFilter.
From Stdlib Require Import Ascii.
Open Scope sbx_scope.
Open Scope Z_scope.

(** ** The reference policy

    For a host whose resolver always gives the same answers the decision does
    not depend on the requests before it. *)

Section ConstantResolver.
Context `{H : TapHost}.
Context (answers : string -> option (list IP)).
Context (Hanswers : forall w c, fst (LookupIP w c) = answers c).
Context (Hfqdn : forall d, Fqdn (Fqdn d) = Fqdn d).
Context (Hrr : forall t, is_Some (NewRR t)).
Context (Horder : forall w l, fst (range_order w l) ≡ₚ l).

(** The first answer to the candidates of a name. *)
Fixpoint first_answer (cands : list string) : option (list IP) :=
  match cands with
  | [] => None
  | c :: rest => match answers c with Some ips => Some ips | None => first_answer rest end
  end.

Definition resolved (search : list string) (nd : Z) (d : string) : list string :=
  match first_answer (candidates search nd d) with Some ips => ip_texts ips | None => [] end.

(** The addresses the policy [rs] stands for. *)
Definition permitted (rs : list string) (s : tap) (k : string) : Prop :=
  k ∈ literals rs \/ SplitHost (upstreamDNS s) = Some k \/
  exists d, d ∈ domains rs /\ k ∈ resolved (searchDomains s) (ndots s) d.

(** Every domain holds nothing or its answer, whose addresses are allowed. *)
Record settled (rs : list string) (s : tap) : Prop := {
  se_rules : fwRules_Count s = Z.of_nat (length rs);
  se_base k : k ∈ literals rs \/ SplitHost (upstreamDNS s) = Some k -> is_Some (allowedIps s !! k);
  se_sound k : is_Some (allowedIps s !! k) -> permitted rs s k;
  se_domains d : is_Some (domainMap s !! d) <-> d ∈ domains rs;
  se_values d l : domainMap s !! d = Some l -> l = [] \/ l = resolved (searchDomains s) (ndots s) d;
  se_kept d l k : domainMap s !! d = Some l -> k ∈ l -> is_Some (allowedIps s !! k)
}.

Lemma started_settled n rs s : started n rs s -> settled rs s.
Proof.
  intros [Hr Hc Hm Hn Ha Hd Hf Hl]. split; [done| | |done| |].
  - intros k. by rewrite Ha.
  - intros k. rewrite Ha. unfold permitted. tauto.
  - intros d l Hdl. left. by apply Hf in Hdl.
  - intros d l k Hdl. apply Hf in Hdl as ->. set_solver.
Qed.

Lemma lookup_each_const cands s :
  exists found w l,
    for_return cands try_candidate s = (Ok found, s <| net := w |> <| lookups := l ++ lookups s |>) /\
    (found ≫= snd) = first_answer cands.
Proof.
  revert s. induction cands as [|c cands IH]; intros s; [exists None, (net s), []; by destruct s|].
  cbn [for_return first_answer]. unfold mbind at 1, prog_bind at 1. rewrite try_candidate_eq.
  pose proof (Hanswers (net s) c) as Hc. destruct (LookupIP (net s) c) as [[ips|] w]; cbn in Hc; rewrite <- Hc.
  - exists (Some (c, Some ips)), w, [(c, Some ips)]. by destruct s.
  - destruct (IH (s <| net := w |> <| lookups ::= cons (c, None) |>)) as (found & w' & l & IH' & Hf).
    cbn. rewrite IH'. exists found, w', (l ++ [(c, None)]). split; [|done].
    destruct s; cbn. by rewrite <- app_assoc.
Qed.

Lemma lookupWithSearch_const name s :
  exists cand w l,
    lookupWithSearch name s =
      (Ok (cand, first_answer (candidates (searchDomains s) (ndots s) name)),
       s <| net := w |> <| lookups := l ++ lookups s |>).
Proof.
  unfold lookupWithSearch. rewrite !bind_gets.
  destruct (lookup_each_const (candidates (searchDomains s) (ndots s) name) s) as (found & w & l & E & Hf).
  rewrite (bind_ok _ _ _ _ _ E), <- Hf.
  destruct found as [[cand ips]|]; [by exists cand, w, l | by exists name, w, l].
Qed.

Lemma all_records name ips : exists rrs, mapM (fun ip => NewRR (name +:+ " A " +:+ ip_string ip)) ips = Some rrs.
Proof.
  induction ips as [|ip ips [rrs IH]]; [by exists []|].
  destruct (Hrr (name +:+ " A " +:+ ip_string ip)) as [x Hx]. exists (x :: rrs). cbn. by rewrite Hx, IH.
Qed.

Context (rs : list string) (Hrs : rs <> []).

Definition holds_more (s s' : tap) : Prop :=
  settled rs s' /\ configuration s' = configuration s /\
  forall k, is_Some (allowedIps s !! k) -> is_Some (allowedIps s' !! k).

Lemma holds_more_refl s : settled rs s -> holds_more s s.
Proof. by intros Hs. Qed.

Lemma holds_more_trans s1 s2 s3 : holds_more s1 s2 -> holds_more s2 s3 -> holds_more s1 s3.
Proof. intros (_ & C1 & A1) (S2 & C2 & A2). split; [done|]. split; [congruence | auto]. Qed.

Lemma settled_quiet s s' :
  configuration s' = configuration s -> allowedIps s' = allowedIps s -> domainMap s' = domainMap s ->
  settled rs s -> holds_more s s'.
Proof.
  intros Hc Ha Hd [S1 S2 S3 S4 S5 S6]. split; [|split; [done|by rewrite Ha]].
  injection Hc as _ Hc _ _ Hu Hse Hnd. split; unfold permitted; rewrite ?Hc, ?Ha, ?Hd, ?Hu, ?Hse, ?Hnd; try done.
Qed.

(** A domain gets its answer once more: nothing is lost. *)
Lemma updateFirewall_settled name ips s :
  settled rs s -> Fqdn name = name -> name ∈ domains rs ->
  first_answer (candidates (searchDomains s) (ndots s) name) = Some ips ->
  let s' := final (updateFirewall name ips) s in
  holds_more s s' /\ forall k, k ∈ ip_texts ips -> is_Some (allowedIps s' !! k).
Proof.
  intros [S1 S2 S3 S4 S5 S6] Hname Hdom Hans.
  assert (resolved (searchDomains s) (ndots s) name = ip_texts ips) as Hres by (unfold resolved; by rewrite Hans).
  unfold updateFirewall, modify, final. cbn [snd]. rewrite Hname.
  destruct (proj2 (S4 name) Hdom) as [old Hold]. rewrite Hold.
  assert (forall k, is_Some (foldl (fun m ip => insert ip 1 m) (foldl (fun m ip => delete ip m) (allowedIps s) old)
    (ip_texts ips) !! k) <-> is_Some (allowedIps s !! k) \/ k ∈ ip_texts ips) as Hk.
  { intros k. rewrite foldl_insert_lookup, foldl_delete_lookup. rewrite <- Hres.
    destruct (S5 _ _ Hold) as [-> | ->]; [set_solver|].
    destruct (decide (k ∈ resolved (searchDomains s) (ndots s) name)); tauto. }
  cbn zeta. split; [|intros k Hin; cbn; apply Hk; auto].
  split; [|split; [done | intros k Hs; cbn; apply Hk; auto]]. split; cbn.
  - done.
  - intros k Hb. apply Hk. auto.
  - intros k [Hs|Hs]%Hk; [by apply S3|]. right. right. exists name. cbn. by rewrite Hres.
  - intros d. rewrite lookup_insert_is_Some, S4. destruct (decide (name = d)) as [<-|]; tauto.
  - intros d l. destruct (decide (name = d)) as [<-|Hne].
    + rewrite lookup_insert_eq. intros [= <-]. by right.
    + rewrite lookup_insert_ne by done. apply S5.
  - intros d l k. rewrite Hk. destruct (decide (name = d)) as [<-|Hne].
    + rewrite lookup_insert_eq. intros [= <-]. auto.
    + rewrite lookup_insert_ne by done. intros Hl Hin. left. by apply (S6 d l).
Qed.

Lemma query_settled name t qs s :
  settled rs s -> Fqdn name = name ->
  exists r s', handleDNSQuery ((name, t) :: qs) s = (Ok r, s') /\ holds_more s s' /\
    (t = TypeA -> name ∈ domains rs ->
     forall k, k ∈ resolved (searchDomains s) (ndots s) name -> is_Some (allowedIps s' !! k)).
Proof.
  intros Hs Hname. cbn [handleDNSQuery]. destruct (Z.eqb_spec t TypeA) as [->|]; [|by exists None, s; auto using holds_more_refl].
  unfold firewallDns. rewrite bind_gets. pose proof Hs as [S1 _ _ S4 _ _]. rewrite S1.
  destruct (Z.eqb_spec (Z.of_nat (length rs)) 0) as [Hz|_]; [by destruct rs|]. rewrite Hname.
  destruct (bool_decide _) eqn:Ed; cbn [negb].
  2: { apply bool_decide_eq_false in Ed. rewrite S4 in Ed. exists None, s. auto using holds_more_refl. done. }
  apply bool_decide_eq_true, S4 in Ed.
  destruct (lookupWithSearch_const name s) as (cand & w & l & E). rewrite (bind_ok _ _ _ _ _ E). cbn [snd].
  set (s1 := s <| net := w |> <| lookups := l ++ lookups s |>).
  assert (holds_more s s1) as H1 by by apply settled_quiet.
  unfold resolved. destruct (first_answer _) as [ips|] eqn:Ef; [|by exists None, s1; split_and!; [done..|set_solver]].
  destruct (all_records name ips) as [rrs ->].
  destruct (updateFirewall_settled name ips s1) as [H2 Hin]; [apply H1|done..|].
  exists (Some rrs), (final (updateFirewall name ips) s1). split; [reflexivity|]. split; [|auto].
  exact (holds_more_trans _ _ _ H1 H2).
Qed.

Lemma solve_each_settled ds s :
  (forall d, d ∈ ds -> d ∈ domains rs) -> settled rs s ->
  exists s', for_each ds solveDomainName s = (Ok tt, s') /\ holds_more s s' /\
    (forall d k, d ∈ ds -> k ∈ resolved (searchDomains s) (ndots s) d -> is_Some (allowedIps s' !! k)).
Proof.
  revert s. induction ds as [|d ds IH]; intros s Hds Hs.
  { exists s. split; [done|]. split; [by apply holds_more_refl | set_solver]. }
  assert (Fqdn d = d) as Hd.
  { assert (d ∈ domains rs) as Hin by (apply Hds; left). unfold domains in Hin.
    apply list_elem_of_fmap in Hin as (r & -> & _). apply Hfqdn. }
  destruct (query_settled d TypeA [] s Hs Hd) as (r & s1 & E1 & H1 & Hin1).
  assert (solveDomainName d s = (Ok tt, s1)) as E1'.
  { unfold solveDomainName. rewrite Hd. by rewrite (bind_ok _ _ _ _ _ E1). }
  pose proof H1 as (S1 & C1 & _). injection C1 as _ _ _ _ _ Hse Hnd.
  destruct (IH s1) as (s2 & E2 & H2 & Hin2); [intros x Hx; apply Hds; by right|done|].
  exists s2. cbn [for_each]. rewrite (bind_ok _ _ _ _ _ E1'). split; [done|].
  split; [exact (holds_more_trans _ _ _ H1 H2)|].
  intros x k [->|Hx]%elem_of_cons Hk.
  - apply H2. apply Hin1; [done|apply Hds; left|done].
  - apply (Hin2 x); [done|]. by rewrite Hse, Hnd.
Qed.

Lemma permitted_holds_more s s' k : holds_more s s' -> permitted rs s' k <-> permitted rs s k.
Proof. intros (_ & Hc & _). injection Hc as _ _ _ _ Hu Hse Hnd. unfold permitted. by rewrite Hu, Hse, Hnd. Qed.

(** The decision on an address is the policy. *)
Lemma decision_settled ip s :
  settled rs s -> fwRules_MaxConnections s < 0 ->
  exists b s', firewall_decision ip s = (Ok b, s') /\ holds_more s s' /\ (b = true <-> permitted rs s (to4_string ip)).
Proof.
  intros Hs Hm%Z.leb_gt. unfold firewall_decision. rewrite bind_gets, Hm. cbv iota. rewrite bind_gets.
  pose proof Hs as [S1 _ S3 S4 _ _]. rewrite S1. destruct (Z.eqb_spec (Z.of_nat (length rs)) 0); [by destruct rs|].
  rewrite bind_is_allowed. destruct (bool_decide _) eqn:E.
  { apply bool_decide_eq_true in E. exists true, s. split; [done|]. split; [by apply holds_more_refl|]. split; auto. }
  unfold range_domains. unfold mbind at 1, prog_bind at 1.
  pose proof (Horder (net s) (fst <$> map_to_list (domainMap s))) as Ho.
  destruct (range_order (net s) _) as [ds w]. cbn [fst] in Ho.
  assert (forall d, d ∈ ds <-> d ∈ domains rs) as Hds.
  { intros d. rewrite Ho, <- S4, list_elem_of_fmap. split.
    - intros ([d' l] & -> & Hin). apply elem_of_map_to_list in Hin. by eexists.
    - intros [l Hl]. exists (d, l). split; [done|]. by apply elem_of_map_to_list. }
  set (s1 := s <| net := w |>). assert (holds_more s s1) as H1 by by apply settled_quiet.
  destruct (solve_each_settled ds s1) as (s2 & E2 & H2 & Hin); [intros d; apply Hds|apply H1|].
  rewrite (bind_ok _ _ _ _ _ E2). eexists _, s2. split; [reflexivity|].
  pose proof (holds_more_trans _ _ _ H1 H2) as H12. split; [done|].
  rewrite bool_decide_eq_true, <- (permitted_holds_more _ _ _ H12). destruct H12 as ([_ B2 B3 _ _ _] & C2 & _).
  split; [apply B3|]. injection C2 as _ _ _ _ _ Hse Hnd.
  intros [Hk|[Hk|(d & Hd & Hk)]]; [apply B2; auto..|].
  apply (Hin d); [by apply Hds|]. cbn. by rewrite <- Hse, <- Hnd.
Qed.

Lemma notify_settled entries a s :
  settled rs s -> fwRules_MaxConnections s < 0 -> is_Some (net_ip a) -> catches_all entries ->
  exists h s', notify entries a s = (Ok h, s') /\ holds_more s s' /\
    (is_Some h <-> exists ip, net_ip a = Some ip /\ permitted rs s (to4_string ip)).
Proof.
  intros Hs Hm [ip Hip] (l & g & ->).
  assert (forall s, settled rs s -> fwRules_MaxConnections s < 0 -> exists b s', firewallConnection a s = (Ok b, s') /\
    holds_more s s' /\ (b = true <-> permitted rs s (to4_string ip))) as Hdec.
  { intros x Hx Hmx. destruct a as [y|y|]; cbn in Hip; [injection Hip as <-..|done]; by apply decision_settled. }
  revert s Hs Hm. induction l as [|[p h] l IH]; intros s Hs Hm; cbn [app]; rewrite notify_cons.
  - change (patternMatches "*" a) with true. cbv iota. destruct (Hdec s Hs Hm) as (b & s' & -> & H1 & Hb).
    destruct b; eexists _, s'; (split; [reflexivity|]); (split; [done|]); split.
    + intros _. exists ip. split; [done|]. by apply Hb.
    + by eexists.
    + by intros [? ?].
    + intros (ip' & E & Hp). rewrite Hip in E. injection E as <-. by apply Hb in Hp.
  - destruct (patternMatches p a); [|by apply IH].
    destruct (Hdec s Hs Hm) as (b & s1 & -> & H1 & Hb). destruct b.
    + exists (Some h), s1. split_and!; [done..|]. split; [|by eexists]. intros _. exists ip. split; [done|]. by apply Hb.
    + pose proof H1 as (S1 & C1 & _). injection C1 as _ _ Hm1 _ _ _ _.
      destruct (IH s1 S1) as (r & s2 & E2 & H2 & Hr); [by rewrite Hm1|]. exists r, s2. split; [done|].
      split; [exact (holds_more_trans _ _ _ H1 H2)|]. rewrite Hr.
      split; intros (ip' & E & Hp); exists ip'; (split; [done|]); by apply (permitted_holds_more _ _ _ H1).
Qed.

(** Names in DNS messages are fully qualified. *)
Definition qualified (q : request) : Prop :=
  match q with
  | AskDNS (Some (_, questions)) => Forall (fun qu => Fqdn (fst qu) = fst qu) questions
  | _ => True
  end.

Lemma serve_one_settled q s :
  settled rs s -> fwRules_MaxConnections s < 0 -> qualified q ->
  exists v s', serve_one q s = (Ok v, s') /\ holds_more s s' /\
    match request_ip q, v with
    | Some ip, Some b => b = true <-> permitted rs s (to4_string ip)
    | None, None => True
    | _, _ => False
    end.
Proof.
  intros Hs Hm Hq. destruct q as [a|a|[[opcode qs]|]]; cbn [serve_one request_ip]; unfold notifyTCP, notifyUDP.
  4: { exists None, s. split; [done|]. split; [by apply holds_more_refl | done]. }
  3: { cbn [handleDNS]. destruct (negb _); [exists None, s; split_and!; [done|by apply holds_more_refl|done]|].
       destruct qs as [|[name t] qs]; [exists None, s; split_and!; [done|by apply holds_more_refl|done]|].
       inv Hq. destruct (query_settled name t qs s Hs) as (r & s' & E & Hh & _); [done|].
       exists None, s'. split; [|done]. unfold mbind, prog_bind. by rewrite E. }
  1: destruct (notify_settled tcpHandlers (TCPAddr a) s Hs Hm) as (h & s' & E & Hh & Hb); [done|by exists [], ProxyConn|].
  2: destruct (notify_settled udpHandlers (UDPAddr a) s Hs Hm) as (h & s' & E & Hh & Hb);
       [done|by exists [(":53", HandleDNSPackets)], ProxyConn|].
  all: rewrite (bind_ok _ _ _ _ _ E); eexists _, s'; split; [reflexivity|]; split; [done|].
  all: rewrite bool_decide_eq_true, Hb; cbn [net_ip]; split; [by intros (ip & [= <-] & Hp) | by eexists].
Qed.

Lemma serve_settled qs s :
  settled rs s -> fwRules_MaxConnections s < 0 -> Forall qualified qs ->
  exists vs s', serve qs s = (Ok vs, s') /\
    Forall2 (fun ip b => b = true <-> permitted rs s (to4_string ip)) (omap request_ip qs) vs.
Proof.
  intros Hs Hm Hqs. revert s Hs Hm. induction Hqs as [|q qs Hq _ IH]; intros s Hs Hm; [by exists [], s; auto|].
  destruct (serve_one_settled q s Hs Hm Hq) as (v & s1 & E1 & H1 & Hv). cbn [serve]. rewrite (bind_ok _ _ _ _ _ E1).
  pose proof H1 as (S1 & C1 & _). injection C1 as _ _ Hm1 _ _ _ _.
  destruct (IH s1 S1) as (vs & s2 & E2 & H2); [by rewrite Hm1|]. rewrite (bind_ok _ _ _ _ _ E2).
  eexists _, s2. split; [reflexivity|].
  assert (Forall2 (fun ip b => b = true <-> permitted rs s (to4_string ip)) (omap request_ip qs) vs) as H2'.
  { eapply Forall2_impl; [exact H2|]. intros ip b. cbv beta. by rewrite (permitted_holds_more _ _ _ H1). }
  cbn. destruct (request_ip q), v; try done. by constructor.
Qed.

End ConstantResolver.

(** ** Properties *)

Section Properties.
Context `{H : TapHost}.

(** Started with a policy whose first line is n >= 0, minitap lets the first n
    connections through, TCP and UDP counted together, and no later one,
    whatever DNS messages come in between and whatever the rules say. *)
Lemma bounded_run args w qs :
  0 <= fst (policy w args) ->
  exists s s', start_filter args (initial_tap w) = (Ok tt, s) /\
    serve qs s = (Ok (bounded_verdicts (fst (policy w args)) (connection_count qs)), s').
Proof.
  intros Hn. destruct (start_filter_runs args w) as (s & E & _ & [_ _ Hm Hc _ _ _ _]).
  destruct (serve_limit qs s) as (s' & Es); [by rewrite Hm|]. exists s, s'. split; [done|].
  by rewrite Es, Hm, Hc, Z.sub_0_r.
Qed.

(** C20: without a policy minitap is closed: when no policy file is found, or it
    cannot be read, or its first line is no number, every connection is
    dropped, no DNS query is passed to the resolver, and no request changes the
    state of the filter. *)
Theorem no_policy_no_connection args w qs :
  (forall p text, policy_file w args = Some p -> os_Open w p = Some text -> policy_of text = None) ->
  exists s, start_filter args (initial_tap w) = (Ok tt, s) /\ lookups s = [] /\
    serve qs s = (Ok (replicate (connection_count qs) false), s).
Proof.
  intros Hp. assert (policy w args = (0, [])) as Ep.
  { unfold policy, policy_in. destruct (policy_file w args) as [p|]; [|done].
    destruct (os_Open w p) as [text|] eqn:E; [|done]. by rewrite (Hp p text). }
  destruct (start_filter_runs args w) as (s & E & _ & [_ Hc Hm Hn _ _ _ Hl]). rewrite Ep in Hc, Hm.
  exists s. split; [done|]. split; [done|]. apply serve_closed. unfold closed. cbn in Hc, Hm. lia.
Qed.

(** C13: nothing passes but what the policy names: started with rules and without
    a bound, after any sequence of connections and DNS messages, in any order
    and whatever the resolver answered, an address that is let through is the
    text of a rule, or the host of the DNS server minitap itself uses, or was
    given by the resolver to a candidate of a name whose fully qualified form
    is that of a rule. *)
Theorem admitted_only_by_policy args w n rs s qs vs s1 q s2 :
  policy w args = (n, rs) -> n < 0 -> rs <> [] ->
  start_filter args (initial_tap w) = (Ok tt, s) ->
  serve qs s = (Ok vs, s1) -> serve_one q s1 = (Ok (Some true), s2) ->
  exists ip, request_ip q = Some ip /\
    (to4_string ip ∈ literals rs \/ SplitHost (upstreamDNS s) = Some (to4_string ip) \/
     answered_for (list_to_set (domains rs)) s2 (to4_string ip)).
Proof.
  intros Hp Hn Hne E0 E1 E2. destruct (start_filter_runs args w) as (s' & E & _ & Hs). rewrite Hp in Hs.
  rewrite E0 in E. injection E as <-.
  destruct (admitted_origin n rs s qs vs s1 q (Some true) s2) as (ip & Hip & _ & Ho); [done..|]. by exists ip.
Qed.


End Properties.

(** *** A host whose files and resolver are given *)

Definition fqdn (s : string) : string := if ends_with s "." then s else s +:+ ".".

Definition sim_host (files : list (string * string)) (answer : nat -> string -> option (list IP)) : TapHost := {|
  world := nat;
  os_Stat := fun _ p => (fun _ => false) <$> list_find (fun f => fst f = p) files;
  os_Open := fun _ p => (fun f => snd (snd f)) <$> list_find (fun f => fst f = p) files;
  LookupIP := fun n c => (answer n c, S n);
  range_order := fun n l => (l, n);
  ClientConfig := fun _ => Some (["127.0.0.53"], "53", [], 1);
  Fqdn := fqdn;
  rr := string;
  NewRR := Some
|}.

Definition lines_of (l : list string) : string := String.concat "" ((fun x => x +:+ String LF "") <$> l).

Definition www_answer (n : nat) (c : string) : option (list IP) :=
  if streq c "www.example.org." then Some [[93; 184; 216; 34]] else None.

Definition to (a b c d : Z) (port : Z) : request := AskTCP (mkAddr [a; b; c; d] port).

Definition two_connections : TapHost := sim_host [("/policy", lines_of ["2"])] www_answer.

Definition bad_policy : TapHost := sim_host [("/policy", lines_of ["www.example.org"])] www_answer.

Lemma no_policy_no_connection_witness :
  exists s, start_filter (H := bad_policy) ["minitap"; "/policy"] (initial_tap (H := bad_policy) O) = (Ok tt, s) /\
    lookups s = [] /\
    serve (H := bad_policy) [to 1 1 1 1 80; AskDNS (Some (0, [("www.example.org.", 1)]))] s = (Ok [false], s).
Proof.
  apply (no_policy_no_connection (H := bad_policy) ["minitap"; "/policy"] O
    [to 1 1 1 1 80; AskDNS (Some (0, [("www.example.org.", 1)]))]).
  intros p text Hp Ht. vm_compute in Hp. injection Hp as <-. vm_compute in Ht. injection Ht as <-. vm_compute. reflexivity.
Defined.

Definition www_policy : TapHost := sim_host [("/policy", lines_of ["-1"; "10.0.0.1"; "www.example.org"])] www_answer.
Definition www_started : tap (H := www_policy) :=
  final (start_filter (H := www_policy) ["minitap"; "/policy"]) (initial_tap (H := www_policy) O).

(** A host the rules name is let through, after its name was resolved. *)
Lemma admitted_only_by_policy_witness :
  let ip := [93; 184; 216; 34] in
  answered_for (H := www_policy) (list_to_set (domains (H := www_policy) ["10.0.0.1"; "www.example.org"]))
    (final (serve_one (H := www_policy) (to 93 184 216 34 443)) www_started) (to4_string ip).
Proof.
  destruct (admitted_only_by_policy (H := www_policy) ["minitap"; "/policy"] O (-1) ["10.0.0.1"; "www.example.org"]
    www_started [] [] www_started (to 93 184 216 34 443)
    (final (serve_one (H := www_policy) (to 93 184 216 34 443)) www_started)) as (ip & Hip & [Hl|[Hu|Ha]]).
  - vm_compute. reflexivity.
  - reflexivity.
  - discriminate.
  - vm_compute. reflexivity.
  - reflexivity.
  - vm_compute. reflexivity.
  - vm_compute in Hip. injection Hip as <-. exfalso. revert Hl. apply (bool_decide_unpack (_ ∉ _)). vm_compute. exact I.
  - vm_compute in Hip. injection Hip as <-. exfalso. vm_compute in Hu. discriminate.
  - vm_compute in Hip. injection Hip as <-. exact Ha.
Defined.


(** *** A rule that is lost *)

(** The resolver gives a name of the rules the address of another rule, and a
    new address when it is asked again. *)
Definition moving_answer (n : nat) (c : string) : option (list IP) :=
  if streq c "www.example.org." then Some [if (n =? 0)%nat then [10; 0; 0; 1] else [10; 0; 0; 2]] else None.

Definition moving_host : TapHost :=
  sim_host [("/policy", lines_of ["-1"; "10.0.0.1"; "www.example.org"])] moving_answer.

Definition www_query : request := AskDNS (Some (0, [("www.example.org.", 1)])).

(** An address that is a rule of its own can be taken away by the answer to a
    name: the addresses a name had before are deleted from the table without a
    look at who else put them there.  The first connection to 10.0.0.1 is let
    through as its rule says; after the name moved away from this address the
    second is dropped. *)
Theorem literal_rule_lost :
  exists s s', start_filter (H := moving_host) ["minitap"; "/policy"] (initial_tap (H := moving_host) O) = (Ok tt, s) /\
    "10.0.0.1" ∈ fwRules_Rules s /\
    serve (H := moving_host) [to 10 0 0 1 22; www_query; www_query; to 10 0 0 1 22] s = (Ok [true; false], s').
Proof.
  exists (final (start_filter (H := moving_host) ["minitap"; "/policy"]) (initial_tap (H := moving_host) O)).
  eexists. split; [vm_compute; reflexivity|]. split; [vm_compute; left|]. vm_compute. reflexivity.
Qed.
