(* ===== verification/TapPolicy.v ===== *)
(** * The network policy from the rules file to the verdicts

    The sandbox (Rules.v, in C++) writes the policy file, minitap (NetFilter.v,
    in Go) reads it.  What one writes is what the other understands: the two
    models are composed here through the text of the file. *)

From S2P Require Import Prelude Monad CxxString GoStd Firewall Kernel SimKernel State Fs Errors ProcessTools OptionsApi Rules NetFilter NetPolicy.
From Stdlib Require Import Ascii.
Open Scope sbx_scope.
Open Scope Z_scope.

(** ** The number in the first line *)

Lemma digit_of_char n : (n < 10)%N -> digit_value (pretty_N_char n) = Z.of_N n.
Proof.
  intros H.
  assert (forallb (fun i => digit_value (pretty_N_char (N.of_nat i)) =? Z.of_nat i) (seq 0 10) = true) as Hall by reflexivity.
  rewrite forallb_forall in Hall. specialize (Hall (N.to_nat n)). rewrite N2Nat.id, Z.eqb_eq in Hall.
  rewrite Hall by (apply in_seq; lia). lia.
Qed.

Lemma decimal_pretty_N_go n t : decimal 0 (chars (pretty_N_go n t)) = decimal (Z.of_N n) (chars t).
Proof.
  revert t. induction n as [n IH] using (well_founded_induction N.lt_wf_0). intros t.
  destruct (decide (0 < n)%N) as [Hn|Hn].
  - rewrite pretty_N_go_step by done. rewrite IH by (apply N.div_lt; lia).
    change (chars (String (pretty_N_char (n mod 10)) t)) with (pretty_N_char (n mod 10) :: chars t).
    cbn [decimal]. rewrite isdigit_pretty_char. f_equal.
    rewrite digit_of_char by (apply N.mod_lt; lia). rewrite N2Z.inj_div, N2Z.inj_mod.
    pose proof (Z.div_mod (Z.of_N n) 10). cbn [Z.of_N] in *. lia.
  - assert (n = 0%N) as -> by lia. by rewrite pretty_N_go_0.
Qed.

Lemma decimal_to_string n : 0 <= n -> decimal 0 (chars (to_string n)) = Some n.
Proof.
  intros Hn. unfold to_string, pretty, pretty_Z, pretty_positive, pretty, pretty_N. destruct n as [|p|p]; [done| |lia].
  case_decide; [done|]. by rewrite decimal_pretty_N_go.
Qed.

Lemma to_string_visible n : 0 <= n -> Forall (fun c => visible c = true) (chars (to_string n)).
Proof.
  intros Hn. eapply Forall_impl; [by apply to_string_digits|]. intros c. unfold isdigit, visible.
  rewrite !andb_true_iff, !N.leb_le. lia.
Qed.

Lemma ParseInt_to_string n : 0 <= n <= MaxInt64 -> ParseInt (to_string n) = Some n.
Proof.
  intros Hn. pose proof (to_string_digits n ltac:(lia)) as Hd. pose proof (decimal_to_string n ltac:(lia)) as Hdec.
  unfold ParseInt. destruct (chars (to_string n)) as [|c l] eqn:E.
  { apply (f_equal of_chars) in E. rewrite of_chars_chars in E. cbn in Hdec. injection Hdec as <-. by vm_compute in E. }
  inv Hd. destruct (Ascii.eqb c "-") eqn:E1; [apply Ascii.eqb_eq in E1 as ->; done|].
  destruct (Ascii.eqb c "+") eqn:E2; [apply Ascii.eqb_eq in E2 as ->; done|].
  rewrite Hdec. by rewrite (proj2 (Z.leb_le n MaxInt64)) by lia.
Qed.

Lemma pretty_N_go_length k n t :
  (n < 10 ^ N.of_nat k)%N -> (String.length (pretty_N_go n t) <= k + String.length t)%nat.
Proof.
  revert n t. induction k as [|k IH]; intros n t Hn.
  { cbn in Hn. assert (n = 0%N) as -> by lia. by rewrite pretty_N_go_0. }
  destruct (decide (0 < n)%N) as [Hp|Hp]; [|assert (n = 0%N) as -> by lia; rewrite pretty_N_go_0; lia].
  rewrite pretty_N_go_step by done. etrans; [apply IH|cbn; lia].
  rewrite Nat2N.inj_succ, N.pow_succ_r' in Hn. apply N.Div0.div_lt_upper_bound. lia.
Qed.

Lemma to_string_short n : 0 <= n <= MaxInt64 -> (String.length (to_string n) <= 19)%nat.
Proof.
  intros Hn. unfold to_string, pretty, pretty_Z, pretty_positive, pretty, pretty_N.
  destruct n as [|p|p]; [cbn; lia| |lia]. case_decide; [done|].
  pose proof (pretty_N_go_length 19 (N.pos p) "") as Hx. cbn [String.length] in Hx.
  rewrite Nat.add_0_r in Hx. apply Hx. unfold MaxInt64 in Hn. lia.
Qed.

(** ** The lines of the policy *)

Lemma label_visible c : label_char c = true -> visible c = true.
Proof.
  unfold label_char, isdigit, visible. rewrite !orb_true_iff, !andb_true_iff, !N.leb_le.
  intros [[[H|H%Ascii.eqb_eq]|H]|H]; [lia|by subst c|lia|lia].
Qed.

Lemma accepted_visible line : accepted_rule line = true -> Forall (fun c => visible c = true) (chars line).
Proof.
  intros Ha. apply Forall_forall. intros c Hc. destruct (visible c) eqn:Hv; [done|]. exfalso.
  assert (free_of c (chars line)) as Hfree.
  { assert (label_char c = false) as Hl.
    { apply not_true_is_false. intros Hl. apply label_visible in Hl. congruence. }
    assert (isdigit c = false) as Hi by (unfold label_char in Hl; rewrite !orb_false_iff in Hl; tauto).
    assert (dot <> c /\ slash <> c) as [Hd Hs] by (split; intros <-; done).
    unfold accepted_rule in Ha. apply orb_true_iff in Ha as [Ha|Ha]; [by apply domain_free | by apply subnet_free]. }
  unfold free_of in Hfree. rewrite Forall_forall in Hfree. by apply (Hfree c).
Qed.

(** What minitap makes of the lines of a policy file. *)
Lemma policy_of_lines text n rs :
  getlines text = to_string n :: rs -> (n = -1 \/ 0 <= n <= MaxInt64) ->
  Forall (fun r => accepted_rule r = true /\ Z.of_nat (String.length r) < MAX_RULE_LENGTH) rs ->
  policy_of text = Some (n, rs).
Proof.
  intros Hl Hn Hrs. unfold policy_of, scan_lines. rewrite Hl.
  assert (Forall (fun c => visible c = true) (chars (to_string n)) /\ ParseInt (to_string n) = Some n /\
    Z.of_nat (String.length (to_string n)) < MaxScanTokenSize) as (Hv & Hp & Hlen).
  { destruct Hn as [->|Hn]; [split; [vm_compute; repeat constructor | by split]|].
    split; [by apply to_string_visible; lia|]. split; [by apply ParseInt_to_string|].
    pose proof (to_string_short n Hn). unfold MaxScanTokenSize. lia. }
  rewrite scanned_short.
  - rewrite TrimSpace_visible, Hp by done. cbn [fmap option_fmap option_map]. do 2 f_equal.
    rewrite <- (list_fmap_id rs) at 2. apply Forall_fmap_ext. eapply Forall_impl; [exact Hrs|].
    intros r [Ha _]. by apply TrimSpace_visible, accepted_visible.
  - constructor; [done|]. eapply Forall_impl; [exact Hrs|]. intros r [Ha Hr].
    split; [unfold MaxScanTokenSize, MAX_RULE_LENGTH in *; lia | by apply accepted_visible].
Qed.

Lemma dotted_no_slash ip : Forall is_byte ip -> ip <> [] -> Forall (fun c => c <> slash) (chars (dotted ip)).
Proof.
  intros Hb Hne. destruct ip as [|v f]; [done|]. rewrite dotted_chars.
  assert (forall x, is_byte x -> Forall (fun c => c <> slash) (chars (to_string x))) as Hx.
  { intros x Hx. eapply Forall_impl; [by apply to_string_digits; destruct Hx|]. by intros c Hc ->. }
  inv Hb. apply Forall_app. split; [by apply Hx|]. unfold dot_fields. apply Forall_concat, Forall_fmap.
  eapply Forall_impl; [done|]. intros x Hbx. cbn. constructor; [done | by apply Hx].
Qed.

(** A subnet is no address. *)
Lemma subnet_no_address r : is_subnet (chars r) = true -> ParseIP r = None.
Proof.
  intros Hr. assert (forall sep, label_char sep = false -> dot <> sep -> slash <> sep -> has_char sep (chars r) = false) as Hf.
  { intros sep Hl Hd Hs. apply not_true_is_false. intros Hc. apply existsb_true_elem in Hc as (c & Hin & ->%Ascii.eqb_eq).
    assert (free_of c (chars r)) as Hfree.
    { apply subnet_free; [done| |done..]. unfold label_char in Hl. rewrite !orb_false_iff in Hl. tauto. }
    unfold free_of in Hfree. rewrite Forall_forall in Hfree. by apply (Hfree c). }
  rewrite ParseIP_plain by (apply Hf; done). destruct (parseIPv4 (chars r)) as [ip|] eqn:E; [|done]. exfalso.
  apply parseIPv4_exact in E as (Hlen & Hb & ->).
  assert (Forall (fun c => c <> slash) (chars (dotted ip))) as Hns by (apply dotted_no_slash; [done | by destruct ip]).
  unfold is_subnet in Hr. rewrite split_on_free in Hr; [done|exact Hns].
Qed.

(** ** Properties *)

Section Properties.
Context `{B : Build} `{N : Bound} `{K : Kernel} `{H : TapHost}.

(** The host minitap runs on holds the text at the path. *)
Definition host_file (w : world) (path text : string) : Prop :=
  is_file w path = true /\ os_Open w path = Some text.

Lemma policy_read w bin path text n rs :
  host_file w path text -> empty path = false -> policy_of text = Some (n, rs) -> policy w [bin; path] = (n, rs).
Proof.
  intros [Hf Ho] He Hp. unfold policy, policy_file, policy_in. rewrite Hf, He. cbn [negb]. by rewrite Ho, Hp.
Qed.


(** The calls of an application that bounds the connections. *)
Definition bound_and_dump (n : Z) (file : string) : prog proc Z :=
  res ← MiniSbxAllowMaxConnections n;
  fw ← get_opt fw_rules;
  _ ← DumpRules fw file;
  mret res.

(** C19: a bound on the connections reaches the filter and is exact: when an
    application sets a bound n that is not negative, whatever rules were set
    before, and writes the policy, then minitap, started on a host that holds
    what was written, lets the first n connections through, TCP and UDP counted
    together, and drops every later one. *)
Theorem connection_bound_enforced n file s :
  is_running (opt s) = NOT_RUNNING -> 0 <= n <= INT_MAX -> empty file = false ->
  (forall k, failed (fst (ksys k (Open file (Z.lor O_WRONLY (Z.lor O_CREAT O_TRUNC)) 438))) = false) ->
  exists fd written r1 r2 r3 s' t,
    bound_and_dump n file s = (Ok 0, s') /\
    trace s' = (Close fd, r3) :: (Write fd written, r2) ::
      (Open file (Z.lor O_WRONLY (Z.lor O_CREAT O_TRUNC)) 438, r1) :: t /\
    forall bin w qs, host_file w file written ->
      exists f f', start_filter [bin; file] (initial_tap w) = (Ok tt, f) /\
        serve qs f = (Ok (bounded_verdicts n (connection_count qs)), f').
Proof.
  intros Hrun Hn Hfile Hopen. unfold bound_and_dump.
  set (fw := (fw_rules (opt s)) <| mode := FirewallMaxConnections |> <| max_connections := n |>).
  assert (MiniSbxAllowMaxConnections n s = (Ok 0, s <| opt ::= fun o => o <| fw_rules := fw |> |>)) as E.
  { unfold MiniSbxAllowMaxConnections. by rewrite if_not_started_run. }
  rewrite (bind_ok _ _ _ _ _ E).
  assert (dump_text fw = Ok (chars (to_string n) ++ [LF])) as Hd.
  { unfold dump_text. change (max_connections fw) with n. by rewrite (proj2 (Z.ltb_ge n 0)) by lia. }
  destruct (DumpRules_writes fw file (chars (to_string n) ++ [LF]) (s <| opt ::= fun o => o <| fw_rules := fw |> |>) Hfile Hd Hopen)
    as (r1 & r2 & r3 & s2 & E2 & Ht).
  exists (r_ret r1), (of_chars (chars (to_string n) ++ [LF])), r1, r2, r3, s2, (trace s). split; [|split; [exact Ht|]].
  { unfold get_opt, gets. unfold mbind at 1, prog_bind at 1. by rewrite (bind_ok _ _ _ _ _ E2). }
  intros bin w qs Hw.
  assert (policy w [bin; file] = (n, [])) as Hp.
  { apply (policy_read w bin file (of_chars (chars (to_string n) ++ [LF]))); [done..|].
    apply policy_of_lines; [|right; unfold INT_MAX, MaxInt64 in *; lia|done].
    unfold getlines. rewrite chars_of_chars, getlines_aux_line.
    - cbn. by rewrite of_chars_chars.
    - eapply Forall_impl; [apply to_string_digits; lia|]. by intros c Hc ->. }
  destruct (bounded_run [bin; file] w qs) as (f & f' & Ef & Es); [by rewrite Hp; cbn; lia|].
  rewrite Hp in Es. by exists f, f'.
Qed.


End Properties.

(** *** Instances *)

Definition policy_text : string := lines_of ["-1"; "www.example.org"; "10.0.0.1"; "192.168.0.0/16"].


Lemma connection_bound_enforced_witness :
  exists fd written r1 r2 r3 s' t,
    bound_and_dump (B := lib_tap_build) 2 "/policy" (sim_proc rules_sim) = (Ok 0, s') /\
    trace s' = (Close fd, r3) :: (Write fd written, r2) ::
      (Open "/policy" (Z.lor O_WRONLY (Z.lor O_CREAT O_TRUNC)) 438, r1) :: t /\
    forall bin w qs, host_file (H := two_connections) w "/policy" written ->
      exists f f', start_filter (H := two_connections) [bin; "/policy"] (initial_tap (H := two_connections) w) = (Ok tt, f) /\
        serve (H := two_connections) qs f = (Ok (bounded_verdicts 2 (connection_count qs)), f').
Proof.
  apply (connection_bound_enforced (B := lib_tap_build) (K := SimKernel) (H := two_connections) 2 "/policy" (sim_proc rules_sim)).
  - reflexivity.
  - vm_compute. split; discriminate.
  - reflexivity.
  - intros k. reflexivity.
Defined.

(** The DNS server of the host is reached, an address of the subnet is not. *)
Definition subnet_host : TapHost :=
  sim_host [("/policy", lines_of ["-1"; "192.168.0.0/16"])] (fun _ _ => None).
Definition subnet_started : tap (H := subnet_host) :=
  final (start_filter (H := subnet_host) ["minitap"; "/policy"]) (initial_tap (H := subnet_host) O).

