(* ===== verification/Goroutines.v ===== *)
(** * The goroutines of minitap (src/minitap: mux.go, firewall.go, dns.go)

    Every connection and every DNS packet is served by a goroutine of its own.
    The handlers of NetFilter are written again as programs of small steps, each
    of which touches the package variables at most once, with the lock [mux.mu]
    where the code takes it; executed alone they are the handlers.  Executed
    together, in every interleaving, they keep the bound on the connections; the
    lock orders all accesses of the connection handlers, and the DNS handlers,
    which do not take it, race with them. *)

From stdpp Require Import relations.
From S2P Require Import Prelude Monad CxxString GoStd NetFilter NetPolicy.
From Stdlib Require Import Ascii.
Open Scope sbx_scope.
Open Scope Z_scope.

(** The package variables more than one goroutine uses after the start. *)
Inductive shared_var := Connections | AllowedIps | DomainMap | DeniedDomains.
Inductive access_mode := Reads | Writes.

Section Gor.
Context `{H : TapHost}.

(** A goroutine: it has returned, or its next step has these accesses, updates
    the variables and goes on with what it saw before the update. *)
Inductive gor (A : Type) : Type :=
| Done (a : A)
| Do (acc : list (shared_var * access_mode)) (update : tap -> tap) (next : tap -> gor A)
| Acquire (next : gor A)
| Release (next : gor A).
Arguments Done {A}. Arguments Do {A}. Arguments Acquire {A}. Arguments Release {A}.

#[export] Instance gor_ret : MRet gor := fun A a => Done a.

Fixpoint gor_bind_ {A C} (f : A -> gor C) (g : gor A) : gor C :=
  match g with
  | Done a => f a
  | Do acc u k => Do acc u (fun s => gor_bind_ f (k s))
  | Acquire k => Acquire (gor_bind_ f k)
  | Release k => Release (gor_bind_ f k)
  end.
#[export] Instance gor_bind : MBind gor := fun A C f g => gor_bind_ f g.

Definition look {A} (acc : list (shared_var * access_mode)) (f : tap -> A) : gor A := Do acc id (fun s => Done (f s)).
Definition write (x : shared_var) (u : tap -> tap) : gor unit := Do [(x, Writes)] u (fun _ => Done tt).

(** [for _, x := range l { body }], and with a [return] in the body. *)
Fixpoint each {A} (l : list A) (body : A -> gor unit) : gor unit :=
  match l with
  | [] => mret tt
  | x :: l' => _ ← body x; each l' body
  end.

Fixpoint each_return {A R} (l : list A) (body : A -> gor (option R)) : gor (option R) :=
  match l with
  | [] => mret None
  | x :: l' => r ← body x; match r with Some v => mret (Some v) | None => each_return l' body end
  end.

(** ** The handlers, step by step *)

Definition firewallDns_steps (addr : string) : gor bool :=
  count ← look [] fwRules_Count;
  if count =? 0 then
    max ← look [] fwRules_MaxConnections;
    if max <? 0 then mret true
    else n ← look [(Connections, Reads)] connections; mret (n <? max)
  else look [(DomainMap, Reads)] (fun s => bool_decide (is_Some (domainMap s !! Fqdn addr))).

(** The query to the resolver; its answer and the host are not package variables. *)
Definition try_candidate_steps (cand : string) : gor (option (string * option (list IP))) :=
  Do [] (fun s => let '(r, w) := LookupIP (net s) cand in s <| net := w |> <| lookups ::= cons (cand, r) |>)
    (fun s => Done (match fst (LookupIP (net s) cand) with Some l => Some (cand, Some l) | None => None end)).

Definition lookupWithSearch_steps (name : string) : gor (string * option (list IP)) :=
  cands ← look [] (fun s => candidates (searchDomains s) (ndots s) name);
  found ← each_return cands try_candidate_steps;
  mret (default (name, None) found).

(** The map is read twice, then every address of the domain is deleted and every
    new one is stored. *)
Definition updateFirewall_steps (domain_name : string) (ips : list IP) : gor unit :=
  let fq := Fqdn domain_name in
  ok ← look [(DomainMap, Reads)] (fun s => bool_decide (is_Some (domainMap s !! fq)));
  if ok : bool then
    old ← look [(DomainMap, Reads)] (fun s => default [] (domainMap s !! fq));
    _ ← each old (fun ip => write AllowedIps (fun s => s <| allowedIps ::= delete ip |>));
    _ ← each (ip_texts ips) (fun ip => write AllowedIps (fun s => s <| allowedIps ::= insert ip 1 |>));
    write DomainMap (fun s => s <| domainMap ::= insert fq (ip_texts ips) |>)
  else write DeniedDomains (fun s => s <| deniedDomainMap ::= fun l => l ++ [fq] |>).

Definition handleDNSQuery_steps (questions : list (string * Z)) : gor (option (list rr)) :=
  match questions with
  | [] => mret (Some [])
  | (name, qtype) :: _ =>
      if qtype =? TypeA then
        allowed ← firewallDns_steps name;
        if negb allowed then mret None
        else
          answer ← lookupWithSearch_steps name;
          match snd answer with
          | None => mret None
          | Some ips =>
              match mapM (fun ip => NewRR (name +:+ " A " +:+ ip_string ip)) ips with
              | None => mret None
              | Some rrs => _ ← updateFirewall_steps name ips; mret (Some rrs)
              end
          end
      else mret None
  end.

Definition handleDNS_steps (payload : option (Z * list (string * Z))) : gor (option (list rr)) :=
  match payload with
  | None => mret None
  | Some (opcode, questions) =>
      if negb (opcode =? OpcodeQuery) then mret None
      else rrs ← handleDNSQuery_steps questions; mret (Some (default [] rrs))
  end.

(** [connections ++] reads and writes. *)
Definition firewall_decision_steps (destination_ip : IP) : gor bool :=
  let is_allowed := look [(AllowedIps, Reads)] (fun s => bool_decide (is_Some (allowedIps s !! to4_string destination_ip))) in
  max ← look [] fwRules_MaxConnections;
  if 0 <=? max then
    n ← look [(Connections, Reads)] connections;
    if n <? max then
      n ← look [(Connections, Reads)] connections;
      _ ← write Connections (fun s => s <| connections := 1 + n |>);
      mret true
    else mret false
  else
    count ← look [] fwRules_Count;
    if count =? 0 then mret true
    else
      ok ← is_allowed;
      if ok : bool then mret true
      else
        domains ← Do [(DomainMap, Reads)]
          (fun s => s <| net := snd (range_order (net s) (fst <$> map_to_list (domainMap s))) |>)
          (fun s => Done (fst (range_order (net s) (fst <$> map_to_list (domainMap s)))));
        _ ← each domains (fun d => _ ← handleDNSQuery_steps [(Fqdn d, TypeA)]; mret tt);
        is_allowed.

Definition firewallConnection_steps (a : net_addr) : gor bool :=
  match a with
  | OtherAddr _ => mret false
  | TCPAddr a | UDPAddr a => firewall_decision_steps (addr_ip a)
  end.

Definition scan_steps (entries : list (string * tap_handler)) (a : net_addr) : gor (option tap_handler) :=
  each_return entries (fun entry =>
    if patternMatches (fst entry) a then
      ok ← firewallConnection_steps a;
      mret (if ok : bool then Some (snd entry) else None)
    else mret None).

(** [s.mu.Lock(); defer s.mu.Unlock()] around the loop. *)
Definition notify_steps (entries : list (string * tap_handler)) (a : net_addr) : gor (option tap_handler) :=
  Acquire (h ← scan_steps entries a; Release (Done h)).

(** The goroutine that serves a request, and the verdict it ends with. *)
Definition goroutine (q : request) : gor (option bool) :=
  match q with
  | AskTCP a => h ← notify_steps tcpHandlers (TCPAddr a); mret (Some (bool_decide (is_Some h)))
  | AskUDP a => h ← notify_steps udpHandlers (UDPAddr a); mret (Some (bool_decide (is_Some h)))
  | AskDNS p => _ ← handleDNS_steps p; mret None
  end.

(** ** Executed alone *)

Fixpoint alone {A} (g : gor A) : prog tap A := fun s =>
  match g with
  | Done a => (Ok a, s)
  | Do _ u k => alone (k s) (u s)
  | Acquire k | Release k => alone k s
  end.

(** ** Executed together *)

(** The goroutines with the requests they serve, the one that holds the lock, and
    the variables. *)
Record machine := mkMachine {
  threads : list (request * gor (option bool));
  holder : option nat;
  shared : tap
}.

Inductive mstep : machine -> machine -> Prop :=
| step_spawn ts h s q : mstep (mkMachine ts h s) (mkMachine (ts ++ [(q, goroutine q)]) h s)
| step_do ts h s i q acc u k :
    ts !! i = Some (q, Do acc u k) -> mstep (mkMachine ts h s) (mkMachine (<[i := (q, k s)]> ts) h (u s))
| step_lock ts s i q k :
    ts !! i = Some (q, Acquire k) -> mstep (mkMachine ts None s) (mkMachine (<[i := (q, k)]> ts) (Some i) s)
| step_unlock ts s i q k :
    ts !! i = Some (q, Release k) -> mstep (mkMachine ts (Some i) s) (mkMachine (<[i := (q, k)]> ts) None s).

Definition started (s : tap) : machine := mkMachine [] None s.

(** The connections that were let through. *)
Definition admitted (t : request * gor (option bool)) : bool :=
  match snd t with Done (Some true) => true | _ => false end.

(** A data race: the next steps of two goroutines access one variable, and one
    of them writes it. *)
Definition next_accesses (t : request * gor (option bool)) : list (shared_var * access_mode) :=
  match snd t with Do acc _ _ => acc | _ => [] end.

Definition races (t t' : request * gor (option bool)) : Prop :=
  exists x m, (x, Writes) ∈ next_accesses t /\ (x, m) ∈ next_accesses t'.

Definition race (m : machine) (i j : nat) : Prop :=
  i <> j /\ exists t t', threads m !! i = Some t /\ threads m !! j = Some t' /\ races t t'.

End Gor.

Arguments Done {H A}. Arguments Do {H A}. Arguments Acquire {H A}. Arguments Release {H A}.

(** ** The steps are those of the handlers *)

Section Alone.
Context `{H : TapHost}.

Lemma alone_bind {A C} (g : gor A) (f : A -> gor C) s : alone (g ≫= f) s = (alone g ≫= fun a => alone (f a)) s.
Proof.
  unfold mbind, prog_bind, gor_bind. revert s. induction g as [a | acc u k IH | k IH | k IH]; intros s; cbn [gor_bind_ alone]; auto.
Qed.

(** A first part whose steps are those of a handler. *)
Lemma alone_bind_eq {A C} (g : gor A) (m : prog tap A) (f : A -> gor C) (k : A -> prog tap C) s :
  alone g s = m s -> (forall a s', m s = (Ok a, s') -> alone (f a) s' = k a s') -> alone (g ≫= f) s = (m ≫= k) s.
Proof.
  intros Hg Hf. rewrite alone_bind. unfold mbind, prog_bind. rewrite Hg. destruct (m s) as [[a|w] s'] eqn:E; [by apply Hf | done].
Qed.

Lemma alone_each {A} (l : list A) body body' s :
  (forall x s', x ∈ l -> alone (body x) s' = body' x s') -> alone (each l body) s = for_each l body' s.
Proof.
  revert s. induction l as [|x l IH]; intros s Hb; [done|]. cbn [each for_each].
  apply alone_bind_eq; [apply Hb; left|]. intros _ s' _. apply IH. intros y t Hy. apply Hb. by right.
Qed.

Lemma alone_each_return {A R} (l : list A) (body : A -> gor (option R)) body' s :
  (forall x s', alone (body x) s' = body' x s') -> alone (each_return l body) s = for_return l body' s.
Proof.
  intros Hb. revert s. induction l as [|x l IH]; intros s; [done|]. cbn [each_return for_return].
  apply alone_bind_eq; [apply Hb|]. intros [v|] s' _; [done | apply IH].
Qed.

Lemma alone_writes (f : string -> gmap string Z -> gmap string Z) l s :
  alone (each l (fun ip => write AllowedIps (fun s => s <| allowedIps ::= f ip |>))) s =
  (Ok tt, s <| allowedIps ::= fun m => foldl (fun m ip => f ip m) m l |>).
Proof. revert s. induction l as [|x l IH]; intros s; [by destruct s|]. cbn [each]. rewrite alone_bind. exact (IH _). Qed.

Lemma alone_firewallDns a s : alone (firewallDns_steps a) s = firewallDns a s.
Proof.
  unfold firewallDns_steps, firewallDns, look, gets, mbind, gor_bind. cbn [gor_bind_ alone id].
  destruct (fwRules_Count s =? 0); [|done]. cbn [gor_bind_ alone id]. by destruct (_ <? 0).
Qed.

Lemma alone_try c s : alone (try_candidate_steps c) s = try_candidate c s.
Proof. rewrite try_candidate_eq. unfold try_candidate_steps. cbn [alone]. by destruct (LookupIP (net s) c). Qed.

Lemma alone_lookup name s : alone (lookupWithSearch_steps name) s = lookupWithSearch name s.
Proof.
  unfold lookupWithSearch_steps, lookupWithSearch. rewrite (bind_ok (gets searchDomains) _ s (searchDomains s) s eq_refl).
  rewrite (bind_ok (gets ndots) _ s (ndots s) s eq_refl). change (alone (found ← each_return (candidates (searchDomains s) (ndots s) name) try_candidate_steps;
    mret (default (name, None) found)) s = (found ← for_return (candidates (searchDomains s) (ndots s) name) try_candidate; mret (default (name, None) found)) s).
  apply alone_bind_eq; [|done]. apply alone_each_return. apply alone_try.
Qed.

Lemma alone_updateFirewall name ips s : alone (updateFirewall_steps name ips) s = updateFirewall name ips s.
Proof.
  unfold updateFirewall_steps, updateFirewall, modify. cbv zeta. rewrite alone_bind. cbn [look alone id].
  unfold mbind at 1, prog_bind at 1. cbn [look alone id].
  destruct (domainMap s !! Fqdn name) as [old|] eqn:E; [|done].
  rewrite bool_decide_eq_true_2 by by eexists. rewrite alone_bind. unfold mbind at 1, prog_bind at 1. cbn [look alone id].
  rewrite E. cbn [default from_option id]. rewrite alone_bind. unfold mbind at 1, prog_bind at 1. rewrite (alone_writes delete).
  rewrite alone_bind. unfold mbind at 1, prog_bind at 1. rewrite (alone_writes (fun ip => insert ip 1)). by destruct s.
Qed.

Lemma alone_handleDNSQuery qs s : alone (handleDNSQuery_steps qs) s = handleDNSQuery qs s.
Proof.
  destruct qs as [|[name qtype] qs]; [done|]. cbn [handleDNSQuery_steps handleDNSQuery]. destruct (qtype =? TypeA); [|done].
  apply alone_bind_eq; [apply alone_firewallDns|]. intros allowed s1 _. destruct (negb allowed); [done|].
  apply alone_bind_eq; [apply alone_lookup|]. intros [cand [ips|]] s2 _; cbn [snd]; [|done].
  destruct (mapM _ ips) as [rrs|]; [|done]. by apply alone_bind_eq; [apply alone_updateFirewall|].
Qed.

Lemma alone_handleDNS p s : alone (handleDNS_steps p) s = handleDNS p s.
Proof.
  destruct p as [[opcode qs]|]; [|done]. cbn [handleDNS_steps handleDNS]. destruct (negb _); [done|].
  by apply alone_bind_eq; [apply alone_handleDNSQuery|].
Qed.

Lemma alone_firewall ip s : alone (firewall_decision_steps ip) s = firewall_decision ip s.
Proof.
  unfold firewall_decision_steps, firewall_decision. cbv zeta. rewrite bind_gets. rewrite alone_bind.
  unfold mbind at 1, prog_bind at 1. cbn [look alone id]. destruct (0 <=? fwRules_MaxConnections s).
  - rewrite bind_gets, alone_bind. unfold mbind at 1, prog_bind at 1. cbn [look alone id].
    destruct (connections s <? _); [|done]. by destruct s.
  - rewrite bind_gets, alone_bind. unfold mbind at 1, prog_bind at 1. cbn [look alone id].
    destruct (fwRules_Count s =? 0); [done|]. rewrite bind_is_allowed, alone_bind. unfold mbind at 1, prog_bind at 1. cbn [look alone id].
    destruct (bool_decide _); [done|]. apply alone_bind_eq.
    + cbn [alone]. unfold range_domains. by destruct (range_order _ _).
    + intros domains s1 _. apply alone_bind_eq; [|done]. apply alone_each. intros d s2 _. unfold solveDomainName.
      by apply alone_bind_eq; [apply alone_handleDNSQuery|].
Qed.

Lemma alone_notify entries a s : alone (notify_steps entries a) s = notify entries a s.
Proof.
  unfold notify_steps. cbn [alone]. rewrite alone_bind. unfold mbind, prog_bind.
  assert (alone (scan_steps entries a) s = notify entries a s) as ->; [|by destruct (notify entries a s) as [[]]].
  unfold scan_steps, notify. apply alone_each_return. intros entry s'. destruct (patternMatches _ _); [|done].
  apply alone_bind_eq; [|done]. destruct a; [apply alone_firewall | apply alone_firewall | done].
Qed.


End Alone.

(** ** The bound on the connections, in every interleaving

    A goroutine owns a ticket from the moment it counted its connection.  While
    it holds the lock nobody else changes the count: what it relies on is what
    the others guarantee. *)

Section Bound.
Context `{H : TapHost} (max : Z).

Definition same_policy (s s' : tap) : Prop := fwRules_MaxConnections s' = fwRules_MaxConnections s.

(** What may happen between two steps of a goroutine. *)
Definition rely (held : bool) (s s' : tap) : Prop :=
  same_policy s s' /\ (held = true -> connections s' = connections s).

(** With the lock or without it and owning so many tickets, from a state in which
    the bound is [max], every step keeps to the rules and the end is as [Q] says. *)
Fixpoint valid {A} (Q : bool -> Z -> A -> tap -> Prop) (held : bool) (t : Z) (g : gor A) (s : tap) : Prop :=
  forall s', rely held s s' -> fwRules_MaxConnections s' = max ->
  match g with
  | Done a => Q held t a s'
  | Do _ u k =>
      same_policy s' (u s') /\
      exists t', connections (u s') = connections s' + (t' - t) /\ (held = false -> t' = t) /\
        (connections s' <= max -> connections (u s') <= max) /\ (0 <= t -> 0 <= t') /\ valid Q held t' (k s') (u s')
  | Acquire k => held = false /\ forall s'', same_policy s' s'' -> valid Q true t k s''
  | Release k => held = true /\ forall s'', same_policy s' s'' -> valid Q false t k s''
  end.

#[local] Instance same_policy_preorder : PreOrder same_policy.
Proof. split; [by intros s | intros a b c H1 H2; unfold same_policy in *; congruence]. Qed.

#[local] Instance rely_preorder held : PreOrder (rely held).
Proof.
  split; [by intros s; split|]. intros a b c [H1 H2] [H3 H4]. split; [by etransitivity|].
  intros Hh. by rewrite H4, H2.
Qed.

Lemma valid_stable {A} Q held t (g : gor A) s s' : valid Q held t g s -> rely held s s' -> valid Q held t g s'.
Proof. destruct g; cbn [valid]; intros Hv Hr s'' Hr'; apply Hv; by etransitivity. Qed.

Lemma valid_bind {A C} (Q1 : bool -> Z -> A -> tap -> Prop) (Q2 : bool -> Z -> C -> tap -> Prop) (f : A -> gor C) (g : gor A) held t s :
  valid Q1 held t g s -> (forall h t a s, Q1 h t a s -> fwRules_MaxConnections s = max -> valid Q2 h t (f a) s) ->
  valid Q2 held t (g ≫= f) s.
Proof.
  intros Hg Hf. revert held t s Hg.
  induction g as [a | acc u k IH | k IH | k IH]; intros held t s Hg; unfold mbind, gor_bind; cbn [gor_bind_ valid] in *.
  - apply (valid_stable _ _ _ _ s); [|reflexivity]. destruct (f a) eqn:E; cbn [valid]; intros s' Hr Hm;
      specialize (Hf _ _ _ _ (Hg s' Hr Hm) Hm); rewrite E in Hf; exact (Hf s' (reflexivity s') Hm).
  - intros s' Hr Hm. destruct (Hg s' Hr Hm) as (Hp & t' & H1 & H2 & H3 & H4 & H5). split; [done|]. exists t'. eauto 10.
  - intros s' Hr Hm. destruct (Hg s' Hr Hm) as [Hh Hk]. eauto.
  - intros s' Hr Hm. destruct (Hg s' Hr Hm) as [Hh Hk]. eauto.
Qed.

(** Steps that leave the lock and the count alone. *)
Fixpoint neutral {A} (g : gor A) : Prop :=
  match g with
  | Done _ => True
  | Do _ u k => forall s, same_policy s (u s) /\ connections (u s) = connections s /\ neutral (k s)
  | Acquire _ | Release _ => False
  end.

Lemma neutral_bind {A C} (g : gor A) (f : A -> gor C) : neutral g -> (forall a, neutral (f a)) -> neutral (g ≫= f).
Proof.
  intros Hg Hf. unfold mbind, gor_bind. induction g as [a | acc u k IH | |]; cbn [gor_bind_ neutral] in *; [auto | | done..].
  intros s. destruct (Hg s) as (H1 & H2 & H3). auto.
Qed.

Lemma neutral_each {A} (l : list A) body : (forall x, neutral (body x)) -> neutral (each l body).
Proof. intros Hb. induction l as [|x l IH]; cbn [each]; [done | by apply neutral_bind]. Qed.

Lemma neutral_each_return {A R} (l : list A) (body : A -> gor (option R)) : (forall x, neutral (body x)) -> neutral (each_return l body).
Proof. intros Hb. induction l as [|x l IH]; cbn [each_return]; [done|]. apply neutral_bind; [done | by intros []]. Qed.

Lemma neutral_look {A} acc (f : tap -> A) : neutral (look acc f).
Proof. by intros s. Qed.

Lemma neutral_write x u : (forall s, same_policy s (u s) /\ connections (u s) = connections s) -> neutral (write x u).
Proof. intros Hu s. destruct (Hu s). by split. Qed.

Lemma neutral_valid {A} Q held t (g : gor A) s :
  neutral g -> (forall a s', Q held t a s') -> valid Q held t g s.
Proof.
  intros Hg HQ. revert s. induction g as [a | acc u k IH | |]; intros s; cbn [neutral valid] in *; [auto | | done..].
  intros s' Hr Hm. destruct (Hg s') as (H1 & H2 & H3). split; [done|]. exists t. rewrite H2.
  split; [lia|]. do 3 (split; [done|]). by apply IH.
Qed.

Ltac neutral_leaf :=
  lazymatch goal with
  | |- neutral (look _ _) => apply neutral_look
  | |- neutral (write _ _) => apply neutral_write; by intros ?
  | |- neutral (mret _) => exact I
  | |- neutral (each _ _) => apply neutral_each; intros ?
  | |- neutral (each_return _ _) => apply neutral_each_return; intros ?
  | |- neutral (_ ≫= _) => apply neutral_bind; [|intros ?]
  | |- neutral (match ?x with _ => _ end) => destruct x
  end.

Lemma neutral_try c : neutral (try_candidate_steps c).
Proof. intros s. by destruct (LookupIP (net s) c). Qed.

Lemma neutral_query qs : neutral (handleDNSQuery_steps qs).
Proof.
  unfold handleDNSQuery_steps, firewallDns_steps, lookupWithSearch_steps, updateFirewall_steps. cbv zeta.
  repeat neutral_leaf. apply neutral_try.
Qed.

Lemma neutral_handleDNS p : neutral (handleDNS_steps p).
Proof. unfold handleDNS_steps. repeat neutral_leaf. apply neutral_query. Qed.

(** *** The connection handlers *)

Definition ticket (b : bool) : Z := if b then 1 else 0.

(** Looking at a variable: the value is the one of the state. *)
Lemma valid_look {A C} Q held t acc (f : tap -> A) (k : A -> gor C) s :
  (forall s', rely held s s' -> fwRules_MaxConnections s' = max -> valid Q held t (k (f s')) s') ->
  valid Q held t (look acc f ≫= k) s.
Proof.
  intros Hk. unfold mbind, gor_bind. cbn [look gor_bind_ valid]. intros s' Hr Hm. split; [done|]. exists t.
  split; [cbn; lia|]. do 3 (split; [done|]). by apply Hk.
Qed.

Lemma valid_decision ip s :
  0 <= max -> valid (fun held t ok _ => held = true /\ t = ticket ok) true 0 (firewall_decision_steps ip) s.
Proof.
  intros Hmax. unfold firewall_decision_steps. cbv zeta. apply valid_look. intros s1 _ Hm1. rewrite Hm1.
  replace (0 <=? max) with true by (symmetry; by apply Z.leb_le). apply valid_look. intros s2 _ Hm2.
  destruct (Z.ltb_spec (connections s2) max) as [Hlt|Hge]; [|by intros s3 _ _].
  apply valid_look. intros s3 [_ Hr3] Hm3. specialize (Hr3 eq_refl).
  unfold mbind, gor_bind. cbn [write gor_bind_ valid]. intros s4 [_ Hr4] Hm4. specialize (Hr4 eq_refl). split; [done|].
  exists 1. cbn. rewrite Hr4. repeat split; [lia | done | lia | lia].
Qed.

Lemma valid_scan entries a s :
  0 <= max -> valid (fun held t h _ => held = true /\ t = ticket (bool_decide (is_Some h))) true 0 (scan_steps entries a) s.
Proof.
  intros Hmax. unfold scan_steps. revert s. induction entries as [|e entries IH]; intros s; cbn [each_return]; [by intros s' _ _|].
  eapply (valid_bind (fun held t h _ => held = true /\ t = ticket (bool_decide (is_Some h)))).
  - destruct (patternMatches _ _); [|by intros s' _ _].
    eapply (valid_bind (fun held t ok _ => held = true /\ t = ticket ok)).
    + destruct a as [a|a|text]; [by apply valid_decision | by apply valid_decision | by intros s' _ _].
    + intros h t [] s' [-> ->] _; by intros s'' _ _.
  - intros h t [v|] s' [-> ->] Hm; [by intros s'' _ _ | apply IH].
Qed.

(** The end of a goroutine: without the lock, and with a ticket for a connection
    that is let through. *)
Definition ended (held : bool) (t : Z) (v : option bool) (_ : tap) : Prop :=
  held = false /\ t = match v with Some b => ticket b | None => 0 end.

Lemma valid_notify {entries a s} :
  0 <= max -> valid (fun held t h _ => held = false /\ t = ticket (bool_decide (is_Some h))) false 0 (notify_steps entries a) s.
Proof.
  intros Hmax. unfold notify_steps. cbn [valid]. intros s1 _ _. split; [done|]. intros s2 _.
  eapply valid_bind; [by apply valid_scan|]. intros h t o s3 [-> ->] _. cbn [valid]. intros s4 _ _. split; [done|]. by intros s5 _ s6 _ _.
Qed.

Lemma valid_goroutine q s : 0 <= max -> valid ended false 0 (goroutine q) s.
Proof.
  intros Hmax. destruct q as [a|a|p]; cbn [goroutine].
  - eapply valid_bind; [by apply valid_notify|]. intros h t o s1 [-> ->] _. by intros s2 _ _.
  - eapply valid_bind; [by apply valid_notify|]. intros h t o s1 [-> ->] _. by intros s2 _ _.
  - eapply (valid_bind (fun held t _ _ => held = false /\ t = 0)).
    + apply neutral_valid; [apply neutral_handleDNS | done].
    + intros h t r s1 [-> ->] _. by intros s2 _ _.
Qed.

(** *** The invariant of the machine *)

(** Every goroutine is valid for its tickets, which are the count. *)
Definition machine_ok (m : machine) : Prop :=
  fwRules_MaxConnections (shared m) = max /\ connections (shared m) <= max /\
  exists tickets, Forall2 (fun _ _ => True) (threads m) tickets /\ connections (shared m) = foldr Z.add 0 tickets /\ Forall (Z.le 0) tickets /\
    forall i q g t, threads m !! i = Some (q, g) -> tickets !! i = Some t ->
      valid ended (bool_decide (holder m = Some i)) t g (shared m).

Lemma sum_insert (l : list Z) i t t' :
  l !! i = Some t -> foldr Z.add 0 (<[i := t']> l) = foldr Z.add 0 l + (t' - t).
Proof.
  revert i. induction l as [|x l IH]; intros [|i]; cbn; [done | done | |].
  - intros [= ->]. lia.
  - intros Hi. rewrite IH by done. lia.
Qed.

Lemma sum_snoc (l : list Z) t : foldr Z.add 0 (l ++ [t]) = foldr Z.add 0 l + t.
Proof. induction l as [|x l IH]; cbn; lia. Qed.

Lemma tickets_lookup {A} (ts : list A) (tickets : list Z) i x :
  Forall2 (fun _ _ => True) ts tickets -> ts !! i = Some x -> exists t, tickets !! i = Some t.
Proof. intros Hf Hi. destruct (Forall2_lookup_l _ _ _ _ _ Hf Hi) as (t & Ht & _). by exists t. Qed.

Lemma all_true {A} (ts : list A) (l : list Z) : length ts = length l -> Forall2 (fun _ _ => True) ts l.
Proof. revert l. induction ts as [|x ts IH]; intros [|y l] Hl; try done; constructor; auto. Qed.

(** What the others rely on is what the acting goroutine guarantees. *)
Lemma others_rely (h : option nat) i j s s' (t t' : Z) :
  i <> j -> same_policy s s' -> connections s' = connections s + (t' - t) ->
  (bool_decide (h = Some i) = false -> t' = t) -> rely (bool_decide (h = Some j)) s s'.
Proof.
  intros Hij Hp Hc Ht. split; [done|]. intros Hj%bool_decide_eq_true. rewrite Hc, Ht; [lia|].
  apply bool_decide_eq_false. congruence.
Qed.

Lemma machine_ok_spawn ts h s q : 0 <= max -> machine_ok (mkMachine ts h s) -> (forall i, h = Some i -> (i < length ts)%nat) ->
  machine_ok (mkMachine (ts ++ [(q, goroutine q)]) h s).
Proof.
  intros Hmax (Hm & Hb & tickets & Hf & Hc & Hpos & Hv) Hh. split; [done|]. split; [done|]. exists (tickets ++ [0]).
  cbn [threads holder shared] in *. pose proof (Forall2_length _ _ _ Hf) as Hl.
  split; [apply all_true; rewrite !length_app; cbn; lia|]. split; [rewrite sum_snoc; lia|].
  split; [apply Forall_app; split; [done | by repeat constructor]|].
  intros i q' g t [Hi|[Hi Hg]]%lookup_app_Some Ht.
  - apply (Hv i q'); [done|]. rewrite lookup_app_l in Ht; [done|]. apply lookup_lt_Some in Hi. lia.
  - rewrite lookup_app_r in Ht by lia. rewrite <- Hl in Ht. destruct (i - length ts)%nat eqn:E; [|done].
    injection Hg as <- <-. injection Ht as <-. rewrite bool_decide_eq_false_2; [by apply valid_goroutine|].
    intros Hi'%Hh. lia.
Qed.

(** A step of one goroutine, which may take or give back the lock. *)
Lemma machine_ok_step ts h h' s s' i q g g' :
  machine_ok (mkMachine ts h s) -> ts !! i = Some (q, g) ->
  (forall j, j <> i -> bool_decide (h' = Some j) = bool_decide (h = Some j)) ->
  (forall t, valid ended (bool_decide (h = Some i)) t g s ->
     exists t', same_policy s s' /\ connections s' = connections s + (t' - t) /\
       (bool_decide (h = Some i) = false -> t' = t) /\ (connections s <= max -> connections s' <= max) /\ (0 <= t -> 0 <= t') /\
       valid ended (bool_decide (h' = Some i)) t' g' s') ->
  machine_ok (mkMachine (<[i := (q, g')]> ts) h' s').
Proof.
  intros (Hm & Hb & tickets & Hf & Hc & Hpos & Hv) Hi Hh Hstep. cbn [threads holder shared] in *.
  destruct (tickets_lookup _ _ _ _ Hf Hi) as [t Ht].
  destruct (Hstep t (Hv i q g t Hi Ht)) as (t' & Hp & Hc' & Hn & Hb' & Ht' & Hv').
  split; [unfold same_policy in Hp; cbn; congruence|]. split; [by apply Hb'|]. exists (<[i := t']> tickets). cbn [threads holder shared].
  split; [apply all_true; rewrite !length_insert; by eapply Forall2_length|].
  split; [rewrite (sum_insert _ _ t) by done; lia|].
  split; [apply Forall_insert; [done|]; apply Ht'; by eapply (Forall_lookup_1 _ _ _ _ Hpos)|]. intros j q1 g1 t1 Hj Htj. destruct (decide (j = i)) as [->|Hne].
  - rewrite list_lookup_insert_eq in Hj by (by eapply lookup_lt_Some). rewrite list_lookup_insert_eq in Htj by (by eapply lookup_lt_Some).
    by injection Hj as <- <-; injection Htj as <-.
  - rewrite list_lookup_insert_ne in Hj by done. rewrite list_lookup_insert_ne in Htj by done. rewrite Hh by done.
    eapply valid_stable; [by apply (Hv j q1)|]. by eapply others_rely.
Qed.

Definition reach_ok (m : machine) : Prop := machine_ok m /\ forall i, holder m = Some i -> (i < length (threads m))%nat.

Lemma reach_ok_step m m' : 0 <= max -> mstep m m' -> reach_ok m -> reach_ok m'.
Proof.
  intros Hmax [ts h s q | ts h s i q acc u k Hi | ts s i q k Hi | ts s i q k Hi] [Hok Hh]; cbn [holder threads] in Hh.
  - split; [by apply machine_ok_spawn|]. cbn. intros i Hi. rewrite length_app. specialize (Hh i Hi). lia.
  - split; [|cbn; by rewrite length_insert]. pose proof Hok as (Hm & _). eapply machine_ok_step; [done | done | done|].
    intros t Hv. destruct (Hv s (reflexivity s) Hm) as (Hp & t' & H1 & H2 & H3 & H4 & H5). by exists t'.
  - split; [|cbn; intros j [= <-]; rewrite length_insert; by eapply lookup_lt_Some]. pose proof Hok as (Hm & _).
    eapply machine_ok_step; [done | done | |].
    + intros j Hj. rewrite !bool_decide_eq_false_2; [done | done | by intros [= ->]].
    + intros t Hv. destruct (Hv s (reflexivity s) Hm) as [_ Hk]. exists t. rewrite (bool_decide_eq_true_2 (Some i = Some i)) by done.
      repeat split; [lia | done | done | by apply Hk].
  - split; [|done]. pose proof Hok as (Hm & _). eapply machine_ok_step; [done | done | |].
    + intros j Hj. rewrite !bool_decide_eq_false_2; [done | by intros [= ->] | done].
    + intros t Hv. destruct (Hv s (reflexivity s) Hm) as [_ Hk]. exists t.
      repeat split; [lia | done | done | by apply Hk].
Qed.

Lemma reach_ok_reachable m m' : 0 <= max -> rtc mstep m m' -> reach_ok m -> reach_ok m'.
Proof. intros Hmax Hr. induction Hr as [m | m1 m2 m3 Hs _ IH]; [done|]. intros Hm. apply IH. by eapply reach_ok_step. Qed.

(** Every admitted goroutine has a ticket. *)
Lemma admitted_tickets (ts : list (request * gor (option bool))) (tickets : list Z) :
  length ts = length tickets -> Forall (Z.le 0) tickets ->
  (forall i x t, ts !! i = Some x -> tickets !! i = Some t -> admitted x = true -> t = 1) ->
  Z.of_nat (length (List.filter admitted ts)) <= foldr Z.add 0 tickets.
Proof.
  intros Hl Hpos. revert ts Hl. induction Hpos as [|t tickets Ht Hpos IH]; intros [|x ts] Hl Ha; try done.
  cbn [List.filter foldr]. specialize (IH ts (f_equal pred Hl) (fun i => Ha (S i))).
  destruct (admitted x) eqn:E; [|lia]. specialize (Ha 0%nat x t eq_refl eq_refl E). cbn [length]. lia.
Qed.

Lemma machine_bound m : machine_ok m -> Z.of_nat (length (List.filter admitted (threads m))) <= connections (shared m) <= max.
Proof.
  intros (Hm & Hb & tickets & Hf & Hc & Hpos & Hv). split; [|done]. rewrite Hc.
  apply admitted_tickets; [by eapply Forall2_length | done|]. intros i [q g] t Hi Ht Ha.
  unfold admitted in Ha. cbn [snd] in Ha. destruct g as [v| | |]; try done. destruct v as [[]|]; try done.
  by destruct (Hv i q _ t Hi Ht (shared m) (reflexivity _) Hm) as [_ ->].
Qed.

End Bound.

(** ** The accesses of the goroutines *)

Section Races.
Context `{H : TapHost}.

(** Every access to the variables is made with the lock; [after] says whether the
    lock is held at the end. *)
Fixpoint disciplined {A} (held after : bool) (g : gor A) : Prop :=
  match g with
  | Done _ => held = after
  | Do acc _ k => (held = false -> acc = []) /\ forall s, disciplined held after (k s)
  | Acquire k => held = false /\ disciplined true after k
  | Release k => held = true /\ disciplined false after k
  end.

Lemma disciplined_bind {A C} h h1 h2 (g : gor A) (f : A -> gor C) :
  disciplined h h1 g -> (forall a, disciplined h1 h2 (f a)) -> disciplined h h2 (g ≫= f).
Proof.
  intros Hg Hf. unfold mbind, gor_bind. revert h Hg.
  induction g as [a | acc u k IH | k IH | k IH]; intros h Hg; cbn [gor_bind_ disciplined] in *.
  - by rewrite Hg.
  - destruct Hg as [H1 H2]. auto.
  - destruct Hg as [H1 H2]. auto.
  - destruct Hg as [H1 H2]. auto.
Qed.

Lemma disciplined_each {A} (l : list A) body :
  (forall x, disciplined true true (body x)) -> disciplined true true (each l body).
Proof. intros Hb. induction l as [|x l IH]; cbn [each]; [done | by eapply disciplined_bind]. Qed.

Lemma disciplined_each_return {A R} (l : list A) (body : A -> gor (option R)) :
  (forall x, disciplined true true (body x)) -> disciplined true true (each_return l body).
Proof. intros Hb. induction l as [|x l IH]; cbn [each_return]; [done|]. eapply disciplined_bind; [done | by intros []]. Qed.

Ltac lock_leaf :=
  lazymatch goal with
  | |- disciplined _ _ (each _ _) => apply disciplined_each; intros ?
  | |- disciplined _ _ (each_return _ _) => apply disciplined_each_return; intros ?
  | |- disciplined _ _ (_ ≫= _) => apply (disciplined_bind true true); [|intros ?]
  | |- disciplined _ _ (match ?x with _ => _ end) => destruct x
  | |- disciplined _ _ _ => by repeat split
  end.

Lemma disciplined_scan entries a : disciplined true true (scan_steps entries a).
Proof.
  unfold scan_steps, firewallConnection_steps, firewall_decision_steps, handleDNSQuery_steps, firewallDns_steps,
    lookupWithSearch_steps, updateFirewall_steps. cbv zeta.
  repeat lock_leaf.
Qed.

Lemma disciplined_goroutine q : (forall p, q <> AskDNS p) -> disciplined false false (goroutine q).
Proof.
  intros Hq. destruct q as [a|a|p]; [| |by destruct (Hq p)]; cbn [goroutine];
    (apply (disciplined_bind false false); [|done]); (split; [done|]);
    (apply (disciplined_bind true true); [apply disciplined_scan | by intros h]).
Qed.

Lemma disciplined_access held after x m (t : request * gor (option bool)) :
  disciplined held after (snd t) -> (x, m) ∈ next_accesses t -> held = true.
Proof.
  unfold next_accesses. destruct (snd t) as [|acc u k| |]; try (by intros _ ?%elem_of_nil).
  intros [Hacc _] Hin. destruct held; [done|]. rewrite Hacc in Hin by done. by apply elem_of_nil in Hin.
Qed.

Lemma dns_or_not (q : request) : (exists p, q = AskDNS p) \/ forall p, q <> AskDNS p.
Proof. destruct q; [by right | by right | left; by eexists]. Qed.

(** The connection handlers keep to the lock. *)
Definition locks_ok (m : machine) : Prop :=
  (forall i, holder m = Some i -> (i < length (threads m))%nat) /\
  forall i q g, threads m !! i = Some (q, g) -> (forall p, q <> AskDNS p) ->
    disciplined (bool_decide (holder m = Some i)) false g.

Lemma locks_ok_update ts h h' s s' i q g g' :
  locks_ok (mkMachine ts h s) -> ts !! i = Some (q, g) ->
  (forall j, h' = Some j -> j = i \/ h = Some j) ->
  (forall j, j <> i -> bool_decide (h' = Some j) = bool_decide (h = Some j)) ->
  (disciplined (bool_decide (h = Some i)) false g -> disciplined (bool_decide (h' = Some i)) false g') ->
  locks_ok (mkMachine (<[i := (q, g')]> ts) h' s').
Proof.
  intros [Hh Hd] Hi Hh' Hb Hg. cbn [holder threads] in *. split; cbn [holder threads].
  - intros j Hj. rewrite length_insert. destruct (Hh' j Hj) as [->|]; [by eapply lookup_lt_Some | auto].
  - intros j q1 g1 Hj Hq1. destruct (decide (j = i)) as [->|Hne].
    + rewrite list_lookup_insert_eq in Hj by (by eapply lookup_lt_Some). injection Hj as <- <-. apply Hg. by apply (Hd i q).
    + rewrite list_lookup_insert_ne in Hj by done. rewrite Hb by done. by apply (Hd j q1).
Qed.

Lemma locks_ok_step m m' : mstep m m' -> locks_ok m -> locks_ok m'.
Proof.
  intros [ts h s q | ts h s i q acc u k Hi | ts s i q k Hi | ts s i q k Hi] Hok.
  - destruct Hok as [Hh Hd]. cbn [holder threads] in *. split; cbn [holder threads].
    + intros i Hi. rewrite length_app. specialize (Hh i Hi). lia.
    + intros i q' g [Hi|[Hi Hg]]%lookup_app_Some Hq; [by apply (Hd i q')|].
      apply list_lookup_singleton_Some in Hg as [Hi0 [= <- <-]].
      rewrite bool_decide_eq_false_2; [by apply disciplined_goroutine|]. intros Hi'%Hh. lia.
  - eapply locks_ok_update; [done | done | auto | done | by intros [_ Hk]].
  - eapply locks_ok_update; [done | done | intros j [= ->]; auto | | ].
    + intros j Hj. rewrite !bool_decide_eq_false_2; [done | done | by intros [= ->]].
    + rewrite (bool_decide_eq_true_2 (Some i = Some i)) by done. by intros [_ Hk].
  - eapply locks_ok_update; [done | done | done | |].
    + intros j Hj. rewrite !bool_decide_eq_false_2; [done | by intros [= ->] | done].
    + rewrite (bool_decide_eq_false_2 (None = Some i)) by done. by intros [_ Hk].
Qed.

Lemma locks_ok_reachable s m : rtc mstep (started s) m -> locks_ok m.
Proof.
  intros Hr. assert (locks_ok (started s)) as Hs by (split; [done | intros i q g Hi; done]).
  revert Hs. induction Hr as [m | m1 m2 m3 Hs _ IH]; [done|]. intros Hm. apply IH. by eapply locks_ok_step.
Qed.

(** *** Executing one goroutine for some steps *)

Fixpoint advance {A} (n : nat) (g : gor A) (s : tap) : gor A * tap :=
  match n, g with
  | S n', Do _ u k => advance n' (k s) (u s)
  | _, _ => (g, s)
  end.

Lemma advance_steps n ts h s i q g :
  ts !! i = Some (q, g) ->
  rtc mstep (mkMachine ts h s) (mkMachine (<[i := (q, fst (advance n g s))]> ts) h (snd (advance n g s))).
Proof.
  revert ts g s. induction n as [|n IH]; intros ts g s Hi.
  { cbn [advance fst snd]. by rewrite list_insert_id. }
  destruct g as [a | acc u k | k | k]; cbn [advance fst snd]; try (by rewrite list_insert_id).
  eapply rtc_l; [by eapply step_do|].
  specialize (IH (<[i := (q, k s)]> ts) (k s) (u s)). rewrite list_insert_insert_eq in IH.
  apply IH. apply list_lookup_insert_eq. by eapply lookup_lt_Some.
Qed.

(** The DNS handler gets to the addresses of the domain, the connection handler
    to its look at them. *)
Lemma dns_before_write s name cand cands ips rrs old :
  fwRules_Count s <> 0 -> domainMap s !! Fqdn name = Some old -> old ++ ip_texts ips <> [] ->
  candidates (searchDomains s) (ndots s) name = cand :: cands -> fst (LookupIP (net s) cand) = Some ips ->
  mapM (fun ip => NewRR (name +:+ " A " +:+ ip_string ip)) ips = Some rrs ->
  exists u k, fst (advance 6 (goroutine (AskDNS (Some (OpcodeQuery, [(name, TypeA)])))) s) = Do [(AllowedIps, Writes)] u k.
Proof.
  intros Hc Hd Hne Hcand Hl Hrr. cbn [goroutine handleDNS_steps handleDNSQuery_steps]. rewrite !Z.eqb_refl. cbn [negb].
  unfold firewallDns_steps, lookupWithSearch_steps, updateFirewall_steps, mbind, gor_bind. cbn [look gor_bind_ advance id].
  replace (fwRules_Count s =? 0) with false by (symmetry; by apply Z.eqb_neq). cbn [look gor_bind_ advance id].
  rewrite Hd, bool_decide_eq_true_2 by by eexists. cbn [negb gor_bind_ advance id look]. rewrite Hcand.
  unfold each_return, mbind, gor_bind. cbn [try_candidate_steps gor_bind_ advance]. rewrite Hl. cbn [gor_bind_ mret gor_ret snd default from_option id].
  rewrite Hrr. cbn [gor_bind_ look advance id]. destruct (LookupIP (net s) cand) as [r w].
  set (s1 := s <| net := w |> <| lookups ::= cons (cand, r) |>). assert (domainMap s1 !! Fqdn name = Some old) as Hd1 by exact Hd.
  rewrite Hd1, bool_decide_eq_true_2 by by eexists. cbn [gor_bind_ advance id look]. rewrite Hd1. cbn [default from_option id].
  destruct old as [|ip old]; [|by eexists _, _]. destruct (ip_texts ips) as [|ip l]; [done | by eexists _, _].
Qed.

(** The state the DNS handler leaves has the same policy. *)
Lemma connection_before_read s a :
  fwRules_Count s <> 0 -> fwRules_MaxConnections s < 0 ->
  exists k g, goroutine (AskTCP a) = Acquire g /\ snd (advance 2 g s) = s /\
    fst (advance 2 g s) = Do [(AllowedIps, Reads)] id k.
Proof.
  intros Hc Hm. cbn [goroutine]. unfold notify_steps, scan_steps, tcpHandlers, firewallConnection_steps, firewall_decision_steps.
  unfold mbind, gor_bind. cbn [each_return gor_bind_]. change (patternMatches (fst ("*", ProxyConn)) (TCPAddr a)) with true.
  unfold mbind, gor_bind. cbn [look gor_bind_ advance id].
  eexists _, _. split; [reflexivity|]. cbn [gor_bind_ advance id look].
  replace (0 <=? fwRules_MaxConnections s) with false by (symmetry; by apply Z.leb_gt). cbn [look gor_bind_ advance id].
  replace (fwRules_Count s =? 0) with false by (symmetry; by apply Z.eqb_neq). by split.
Qed.

Lemma dns_race_reachable s a name cand cands ips rrs old :
  fwRules_Count s <> 0 -> fwRules_MaxConnections s < 0 ->
  domainMap s !! Fqdn name = Some old -> old ++ ip_texts ips <> [] ->
  candidates (searchDomains s) (ndots s) name = cand :: cands -> fst (LookupIP (net s) cand) = Some ips ->
  mapM (fun ip => NewRR (name +:+ " A " +:+ ip_string ip)) ips = Some rrs ->
  exists m, rtc mstep (started s) m /\ race m 0 1 /\ holder m = Some 1%nat /\
    (exists p, fst <$> threads m !! 0%nat = Some (AskDNS p)) /\ fst <$> threads m !! 1%nat = Some (AskTCP a).
Proof.
  intros Hc Hm Hd Hne Hcand Hl Hrr. set (dns := AskDNS (Some (OpcodeQuery, [(name, TypeA)]))).
  destruct (connection_before_read s a Hc Hm) as (k & g & Hg & Hs & Hread).
  destruct (dns_before_write s name cand cands ips rrs old Hc Hd Hne Hcand Hl Hrr) as (u & k' & Hwrite).
  eexists. split.
  - eapply rtc_l; [apply (step_spawn [] None s dns)|]. eapply rtc_l; [apply (step_spawn _ None s (AskTCP a))|].
    eapply rtc_l; [apply (step_lock _ s 1%nat (AskTCP a) g); exact (f_equal (fun g => Some (AskTCP a, g)) Hg)|].
    etransitivity; [eapply (advance_steps 2 _ _ _ 1%nat); reflexivity|]. rewrite Hs, Hread.
    eapply (advance_steps 6 _ _ _ 0%nat). reflexivity.
  - fold dns in Hwrite. cbn [threads holder]. rewrite Hwrite. split; [|split; [done|split; [by eexists | done]]].
    split; [done|]. eexists _, _. split; [reflexivity|]. split; [reflexivity|].
    exists AllowedIps, Reads. cbn. split; left.
Qed.

End Races.

(** ** Properties *)

Section Properties.
Context `{H : TapHost}.

(** C14: the bound on the connections holds however the goroutines are interleaved:
    with the policy of a bound, at any moment no more connections were let
    through than the bound says, and the count is at least their number. *)
Theorem bound_in_every_interleaving s m :
  0 <= fwRules_MaxConnections s -> connections s = 0 -> rtc mstep (started s) m ->
  Z.of_nat (length (List.filter admitted (threads m))) <= connections (shared m) <= fwRules_MaxConnections s.
Proof.
  intros Hmax Hc Hr. apply machine_bound.
  destruct (reach_ok_reachable (fwRules_MaxConnections s) (started s) m Hmax Hr) as [Hm _]; [|exact Hm].
  split; [|done]. split; [done|]. split; [cbn; lia|]. exists []. cbn. repeat split; [constructor | lia | constructor | done].
Qed.

(** C22: the lock is missing from the DNS handler alone: in no interleaving do two
    connection handlers race, so of two goroutines that access one variable at
    the same time, one of them writing, one serves a DNS message. *)
Theorem races_have_a_dns_handler s m i j :
  rtc mstep (started s) m -> race m i j ->
  exists t p, (threads m !! i = Some t \/ threads m !! j = Some t) /\ fst t = AskDNS p.
Proof.
  intros Hr%locks_ok_reachable (Hij & [q g] & [q' g'] & Hi & Hj & x & md & Hw & Ha). destruct Hr as [_ Hd].
  destruct (dns_or_not q) as [[p ->]|Hq]; [exists (AskDNS p, g), p; auto|].
  destruct (dns_or_not q') as [[p ->]|Hq']; [exists (AskDNS p, g'), p; auto|]. exfalso.
  pose proof (disciplined_access _ _ _ _ (q, g) (Hd i q g Hi Hq) Hw) as H1%bool_decide_eq_true.
  pose proof (disciplined_access _ _ _ _ (q', g') (Hd j q' g' Hj Hq') Ha) as H2%bool_decide_eq_true. congruence.
Qed.

(** And it does race: with a policy of rules, while a DNS message for an allowed
    domain is about to store the addresses it was given, a connection handler
    that holds the lock is about to look the same map up; the two accesses of the
    map are not ordered. *)
Theorem dns_handler_races s a name cand cands ips rrs old :
  fwRules_Count s <> 0 -> fwRules_MaxConnections s < 0 ->
  domainMap s !! Fqdn name = Some old -> old ++ ip_texts ips <> [] ->
  candidates (searchDomains s) (ndots s) name = cand :: cands -> fst (LookupIP (net s) cand) = Some ips ->
  mapM (fun ip => NewRR (name +:+ " A " +:+ ip_string ip)) ips = Some rrs ->
  exists m, rtc mstep (started s) m /\ race m 0 1 /\ holder m = Some 1%nat /\
    (exists p, fst <$> threads m !! 0%nat = Some (AskDNS p)) /\ fst <$> threads m !! 1%nat = Some (AskTCP a).
Proof. apply dns_race_reachable. Qed.

End Properties.

(** ** Witnesses *)

(** With a bound of two: two connections asked for, the first one served. *)
Definition two_started : tap (H := two_connections) :=
  final (start_filter (H := two_connections) ["minitap"; "/policy"]) (initial_tap (H := two_connections) O).

Definition first_served : machine (H := two_connections) :=
  mkMachine [(to 1 1 1 1 80, Done (Some true)); (to 2 2 2 2 80, goroutine (to 2 2 2 2 80))] None (two_started <| connections := 1 |>).

Lemma first_served_reachable : rtc mstep (started two_started) first_served.
Proof.
  eapply rtc_l; [apply (step_spawn [] None two_started (to 1 1 1 1 80))|].
  eapply rtc_l; [apply (step_spawn _ None _ (to 2 2 2 2 80))|].
  eapply rtc_l; [eapply (step_lock _ _ 0%nat); reflexivity|].
  etransitivity; [eapply (advance_steps 4 _ _ _ 0%nat); reflexivity|].
  eapply rtc_l; [eapply (step_unlock _ _ 0%nat); reflexivity|]. cbn. apply rtc_refl.
Qed.

Lemma bound_in_every_interleaving_witness :
  Z.of_nat (length (List.filter admitted (threads first_served))) <= connections (shared first_served) <= 2.
Proof.
  apply (bound_in_every_interleaving two_started first_served); [vm_compute; done | reflexivity | exact first_served_reachable].
Defined.

(** With the policy of the name www.example.org. *)
Lemma www_race :
  exists m, rtc mstep (started www_started) m /\ race m 0 1 /\ holder m = Some 1%nat /\
    (exists p, fst <$> threads m !! 0%nat = Some (AskDNS p)) /\ fst <$> threads m !! 1%nat = Some (AskTCP (mkAddr [1; 1; 1; 1] 80)).
Proof.
  apply (dns_race_reachable (H := www_policy) www_started (mkAddr [1; 1; 1; 1] 80) "www.example.org." "www.example.org." []
    [[93; 184; 216; 34]] ["www.example.org. A 93.184.216.34"] []); vm_compute; done.
Qed.

Lemma dns_handler_races_witness :
  exists m, rtc mstep (started www_started) m /\ race m 0 1 /\ holder m = Some 1%nat /\
    (exists p, fst <$> threads m !! 0%nat = Some (AskDNS p)) /\ fst <$> threads m !! 1%nat = Some (AskTCP (mkAddr [1; 1; 1; 1] 80)).
Proof.
  apply (dns_handler_races (H := www_policy) www_started (mkAddr [1; 1; 1; 1] 80) "www.example.org." "www.example.org." []
    [[93; 184; 216; 34]] ["www.example.org. A 93.184.216.34"] []); vm_compute; done.
Defined.

Lemma races_have_a_dns_handler_witness :
  exists (m : machine (H := www_policy)) t p, race m 0 1 /\ (threads m !! 0%nat = Some t \/ threads m !! 1%nat = Some t) /\ fst t = AskDNS p.
Proof.
  destruct www_race as (m & Hm & Hr & _). destruct (races_have_a_dns_handler www_started m 0%nat 1%nat Hm Hr) as (t & p & Ht & Hp).
  by exists m, t, p.
Defined.
