(* ===== verification/Forwarding.v ===== *)
(** * The forwarding of packets by minitap (src/minitap: libminitap.go, mux.go, tcp.go, proxy.go)

    The set-up of the network and its order, the tables of handlers, a TCP
    request that is accepted or not, and the goroutines that copy the bytes.
    The kernel, netlink and the network stack of gVisor are not code of the
    repository: each of their calls succeeds or fails as the environment says.
    When a step of the set-up fails minitap leaves without the signal the
    sandbox waits for. *)

From stdpp Require Import relations.
From S2P Require Import Prelude Monad CxxString Kernel SimKernel State ProcessTools Minitap GoStd NetFilter NetPolicy.
From Stdlib Require Import Ascii.
Open Scope sbx_scope.
Open Scope Z_scope.

(** An error that wraps an [exec.ExitError] carries an exit code. *)
Inductive go_error := ExitError (code : Z) | OtherError.

(** ** The set-up *)

(** The calls [RunNetwork] makes, but for those that only register a callback. *)
Inductive net_call :=
| PrctlDeathSignal
| UnshareNetwork
| TunOpen (name : string)
| LinkByName (name : string)
| LinkSetUp (name : string)
| ParseIPNet (text : string)
| AddrAdd (name subnet : string)
| RouteAdd (dst : string)
| NewEndpoint
| CreateNIC
| SetPromiscuousMode
| SetSpoofing
| WriteSysctl (path content : string)
| KillParent (sig : Z).

(** What a call answers: nil, or an error. *)
Class NetEnv := {
  environment : Type;
  net_answer : environment -> net_call -> option go_error * environment
}.

(** The package variable [config]. *)
Record cfg := mkCfg {
  Tun : string; Subnet : string; Gateway : string; UID : Z; GID : Z;
  HTTPPorts : option (list Z); HTTPSPorts : option (list Z)
}.

Definition initial_config : cfg := mkCfg "" "" "" (-1) (-1) None None.

Definition DefaultInit (c : cfg) : cfg :=
  mkCfg (if empty (Tun c) then "mini-tun0" else Tun c)
    (if empty (Subnet c) then "10.1.1.100/24" else Subnet c)
    (if empty (Gateway c) then "10.1.1.1" else Gateway c) (UID c) (GID c)
    (Some (default [80] (HTTPPorts c))) (Some (default [443] (HTTPSPorts c))).

(** How [RunNetwork] ends: with an error, or in [select {}]. *)
Inductive net_end := NetError (e : go_error) | Serving.

Section SetUp.
Context `{H : TapHost} `{E : NetEnv}.

(** The variables of the filter, the tables of the mux, the calls made and what
    they answered, the last first. *)
Record relay := mkRelay {
  filter_state : tap;
  tcp_table : list (string * tap_handler);
  udp_table : list (string * tap_handler);
  config : cfg;
  env : environment;
  made : list (net_call * option go_error)
}.

Definition on_filter {A} (m : prog tap A) : prog relay A := fun s =>
  let '(r, t) := m (filter_state s) in
  (r, mkRelay t (tcp_table s) (udp_table s) (config s) (env s) (made s)).

Definition net_op (c : net_call) : prog relay (option go_error) := fun s =>
  let '(err, e) := net_answer (env s) c in
  (Ok err, mkRelay (filter_state s) (tcp_table s) (udp_table s) (config s) e ((c, err) :: made s)).

(** [if err != nil { return -1, fmt.Errorf("..%w", err) }], and with [%v], which
    does not wrap the error. *)
Definition must (c : net_call) (k : prog relay net_end) : prog relay net_end :=
  err ← net_op c; match err with Some e => mret (NetError e) | None => k end.
Definition must_v (c : net_call) (k : prog relay net_end) : prog relay net_end :=
  err ← net_op c; match err with Some _ => mret (NetError OtherError) | None => k end.

Definition HandleTCP (pattern : string) (h : tap_handler) : prog relay unit :=
  modify (fun s => mkRelay (filter_state s) (tcp_table s ++ [(pattern, h)]) (udp_table s) (config s) (env s) (made s)).
Definition HandleUDP (pattern : string) (h : tap_handler) : prog relay unit :=
  modify (fun s => mkRelay (filter_state s) (tcp_table s) (udp_table s ++ [(pattern, h)]) (config s) (env s) (made s)).

Definition SetPingGroupRange : prog relay (option go_error) :=
  net_op (WriteSysctl "/proc/sys/net/ipv4/ping_group_range" ("0 0" +:+ String LF "")).

Definition RunNetwork : prog relay net_end :=
  err ← net_op PrctlDeathSignal;
  match err with
  | Some _ => exit_ 1
  | None =>
      _ ← modify (fun s => mkRelay (filter_state s) (tcp_table s) (udp_table s) (DefaultInit (config s)) (env s) (made s));
      c ← gets config;
      must UnshareNetwork
        (must (TunOpen (Tun c))
        (must (LinkByName (Tun c))
        (must (LinkSetUp (Tun c))
        (must (ParseIPNet (Subnet c))
        (must (AddrAdd (Tun c) (Subnet c))
        (must (ParseIPNet "0.0.0.0/0")
        (must (ParseIPNet "2000::/3")
        (must (RouteAdd "0.0.0.0/0")
          (_ ← net_op (RouteAdd "2000::/3");
           must (LinkByName "lo")
          (must (LinkSetUp "lo")
             (_ ← on_filter setUpstreamDNS;
              _ ← HandleUDP ":53" HandleDNSPackets;
              _ ← HandleTCP "*" ProxyConn;
              _ ← HandleUDP "*" ProxyConn;
              must_v NewEndpoint
             (must_v CreateNIC
             (must_v SetPromiscuousMode
             (must_v SetSpoofing
                (_ ← SetPingGroupRange;
                 _ ← on_filter InitFirewall;
                 _ ← net_op (KillParent SIGUSR1);
                 mret Serving)))))))))))))))
  end.

(** The exported function of the library build, when it returns. *)
Definition MiniTapUserTCPIP : prog relay Z :=
  e ← RunNetwork; mret match e with NetError _ => -1 | Serving => 0 end.

Definition main (args : list string) : prog relay unit :=
  _ ← on_filter (ParseArg args);
  e ← RunNetwork;
  match e with
  | NetError (ExitError code) => exit_ code
  | NetError OtherError => exit_ 1
  | Serving => mret tt
  end.

(** The calls of a set-up that succeeds, in order; the failure of the marked
    ones is ignored. *)
Definition ready_calls (c : cfg) : list (net_call * bool) :=
  [(PrctlDeathSignal, false); (UnshareNetwork, false); (TunOpen (Tun c), false); (LinkByName (Tun c), false);
   (LinkSetUp (Tun c), false); (ParseIPNet (Subnet c), false); (AddrAdd (Tun c) (Subnet c), false);
   (ParseIPNet "0.0.0.0/0", false); (ParseIPNet "2000::/3", false); (RouteAdd "0.0.0.0/0", false);
   (RouteAdd "2000::/3", true); (LinkByName "lo", false); (LinkSetUp "lo", false); (NewEndpoint, false);
   (CreateNIC, false); (SetPromiscuousMode, false); (SetSpoofing, false);
   (WriteSysctl "/proc/sys/net/ipv4/ping_group_range" ("0 0" +:+ String LF ""), true); (KillParent SIGUSR1, true)].

End SetUp.

(** ** A TCP request

    What the handler of the forwarder does to the request: [CreateEndpoint], and
    [Complete] with or without a reset. *)

Inductive request_call := CreateEndpoint | Complete (reset : bool).

Section Requests.
Context `{H : TapHost}.

(** [Accept] and the handler [HandleTCP] registers: what is called, and the handler
    that is given the connection. *)
Definition Accept (endpoint_ok : bool) : list request_call * bool :=
  if endpoint_ok then ([CreateEndpoint; Complete false], true) else ([CreateEndpoint; Complete true], false).
Definition Reject : list request_call := [Complete true].

Definition HandleTCPRequest (endpoint_ok : bool) (h : tap_handler) : list request_call * option tap_handler :=
  let '(calls, ok) := Accept endpoint_ok in (calls, if ok : bool then Some h else None).

(** [notifyTCP] and the goroutine it starts: a request no entry takes is left alone. *)
Definition serve_tcp (endpoint_ok : bool) (a : net_addr) : prog tap (list request_call * option tap_handler) :=
  h ← notifyTCP a;
  mret match h with Some h => HandleTCPRequest endpoint_ok h | None => ([], None) end.

Definition completes (calls : list request_call) : bool :=
  existsb (fun c => match c with Complete _ => true | CreateEndpoint => false end) calls.

(** The forwarder of gVisor, which hands a request to its handler only while
    fewer than [maxInFlight] requests are not completed. *)
Definition maxInFlight : nat := 100.

Section Forwarder.
Context {forwarder : Type} (in_flight : forwarder -> nat) (arrive : forwarder -> bool * forwarder) (complete : forwarder -> forwarder).

(** The documented behaviour of [tcp.Forwarder]. *)
Record forwarder_laws : Prop := {
  arrive_handled f : fst (arrive f) = (in_flight f <? maxInFlight)%nat;
  arrive_counts f : in_flight (snd (arrive f)) = (in_flight f + if fst (arrive f) then 1 else 0)%nat;
  complete_counts f : in_flight (complete f) = pred (in_flight f)
}.

(** Connection attempts, one after the other: which reached the filter, and what
    became of them. *)
Fixpoint serve_syns (l : list (net_addr * bool)) (f : forwarder) : prog tap (list (option (option tap_handler)) * forwarder) :=
  match l with
  | [] => mret ([], f)
  | (a, endpoint_ok) :: rest =>
      let '(handled, f1) := arrive f in
      if handled : bool then
        '(calls, h) ← serve_tcp endpoint_ok a;
        '(hs, f2) ← serve_syns rest (if completes calls then complete f1 else f1);
        mret (Some h :: hs, f2)
      else
        '(hs, f2) ← serve_syns rest f1;
        mret (None :: hs, f2)
  end.

End Forwarder.
End Requests.

(** ** The goroutines that copy *)

(** What a read returns: bytes, bytes together with an error, the end or an error. *)
Inductive read_result :=
| ReadData (b : string)
| ReadDataError (b : string) (eof : bool)
| ReadEOF
| ReadError.

(** A connection: what reading it gives, what was written to it, and whether it was closed. *)
Record conn := mkConn { incoming : list read_result; written : list string; closed : bool }.

(** One iteration of the loop of [proxyBytes]; [write_ok] says what the write
    answers.  [None] leaves the loop; bytes that come with an error are dropped,
    and so are bytes that cannot be written. *)
Definition proxy_iteration (write_ok : bool) (w r : conn) : option (conn * conn) :=
  match incoming r with
  | ReadData b :: rest =>
      Some (mkConn (incoming w) (if write_ok then written w ++ [b] else written w) (closed w), mkConn rest (written r) (closed r))
  | _ => None
  end.

(** Both directions of [proxyConn]: the connection of the subprocess, that to the
    world, and the two goroutines, which are running or have returned. *)
Record proxied := mkProxied { subprocess : conn; outside : conn; up_running : bool; down_running : bool }.

(** The steps of the two, when writes may fail or not; a read that blocks is no step. *)
Inductive proxy_step (may_fail : bool) : proxied -> proxied -> Prop :=
| up_copy s w s' w' ok d :
    ok || may_fail = true -> proxy_iteration ok w s = Some (w', s') ->
    proxy_step may_fail (mkProxied s w true d) (mkProxied s' w' true d)
| up_return s w d :
    incoming s <> [] -> proxy_iteration true w s = None -> proxy_step may_fail (mkProxied s w true d) (mkProxied s w false d)
| down_copy s w s' w' ok u :
    ok || may_fail = true -> proxy_iteration ok s w = Some (s', w') ->
    proxy_step may_fail (mkProxied s w u true) (mkProxied s' w' u true)
| down_return s w u :
    incoming w <> [] -> proxy_iteration true s w = None -> proxy_step may_fail (mkProxied s w u true) (mkProxied s w u false).

(** [net.Dial], and the goroutines when it succeeds. *)
Definition proxyConn (dialed : option conn) (s : conn) : conn + proxied :=
  match dialed with
  | None => inl (mkConn (incoming s) (written s) true)
  | Some w => inr (mkProxied s w true true)
  end.

(** The bytes read before the first error or the end. *)
Fixpoint stream (l : list read_result) : list string :=
  match l with
  | ReadData b :: rest => b :: stream rest
  | _ => []
  end.

(** ** Facts *)

Section SetUpFacts.
Context `{H : TapHost} `{E : NetEnv}.

Definition is_kill (c : net_call) : bool := match c with KillParent _ => true | _ => false end.

(** Without the signal, whatever the outcome. *)
Definition quietly (s s' : relay) : Prop := exists l, made s' = l ++ made s /\ Forall (fun e => is_kill (fst e) = false) l.

#[local] Instance quietly_preorder : PreOrder quietly.
Proof.
  split; [intros s; exists []; by split|]. intros a b c (l & Hl & Hf) (l' & Hl' & Hf'). exists (l' ++ l).
  split; [by rewrite Hl', Hl, (assoc_L (++)) | by apply Forall_app].
Qed.

(** Without it unless the network is served. *)
Definition silent (m : prog relay net_end) : Prop := forall s, result m s <> Ok Serving -> quietly s (final m s).

Lemma quiet_op c : is_kill c = false -> respects quietly (net_op c).
Proof.
  intros Hc s. unfold final, net_op. destruct (net_answer (env s) c) as [err e]. cbn. exists [(c, err)].
  split; [done | by repeat constructor].
Qed.

Lemma quiet_filter {A} (m : prog tap A) : respects quietly (on_filter m).
Proof. intros s. unfold final, on_filter. destruct (m (filter_state s)). by exists []. Qed.

Lemma silent_bind {A} (m : prog relay A) k : respects quietly m -> (forall a, silent (k a)) -> silent (m ≫= k).
Proof.
  intros Hm Hk s. specialize (Hm s). unfold result, final, mbind, prog_bind in *. destruct (m s) as [[a|w] s1]; cbn [fst snd] in *; [|done].
  intros Hr. etransitivity; [exact Hm|]. by apply (Hk a s1).
Qed.

Lemma silent_quiet m : respects quietly m -> silent m.
Proof. intros Hm s _. apply Hm. Qed.

Lemma silent_must c k : is_kill c = false -> silent k -> silent (must c k).
Proof. intros Hc Hk. apply silent_bind; [by apply quiet_op | intros [e|]; [|done]]. apply silent_quiet, respects_ret, _. Qed.

Lemma silent_must_v c k : is_kill c = false -> silent k -> silent (must_v c k).
Proof. intros Hc Hk. apply silent_bind; [by apply quiet_op | intros [e|]; [|done]]. apply silent_quiet, respects_ret, _. Qed.

Lemma silent_RunNetwork : silent RunNetwork.
Proof.
  assert (silent (_ ← net_op (KillParent SIGUSR1); mret Serving)) as Hend.
  { intros s. unfold result, mbind, prog_bind, net_op. by destruct (net_answer _ _). }
  unfold RunNetwork, SetPingGroupRange, HandleUDP, HandleTCP.
  apply silent_bind; [by apply quiet_op | intros [e|]; [apply silent_quiet, respects_stop, _|]].
  repeat first
    [ exact Hend
    | apply silent_must; [done|]
    | apply silent_must_v; [done|]
    | apply silent_bind; [first [by apply quiet_op | apply quiet_filter | by intros s; exists [] | apply respects_gets, _] | intros ?] ].
Qed.

(** A successful call: what it leaves. *)
Definition answered (c : net_call) (err : option go_error) (s s' : relay) : Prop :=
  made s' = (c, err) :: made s /\ filter_state s' = filter_state s /\ tcp_table s' = tcp_table s /\
  udp_table s' = udp_table s /\ config s' = config s.

Lemma net_op_answered c s a s' : net_op c s = (Ok a, s') -> answered c a s s'.
Proof. unfold net_op. destruct (net_answer (env s) c). by intros [= <- <-]. Qed.

Lemma must_serving c k s s' :
  must c k s = (Ok Serving, s') -> exists s1, answered c None s s1 /\ k s1 = (Ok Serving, s').
Proof. intros ([e|] & s1 & Ho & Hk)%bind_inv_ok; [done|]. exists s1. split; [by apply net_op_answered | done]. Qed.

Lemma must_v_serving c k s s' :
  must_v c k s = (Ok Serving, s') -> exists s1, answered c None s s1 /\ k s1 = (Ok Serving, s').
Proof. intros ([e|] & s1 & Ho & Hk)%bind_inv_ok; [done|]. exists s1. split; [by apply net_op_answered | done]. Qed.

Lemma on_filter_ok {A} (m : prog tap A) s a s' :
  on_filter m s = (Ok a, s') -> m (filter_state s) = (Ok a, filter_state s') /\ made s' = made s /\
    tcp_table s' = tcp_table s /\ udp_table s' = udp_table s /\ config s' = config s.
Proof. unfold on_filter. destruct (m (filter_state s)) as [r t]. by intros [= -> <-]. Qed.

End SetUpFacts.

Ltac serving_step H :=
  lazymatch type of H with
  | must _ _ _ = _ => apply must_serving in H
  | must_v _ _ _ = _ => apply must_v_serving in H
  end;
  let s := fresh "s" in let M := fresh "M" in let F := fresh "F" in let T := fresh "T" in let U := fresh "U" in let C := fresh "C" in
  destruct H as (s & (M & F & T & U & C) & H).

(** The state at the end in terms of the state at the start. *)
Ltac backwards :=
  repeat match goal with
  | M : made ?x = _ |- context [made ?x] => rewrite M
  | M : tcp_table ?x = _ |- context [tcp_table ?x] => rewrite M
  | M : udp_table ?x = _ |- context [udp_table ?x] => rewrite M
  | M : config ?x = _ |- context [config ?x] => rewrite M
  end.

Section SetUpProperties.
Context `{H : TapHost} `{E : NetEnv}.

(** What a set-up that serves did, in order. *)
Lemma RunNetwork_serving s s' :
  RunNetwork s = (Ok Serving, s') ->
  config s' = DefaultInit (config s) /\
  (exists u s1, setUpstreamDNS (filter_state s) = (Ok u, s1) /\ InitFirewall s1 = (Ok u, filter_state s')) /\
  tcp_table s' = tcp_table s ++ tcpHandlers /\ udp_table s' = udp_table s ++ udpHandlers /\
  exists calls, made s' = rev calls ++ made s /\
    Forall2 (fun c call => fst call = fst c /\ (snd c = false -> snd call = None)) (ready_calls (config s')) calls.
Proof.
  intros R. unfold RunNetwork in R. apply bind_inv_ok in R as ([e|] & s1 & (M1 & F1 & T1 & U1 & C1)%net_op_answered & R); [done|].
  apply bind_inv_ok in R as (u & s2 & [= <- <-] & R). apply bind_inv_ok in R as (c & s3 & [= <- <-] & R).
  set (s2 := mkRelay _ _ _ _ _ _) in R. 
  assert (made s2 = made s1) as M2 by done. assert (filter_state s2 = filter_state s1) as F2 by done.
  assert (tcp_table s2 = tcp_table s1) as T2 by done. assert (udp_table s2 = udp_table s1) as U2 by done.
  assert (config s2 = DefaultInit (config s1)) as C2 by done. clearbody s2.
  do 9 serving_step R. apply bind_inv_ok in R as (e6 & s12 & (M12 & F12 & T12 & U12 & C12)%net_op_answered & R).
  do 2 serving_step R.
  apply bind_inv_ok in R as ([] & s15 & (D & M15 & T15 & U15 & C15)%on_filter_ok & R).
  apply bind_inv_ok in R as ([] & s16 & [= <-] & R). apply bind_inv_ok in R as ([] & s17 & [= <-] & R).
  apply bind_inv_ok in R as ([] & s18 & [= <-] & R). do 4 serving_step R. cbn [made tcp_table udp_table config filter_state] in *.
  apply bind_inv_ok in R as (ep & s23 & (M23 & F23 & T23 & U23 & C23)%net_op_answered & R).
  apply bind_inv_ok in R as ([] & s24 & (I & M24 & T24 & U24 & C24)%on_filter_ok & R).
  apply bind_inv_ok in R as (ek & s25 & (M25 & F25 & T25 & U25 & C25)%net_op_answered & R). injection R as <-.
  split; [by backwards|]. split.
  { exists tt, (filter_state s15). rewrite F25, <- I. split; [rewrite <- D; f_equal; congruence | f_equal; congruence]. }
  split; [by backwards|].
  split; [backwards; by rewrite <- app_assoc|].
  assert (config s25 = DefaultInit (config s)) as -> by (by backwards).
  eexists [_; _; _; _; _; _; _; _; _; _; _; _; _; _; _; _; _; _; _]. split; [backwards; reflexivity|].
  repeat constructor; done.
Qed.

Lemma main_quiet args s w s' :
  main args s = (Stop w, s') -> exists l, made s' = l ++ made s /\ Forall (fun e => is_kill (fst e) = false) l.
Proof.
  intros R. unfold main, mbind at 1, prog_bind at 1 in R.
  destruct (on_filter (ParseArg args) s) as [[[]|w1] s1] eqn:E1.
  + pose proof (quiet_filter (ParseArg args) s) as H1. unfold final in H1. rewrite E1 in H1.
    destruct (RunNetwork s1) as [r s2] eqn:E2. unfold mbind, prog_bind in R. rewrite E2 in R.
    pose proof (silent_RunNetwork s1) as H2. unfold result, final in H2. rewrite E2 in H2. cbn [fst snd] in *.
    assert (s' = s2 /\ r <> Ok Serving) as [-> Hr] by (unfold exit_, stop_with, mret, prog_ret in R; destruct r as [[[]|]|]; split; congruence).
    destruct H1 as (l1 & Hl1 & Hf1), (H2 Hr) as (l2 & Hl2 & Hf2). exists (l2 ++ l1). rewrite Hl2, Hl1, (assoc_L (++)).
    split; [done | by apply Forall_app].
  + injection R as <- <-. pose proof (quiet_filter (ParseArg args) s) as H1. unfold final in H1. by rewrite E1 in H1.
Qed.


End SetUpProperties.

(** ** The sandbox waits for minitap *)

(** Without the signal the loop of the sandbox is never left. *)
Lemma wait_without_signal `{B : Build} `{N : Bound} `{K : Kernel} (p : proc) :
  signal_received p = false -> (forall k, out 0 (fst (ksys k Pause)) <> SIGUSR1) ->
  result wait_for_signal p = Stop OutOfFuel.
Proof.
  intros Hp Hk. unfold wait_for_signal. generalize loop_bound as n. intros n. revert p Hp.
  induction n as [|n IH]; intros p Hp; [done|]. cbn [loop].
  unfold result, gets, sys, mbind, prog_bind. rewrite Hp. pose proof (Hk (kern p)) as Hs.
  destruct (ksys (kern p) Pause) as [r k]. cbn [fst] in Hs. apply Z.eqb_neq in Hs. rewrite Hs. by apply IH.
Qed.

(** C23: a failed set-up hangs the sandbox: when main ends with an error it has
    exited without the signal, and the process that started it, which tests
    nothing but the flag the signal sets, pauses again whatever wakes it: after
    any number of turns of its loop it is still waiting. *)
Theorem minitap_failure_hangs_sandbox `{H : TapHost} `{E : NetEnv} args s w s' `{B : Build} `{K : Kernel} (p : proc) :
  made s = [] -> main args s = (Stop w, s') ->
  signal_received p = false -> (forall k, out 0 (fst (ksys k Pause)) <> SIGUSR1) ->
  (forall sig, KillParent sig ∉ (made s').*1) /\ forall N : Bound, result (wait_for_signal (N := N)) p = Stop OutOfFuel.
Proof.
  intros Hs R Hp Hk. split; [|intros N; by apply wait_without_signal].
  intros sig (e & He & Hin)%list_elem_of_fmap.
  assert (Forall (fun e => is_kill (fst e) = false) (made s')) as Hf.
  { destruct (main_quiet args s w s' R) as (l & Hl & Hf). by rewrite Hl, Hs, app_nil_r. }
  rewrite Forall_forall in Hf. specialize (Hf e Hin). by rewrite <- He in Hf.
Qed.

(** ** Requests nobody completes *)

Section ForwarderFacts.
Context `{H : TapHost} {forwarder : Type} (in_flight : forwarder -> nat) (arrive : forwarder -> bool * forwarder) (complete : forwarder -> forwarder).
Context (Hlaws : forwarder_laws in_flight arrive complete).

(** Connections that the filter refuses, one after the other. *)
Fixpoint refused (l : list net_addr) (s : tap) : Prop :=
  match l with
  | [] => True
  | a :: rest => exists s', notifyTCP a s = (Ok None, s') /\ refused rest s'
  end.

Lemma refused_run l rest f s :
  refused l s -> (in_flight f + length l <= maxInFlight)%nat ->
  exists f' s', in_flight f' = (in_flight f + length l)%nat /\
    serve_syns arrive complete (((fun a => (a, true)) <$> l) ++ rest) f s =
    ('(hs, f'') ← serve_syns arrive complete rest f'; mret (((fun _ => Some None) <$> l) ++ hs, f'')) s'.
Proof.
  revert f s. induction l as [|a l IH]; intros f s Hr Hl.
  { exists f, s. split; [cbn; lia|]. cbn. unfold mbind, prog_bind. by destruct (serve_syns _ _ rest f s) as [[[hs f'']|w] s1]. }
  destruct Hr as (s1 & Hn & Hr). destruct Hlaws as [Hh Hc _]. specialize (Hh f). specialize (Hc f). cbn [length] in Hl.
  cbn [fmap list_fmap app serve_syns]. destruct (arrive f) as [b f1]. cbn [fst snd] in *.
  assert (b = true) as -> by (rewrite Hh; apply Nat.ltb_lt; lia).
  assert (serve_tcp true a s = (Ok ([], None), s1)) as Hserve by (unfold serve_tcp; by rewrite (bind_ok _ _ _ _ _ Hn)).
  destruct (IH f1 s1 Hr ltac:(lia)) as (f' & s' & Hf' & E). exists f', s'. split; [cbn [length]; lia|].
  unfold mbind at 1, prog_bind at 1. rewrite Hserve. cbn [completes existsb].
  unfold mbind at 1, prog_bind at 1. rewrite E. unfold mbind, prog_bind. by destruct (serve_syns _ _ rest f' s') as [[[hs f'']|w] s2].
Qed.

Lemma ignored_run rest f s :
  (maxInFlight <= in_flight f)%nat ->
  exists f', serve_syns arrive complete rest f s = (Ok ((fun _ => None) <$> rest, f'), s).
Proof.
  revert f. induction rest as [|[a ok] rest IH]; intros f Hf; [by exists f|].
  destruct Hlaws as [Hh Hc _]. specialize (Hh f). specialize (Hc f). cbn [serve_syns].
  destruct (arrive f) as [b f1]. cbn [fst snd] in *.
  assert (b = false) as -> by (rewrite Hh; apply Nat.ltb_ge; lia).
  destruct (IH f1 ltac:(lia)) as [f' E]. exists f'. unfold mbind, prog_bind. by rewrite E.
Qed.

(** A request that is let through is completed, whether an endpoint could be made or not. *)
Lemma admitted_completed ok a s h s' :
  notifyTCP a s = (Ok (Some h), s') ->
  exists calls r, serve_tcp ok a s = (Ok (calls, r), s') /\ completes calls = true /\ r = if ok then Some h else None.
Proof.
  intros Hn. unfold serve_tcp. rewrite (bind_ok _ _ _ _ _ Hn). unfold HandleTCPRequest, Accept.
  by destruct ok; eexists _, _.
Qed.

End ForwarderFacts.

(** C24: a connection the filter refuses is never answered: its request is neither
    accepted nor rejected, so it stays with the forwarder, which has room for a
    hundred of them.  After that many refused connections every further one is
    ignored before the filter is asked, the allowed ones included. *)
Theorem refused_requests_pile_up `{H : TapHost} {forwarder : Type} (in_flight : forwarder -> nat)
    (arrive : forwarder -> bool * forwarder) (complete : forwarder -> forwarder) l rest f s :
  forwarder_laws in_flight arrive complete -> in_flight f = 0%nat -> length l = maxInFlight -> refused l s ->
  exists s' f', serve_syns arrive complete (((fun a => (a, true)) <$> l) ++ rest) f s =
    (Ok (((fun _ => Some None) <$> l) ++ ((fun _ => None) <$> rest), f'), s').
Proof.
  intros Hlaws Hf Hl Hr. destruct (refused_run in_flight arrive complete Hlaws l rest f s Hr) as (f1 & s' & Hf1 & E); [lia|].
  destruct (ignored_run in_flight arrive complete Hlaws rest f1 s') as [f' E']; [lia|].
  exists s', f'. rewrite E. unfold mbind, prog_bind. by rewrite E'.
Qed.

(** ** What is copied *)

(** One direction so far: what was read, what of it was written, in order. *)
Definition copied (may_fail : bool) (reader0 writer0 reader writer : conn) : Prop :=
  exists taken out, stream (incoming reader0) = taken ++ stream (incoming reader) /\
    written writer = written writer0 ++ out /\ out `sublist_of` taken /\ (may_fail = false -> out = taken).

Lemma copied_refl b r w : copied b r w r w.
Proof. exists [], []. by rewrite app_nil_r. Qed.

(** The other direction changes nothing of it. *)
Lemma copied_other b r0 w0 r w r' w' :
  incoming r' = incoming r -> written w' = written w -> copied b r0 w0 r w -> copied b r0 w0 r' w'.
Proof. intros Hr Hw (taken & out & H). exists taken, out. by rewrite Hr, Hw. Qed.

Lemma copied_step b ok r0 w0 r w r' w' :
  ok || b = true -> proxy_iteration ok w r = Some (w', r') -> copied b r0 w0 r w -> copied b r0 w0 r' w'.
Proof.
  intros Hok Hi (taken & out & Ht & Hw & Hs & He). unfold proxy_iteration in Hi.
  destruct (incoming r) as [|[c| | |] rest]; try done. injection Hi as <- <-. cbn [stream] in Ht.
  exists (taken ++ [c]), (out ++ if ok then [c] else []). cbn [incoming written].
  split; [by rewrite Ht, <- app_assoc|]. split; [by destruct ok; rewrite Hw, ?app_nil_r, <- ?app_assoc|].
  split; [apply sublist_app; [done|]; destruct ok; [done | apply sublist_nil_l]|].
  intros ->. destruct ok; [by rewrite He | done].
Qed.

(** What the steps keep: both directions, and that no connection is closed. *)
Definition proxied_ok (b : bool) (s w : conn) (p : proxied) : Prop :=
  copied b s w (subprocess p) (outside p) /\ copied b w s (outside p) (subprocess p) /\
  closed (subprocess p) = closed s /\ closed (outside p) = closed w /\
  (up_running p = false -> stream (incoming (subprocess p)) = []) /\
  (down_running p = false -> stream (incoming (outside p)) = []).

Lemma iteration_frame ok w r w' r' :
  proxy_iteration ok w r = Some (w', r') ->
  incoming w' = incoming w /\ written r' = written r /\ closed w' = closed w /\ closed r' = closed r.
Proof. unfold proxy_iteration. destruct (incoming r) as [|[c| | |] rest]; try done. by intros [= <- <-]. Qed.

Lemma iteration_end w r : incoming r <> [] -> proxy_iteration true w r = None -> stream (incoming r) = [].
Proof. unfold proxy_iteration. by destruct (incoming r) as [|[c| | |] rest]. Qed.

Lemma proxied_ok_step b s w p p' : proxy_step b p p' -> proxied_ok b s w p -> proxied_ok b s w p'.
Proof.
  intros [s1 w1 s2 w2 ok d Hok Hi | s1 w1 d Hne Hi | s1 w1 s2 w2 ok u Hok Hi | s1 w1 u Hne Hi] (Hu & Hd & Hcs & Hcw & Hru & Hrd);
    cbn [subprocess outside up_running down_running] in *.
  - destruct (iteration_frame _ _ _ _ _ Hi) as (H1 & H2 & H3 & H4). repeat split; cbn [subprocess outside up_running down_running].
    + by eapply copied_step.
    + by eapply copied_other.
    + congruence.
    + congruence.
    + done.
    + by rewrite H1.
  - repeat split; try done. cbn. intros _. by eapply iteration_end.
  - destruct (iteration_frame _ _ _ _ _ Hi) as (H1 & H2 & H3 & H4). repeat split; cbn [subprocess outside up_running down_running].
    + by eapply copied_other.
    + by eapply copied_step.
    + congruence.
    + congruence.
    + by rewrite H1.
    + done.
  - repeat split; try done. cbn. intros _. by eapply iteration_end.
Qed.

(** The reads that are left and the goroutines that run: each step takes one. *)
Definition proxy_measure (p : proxied) : nat :=
  length (incoming (subprocess p)) + length (incoming (outside p)) +
  (if up_running p then 1 else 0) + (if down_running p then 1 else 0).

Lemma proxy_measure_step b p p' : proxy_step b p p' -> (proxy_measure p' < proxy_measure p)%nat.
Proof.
  intros [s1 w1 s2 w2 ok d _ Hi | | s1 w1 s2 w2 ok u _ Hi |]; unfold proxy_measure; cbn; try lia;
    unfold proxy_iteration in Hi.
  - destruct (incoming s1) as [|[c| | |] rest] eqn:E; try done. injection Hi as <- <-. cbn. lia.
  - destruct (incoming w1) as [|[c| | |] rest] eqn:E; try done. injection Hi as <- <-. cbn. lia.
Qed.

Lemma proxy_bounded b n p p' : nsteps (proxy_step b) n p p' -> (n <= proxy_measure p)%nat.
Proof. induction 1 as [p|n p1 p2 p3 Hs _ IH]; [lia|]. apply proxy_measure_step in Hs. lia. Qed.


(** ** Witnesses *)

Definition answering_env (fails : net_call -> bool) : NetEnv := {|
  environment := unit;
  net_answer := fun e c => (if fails c then Some OtherError else None, e)
|}.

(** Every call succeeds; and one where there is no tun device. *)
Definition calm_env : NetEnv := answering_env (fun _ => false).
Definition no_tun : NetEnv := answering_env (fun c => match c with TunOpen _ => true | _ => false end).

Definition relay_start (E : NetEnv) (e : environment (NetEnv := E)) : relay (H := www_policy) (E := E) :=
  mkRelay (initial_tap (H := www_policy) O) [] [] initial_config e [].


Lemma minitap_failure_hangs_sandbox_witness :
  (forall sig, KillParent sig ∉ (made (final (main (E := no_tun) ["minitap"; "/policy"]) (relay_start no_tun tt))).*1) /\
  forall N : Bound, result (wait_for_signal (N := N) (K := CalmKernel)) (initial_proc (K := CalmKernel) ∅ tt) = Stop OutOfFuel.
Proof.
  apply (minitap_failure_hangs_sandbox (H := www_policy) (E := no_tun) ["minitap"; "/policy"] (relay_start no_tun tt) (Exited 1)
    (final (main (E := no_tun) ["minitap"; "/policy"]) (relay_start no_tun tt)) (B := cli_build) (K := CalmKernel)).
  - reflexivity.
  - vm_compute. reflexivity.
  - reflexivity.
  - intros k. vm_compute. discriminate.
Defined.

(** A forwarder that counts. *)
Definition count_arrive (f : nat) : bool * nat := if (f <? maxInFlight)%nat then (true, S f) else (false, f).

Lemma count_laws : forwarder_laws id count_arrive pred.
Proof.
  split; intros f; unfold count_arrive, id.
  - by destruct (f <? maxInFlight)%nat.
  - destruct (f <? maxInFlight)%nat; cbn; lia.
  - done.
Defined.

Definition strict_started : tap (H := bad_policy) :=
  final (start_filter (H := bad_policy) ["minitap"; "/policy"]) (initial_tap (H := bad_policy) O).

Lemma refused_all n : refused (H := bad_policy) (replicate n (TCPAddr (mkAddr [1; 1; 1; 1] 80))) strict_started.
Proof. induction n as [|n IH]; [exact I|]. exists strict_started. split; [vm_compute; reflexivity | exact IH]. Defined.

Lemma refused_requests_pile_up_witness :
  exists s' f', serve_syns count_arrive pred (((fun a => (a, true)) <$> replicate 100 (TCPAddr (mkAddr [1; 1; 1; 1] 80))) ++
      [(TCPAddr (mkAddr [127; 0; 0; 53] 53), true)]) 0%nat strict_started =
    (Ok (((fun _ => Some None) <$> replicate 100 (TCPAddr (mkAddr [1; 1; 1; 1] 80))) ++ [None], f'), s').
Proof.
  apply (refused_requests_pile_up (H := bad_policy) id count_arrive pred (replicate 100 (TCPAddr (mkAddr [1; 1; 1; 1] 80)))
    [(TCPAddr (mkAddr [127; 0; 0; 53] 53), true)] 0%nat strict_started count_laws);
    [reflexivity | reflexivity | apply refused_all].
Defined.

(** A request and its answer; the last bytes of the answer come with the end. *)
Definition asking : conn := mkConn [ReadData "GET /"; ReadEOF] [] false.
Definition answering : conn := mkConn [ReadData "200"; ReadDataError "ok" true] [] false.
Definition exchanged : proxied :=
  mkProxied (mkConn [ReadEOF] ["200"] false) (mkConn [ReadDataError "ok" true] ["GET /"] false) false false.

Lemma exchange : rtc (proxy_step false) (mkProxied asking answering true true) exchanged.
Proof.
  eapply rtc_l; [by eapply (up_copy false _ _ _ _ true)|]. eapply rtc_l; [by eapply (down_copy false _ _ _ _ true)|].
  eapply rtc_l; [by eapply up_return|]. eapply rtc_l; [by eapply down_return|]. apply rtc_refl.
Qed.

