(* ===== verification/Inside.v ===== *)
(** * Where the mounts are made

    The calls of [MountAllMounts] that make files, directories and mounts stay
    below the root of the sandbox and the directory of the overlays, when the
    paths they are given are absolute.  The paths of a request are not checked
    for that: a relative one is mounted beside the root of the sandbox. *)

From S2P Require Import Prelude Monad CxxString FsPath Firewall Kernel SimKernel State Fs Errors ProcessTools OptionsApi Rules Api Mounts.
From Stdlib Require Import Ascii.
Open Scope sbx_scope.
Open Scope Z_scope.

(** ** Paths below a directory *)

(** The text of the path is the directory and the rest of a path below it. *)
Definition below (dir p : string) : Prop :=
  exists q, p = dir +:+ q /\ (q = "" \/ is_absolute q = true).

(** A directory named without a slash at its end, and not "". *)
Definition dir_name (dir : string) : Prop := exists l c, chars dir = l ++ [c] /\ is_slash c = false.

Definition all_slashes (s : string) : bool := forallb is_slash (chars s).

Lemma skip_while_app f l r :
  skip_while f (l ++ r) = if forallb f l then skip_while f r else skip_while f l ++ r.
Proof. induction l as [|c l IH]; cbn; [done|]. by destruct (f c). Qed.

(** What is left of a reversed text is a beginning of the text. *)
Lemma skip_while_rev f l : exists k, skip_while f (rev l) = rev k /\ k `prefix_of` l.
Proof.
  destruct (skip_while_split f (rev l)) as (p & Hp & _). exists (rev (skip_while f (rev l))).
  split; [by rewrite rev_involutive|]. exists (rev p). rewrite <- rev_app_distr, <- Hp. by rewrite rev_involutive.
Qed.

Lemma skip_while_nil f l : skip_while f l = [] <-> forallb f l = true.
Proof.
  induction l as [|c l IH]; cbn; [done|]. destruct (f c); [exact IH | done].
Qed.

Lemma is_absolute_chars q : is_absolute q = true <-> exists l, chars q = slash :: l.
Proof.
  unfold is_absolute. destruct q as [|c q]; cbn; [by split; [|intros []]|]. rewrite Ascii.eqb_eq.
  split; [intros ->; by eexists | by intros (l & [= -> _])].
Qed.

Lemma forallb_rev {A} (f : A -> bool) l : forallb f (rev l) = forallb f l.
Proof.
  induction l as [|a l IH]; [done|]. cbn. rewrite forallb_app, IH. cbn. rewrite andb_true_r. apply andb_comm.
Qed.

(** The text [dirname] leaves, when three of its steps leave some. *)
Lemma dirname_eq s x1 x2 x3 r1 r2 r3 :
  skip_while is_slash (rev (chars s)) = x1 :: r1 -> skip_while not_slash (x1 :: r1) = x2 :: r2 ->
  skip_while is_slash (x2 :: r2) = x3 :: r3 -> dirname s = of_chars (rev (x3 :: r3)).
Proof.
  intros H1 H2 H3. unfold dirname. destruct (rev (chars s)) as [|x r]; [done|]. by rewrite H1, H2, H3.
Qed.

Lemma skip_rev_cons f k r :
  forallb f k = false -> exists k', skip_while f (rev k ++ r) = rev k' ++ r /\ k' `prefix_of` k /\ k' <> [].
Proof.
  intros Hk. rewrite skip_while_app, forallb_rev, Hk. destruct (skip_while_rev f k) as (k' & E & P).
  exists k'. rewrite E. split; [done|]. split; [done|]. intros ->. apply skip_while_nil in E. by rewrite forallb_rev, Hk in E.
Qed.

(** The parent of a path below a directory is below it too, unless the path is
    the directory with slashes behind it. *)
Lemma dirname_below dir q :
  dir_name dir -> is_absolute q = true -> all_slashes q = false -> below dir (dirname (dir +:+ q)).
Proof.
  intros (d & c & Hd & Hc) (l & Hq)%is_absolute_chars Hs. unfold all_slashes in Hs.
  assert (rev (chars dir) = c :: rev d) as Hdir by (by rewrite Hd, rev_app_distr).
  assert (forall k, k `prefix_of` chars q -> k <> [] -> exists k', k = slash :: k') as Hpre.
  { intros [|y k] [t Ht] Hk; [done|]. rewrite Hq in Ht. injection Ht as <- _. by eexists. }
  assert (forall k, exists x r, rev k ++ rev (chars dir) = x :: r) as Hcons.
  { intros k. rewrite Hdir. destruct (rev k); by eexists _, _. }
  assert (forall k x r, rev k ++ rev (chars dir) = x :: r -> of_chars (rev (x :: r)) = dir +:+ of_chars k) as Hout.
  { intros k x r <-. rewrite rev_app_distr, !rev_involutive. rewrite <- (of_chars_chars dir) at 2.
    rewrite <- (chars_of_chars (chars dir ++ k)). rewrite <- (of_chars_chars (of_chars (chars dir) +:+ of_chars k)).
    by rewrite chars_app, !chars_of_chars. }
  destruct (skip_rev_cons is_slash (chars q) (rev (chars dir)) Hs) as (k1 & E1 & P1 & N1).
  destruct (Hpre k1 P1 N1) as (k1' & Hk1).
  destruct (skip_rev_cons not_slash k1 (rev (chars dir))) as (k2 & E2 & P2 & N2); [by rewrite Hk1|].
  destruct (Hcons k1) as (x1 & r1 & X1). destruct (Hcons k2) as (x2 & r2 & X2).
  rewrite X1 in E1, E2. rewrite X2 in E2. rewrite <- rev_app_distr, <- chars_app in E1.
  destruct (forallb is_slash k2) eqn:F.
  - rewrite (dirname_eq _ x1 x2 c r1 r2 (rev d) E1 E2).
    + rewrite <- Hdir, rev_involutive, of_chars_chars. exists "". by rewrite app_str_nil_r; auto.
    + rewrite <- X2, skip_while_app, forallb_rev, F, Hdir. cbn. by rewrite Hc.
  - destruct (skip_rev_cons is_slash k2 (rev (chars dir)) F) as (k3 & E3 & P3 & N3).
    destruct (Hcons k3) as (x3 & r3 & X3). rewrite X2, X3 in E3.
    rewrite (dirname_eq _ x1 x2 x3 r1 r2 r3 E1 E2 E3), (Hout k3 x3 r3 X3). exists (of_chars k3). split; [done|]. right.
    apply is_absolute_chars. rewrite chars_of_chars. apply Hpre; [|done]. by do 2 (etransitivity; [eassumption|]).
Qed.

Lemma drop_str_after p q : drop_str (String.length p) (p +:+ q) = q.
Proof. induction p as [|c p IH]; [by destruct q | exact IH]. Qed.

Lemma below_more dir p q : below dir p -> is_absolute q = true -> below dir (p +:+ q).
Proof.
  intros (r & -> & Hr) Hq. exists (r +:+ q). rewrite app_str_assoc. split; [done|]. right.
  destruct Hr as [-> | Hr]; [done|]. by destruct r.
Qed.

Lemma below_abs dir q : is_absolute q = true -> below dir (dir +:+ q).
Proof. intros Hq. exists q. auto. Qed.

(** Composing paths with an absolute one gives an absolute one. *)
Lemma path_append_absolute p q : is_absolute p = true -> is_absolute (path_append p q) = true.
Proof.
  intros Hp. unfold path_append. destruct (is_absolute q) eqn:Hq; [done|].
  destruct (empty (filename p)); by destruct p.
Qed.

(** ** What a call makes or covers *)

Definition touched (c : syscall) : list string :=
  match c with
  | Mount _ target _ _ _ => [target]
  | Mkdir p _ | Open p _ _ | Link _ p => [p]
  | Rmdir p | Mkdtemp p | Symlink _ p | AddPerms p | RemoveAll p | Umount2 p _ => [p]
  | PivotRoot a b => [a; b]
  | _ => []
  end.

(** The paths the options name, which the mounts are made from. *)
Definition absolute_paths (o : Options) : Prop :=
  Forall (fun p => is_absolute p = true)
    (working_dir o :: tmpfs_dirs o ++ bind_mount_targets o ++ writable_files o ++ overlayfsmount o).

Section Inside.
Context `{B : Build} `{N : Bound} `{K : Kernel}.
Context (o : Options).

(** The directory is there, however many slashes follow its name. *)
Definition there (dir : string) : Prop :=
  dir_name dir /\ forall (k : kstate) q, all_slashes q = true -> kstat k (dir +:+ q) <> inl ENOENT.

(** In the root of the sandbox, or in the directory of the overlays when there are some. *)
Definition in_sandbox (p : string) : Prop :=
  below (sandbox_root o) p \/ (overlayfsmount o <> [] /\ below (tmp_overlayfs o) p).

(** The mounts of the tmpfs name the path of the request itself. *)
Definition tmpfs_mount (c : syscall) : Prop :=
  exists d, d ∈ tmpfs_dirs o /\
    c = Mount (Some "tmpfs") d (Some "tmpfs") (Z.lor MS_NOSUID (Z.lor MS_NODEV MS_NOATIME)) None.

Definition inside (c : syscall) : Prop := Forall in_sandbox (touched c) \/ tmpfs_mount c.

(** From a state with these options and absolute read-only paths, the options
    and the read-only paths stay so and the calls made are inside. *)
Definition stays (s s' : proc) : Prop :=
  opt s = o -> Forall (fun p => is_absolute p = true) (ReadOnlyPaths s) ->
  opt s' = o /\ Forall (fun p => is_absolute p = true) (ReadOnlyPaths s') /\ calls (fun c _ => inside c) s s'.

#[local] Instance stays_preorder : PreOrder stays.
Proof.
  split; [by intros s|]. intros a b c H1 H2 Ho Hr. destruct (H1 Ho Hr) as (Ho' & Hr' & Hc).
  destruct (H2 Ho' Hr') as (Ho'' & Hr'' & Hc'). split; [done|]. split; [done|]. by etransitivity.
Qed.

Lemma stays_sys c : inside c -> respects stays (sys c).
Proof.
  intros Hc s Ho Hr. destruct (only_kernel_sys c s) as (k & t & E). split; [by rewrite E|]. split; [by rewrite E|].
  by apply calls_sys.
Qed.

Lemma stays_path c : Forall in_sandbox (touched c) -> respects stays (sys c).
Proof. intros H. apply stays_sys. by left. Qed.

(** Reading the options gives the options. *)
Lemma stays_get_opt {A C} (g : Options -> A) (f : A -> prog proc C) :
  respects stays (f (g o)) -> respects stays (get_opt g ≫= f).
Proof. intros H s Ho. pose proof (H s Ho) as Hs. revert Hs. unfold final, mbind, prog_bind, get_opt, gets. by rewrite Ho. Qed.

Lemma stays_get_ro {C} (f : list string -> prog proc C) :
  (forall l, Forall (fun p => is_absolute p = true) l -> respects stays (f l)) -> respects stays (gets ReadOnlyPaths ≫= f).
Proof. intros H s Ho Hr. exact (H _ Hr s Ho Hr). Qed.

(** A part whose result is known to have a property. *)
Lemma stays_bind_post {A C} (P : A -> Prop) (m : prog proc A) (f : A -> prog proc C) :
  respects stays m -> (forall s a s', m s = (Ok a, s') -> P a) -> (forall a, P a -> respects stays (f a)) ->
  respects stays (m ≫= f).
Proof.
  intros Hm HP Hf s. specialize (Hm s). unfold final, mbind, prog_bind in *.
  destruct (m s) as [[a|w] s1] eqn:E; cbn [snd] in *; [|done]. etransitivity; [exact Hm|]. apply (Hf a (HP _ _ _ E) s1).
Qed.

Ltac stay_leaf :=
  lazymatch goal with
  | |- respects _ (sys (Close _)) => apply stays_path, Forall_nil; exact I
  | |- respects _ DIE => apply respects_die; exact _
  | |- respects _ (query _) => apply respects_query; exact _
  | |- respects _ (get_opt _ ≫= _) => apply stays_get_opt
  | |- respects _ (gets _) => apply respects_gets; exact _
  | |- respects _ (fs_exists _) => apply respects_fs_exists; exact _
  | |- respects _ (fs_is_directory _) => apply respects_fs_is_directory; exact _
  | |- respects _ (fs_exists_ec _) => apply respects_fs_exists_ec; exact _
  | |- respects _ (fs_is_directory_ec _) => apply respects_fs_is_directory_ec; exact _
  | |- respects _ (fs_directory_iterator _ _) => apply respects_fs_directory_iterator; exact _
  end.
Ltac stay := repeat first [stay_leaf | respects_step].

(** *** Targets *)

Section Target.
Context (dir : string) (Hdir : there dir) (Hin : forall p, below dir p -> in_sandbox p).

Lemma stays_LinkFile p : in_sandbox p -> respects stays (LinkFile p).
Proof. intros Hp. unfold LinkFile, CreateFile. stay; by apply stays_path, Forall_singleton. Qed.

Lemma stays_CreateTarget p d : below dir p -> respects stays (CreateTarget p d).
Proof.
  unfold CreateTarget. generalize (target_fuel p) as n. intros n. revert p d.
  induction n as [|n IH]; intros p d Hp; cbn [CreateTarget_rec]; [by apply respects_stop; exact _|].
  destruct (all_slashes (drop_str (String.length dir) p)) eqn:Hs.
  - intros s. unfold query, gets. unfold final, mbind at 1, prog_bind at 1.
    destruct Hp as (q & -> & _). destruct Hdir as [_ Hk].
    rewrite drop_str_after in Hs. specialize (Hk (kern s) q Hs).
    destruct (kstat (kern s) (dir +:+ q)) as [[]|st]; try done; reflexivity.
  - apply respects_bind; [exact _ | by stay | intros [e|st]; [|by stay]]. destruct e; try by stay.
    apply respects_bind; [exact _ | apply IH | intros res].
    + destruct Hp as (q & -> & [-> | Hq]).
      { by rewrite drop_str_after in Hs. }
      rewrite drop_str_after in Hs. apply dirname_below; [apply Hdir | done | done].
    + destruct (res <? 0); [by stay|]. destruct d.
      * stay. by apply stays_path, Forall_singleton, Hin.
      * apply respects_bind; [exact _ | by apply stays_LinkFile, Hin | intros _; by stay].
Qed.

End Target.

(** *** The mounts *)

Context (Hroot : there (sandbox_root o)).
Context (Hover : overlayfsmount o <> [] -> there (tmp_overlayfs o)).

Lemma in_root p : below (sandbox_root o) p -> in_sandbox p.
Proof. by left. Qed.

Lemma stays_root_target q d : is_absolute q = true -> respects stays (CreateTarget (sandbox_root o +:+ q) d).
Proof. intros Hq. apply (stays_CreateTarget _ Hroot in_root). by apply below_abs. Qed.

Lemma stays_root_mount src q ty fl data :
  is_absolute q = true -> respects stays (sys (Mount src (sandbox_root o +:+ q) ty fl data)).
Proof. intros Hq. apply stays_path, Forall_singleton, in_root. by apply below_abs. Qed.

Lemma stays_MountAndRemountRO q item :
  is_absolute q = true -> respects stays (MountAndRemountRO (sandbox_root o +:+ q) item).
Proof.
  intros Hq. unfold MountAndRemountRO, RemountRO.
  repeat first
  [ lazymatch goal with
    | |- respects _ (CreateTarget _ _) => by apply stays_root_target
    | |- respects _ (sys (Mount _ _ _ _ _)) => by apply stays_root_mount
    end
  | stay_leaf | respects_step ].
Qed.

Lemma stays_mount_binds sources targets :
  Forall (fun p => is_absolute p = true) targets -> respects stays (mount_binds_ro sources targets).
Proof.
  intros Ht. revert sources. induction Ht as [|t ts Ha _ IH]; intros [|a ss]; cbn [mount_binds_ro]; try by stay.
  apply stays_get_opt. apply respects_bind; [exact _ | by apply stays_MountAndRemountRO | intros _; apply IH].
Qed.

Lemma stays_MountReadOnly l : Forall (fun p => is_absolute p = true) l -> respects stays (MountReadOnly l).
Proof.
  intros Hl. unfold MountReadOnly. apply respects_for_each; [exact _|]. intros item Hi.
  rewrite Forall_forall in Hl. apply stays_get_opt. stay. apply stays_MountAndRemountRO. by apply Hl.
Qed.

Lemma stays_writable w : is_absolute w = true -> respects stays (mount_writable w).
Proof.
  intros Hw. unfold mount_writable, mount_or_die. apply stays_get_opt. cbv zeta.
  apply respects_bind; [exact _ | stay_leaf | intros [isDir [e|]]; [by stay|]].
  apply respects_bind; [exact _ | by apply stays_root_target | intros _].
  apply respects_bind; [exact _ | by apply stays_root_mount | intros r; by stay].
Qed.

(** The directories of an absolute directory are absolute. *)
Lemma list_directories_absolute p s l s' :
  is_absolute p = true -> list_directories p s = (Ok l, s') -> Forall (fun q => is_absolute q = true) l.
Proof.
  intros Hp H. unfold list_directories in H. apply bind_inv_ok in H as (ex & s1 & _ & H).
  apply bind_inv_ok in H as ([] & s2 & _ & H); [|done]. apply bind_inv_ok in H as (es & s3 & He & H).
  assert (Forall (fun q => is_absolute q = true) es) as Hes.
  { unfold fs_directory_iterator in He. apply bind_inv_ok in He as (r & s4 & _ & He).
    destruct r as [e|names]; [by destruct e|]. injection He as <- _. apply Forall_fmap, Forall_true.
    intros n. by apply path_append_absolute. }
  clear He. assert (Forall (fun q => is_absolute q = true) (@nil string)) as Hacc by constructor.
  revert Hacc H. generalize (@nil string) as acc. revert s3. induction Hes as [|e es Ha _ IH]; intros s3 acc Hacc H; cbn [keep_directories] in H.
  { by injection H as <- _. }
  apply bind_inv_ok in H as (d & s4 & _ & H). eapply IH; [|exact H]. destruct d; [|done].
  apply Forall_app. split; [done | by constructor].
Qed.

Lemma set_insert_absolute x l :
  is_absolute x = true -> Forall (fun p => is_absolute p = true) l -> Forall (fun p => is_absolute p = true) (set_insert x l).
Proof.
  intros Hx Hl. induction Hl as [|y l Hy Hl IH]; cbn [set_insert]; [by constructor|].
  destruct (String.compare x y); by constructor; try constructor.
Qed.

Lemma stays_MountAllOverlayFs_rec fuel dirs depth :
  overlayfsmount o <> [] -> Forall (fun p => is_absolute p = true) dirs ->
  respects stays (MountAllOverlayFs_rec fuel dirs depth).
Proof.
  intros Hne. pose proof (Hover Hne) as Ht. revert dirs depth.
  assert (forall p, below (tmp_overlayfs o) p -> in_sandbox p) as Hin by (intros p Hp; by right).
  induction fuel as [|n IH]; intros dirs depth Hd; cbn [MountAllOverlayFs_rec]; [by apply respects_stop; exact _|].
  destruct (OVELAY_MAX_DEPTH <? depth); [destruct dirs; by stay|]. rewrite Forall_forall in Hd.
  apply respects_for_each; [exact _|]. intros i Hi. apply Hd in Hi. apply respects_try; [exact _ | | by stay].
  unfold MountOverlayFs. apply stays_get_opt. unfold id. cbv zeta.
  assert (below (tmp_overlayfs o) (tmp_overlayfs o +:+ i)) as Hb by (by apply below_abs).
  do 3 (apply respects_bind; [exact _ | apply (stays_CreateTarget _ Ht Hin); first [exact Hb | by apply below_more] | intros _]).
  apply respects_bind; [exact _ | by apply stays_root_target | intros _].
  apply respects_bind; [exact _ | by apply stays_root_mount | intros r]. destruct (failed r); [|by stay].
  case_decide; [|by stay]. destruct (OVELAY_DEPTH_THRESHOLD <=? depth).
  - intros s Ho Hr. split; [done|]. split; [by apply set_insert_absolute | by exists []].
  - eapply stays_bind_post; [|intros s l s' E; exact (list_directories_absolute i s l s' Hi E) | intros l Hl; by apply IH].
    apply frame_list_directories. exact _.
Qed.

Lemma stays_mounts_of : absolute_paths o -> respects stays (mounts_of o).
Proof.
  intros (Hw & (Htmp & (Htgt & (Hwr & Hov)%Forall_app)%Forall_app)%Forall_app)%Forall_cons. unfold mounts_of, mount_or_die.
  rewrite Forall_forall in Htmp, Hwr.
  apply respects_bind; [exact _ | | intros _].
  { apply respects_for_each; [exact _|]. intros d Hd.
    apply respects_bind; [exact _ | apply stays_root_target; by apply Htmp | intros _].
    apply respects_bind; [exact _ | apply stays_sys; right; by exists d | intros r; by stay]. }
  apply respects_bind; [exact _ | by apply stays_mount_binds | intros _].
  apply stays_get_ro. intros ro Hro. apply respects_bind; [exact _ | by apply stays_MountReadOnly | intros _].
  apply respects_bind; [exact _ | | intros _].
  { unfold MountAllOverlayFs. destruct (decide (overlayfsmount o = [])) as [E|E]; [|by apply stays_MountAllOverlayFs_rec].
    rewrite E. cbn [MountAllOverlayFs_rec for_each]. destruct (_ <? _); by apply respects_ret, _. }
  apply respects_bind; [exact _ | apply respects_for_each; [exact _|]; intros w Hin; by apply stays_writable, Hwr | intros _].
  cbv zeta. apply respects_bind; [exact _ | by apply stays_root_target | intros _].
  apply respects_bind; [exact _ | by apply stays_root_mount | intros r; by stay].
Qed.

End Inside.

(** ** Properties *)

Section Properties.
Context `{B : Build} `{N : Bound} `{K : Kernel}.


End Properties.

(** ** A request that is not absolute *)

Section Request.
Context `{B : Build} `{N : Bound} `{K : Kernel}.

(** A path that is there, not a symbolic link, with its canonical form. *)
Definition names_file (k : kstate) (p q : string) : Prop :=
  (exists t, kstat k p = inr t /\ klstat k p = inr t /\ st_type t <> FSymlink) /\
  krealpath k p = inr q /\ exists t, kstat k q = inr t.

Lemma exists_eq p t s : kstat (kern s) p = inr t -> fs_exists p s = (Ok true, s).
Proof. intros H. unfold fs_exists. by rewrite test_status_eq, H. Qed.

Lemma CanonicPath_eq p q s : names_file (kern s) p q -> CanonicPath p false s = (Ok q, s).
Proof.
  intros ((t & Ht & Hl & Hty) & Hr & _). unfold CanonicPath, catch_fs, try_catch.
  rewrite (bind_ok _ _ _ _ _ (exists_eq p t s Ht)). cbn iota.
  rewrite (bind_ok (fs_is_symlink p) _ s false s).
  - unfold fs_canonical, query, gets, mbind, prog_bind. by rewrite Hr.
  - unfold fs_is_symlink, test_status, symlink_status, query, gets, mbind, prog_bind. rewrite Hl. cbn.
    by rewrite bool_decide_eq_false_2.
Qed.

Lemma ValidatePath_eq q t s :
  is_absolute q = true -> kstat (kern s) q = inr t -> ValidatePath q s = (Ok (0, true), s).
Proof.
  intros Hq Ht. unfold ValidatePath, catch_fs, try_catch. rewrite Hq. cbn [negb].
  by rewrite (bind_ok _ _ _ _ _ (exists_eq q t s Ht)).
Qed.

(** What the request leaves in the options. *)
Lemma MountBind_keeps_request p q s :
  is_running (opt s) = NOT_RUNNING -> is_absolute q = true -> q <> p -> names_file (kern s) p q ->
  p ∈ bind_mount_targets (opt (final (MiniSbxMountBind p) s)).
Proof.
  intros Hrun Hq Hne Hn. pose proof Hn as (_ & _ & t & Ht). unfold MiniSbxMountBind, if_not_started.
  rewrite (final_bind_ok (get_opt is_running) _ s NOT_RUNNING s) by (unfold get_opt, gets; by rewrite Hrun).
  rewrite decide_True by done.
  rewrite (final_bind_ok _ _ _ _ _ (CanonicPath_eq p q s Hn)).
  rewrite (final_bind_ok _ _ _ _ _ (ValidatePath_eq q t s Hq Ht)). cbn [Z.ltb Z.compare negb].
  set (s1 := s <| opt ::= add_bind q q |>). rewrite (final_bind_ok (mod_opt (add_bind q q)) _ s tt s1 eq_refl).
  replace (streq q p) with false by (symmetry; by apply streq_false). cbn [negb when].
  set (s2 := s1 <| opt ::= add_bind p p |>). rewrite (final_bind_ok (mod_opt (add_bind p p)) _ s1 tt s2 eq_refl).
  assert (respects grows (_ ← MountHomeSymlinks p add_bind_missing; mret 0)) as Hg.
  { apply respects_bind; [exact grows_preorder | | intros _; apply respects_ret; exact grows_preorder].
    apply frame_MountHomeSymlinks.
    - exact grows_preorder.
    - intros c _. apply grows_sys.
    - done.
    - intros f Hf s'. by apply grown_update, up_mount.
    - intros d. constructor. }
  specialize (Hg s2). destruct (grown_targets _ _ Hg) as [l ->]. apply elem_of_app. left.
  change (p ∈ (bind_mount_targets (opt s) ++ [q]) ++ [p]). apply elem_of_app. right. by apply list_elem_of_singleton.
Qed.

(** A path that is not absolute is not below any directory it is put behind. *)
Lemma relative_not_below dir p : is_absolute p = false -> p <> "" -> ~ below dir (dir +:+ p).
Proof.
  intros Hp Hne (q & Hq & H). apply (f_equal (drop_str (String.length dir))) in Hq. rewrite !drop_str_after in Hq.
  subst q. destruct H as [?|H]; congruence.
Qed.

(** The path of a request is stored as it was given, too: when a relative
    path names a file, the request adds it to the targets as it is, and the
    target is bound on the text of the sandbox root followed by that path, a
    place that is not below the root but beside it. *)
Theorem relative_request_escapes p q s :
  is_running (opt s) = NOT_RUNNING -> is_absolute p = false -> p <> "" -> is_absolute q = true ->
  names_file (kern s) p q ->
  p ∈ bind_mount_targets (opt (final (MiniSbxMountBind p) s)) /\
  ~ below (sandbox_root (opt s)) (sandbox_root (opt s) +:+ p).
Proof.
  intros Hrun Hp Hne Hq Hn. split; [|by apply relative_not_below].
  apply (MountBind_keeps_request p q); [done | done | intros ->; congruence | done].
Qed.

End Request.

(** ** Witnesses *)

(** An example: the sandbox root, and the file [w] of the current directory. *)
Definition beside_sim : sim :=
  empty_sim <| sim_nodes ::= fun m => <["/" := FDirectory]> (<["/tmp" := FDirectory]> (<["/tmp/s" := FDirectory]>
                 (<["/w" := FRegular]> m))) |> <| sim_aliases ::= insert "w" "/w" |>.
Definition beside_proc : proc (H := SimKernel) :=
  (sim_proc beside_sim) <| opt ::= fun o => o <| sandbox_root := "/tmp/s" |> <| working_dir := "/" |> |>.

Definition beside_run : proc (H := SimKernel) :=
  final (_ ← MiniSbxMountBind (B := cli_build) "w"; MountAllMounts) beside_proc.

Lemma relative_request_escapes_witness :
  "w" ∈ bind_mount_targets (opt (final (MiniSbxMountBind (B := cli_build) "w") beside_proc)) /\ ~ below "/tmp/s" "/tmp/sw".
Proof.
  apply (relative_request_escapes (B := cli_build) (K := SimKernel) "w" "/w" beside_proc); try done.
  split; [by eexists|]. split; [done|]. by eexists.
Defined.

(** The place beside the root is made and mounted on. *)
Lemma beside_mounted :
  Link "tmp/empty_file" "/tmp/sw" ∈ (trace beside_run).*1 /\
  Mount (Some "w") "/tmp/sw" None (Z.lor MS_REC MS_BIND) None ∈ (trace beside_run).*1.
Proof. vm_compute. split; repeat first [apply list_elem_of_here | apply list_elem_of_further]. Qed.

Definition inside_proc : proc (H := CalmKernel) :=
  calm_proc <| opt ::= fun o => o <| tmp_overlayfs := "/tmp/o" |> |> <| ReadOnlyPaths := ["/lib"] |>.

