(* ===== verification/View.v ===== *)
(** * What the sandbox can write to

    The calls that build the file system of the sandbox are given a meaning: the
    mounts a process sees, and for each whether a write to it reaches the files
    of the host.  When a mode that changes the root has been set up, a path that
    can be written through to the host lies in a mount that was asked for, or in
    one of the exceptions the theorem lists: a mount below the source of a
    recursive bind, a remount the kernel refused, a source whose flags could not
    be read. *)

From S2P Require Import Prelude Monad CxxString FsPath Firewall Kernel SimKernel State Fs Errors ProcessTools OptionsApi Rules Api Mounts Pid1 Inside.
From Stdlib Require Import Ascii.
Open Scope sbx_scope.
Open Scope Z_scope.

(** ** The mounts a process sees

    The meaning of the calls is that of the manual pages mount(2), pivot_root(2)
    and umount(2); paths are compared as texts, so symbolic links are not
    followed. *)

(** Where a write ends: in the files of the host, nowhere, or in a file system
    of the sandbox's own (a tmpfs, an overlay, /proc). *)
Inductive access := Writable | ReadOnly | Private.

(** The mounts, the newest first, and the working directory. *)
Record view := mkView { v_cwd : string; v_mounts : list (string * access) }.

Definition has_flag (flags f : Z) : bool := negb (Z.land flags f =? 0).

(** The old magic number in the upper half of the flags says nothing. *)
Definition MS_MGC_MSK : Z := 4294901760.
Definition plain_flags (flags : Z) : Z :=
  if Z.land flags MS_MGC_MSK =? MS_MGC_VAL then Z.land flags 65535 else flags.

(** MS_UNBINDABLE, MS_PRIVATE, MS_SLAVE and MS_SHARED. *)
Definition MS_PROPAGATION : Z := 131072 + 262144 + 524288 + 1048576.

Definition join (dir p : string) : string := if streq dir ROOT then ROOT +:+ p else dir +:+ ROOT +:+ p.

Definition resolve (cwd p : string) : string :=
  if is_absolute p then p else if streq p "." then cwd else join cwd p.

(** What follows a directory in a path strictly below it. *)
Definition rest_below (dir p : string) : option string :=
  if streq p dir then None
  else if streq dir ROOT then (if is_absolute p then Some p else None)
  else if has_prefix dir p && is_absolute (drop_str (String.length dir) p)
    then Some (drop_str (String.length dir) p) else None.

Definition at_or_below (dir p : string) : bool := streq p dir || bool_decide (is_Some (rest_below dir p)).

(** The mount a path is in: the newest one at or above it. *)
Definition governor (mounts : list (string * access)) (p : string) : option (string * access) :=
  find (fun e => at_or_below e.1 p) mounts.

(** A remount changes the newest mount on its target. *)
Fixpoint update_first (target : string) (a : access) (mounts : list (string * access)) : list (string * access) :=
  match mounts with
  | [] => []
  | e :: rest => if streq e.1 target then (target, a) :: rest else e :: update_first target a rest
  end.

Fixpoint drop_first (target : string) (mounts : list (string * access)) : list (string * access) :=
  match mounts with
  | [] => []
  | e :: rest => if streq e.1 target then rest else e :: drop_first target rest
  end.

(** The copies a recursive bind makes of the mounts below its source. *)
Definition carried (source target : string) (mounts : list (string * access)) : list (string * access) :=
  omap (fun e => option_map (fun rest => (target +:+ rest, e.2)) (rest_below source e.1)) mounts.

(** What a path can be written to; one in no mount that is known counts as writable. *)
Definition access_at (mounts : list (string * access)) (p : string) : access :=
  match governor mounts p with Some (_, a) => a | None => Writable end.

(** A bind has the flags of the mount its source is in. *)
Definition mount_effect (source : option string) (flags : Z) (v : view) (target : string) : list (string * access) :=
  let t := resolve (v_cwd v) target in
  let flags := plain_flags flags in
  if has_flag flags MS_REMOUNT then
    update_first t (if has_flag flags MS_RDONLY then ReadOnly else Writable) (v_mounts v)
  else if has_flag flags MS_BIND then
    let from := resolve (v_cwd v) (default "" source) in
    (if has_flag flags MS_REC then carried from t (v_mounts v) else []) ++ (t, access_at (v_mounts v) from) :: v_mounts v
  else if has_flag flags MS_PROPAGATION then v_mounts v
  else (t, if has_flag flags MS_RDONLY then ReadOnly else Private) :: v_mounts v.

(** The new name of a path once [root] is the root, and the old one is [put_old]. *)
Definition renamed (root put_old p : string) : string :=
  if streq p root then ROOT
  else match rest_below root p with
       | Some rest => rest
       | None => if streq p ROOT then put_old else put_old +:+ p
       end.

(** A successful call; [chroot] is only called on the root of the process. *)
Definition effect (c : syscall) (v : view) : view :=
  match c with
  | Mount source target _ flags _ => mkView (v_cwd v) (mount_effect source flags v target)
  | Chdir p => mkView (resolve (v_cwd v) p) (v_mounts v)
  | Umount2 p flags =>
      let t := resolve (v_cwd v) p in
      mkView (v_cwd v)
        (if has_flag flags MNT_DETACH then base.filter (fun e => at_or_below t e.1 = false) (v_mounts v)
         else drop_first t (v_mounts v))
  | PivotRoot new_root put_old =>
      let root := resolve (v_cwd v) new_root in
      let old := renamed root "" (resolve (v_cwd v) put_old) in
      mkView (renamed root old (v_cwd v)) (prod_map (renamed root old) id <$> v_mounts v)
  | _ => v
  end.

(** The view after the calls of a trace, whose newest is the first. *)
Fixpoint view_after (v : view) (l : list (syscall * reply)) : view :=
  match l with
  | [] => v
  | (c, r) :: l' => if failed r then view_after v l' else effect c (view_after v l')
  end.

(** ** Why a mount may be writable *)

(** The paths, named as in the sandbox, that the set-up itself leaves writable:
    what was asked for, the device files, a read-only request whose path is to be
    kept writable, and one whose source [statvfs] says nothing about. *)
Section Kept.
Context `{K : Kernel}.

Definition read_only_request (o : Options) (item p : string) : Prop :=
  item = p \/ (item, p) ∈ zip (bind_mount_sources o) (bind_mount_targets o).

Inductive kept_writable (o : Options) : string -> Prop :=
| kept_workdir : kept_writable o (working_dir o)
| kept_file w : w ∈ writable_files o -> kept_writable o w
| kept_dev d : d ∈ dev_nodes -> kept_writable o d
| kept_policy item p :
    read_only_request o item p -> ShouldBeWritable o item || ShouldBeWritable o (sandbox_root o +:+ p) = true ->
    kept_writable o p
| kept_unknown item p k : read_only_request o item p -> kstatvfs k item = None -> kept_writable o p.

End Kept.

(** The mounts that may be writable after the calls of a trace, when those of
    [asked] may: the writable ones of the host, the copies a recursive bind makes
    of mounts that may be writable themselves, and those whose remount failed in
    a way that is ignored. *)
Section Justified.
Context (cwd : string) (host : list (string * access)) (asked : string -> Prop) (l : list (syscall * reply)).

Inductive justified : string -> Prop :=
| just_asked p : asked p -> justified p
| just_host p : (p, Writable) ∈ host -> justified p
| just_carried source target ty flags data r p rest :
    (Mount (Some source) target ty flags data, r) ∈ l -> failed r = false ->
    rest_below (resolve cwd source) p = Some rest -> justified p -> justified (resolve cwd target +:+ rest)
| just_ignored p flags r :
    (Mount None p None flags None, r) ∈ l -> failed r = true -> ignored_remount_error (r_errno r) = true -> justified p.

End Justified.

Lemma justified_host cwd host host' (W W' : string -> Prop) l l' p :
  (forall q, (q, Writable) ∈ host -> (q, Writable) ∈ host') -> (forall q, W q -> W' q) -> l ⊆ l' ->
  justified cwd host W l p -> justified cwd host' W' l' p.
Proof.
  intros Hh HW Hl H.
  induction H as [p Hp | p Hp | src tgt ty fl data r p rest Hin Hr Hrest H IH | p fl r Hin Hr He].
  - by apply just_asked, HW.
  - by apply just_host, Hh.
  - eapply just_carried; eauto.
  - eapply just_ignored; eauto.
Qed.

Lemma justified_mono cwd host (W W' : string -> Prop) l l' p :
  (forall q, W q -> W' q) -> l ⊆ l' -> justified cwd host W l p -> justified cwd host W' l' p.
Proof. by apply justified_host. Qed.

(** *** Facts about the view *)

Lemma app_str_cancel p a b : p +:+ a = p +:+ b -> a = b.
Proof. intros E. apply (f_equal (drop_str (String.length p))) in E. by rewrite !drop_str_after in E. Qed.

Lemma app_absolute_ne t rest : is_absolute rest = true -> t +:+ rest <> t.
Proof.
  intros Hr E. assert (rest = "") as -> by (apply (app_str_cancel t); by rewrite app_str_nil_r). done.
Qed.

Lemma rest_below_some dir p rest :
  rest_below dir p = Some rest ->
  is_absolute rest = true /\ (dir = ROOT /\ rest = p \/ dir <> ROOT /\ p = dir +:+ rest).
Proof.
  unfold rest_below. destruct (streq p dir); [done|]. destruct (streq dir ROOT) eqn:Er.
  - apply streq_true in Er as ->. destruct (is_absolute p) eqn:Ep; [|done]. intros [= <-]. auto.
  - apply streq_false in Er. destruct (has_prefix dir p) eqn:Ep; [|done]. apply has_prefix_spec in Ep as [t ->].
    rewrite drop_str_after. destruct (is_absolute t) eqn:Et; [|done]. intros [= <-]. auto.
Qed.

Lemma rest_below_app dir rest :
  dir <> ROOT -> is_absolute rest = true -> rest_below dir (dir +:+ rest) = Some rest.
Proof.
  intros Hd Hr. unfold rest_below.
  replace (streq (dir +:+ rest) dir) with false; [|symmetry; apply streq_false; intros E].
  - replace (streq dir ROOT) with false by (symmetry; by apply streq_false).
    replace (has_prefix dir (dir +:+ rest)) with true by (symmetry; apply has_prefix_spec; by exists rest).
    rewrite drop_str_after. by rewrite Hr.
  - by apply app_absolute_ne in E.
Qed.

Lemma governor_in mounts p e : governor mounts p = Some e -> e ∈ mounts.
Proof. unfold governor. intros H. apply find_some in H as [H _]. by apply list_elem_of_In. Qed.

Lemma elem_of_update_first t a mounts e :
  e ∈ update_first t a mounts -> e = (t, a) \/ e ∈ mounts.
Proof.
  induction mounts as [|m mounts IH]; cbn [update_first]; intros H; [by right|].
  destruct (streq m.1 t); apply elem_of_cons in H as [->|H]; rewrite ?elem_of_cons; auto.
  destruct (IH H); auto.
Qed.

Lemma update_first_app t a b C T :
  (forall e, e ∈ C -> e.1 <> t) -> update_first t a (C ++ (t, b) :: T) = C ++ (t, a) :: T.
Proof.
  intros H. induction C as [|e C IH]; cbn [update_first app]; cbn.
  - by rewrite streq_refl.
  - replace (streq e.1 t) with false; [|symmetry; apply streq_false, H; left].
    f_equal. apply IH. intros e' He'. apply H. by right.
Qed.

Lemma elem_of_drop_first t mounts e : e ∈ drop_first t mounts -> e ∈ mounts.
Proof.
  induction mounts as [|m mounts IH]; cbn [drop_first]; [done|].
  destruct (streq m.1 t); rewrite ?elem_of_cons; [auto|]. intros [|H]; auto.
Qed.

Lemma elem_of_carried source target mounts e :
  e ∈ carried source target mounts ->
  exists p rest, (p, e.2) ∈ mounts /\ rest_below source p = Some rest /\ e.1 = target +:+ rest.
Proof.
  unfold carried. intros ([p a] & Hin & H)%list_elem_of_omap. cbn in H.
  destruct (rest_below source p) as [rest|] eqn:E; [|done]. injection H as <-. by exists p, rest.
Qed.

Lemma is_absolute_app p q : is_absolute p = true -> is_absolute (p +:+ q) = true.
Proof. by destruct p. Qed.

Lemma resolve_absolute cwd p : is_absolute cwd = true -> is_absolute (resolve cwd p) = true.
Proof.
  intros Hc. unfold resolve, join. destruct (is_absolute p) eqn:Hp; [done|].
  destruct (streq p "."); [done|]. destruct (streq cwd ROOT); [done | by apply is_absolute_app].
Qed.

Lemma resolve_id cwd p : is_absolute p = true -> resolve cwd p = p.
Proof. unfold resolve. by intros ->. Qed.

(** ** The invariant of the view

    While the file system is being built the working directory is the root of
    the sandbox, every mount is named by an absolute path, and every writable
    one is justified by the calls made so far. *)

Section Invariant.
Context `{K : Kernel} (root : string) (Hroot : is_absolute root = true).
Context (start : view) (Hstart : Forall (fun e => is_absolute e.1 = true) (v_mounts start)).

Definition entry_ok (W : string -> Prop) (l : list (syscall * reply)) (e : string * access) : Prop :=
  is_absolute e.1 = true /\ (e.2 = Writable -> justified root (v_mounts start) W l e.1).

Definition view_ok (W : string -> Prop) (l : list (syscall * reply)) : Prop :=
  v_cwd (view_after start l) = root /\ Forall (entry_ok W l) (v_mounts (view_after start l)).

(** A call that needs no justification but that its target was asked for. *)
Definition harmless (W : string -> Prop) (c : syscall) : Prop :=
  match c with
  | Chdir _ | PivotRoot _ _ => False
  | Mount source target _ flags _ =>
      if has_flag (plain_flags flags) MS_REMOUNT
      then has_flag (plain_flags flags) MS_RDONLY = true \/ W (resolve root target)
      else has_flag (plain_flags flags) MS_BIND = true -> is_Some source /\ W (resolve root target)
  | _ => True
  end.

Lemma entry_ok_mono W W' l l' e :
  (forall q, W q -> W' q) -> l ⊆ l' -> entry_ok W l e -> entry_ok W' l' e.
Proof. intros HW Hl [Ha Hj]. split; [done|]. intros Hw. eapply justified_mono; [exact HW | exact Hl | auto]. Qed.

Lemma view_ok_weaken (W W' : string -> Prop) l : (forall q, W q -> W' q) -> view_ok W l -> view_ok W' l.
Proof. intros HW [Hc Hm]. split; [done|]. eapply Forall_impl; [exact Hm|]. intros e. by apply entry_ok_mono. Qed.

Lemma entries_cons W l x T : Forall (entry_ok W l) T -> Forall (entry_ok W (x :: l)) T.
Proof. intros H. eapply Forall_impl; [exact H|]. intros e. apply entry_ok_mono; [done | set_solver]. Qed.

Lemma view_ok_same W l x :
  view_after start (x :: l) = view_after start l -> view_ok W l -> view_ok W (x :: l).
Proof. intros E [Hc Hm]. split; rewrite E; [done | by apply entries_cons]. Qed.

Lemma view_ok_failed W l c r : failed r = true -> view_ok W l -> view_ok W ((c, r) :: l).
Proof. intros Hr. apply view_ok_same. cbn [view_after]. by rewrite Hr. Qed.

(** What a recursive bind carries along is justified and not its target. *)
Lemma carried_ok W l source target ty flags data r T :
  failed r = false -> Forall (entry_ok W l) T ->
  Forall (fun e => entry_ok W ((Mount (Some source) target ty flags data, r) :: l) e /\ e.1 <> resolve root target)
    (carried (resolve root source) (resolve root target) T).
Proof.
  intros Hr HT. apply Forall_forall. intros e (p & rest & Hin & Hrest & He)%elem_of_carried.
  rewrite Forall_forall in HT. destruct (HT _ Hin) as [_ Hj]. cbn in Hj.
  destruct (rest_below_some _ _ _ Hrest) as [Habs _]. unfold entry_ok. rewrite He. split; [split|].
  - apply is_absolute_app. by apply resolve_absolute.
  - intros Hw. eapply just_carried; [by left | done | exact Hrest|].
    eapply justified_mono; [done | | by apply Hj]. set_solver.
  - by apply app_absolute_ne.
Qed.

(** The mounts after a bind: the carried ones, its target, the earlier ones. *)
Lemma bind_view W l source target ty flags data r :
  view_ok W l -> failed r = false ->
  has_flag (plain_flags flags) MS_REMOUNT = false -> has_flag (plain_flags flags) MS_BIND = true ->
  let l' := (Mount (Some source) target ty flags data, r) :: l in
  exists C a T, view_after start l' = mkView root (C ++ (resolve root target, a) :: T) /\
    Forall (fun e => entry_ok W l' e /\ e.1 <> resolve root target) C /\ Forall (entry_ok W l') T.
Proof.
  intros [Hc Hm] Hr Hre Hb. cbv zeta. cbn [view_after effect]. rewrite Hr. unfold mount_effect. rewrite Hre, Hb, Hc.
  cbn [default from_option id]. eexists _, _, _. split; [reflexivity|]. split; [|by apply entries_cons].
  destruct (has_flag _ MS_REC); [by apply carried_ok | constructor].
Qed.

Lemma view_ok_bind W l source target ty flags data r :
  view_ok W l -> failed r = false ->
  has_flag (plain_flags flags) MS_REMOUNT = false -> has_flag (plain_flags flags) MS_BIND = true ->
  let l' := (Mount (Some source) target ty flags data, r) :: l in
  justified root (v_mounts start) W l' (resolve root target) -> view_ok W l'.
Proof.
  intros Hv Hr Hre Hb l' Hj. destruct (bind_view W l source target ty flags data r Hv Hr Hre Hb) as (C & a & T & E & HC & HT).
  unfold view_ok. fold l' in E. rewrite E. split; [done|]. cbn [v_mounts]. apply Forall_app. split.
  { eapply Forall_impl; [exact HC|]. by intros e [He _]. }
  constructor; [|done]. split; [by apply resolve_absolute | done].
Qed.

Lemma view_ok_cons W l c r : view_ok W l -> harmless W c -> view_ok W ((c, r) :: l).
Proof.
  intros Hv Hh. destruct (failed r) eqn:Hr; [by apply view_ok_failed|].
  destruct c as [source target ty flags data|p fl | | | | | | | | | | | | | | | | | | | | | | | | | | | | | | | | | | | | | | | |];
    cbn [harmless] in Hh; try done; try (by apply view_ok_same; [cbn [view_after effect]; rewrite Hr|]).
  - destruct (has_flag (plain_flags flags) MS_REMOUNT) eqn:Hre.
    + destruct Hv as [Hc Hm]. unfold view_ok. cbn [view_after effect]. rewrite Hr. unfold mount_effect. rewrite Hre.
      split; [done|]. cbn [v_mounts]. rewrite Hc. apply Forall_forall.
      intros e [-> | He]%elem_of_update_first; [|by eapply Forall_forall in He; [|by apply entries_cons]].
      split; [by apply resolve_absolute|]. cbn. intros Ha. destruct Hh as [Hh|Hh]; [by rewrite Hh in Ha | by apply just_asked].
    + destruct (has_flag (plain_flags flags) MS_BIND) eqn:Hb.
      * destruct (Hh eq_refl) as [[src ->] HW]. apply view_ok_bind; [done | done | done | done | by apply just_asked].
      * destruct Hv as [Hc Hm]. unfold view_ok. cbn [view_after effect]. rewrite Hr. unfold mount_effect. rewrite Hre, Hb.
        split; [done|]. cbn [v_mounts]. destruct (has_flag _ MS_PROPAGATION); [by apply entries_cons|].
        constructor; [|by apply entries_cons]. rewrite Hc. split; [by apply resolve_absolute|].
        cbn. by destruct (has_flag (plain_flags flags) MS_RDONLY).
  - destruct Hv as [Hc Hm]. unfold view_ok. cbn [view_after effect]. rewrite Hr. split; [done|]. cbn [v_mounts].
    apply (entries_cons W l (Umount2 p fl, r)) in Hm. rewrite Forall_forall in Hm. apply Forall_forall. intros e He.
    destruct (has_flag fl MNT_DETACH).
    + apply list_elem_of_filter in He as [_ He]. by apply Hm.
    + by apply elem_of_drop_first, Hm in He.
Qed.

(** A bind that was made read-only, and one whose remount failed. *)
Lemma view_ok_remounted W l source target ty flags data r ty' flags' data' r' :
  view_ok W l -> is_absolute target = true ->
  has_flag (plain_flags flags) MS_REMOUNT = false -> has_flag (plain_flags flags) MS_BIND = true ->
  has_flag (plain_flags flags') MS_REMOUNT = true -> has_flag (plain_flags flags') MS_RDONLY = true -> failed r' = false ->
  view_ok W ((Mount None target ty' flags' data', r') :: (Mount (Some source) target ty flags data, r) :: l).
Proof.
  intros Hv Ht Hre Hb Hre' Hro Hr'. destruct (failed r) eqn:Hr.
  { apply view_ok_cons; [by apply view_ok_failed|]. cbn [harmless]. rewrite Hre'. by left. }
  destruct (bind_view W l source target ty flags data r Hv Hr Hre Hb) as (C & a & T & E & HC & HT).
  unfold view_ok. cbn [view_after]. rewrite Hr'. cbn [view_after] in E. rewrite E. cbn [effect v_cwd v_mounts].
  split; [done|]. unfold mount_effect. cbn [v_cwd v_mounts]. rewrite Hre', Hro, !resolve_id in * by done.
  rewrite Forall_forall in HC. rewrite update_first_app by (intros e He; by apply HC).
  apply (entries_cons W _ (Mount None target ty' flags' data', r')). apply Forall_app. split.
  { apply Forall_forall. intros e He. by apply HC. }
  constructor; [by split | done].
Qed.

Lemma view_ok_ignored W l source target ty flags data r flags' r' :
  view_ok W l -> is_absolute target = true ->
  has_flag (plain_flags flags) MS_REMOUNT = false -> has_flag (plain_flags flags) MS_BIND = true -> failed r = false ->
  failed r' = true -> ignored_remount_error (r_errno r') = true ->
  view_ok W ((Mount None target None flags' None, r') :: (Mount (Some source) target ty flags data, r) :: l).
Proof.
  intros Hv Ht Hre Hb Hr Hr' Hi. set (l' := (Mount (Some source) target ty flags data, r) :: l).
  destruct (bind_view W l source target ty flags data r Hv Hr Hre Hb) as (C & a & T & E & HC & HT). fold l' in E, HC, HT.
  unfold view_ok. cbn [view_after]. rewrite Hr'. fold l'. rewrite E. split; [done|]. cbn [v_mounts].
  assert (forall e, entry_ok W l' e -> entry_ok W ((Mount None target None flags' None, r') :: l') e) as Hmono
    by (intros e; apply entry_ok_mono; [done | set_solver]).
  apply Forall_app. split; [eapply Forall_impl; [exact HC|]; intros e [He _]; auto|].
  constructor; [|eapply Forall_impl; [exact HT | done]]. rewrite resolve_id by done. split; [done|].
  intros _. eapply just_ignored; [by left | done | done].
Qed.

End Invariant.

(** *** The flags of the remounts *)

Lemma statvfs_remount f :
  has_flag (plain_flags (statvfs_flags f)) MS_REMOUNT = true /\ has_flag (plain_flags (statvfs_flags f)) MS_RDONLY = true.
Proof. unfold statvfs_flags. cbv zeta. unfold flag_if. split; by repeat case_match. Qed.

Lemma mntent_remount b ent :
  has_flag (plain_flags (flag_if b MS_RDONLY (mntent_flags ent))) MS_REMOUNT = true /\
  has_flag (plain_flags (flag_if b MS_RDONLY (mntent_flags ent))) MS_RDONLY = b.
Proof. unfold mntent_flags, flag_if. split; repeat case_match; reflexivity. Qed.

(** ** Invariants under fixed options *)

Section Preserves.
Context `{K : Kernel} (I : proc -> Prop) (o : Options).

(** When it returns, with these options, the invariant holds again. *)
Definition preserves {A} (m : prog proc A) : Prop :=
  forall s a s', m s = (Ok a, s') -> opt s = o -> I s -> opt s' = o /\ I s'.

Lemma preserves_respects {A} (m : prog proc A) :
  respects (fun s s' => same_opt s s' /\ (I s -> I s')) m -> preserves m.
Proof.
  intros Hm s a s' E Ho Hv. specialize (Hm s). unfold final in Hm. rewrite E in Hm. destruct Hm as [Hm Hv'].
  split; [by etransitivity | auto].
Qed.

Lemma preserves_bind {A C} (m : prog proc A) (f : A -> prog proc C) :
  preserves m -> (forall a, preserves (f a)) -> preserves (m ≫= f).
Proof. intros Hm Hf s b s' (a & s1 & E1 & E2)%bind_inv_ok Ho Hv. destruct (Hm s a s1 E1 Ho Hv). by apply (Hf a s1 b). Qed.

Lemma preserves_get_opt {A C} (g : Options -> A) (f : A -> prog proc C) :
  preserves (f (g o)) -> preserves (get_opt g ≫= f).
Proof. intros H s b s' (a & s1 & [= <- <-] & E)%bind_inv_ok Ho Hv. rewrite Ho in E. by apply (H s b). Qed.

Lemma preserves_ret {A} (a : A) : preserves (mret a).
Proof. by intros s b s' [= _ <-]. Qed.

Lemma preserves_die {A} : preserves (DIE : prog proc A).
Proof. by intros s b s'. Qed.

Lemma preserves_for_each {A} (l : list A) body :
  (forall x, x ∈ l -> preserves (body x)) -> preserves (for_each l body).
Proof.
  induction l as [|x l IH]; cbn [for_each]; intros H; [apply preserves_ret|].
  apply preserves_bind; [apply H; left|]. intros _. apply IH. intros y Hy. apply H. by right.
Qed.

(** The pass over the mount table, when every entry preserves it. *)
Lemma preserves_remount_entries n count :
  (forall {A} (g : kstate -> A), preserves (query g)) -> (forall ent, preserves (remount_entry true ent)) ->
  preserves (remount_entries true n count).
Proof.
  intros Hq He. revert count. induction n as [|n IH]; intros count; cbn [remount_entries]; [apply preserves_ret|].
  apply preserves_bind; [apply Hq | intros [ent|]; [|apply preserves_ret]].
  apply preserves_bind; [apply He | intros _; apply IH].
Qed.

End Preserves.

(** ** The set-up keeps the invariant *)

Section SetUp.
Context `{B : Build} `{N : Bound} `{K : Kernel}.
Context (root : string) (Hroot : is_absolute root = true) (Hne : root <> ROOT).
Context (start : view) (Hstart : Forall (fun e => is_absolute e.1 = true) (v_mounts start)).
Context (t0 : list (syscall * reply)).

(** The view after the calls made since the trace was [t0]. *)
Definition in_view (W : string -> Prop) (s : proc) : Prop :=
  exists l, trace s = l ++ t0 /\ view_ok root start W l.

Definition steady (W : string -> Prop) (s s' : proc) : Prop := same_opt s s' /\ (in_view W s -> in_view W s').

#[local] Instance steady_preorder W : PreOrder (steady W).
Proof.
  split; [by intros s; split|]. intros a b c [H1 H2] [H3 H4]. split; [by etransitivity | auto].
Qed.

Lemma in_view_weaken (W W' : string -> Prop) s : (forall q, W q -> W' q) -> in_view W s -> in_view W' s.
Proof. intros HW (l & Hl & Hv). exists l. split; [done|]. by eapply view_ok_weaken. Qed.

Lemma in_view_cons W s s' c r : trace s' = (c, r) :: trace s -> harmless root W c -> in_view W s -> in_view W s'.
Proof. intros Ht Hc (l & Hl & Hv). exists ((c, r) :: l). rewrite Ht, Hl. split; [done | by apply view_ok_cons]. Qed.

Lemma viewed_sys W c : harmless root W c -> respects (fun s s' => in_view W s -> in_view W s') (sys c).
Proof.
  intros Hc s. unfold final, sys. destruct (ksys (kern s) c) as [r k] eqn:E. cbn [snd]. by apply (in_view_cons W _ _ c r).
Qed.

Lemma steady_sys W c : harmless root W c -> respects (steady W) (sys c).
Proof. intros Hc s. split; [apply same_opt_sys | by apply viewed_sys]. Qed.

Lemma steady_file W c : file_call c = true -> respects (steady W) (sys c).
Proof. intros Hc. apply steady_sys. by destruct c. Qed.

Lemma viewed_config W c : config_call c = true -> respects (fun s s' => in_view W s -> in_view W s') (sys c).
Proof. intros Hc. apply viewed_sys. by destruct c. Qed.

Definition keeps {A} (W : string -> Prop) (o : Options) (m : prog proc A) : Prop := preserves (in_view W) o m.

Lemma keeps_steady {A} W o (m : prog proc A) : respects (steady W) m -> keeps W o m.
Proof. apply preserves_respects. Qed.

Lemma steady_mount_or_die W src tgt ty fl data :
  harmless root W (Mount src tgt ty fl data) -> respects (steady W) (mount_or_die src tgt ty fl data).
Proof. intros H. unfold mount_or_die. apply respects_bind; [exact _ | by apply steady_sys | intros r]. destruct (failed r); [apply respects_die | apply respects_ret]; exact _. Qed.

Lemma steady_CreateTarget W p d : respects (steady W) (CreateTarget p d).
Proof. apply frame_CreateTarget; [exact _ | apply steady_file]. Qed.

(** *** The mounts of a request *)

Section Request.
Context (o : Options) (Ho : sandbox_root o = root).

Definition asked (p : string) : Prop := p = root \/ exists q, p = root +:+ q /\ kept_writable o q.

Lemma root_app q : is_absolute (root +:+ q) = true.
Proof. by apply is_absolute_app. Qed.

Lemma keeps_MountAndRemountRO q item :
  read_only_request o item q -> keeps asked o (MountAndRemountRO (root +:+ q) item).
Proof.
  intros Hq s [] s' (d & res & s0 & r1 & k1 & E & Hs0 & H)%MountAndRemountRO_run Hs Hv. cbv zeta in H.
  destruct (keeps_steady asked o _ (steady_CreateTarget asked (root +:+ q) d) s res s0 E Hs Hv) as [Hs0' (l & Hl & Hok)].
  set (bind := Mount (Some item) (root +:+ q) None (Z.lor MS_REC MS_BIND) None) in *.
  set (s1 := s0 <| kern := k1 |> <| trace ::= cons (bind, r1) |>) in *.
  assert (kept_writable o q -> in_view asked s1) as Hkept.
  { intros Hk. apply (in_view_cons asked s0 s1 bind r1); [done | | by exists l]. cbn [bind harmless]. intros _.
    split; [done|]. rewrite resolve_id by apply root_app. right. by exists q. }
  rewrite Hs in H. destruct (kstatvfs k1 item) as [f|] eqn:Ef.
  - destruct (ShouldBeWritable o item || ShouldBeWritable o (root +:+ q)) eqn:Esw.
    + subst s'. split; [done|]. apply Hkept. eapply kept_policy; [exact Hq | by rewrite Ho].
    + destruct H as (k & r & -> & Hr). split; [done|]. exists ((Mount None (root +:+ q) None (statvfs_flags f) None, r) :: (bind, r1) :: l).
      split; [exact (f_equal (fun t => (_, r) :: (bind, r1) :: t) Hl)|].
      destruct (statvfs_remount f). apply view_ok_remounted; try done; [apply root_app | unfold failed; by rewrite Hr].
  - subst s'. split; [done|]. apply Hkept. by eapply kept_unknown.
Qed.

Lemma keeps_mount_binds sources targets :
  (forall item q, (item, q) ∈ zip sources targets -> read_only_request o item q) ->
  keeps asked o (mount_binds_ro sources targets).
Proof.
  revert targets. induction sources as [|a ss IH]; intros [|t ts] H; cbn [mount_binds_ro];
    [apply preserves_ret | apply preserves_ret | by intros s b s' |].
  apply preserves_get_opt. rewrite Ho. apply preserves_bind.
  - apply keeps_MountAndRemountRO, H. left.
  - intros _. apply IH. intros item q Hq. apply H. by right.
Qed.

Lemma keeps_MountReadOnly l : keeps asked o (MountReadOnly l).
Proof.
  apply preserves_for_each. intros item _. apply preserves_get_opt. rewrite Ho. apply preserves_bind.
  - apply keeps_steady, respects_fs_exists_ec; exact _.
  - intros [ex [e|]]; [apply preserves_ret | by apply keeps_MountAndRemountRO; left].
Qed.

Lemma asked_kept q : kept_writable o q -> asked (root +:+ q).
Proof. intros Hq. right. by exists q. Qed.

Lemma steady_bind src q : kept_writable o q ->
  respects (steady asked) (mount_or_die (Some src) (root +:+ q) None (Z.lor MS_REC MS_BIND) None).
Proof.
  intros Hq. apply steady_mount_or_die. cbn [harmless]. intros _. split; [done|].
  rewrite resolve_id by apply root_app. by apply asked_kept.
Qed.

Lemma steady_overlays dirs depth : respects (steady asked) (MountAllOverlayFs dirs depth).
Proof.
  apply frame_MountAllOverlayFs; [exact _ | apply steady_file | | by intros f s].
  intros t data. by apply steady_sys.
Qed.

Lemma keeps_mounts_of : keeps asked o (mounts_of o).
Proof.
  unfold mounts_of. rewrite !Ho. apply preserves_bind; [|intros _].
  { apply preserves_for_each. intros d _. apply keeps_steady. apply respects_bind; [exact _ | apply steady_CreateTarget | intros _].
    by apply steady_mount_or_die. }
  apply preserves_bind; [apply keeps_mount_binds; intros item q Hq; by right | intros _].
  apply preserves_bind; [apply keeps_steady, respects_gets; exact _ | intros ro].
  apply preserves_bind; [apply keeps_MountReadOnly | intros _].
  apply preserves_bind; [apply keeps_steady, steady_overlays | intros _].
  apply preserves_bind; [|intros _].
  { apply preserves_for_each. intros w Hw. unfold mount_writable. apply preserves_get_opt. rewrite Ho. apply keeps_steady.
    apply respects_bind; [exact _ | apply respects_fs_is_directory_ec; exact _ | intros [isDir [e|]]; [apply respects_ret; exact _|]].
    apply respects_bind; [exact _ | apply steady_CreateTarget | intros _]. apply (steady_bind w w). by constructor. }
  apply keeps_steady, respects_bind; [exact _ | apply steady_CreateTarget | intros _]. apply steady_bind. constructor.
Qed.

(** *** The entries of the mount table *)

Lemma keeps_remount_entry ent : keeps asked o (remount_entry true ent).
Proof.
  unfold remount_entry. apply preserves_get_opt. cbv zeta. unfold id. rewrite Ho. destruct (ends_with _ _); [apply preserves_ret|].
  apply preserves_bind.
  { apply keeps_steady. destruct (network_fs _); [apply respects_ret; exact _|]. destruct (isSubpath _ _); [apply respects_ret; exact _|].
    apply respects_bind; [exact _ | apply respects_fs_exists_ec; exact _ | intros [ex ec]; apply respects_ret; exact _]. }
  intros []; [apply preserves_ret|]. intros s [] s' (target & s1 & E & H)%bind_inv_ok Hs Hv.
  apply bind_inv_ok in E as (res & s0 & E0 & E).
  destruct (keeps_steady asked o _ (steady_CreateTarget asked _ _) s res s0 E0 Hs Hv) as [Hs0 Hv0].
  destruct (res <? 0).
  { injection E as <- <-. injection H as <-. done. }
  apply bind_inv_ok in E as (r & s2 & E & H2). unfold sys in E.
  destruct (ksys (kern s0) _) as [r0 k] eqn:Ek. injection E as -> <-. injection H2 as <- <-.
  set (full := root +:+ mnt_dir ent) in *. set (bind := Mount (Some (mnt_dir ent)) full None (Z.lor MS_REC MS_BIND) None) in *.
  destruct Hv0 as (l & Hl & Hok). destruct (failed r) eqn:Hr.
  { injection H as <-. split; [done|]. exists ((bind, r) :: l).
    split; [exact (f_equal (cons (bind, r)) Hl) | by apply view_ok_failed]. }
  apply bind_inv_ok in H as (r' & s3 & E & H3). unfold sys in E. set (flags := flag_if _ _ _) in E.
  destruct (ksys _ (Mount None full None flags None)) as [r1 k1] eqn:Ek1. injection E as -> <-.
  destruct (mntent_remount (negb (ShouldBeWritable o (mnt_dir ent))) ent) as [Hre Hro]. fold flags in Hre, Hro.
  assert (is_absolute full = true) as Hfull by apply root_app.
  assert (view_ok root start asked ((Mount None full None flags None, r') :: (bind, r) :: l)) as Hend.
  { destruct (ShouldBeWritable o (mnt_dir ent)) eqn:Esw.
    - assert (asked full) as Hask. { apply asked_kept. apply (kept_policy _ (mnt_dir ent)); [by left | by rewrite Esw]. }
      apply view_ok_cons; [done | done | apply view_ok_cons; [done | done | done|] |].
      + cbn [bind harmless]. intros _. split; [done | by rewrite resolve_id].
      + cbn [harmless]. rewrite Hre. right. by rewrite resolve_id.
    - destruct (failed r') eqn:Hr'; [|by apply view_ok_remounted]. cbn [andb negb] in H3.
      destruct (ignored_remount_error (r_errno r')) eqn:Hi; [by apply view_ok_ignored | done]. }
  assert (s' = s0 <| kern := k |> <| trace ::= cons (bind, r) |> <| kern := k1 |>
    <| trace ::= cons (Mount None full None flags None, r') |>) as ->.
  { destruct (failed r' && _); [done | by injection H3 as <-]. }
  split; [done|]. exists ((Mount None full None flags None, r') :: (bind, r) :: l).
  split; [exact (f_equal (fun t => (_, r') :: (bind, r) :: t) Hl) | done].
Qed.

Lemma keeps_MakeFilesystemPartiallyReadOnly n : keeps asked o (MakeFilesystemPartiallyReadOnly true n).
Proof.
  unfold MakeFilesystemPartiallyReadOnly. apply preserves_bind; [apply keeps_steady, respects_query; exact _|].
  intros [t|]; [|apply preserves_die]. apply preserves_remount_entries; [|exact keeps_remount_entry].
  intros A g. apply keeps_steady, respects_query; exact _.
Qed.

Lemma keeps_MakeEmptyHome : keeps asked o MakeEmptyHome.
Proof.
  unfold MakeEmptyHome. apply preserves_bind; [apply keeps_steady, respects_gets; exact _|]. intros home.
  destruct (empty home); [apply preserves_die|]. apply preserves_get_opt.
  apply preserves_bind; [apply keeps_steady, steady_CreateTarget | intros res]. destruct (res <? 0); [apply preserves_die | apply preserves_ret].
Qed.

End Request.

(** *** The root of the sandbox *)

Definition own (p : string) : Prop := p = root \/ exists d, d ∈ dev_nodes /\ p = root +:+ d.

Lemma own_asked o p : own p -> asked o p.
Proof. intros [-> | (d & Hd & ->)]; [by left | right]. exists d. split; [done | by constructor]. Qed.

(** The root stays the same although the options may change. *)
Definition rooted (s s' : proc) : Prop :=
  sandbox_root (opt s') = sandbox_root (opt s) /\ (in_view own s -> in_view own s').

#[local] Instance rooted_preorder : PreOrder rooted.
Proof.
  split; [by intros s; split|]. intros a b c [H1 H2] [H3 H4]. split; [by rewrite H3 | auto].
Qed.

Lemma rooted_sys c : harmless root own c -> respects rooted (sys c).
Proof. intros Hc s. split; [by rewrite (same_opt_sys c s) | by apply viewed_sys]. Qed.

Lemma rooted_mount_or_die src tgt ty fl data :
  harmless root own (Mount src tgt ty fl data) -> respects rooted (mount_or_die src tgt ty fl data).
Proof. intros H. unfold mount_or_die. apply respects_bind; [exact _ | by apply rooted_sys | intros r]. destruct (failed r); [apply respects_die | apply respects_ret]; exact _. Qed.

Lemma rooted_file c : file_call c = true -> respects rooted (sys c).
Proof. intros Hc. apply rooted_sys. by destruct c. Qed.

Lemma rooted_config c : config_call c = true -> respects rooted (sys c).
Proof. intros Hc. apply rooted_sys. by destruct c. Qed.

Lemma rooted_update f (s : proc) : mount_update f -> rooted s (s <| opt ::= f |>).
Proof. intros []; by split. Qed.

Ltac root_leaf :=
  lazymatch goal with
  | |- respects _ (sys (Mount _ _ _ _ _)) => fail
  | |- respects _ (sys _) => apply rooted_sys; exact I
  | |- respects _ (modify _) => by intros ?
  | |- respects _ DIE => apply respects_die; exact _
  | |- respects _ (query _) => apply respects_query; exact _
  | |- respects _ (get_opt _) => apply respects_get_opt; exact _
  | |- respects _ (gets _) => apply respects_gets; exact _
  | |- respects _ (fs_canonical _) => apply respects_fs_canonical; exact _
  | |- respects _ (fs_relative _ _) => apply respects_fs_relative; exact _
  | |- respects _ (fs_absolute _) => apply respects_fs_absolute; exact _
  | |- respects _ (fs_is_directory _) => apply respects_fs_is_directory; exact _
  | |- respects _ (CreateTarget _ _) => apply frame_CreateTarget; [exact _ | apply rooted_file]
  | |- respects _ (CreateFile _) => apply frame_CreateFile; [exact _ | apply rooted_file]
  | |- respects _ (LinkFile _) => apply frame_LinkFile; [exact _ | apply rooted_file]
  | |- respects _ (MiniSbxMountWrite _) =>
      apply frame_MountWrite; [exact _ | apply rooted_config | intros ? ?; by split | intros ? ? ?; by apply rooted_update]
  | |- respects _ (MiniSbxMountOverlay _) =>
      apply frame_MountOverlay; [exact _ | apply rooted_config | intros ? ?; by split | intros ? ? ?; by apply rooted_update]
  end.
Ltac root_walk := repeat first [root_leaf | respects_step].

Lemma rooted_CreateEmptyFile : respects rooted CreateEmptyFile.
Proof. unfold CreateEmptyFile. root_walk. Qed.

Lemma rooted_MountDev : respects rooted MountDev.
Proof.
  unfold MountDev. apply respects_bind; [exact _ | root_leaf | intros res]. destruct (res <? 0); [root_leaf|].
  apply respects_bind; [exact _ | | intros _; root_walk].
  apply respects_for_each; [exact _|]. intros d Hd. apply respects_bind; [exact _ | root_leaf | intros [e|st]; [root_walk|]].
  apply respects_bind; [exact _ | root_leaf | intros _]. apply rooted_mount_or_die. cbn [harmless]. intros _. split; [done|].
  right. exists d. split; [done|]. unfold resolve, join. apply streq_false in Hne as ->.
  repeat (apply elem_of_cons in Hd as [-> | Hd]; [reflexivity|]). by apply elem_of_nil in Hd.
Qed.

Lemma rooted_MountProcAndSys : respects rooted MountProcAndSys.
Proof.
  unfold MountProcAndSys. apply respects_bind; [exact _ | by apply rooted_mount_or_die | intros _].
  apply respects_bind; [exact _ | root_leaf | intros ns]. case_decide; [root_walk | by apply rooted_mount_or_die].
Qed.

Lemma rooted_MountWorkingDirMountPoint p : respects rooted (MountWorkingDirMountPoint p).
Proof.
  assert (forall a b, respects rooted (TopLevelRelativeFolder a b)) as Htop
    by (intros a b; unfold TopLevelRelativeFolder; root_walk).
  assert (forall n a b, respects rooted (overlay_levels n a b)) as Hlevels.
  { induction n as [|n IH]; intros a b; cbn [overlay_levels]; root_walk. apply IH. }
  unfold MountWorkingDirMountPoint, MountOverlaySubfolders, isXFS. root_walk; [apply Htop | apply Htop | apply Hlevels].
Qed.

Lemma rooted_CountMounts : respects rooted CountMounts.
Proof. unfold CountMounts. root_walk. Qed.

Lemma rooted_AddLeftover : respects rooted AddLeftoverFoldersToReadOnlyPaths.
Proof. unfold AddLeftoverFoldersToReadOnlyPaths, leftover_folder. root_walk. Qed.

(** The binding of the root on itself, and the step into it. *)
Lemma MountSandboxAndGoThere_view s a s' :
  MountSandboxAndGoThere s = (Ok a, s') -> sandbox_root (opt s) = root -> trace s = t0 ->
  sandbox_root (opt s') = root /\ in_view own s'.
Proof.
  intros (p & s1 & [= <- <-] & H)%bind_inv_ok Hr Ht. rewrite Hr in H.
  apply bind_inv_ok in H as (u & s2 & E & H). unfold mount_or_die in E. apply bind_inv_ok in E as (r & s3 & E & E').
  unfold sys in E. destruct (ksys (kern s) _) as [r0 k] eqn:Ek. injection E as -> <-.
  destruct (failed r) eqn:Hf; [done|]. injection E' as <- <-. apply bind_inv_ok in H as (r' & s4 & E & H).
  unfold sys in E. destruct (ksys _ (Chdir root)) as [r1 k1] eqn:Ek1. injection E as -> <-.
  destruct (failed r') eqn:Hf'; [done|]. injection H as <- <-. split; [done|].
  exists [(Chdir root, r'); (Mount (Some root) root None (Z.lor MS_BIND MS_NOSUID) None, r)].
  split; [by rewrite <- Ht|]. unfold view_ok. cbn [view_after]. rewrite Hf, Hf'. cbn [effect v_cwd v_mounts].
  split; [by apply resolve_id|]. unfold mount_effect. cbn [v_mounts v_cwd]. rewrite resolve_id by done.
  change (has_flag (plain_flags (Z.lor MS_BIND MS_NOSUID)) MS_REMOUNT) with false.
  change (has_flag (plain_flags (Z.lor MS_BIND MS_NOSUID)) MS_BIND) with true.
  change (has_flag (plain_flags (Z.lor MS_BIND MS_NOSUID)) MS_REC) with false. cbn iota. cbn [app].
  constructor; [split; [done|]; intros _; by apply just_asked; left|].
  rewrite Forall_forall in Hstart. apply Forall_forall. intros e He. split; [by apply Hstart|].
  intros Hw. apply just_host. destruct e as [q a]. cbn in Hw. by subst a.
Qed.

End SetUp.

(** ** The change of root *)

Section ChangeOfRoot.
Context `{B : Build} `{N : Bound} `{K : Kernel}.

(** [mkdtemp] fills in the last characters of the template. *)
Definition mkdtemp_law : Prop :=
  forall k, failed (ksys k (Mkdtemp "old-root-XXXXXX")).1 = false ->
    has_prefix "old-root-" (r_str (ksys k (Mkdtemp "old-root-XXXXXX")).1) = true.

Lemma at_or_below_app dir q : dir <> ROOT -> is_absolute q = true -> at_or_below dir (dir +:+ q) = true.
Proof. intros Hd Hq. unfold at_or_below. rewrite rest_below_app by done. by rewrite orb_true_r. Qed.

(** The mounts after the change of root: those below the old one are gone. *)
Lemma changed_root_mounts root v t fl1 :
  is_absolute root = true -> root <> ROOT -> v_cwd v = root -> has_flag fl1 MNT_DETACH = true ->
  v_mounts (effect (Umount2 ("old-root-" +:+ t) fl1) (effect (PivotRoot "." ("old-root-" +:+ t)) v)) =
  base.filter (fun e => at_or_below ("/old-root-" +:+ t) e.1 = false)
    (prod_map (renamed root ("/old-root-" +:+ t)) id <$> v_mounts v).
Proof.
  intros Hroot Hne Hcwd Hfl. cbn [effect v_cwd v_mounts]. rewrite Hfl, Hcwd. change (resolve root ".") with root.
  assert (resolve root ("old-root-" +:+ t) = root +:+ ("/old-root-" +:+ t)) as ->.
  { unfold resolve, join. apply streq_false in Hne as ->. reflexivity. }
  assert (renamed root "" (root +:+ ("/old-root-" +:+ t)) = "/old-root-" +:+ t) as ->.
  { unfold renamed. rewrite rest_below_app by done.
    replace (streq (root +:+ ("/old-root-" +:+ t)) root) with false; [done|].
    symmetry. apply streq_false. by apply app_absolute_ne. }
  assert (resolve (renamed root ("/old-root-" +:+ t) root) ("old-root-" +:+ t) = "/old-root-" +:+ t) as ->; [|done].
  unfold renamed. by rewrite streq_refl.
Qed.

(** The five calls leave the mounts below the root, under their new names. *)
Lemma changed_root root v old fl1 :
  is_absolute root = true -> root <> ROOT -> v_cwd v = root -> has_prefix "old-root-" old = true ->
  has_flag fl1 MNT_DETACH = true -> Forall (fun e => is_absolute e.1 = true) (v_mounts v) ->
  forall q a, (q, a) ∈ v_mounts (effect (Umount2 old fl1) (effect (PivotRoot "." old) v)) ->
    q = ROOT \/ (root +:+ q, a) ∈ v_mounts v.
Proof.
  intros Hroot Hne Hcwd Hold Hfl Habs q a. apply has_prefix_spec in Hold as [t ->].
  rewrite (changed_root_mounts root) by done. set (old := "/old-root-" +:+ t).
  intros (Hkeep & Hin)%list_elem_of_filter. apply list_elem_of_fmap in Hin as ([p a'] & [= -> ->] & Hin).
  cbn [fst snd] in *. unfold renamed in *. destruct (streq p root) eqn:Ep; [by left|]. right.
  destruct (rest_below root p) as [rest|] eqn:Er.
  - apply rest_below_some in Er as [_ [[? _] | [_ ->]]]; done.
  - exfalso. rewrite Forall_forall in Habs. specialize (Habs _ Hin). cbn in Habs.
    destruct (streq p ROOT).
    + unfold at_or_below in Hkeep. by rewrite streq_refl in Hkeep.
    + by rewrite at_or_below_app in Hkeep.
Qed.

(** The modes that build a new root. *)
Definition changes_root (s : proc) : bool :=
  if use_default (opt s) then match kreaddir (kern s) ROOT with inr _ => true | inl _ => false end
  else hermetic (opt s) || use_overlayfs (opt s).

Lemma build_changes_root s : changes_root s = true -> build_file_system s = chroot_sandbox s.
Proof.
  intros H. unfold build_file_system, CanIterateRoot, query, get_opt, gets, mbind, prog_bind, id, changes_root in *.
  destruct (use_default (opt s)); cbn [andb orb negb] in *; [by rewrite H | by rewrite H].
Qed.

Lemma keeps_MountAllMounts root start t0 o :
  is_absolute root = true -> Forall (fun e => is_absolute e.1 = true) (v_mounts start) -> sandbox_root o = root -> keeps root start t0 (asked root o) o MountAllMounts.
Proof. intros Hroot Hstart Ho. unfold MountAllMounts. apply preserves_get_opt. exact (keeps_mounts_of root Hroot start Hstart t0 o Ho). Qed.

(** What the modes do after the mounts of the request. *)
Inductive finishing : prog proc unit -> Prop :=
| finish_hermetic : finishing (mret tt)
| finish_overlay : finishing MakeEmptyHome
| finish_default n : finishing (_ ← MakeFilesystemPartiallyReadOnly true n; MakeEmptyHome).

Lemma keeps_finishing root start t0 o rest :
  is_absolute root = true -> Forall (fun e => is_absolute e.1 = true) (v_mounts start) -> sandbox_root o = root ->
  finishing rest -> keeps root start t0 (asked root o) o rest.
Proof.
  intros Hroot Hstart Ho [| |n]; [apply preserves_ret | by apply keeps_MakeEmptyHome |].
  apply preserves_bind; [by apply keeps_MakeFilesystemPartiallyReadOnly | intros _; by apply keeps_MakeEmptyHome].
Qed.

(** The mounts of the request, from a state in which the options are final. *)
Lemma chroot_mounts s s' host cwd :
  is_absolute (sandbox_root (opt s)) = true -> sandbox_root (opt s) <> ROOT ->
  Forall (fun e => is_absolute e.1 = true) host -> chroot_sandbox s = (Ok tt, s') ->
  let root := sandbox_root (opt s) in
  exists s1 s2 s3 rest, sandbox_root (opt s1) = root /\
    in_view root (mkView cwd host) (trace s) (asked root (opt s1)) s1 /\
    MountAllMounts s1 = (Ok tt, s2) /\ finishing rest /\ rest s2 = (Ok tt, s3) /\ ChangeRoot s3 = (Ok tt, s').
Proof.
  intros Hroot Hne Hhost H root. unfold chroot_sandbox in H.
  apply bind_inv_ok in H as (u1 & s1 & E & H).
  pose proof (MountSandboxAndGoThere_view root Hroot (mkView cwd host) Hhost (trace s) s u1 s1 E eq_refl eq_refl) as Hs1.
  clear E. set (start := mkView cwd host) in *. set (t0 := trace s) in *.
  assert (forall A (m : prog proc A) s a s', respects (rooted root start t0) m -> m s = (Ok a, s') ->
    sandbox_root (opt s) = root /\ in_view root start t0 (own root) s ->
    sandbox_root (opt s') = root /\ in_view root start t0 (own root) s') as Hstep.
  { intros A m s2 a s3 Hm E [Hr Hv]. specialize (Hm s2). unfold final in Hm. rewrite E in Hm. destruct Hm as [Hm Hv'].
    split; [by rewrite <- Hr | by apply Hv']. }
  apply bind_inv_ok in H as (u2 & s2 & E & H). apply Hstep in E; [|by apply rooted_CreateEmptyFile | done]. clear Hs1.
  apply bind_inv_ok in H as (u3 & s3 & E3 & H). apply Hstep in E3; [|by apply rooted_MountDev | done]. clear E.
  apply bind_inv_ok in H as (u4 & s4 & E4 & H). apply Hstep in E4; [|by apply rooted_MountProcAndSys | done]. clear E3.
  apply bind_inv_ok in H as (o & s5 & [= <- <-] & H). apply bind_inv_ok in H as ([] & s6 & E & H). unfold id in E.
  assert (forall s, sandbox_root (opt s) = root /\ in_view root start t0 (own root) s ->
    sandbox_root (opt s) = root /\ in_view root start t0 (asked root (opt s)) s) as Hasked.
  { intros s0 [Hr Hv]. split; [done|]. eapply in_view_weaken; [|exact Hv]. apply own_asked. }
  destruct (use_default (opt s4)); [|destruct (use_overlayfs (opt s4)) eqn:Eov; [|destruct (hermetic (opt s4)); [|done]]].
  - apply bind_inv_ok in E as (mp & s7 & [= _ <-] & E). apply bind_inv_ok in E as (mounts & s7 & E7 & E).
    apply Hstep in E7; [|by apply rooted_CountMounts | done].
    apply bind_inv_ok in E as (u & s8 & E8 & E). apply Hstep in E8; [|by apply rooted_MountWorkingDirMountPoint | done].
    apply bind_inv_ok in E as (u' & s9 & E9 & E). apply Hstep in E9; [|by apply rooted_AddLeftover | done].
    apply Hasked in E9 as [Hr9 Hv9]. apply bind_inv_ok in E as ([] & s10 & E10 & E).
    exists s9, s10, s6, (_ ← MakeFilesystemPartiallyReadOnly true mounts; MakeEmptyHome).
    do 3 (split; [done|]). by split; [constructor|].
  - apply Hasked in E4 as [Hr4 Hv4]. apply bind_inv_ok in E as (u & s7 & E7 & E).
    destruct (keeps_steady root start t0 (asked root (opt s4)) (opt s4) _ (steady_overlays root Hroot start Hhost t0 (opt s4) _ 0) s4 u s7 E7 eq_refl Hv4) as [Ho7 Hv7].
    apply bind_inv_ok in E as ([] & s8 & E8 & E). exists s7, s8, s6, MakeEmptyHome. rewrite Ho7.
    do 3 (split; [done|]). by split; [constructor|].
  - apply Hasked in E4 as [Hr4 Hv4]. exists s4, s6, s6, (mret tt).
    do 3 (split; [done|]). by split; [constructor|].
Qed.

(** The state before the change of root. *)
Lemma chroot_view s s' host cwd :
  is_absolute (sandbox_root (opt s)) = true -> sandbox_root (opt s) <> ROOT ->
  Forall (fun e => is_absolute e.1 = true) host -> chroot_sandbox s = (Ok tt, s') ->
  let root := sandbox_root (opt s) in
  exists s1, ChangeRoot s1 = (Ok tt, s') /\ sandbox_root (opt s1) = root /\
    in_view root (mkView cwd host) (trace s) (asked root (opt s1)) s1.
Proof.
  intros Hroot Hne Hhost H root.
  destruct (chroot_mounts s s' host cwd Hroot Hne Hhost H) as (s1 & s2 & s3 & rest & Hr1 & Hv1 & E1 & Hrest & E2 & E3).
  fold root in Hr1, Hv1. set (start := mkView cwd host) in *.
  destruct (keeps_MountAllMounts root start (trace s) (opt s1) Hroot Hhost Hr1 s1 tt s2 E1 eq_refl Hv1) as [Ho2 Hv2].
  destruct (keeps_finishing root start (trace s) (opt s1) rest Hroot Hhost Hr1 Hrest s2 tt s3 E2 Ho2 Hv2) as [Ho3 Hv3]. exists s3. rewrite Ho3. done.
Qed.

(** What was mounted when the file system of the sandbox is built. *)
Lemma build_surface s s' host cwd :
  mkdtemp_law -> changes_root s = true ->
  is_absolute (sandbox_root (opt s)) = true -> sandbox_root (opt s) <> ROOT ->
  Forall (fun e => is_absolute e.1 = true) host -> build_file_system s = (Ok tt, s') ->
  exists l, trace s' = l ++ trace s /\
    forall q, (q, Writable) ∈ v_mounts (view_after (mkView cwd host) l) ->
      q = ROOT \/
      justified (sandbox_root (opt s)) host (asked (sandbox_root (opt s)) (opt s')) l (sandbox_root (opt s) +:+ q).
Proof.
  intros Hlaw Hmode Hroot Hne Hhost H. rewrite build_changes_root in H by done.
  destruct (chroot_view s s' host cwd Hroot Hne Hhost H) as (s1 & Hc & Hr1 & l & Hl & Hcwd & Hok).
  apply ChangeRoot_run in Hc as (m & p & c & u & r & Ht & Hm & Hp & Hch & Hu & Hrm & Em & Ho).
  exists ((Rmdir (r_str m), r) :: (Umount2 (r_str m) MNT_DETACH, u) :: (Chroot ".", c) ::
      (PivotRoot "." (r_str m), p) :: (Mkdtemp "old-root-XXXXXX", m) :: l).
  split; [by rewrite Ht, Hl|]. intros q Hq. cbn [view_after] in Hq. rewrite Hm, Hp, Hch, Hu, Hrm in Hq.
  apply changed_root with (root := sandbox_root (opt s)) in Hq as [-> | Hq]; try done; [by left | right | by rewrite Em; apply Hlaw; rewrite <- Em |].
  - rewrite Forall_forall in Hok. apply Hok in Hq as [_ Hj]. rewrite Ho.
    eapply justified_mono; [done | | by apply Hj]. set_solver.
  - eapply Forall_impl; [exact Hok|]. by intros e [He _].
Qed.

End ChangeOfRoot.

(** ** The whole set-up *)

Section WholeSetUp.
Context `{B : Build} `{N : Bound} `{K : Kernel}.

(** Calls that change no view, and the options kept. *)
Definition no_effect (c : syscall) : Prop := forall v, effect c v = v.

Definition unseen (s s' : proc) : Prop := same_opt s s' /\ calls (fun c _ => no_effect c) s s'.

#[local] Instance unseen_preorder : PreOrder unseen.
Proof. split; [by intros s; split|]. intros a b c [H1 H2] [H3 H4]. split; by etransitivity. Qed.

Lemma view_after_unseen v l : Forall (fun e => no_effect e.1) l -> view_after v l = v.
Proof.
  induction 1 as [|[c r] l Hc _ IH]; [done|]. cbn [view_after]. rewrite IH. destruct (failed r); [done | apply Hc].
Qed.

Lemma view_after_app v l1 l2 : view_after v (l1 ++ l2) = view_after (view_after v l2) l1.
Proof. induction l1 as [|[c r] l1 IH]; [done|]. cbn [app view_after]. by rewrite IH. Qed.

Lemma unseen_sys c : no_effect c -> respects unseen (sys c).
Proof. intros Hc s. split; [apply same_opt_sys | by apply (calls_sys (fun c _ => no_effect c))]. Qed.

Ltac unseen_leaf :=
  lazymatch goal with
  | |- respects _ (sys _) => apply unseen_sys; intros []; reflexivity
  | |- respects _ DIE => apply respects_die; exact _
  | |- respects _ (modify _) => intros ?; split; [reflexivity | by exists []]
  | |- respects _ (query _) => apply respects_query; exact _
  | |- respects _ (get_opt _) => apply respects_get_opt; exact _
  | |- respects _ (gets _) => apply respects_gets; exact _
  | |- respects _ (getenv _) => apply respects_getenv; exact _
  | |- respects _ (MiniSbxReportGenericError _ _ _) =>
      apply frame_generic; [exact _ | intros c Hc; apply unseen_sys; intros []; by destruct c | intros ? ?; split; [reflexivity | by exists []]]
  end.
Ltac unseen_walk := repeat first [unseen_leaf | respects_step].

Lemma unseen_WriteFile p t : respects unseen (WriteFile p t).
Proof. unfold WriteFile. unseen_walk. Qed.

Lemma unseen_SetupNetworking : respects unseen SetupNetworking.
Proof. unfold SetupNetworking, EnableICMP. unseen_walk. apply unseen_WriteFile. Qed.

(** The set-up up to the file system, but for the tmpfs of the overlays. *)
Definition before_file_system (pipe_to_parent pipe_from_parent : Z * Z) : prog proc Options :=
  _ ← MiniSbxSetInternalEnv;
  home ← GetHomeDir;
  _ ← modify (fun s => s <| home_dir := home |>);
  pid ← query kpid;
  if negb (pid =? 1) then DIE
  else
    _ ← WaitPipe pipe_from_parent true;
    _ ← when (negb LIBMINISANDBOX) (_ ← ClearSignalMask; SetupSelfDestruction pipe_to_parent);
    _ ← SetupMountNamespace;
    _ ← SetupUserNamespace;
    o ← get_opt id;
    _ ← when (fake_hostname o) SetupUtsNamespace;
    mret o.

Lemma unseen_before a b : respects unseen (before_file_system a b).
Proof.
  unfold before_file_system, MiniSbxSetInternalEnv, GetHomeDir, WaitPipe, ClearSignalMask, SetupSelfDestruction,
    SignalPipe, DieOrReport, SetupMountNamespace, SetupUserNamespace, inner_ids, SetupUtsNamespace, mount_or_die.
  unseen_walk; apply unseen_WriteFile.
Qed.

Definition file_system_and_after (o : Options) : prog proc unit :=
  mode ← gets docker_mode;
  _ ← when (bool_decide (mode = PRIVILEGED_CONTAINER) && use_overlayfs o) MountOverlayDirAsTmpfs;
  _ ← build_file_system;
  _ ← SetupNetworking;
  _ ← EnterWorkingDirectory;
  _ ← InitDone;
  mret tt.

Lemma setup_split a b s : setup_sandbox a b s = (before_file_system a b ≫= file_system_and_after) s.
Proof.
  unfold setup_sandbox, before_file_system, file_system_and_after. unfold mbind, prog_bind.
  destruct (MiniSbxSetInternalEnv s) as [[z|w] s1]; [|done]. destruct (GetHomeDir s1) as [[h|w] s2]; [|done].
  unfold modify, query, gets, get_opt. destruct (negb (kpid _ =? 1)); [done|].
  destruct (WaitPipe b true _) as [[z1|w] s3]; [|done].
  destruct (when _ _ s3) as [[u|w] s4]; [|done]. destruct (SetupMountNamespace s4) as [[u1|w] s5]; [|done].
  destruct (SetupUserNamespace s5) as [[u2|w] s6]; [|done]. unfold gets. by destruct (when _ _ s6) as [[u3|w] s7].
Qed.

(** *** Before and after the file system *)

(** A call that adds no mount but one of a file system of its own. *)
Definition early_call (c : syscall) : Prop :=
  forall v, is_absolute (v_cwd v) = true ->
    v_cwd (effect c v) = v_cwd v /\
    forall e, e ∈ v_mounts (effect c v) -> (is_absolute e.1 = true /\ e.2 = Private) \/ e ∈ v_mounts v.

(** One that mounts on the file of the init status at most. *)
Inductive late_call : syscall -> Prop :=
| late_no_effect c : no_effect c -> late_call c
| late_chdir p : late_call (Chdir p)
| late_bind : late_call (Mount (Some MINISBX_TMP_INIT) MINISBX_TMP_INIT None MS_BIND None)
| late_remount : late_call (Mount None MINISBX_TMP_INIT None (Z.lor MS_REMOUNT (Z.lor MS_BIND MS_RDONLY)) None)
| late_umount : late_call (Umount2 MINISBX_TMP_INIT 0).

Definition early (s s' : proc) : Prop := same_opt s s' /\ calls (fun c _ => early_call c) s s'.
Definition late (s s' : proc) : Prop :=
  (opt s' = opt s \/ opt s' = (opt s) <| is_running := RUNNING |>) /\ calls (fun c _ => late_call c) s s'.

#[local] Instance late_preorder : PreOrder late.
Proof.
  split; [intros s; split; [by left | done]|]. intros a b c [H1 H2] [H3 H4]. split; [|by etransitivity].
  destruct H1 as [H1|H1], H3 as [H3|H3]; rewrite H3, H1; auto.
Qed.

Lemma early_no_effect c : no_effect c -> early_call c.
Proof. intros Hc v _. rewrite Hc. auto. Qed.

Lemma unseen_early s s' : unseen s s' -> early s s'.
Proof. intros [H1 H2]. split; [done|]. eapply calls_weaken; [|exact H2]. intros c r. apply early_no_effect. Qed.

Lemma unseen_late s s' : unseen s s' -> late s s'.
Proof. intros [H1 H2]. split; [by left|]. eapply calls_weaken; [|exact H2]. intros c r. apply late_no_effect. Qed.

Lemma late_sys c : late_call c -> respects late (sys c).
Proof. intros Hc s. split; [left; apply same_opt_sys | by apply (calls_sys (fun c _ => late_call c))]. Qed.

Lemma late_call_mounts c v e : late_call c -> e ∈ v_mounts (effect c v) -> e.1 = MINISBX_TMP_INIT \/ e ∈ v_mounts v.
Proof.
  intros [c' Hc|p| | |] H.
  - right. by rewrite Hc in H.
  - by right.
  - change (e ∈ (MINISBX_TMP_INIT, access_at (v_mounts v) MINISBX_TMP_INIT) :: v_mounts v) in H. apply elem_of_cons in H as [H|H]; [left; by rewrite H | by right].
  - change (e ∈ update_first MINISBX_TMP_INIT ReadOnly (v_mounts v)) in H.
    apply elem_of_update_first in H as [H|H]; [left; by rewrite H | by right].
  - apply elem_of_drop_first in H. by right.
Qed.

Lemma late_InitDone : respects late InitDone.
Proof.
  unfold InitDone. apply respects_bind; [exact _ | | intros _].
  { intros s. split; [by right | by exists []]. }
  cbv zeta. repeat first
  [ lazymatch goal with
    | |- respects _ (sys (Mount (Some _) _ _ _ _)) => apply late_sys, late_bind
    | |- respects _ (sys (Mount None _ _ _ _)) => apply late_sys, late_remount
    | |- respects _ (sys (Umount2 _ _)) => apply late_sys, late_umount
    | |- respects _ (sys _) => apply late_sys, late_no_effect; intros []; reflexivity
    end
  | respects_step ].
Qed.

Lemma late_EnterWorkingDirectory : respects late EnterWorkingDirectory.
Proof.
  unfold EnterWorkingDirectory. apply respects_bind; [exact _ | apply respects_get_opt, _ | intros p].
  apply respects_bind; [exact _ | apply late_sys, late_chdir | intros r].
  destruct (failed r); [apply respects_die, _ | apply respects_ret, _].
Qed.

Lemma early_MountOverlayDirAsTmpfs b : respects early (when b MountOverlayDirAsTmpfs).
Proof.
  intros s. destruct b; [|by split].
  unfold final, MountOverlayDirAsTmpfs, get_opt, gets, sys, mbind, prog_bind. cbn [when].
  destruct (ksys (kern s) _) as [r k].
  destruct (negb _); cbn; (split; [done|]); exists [(Mount (Some "tmpfs") (tmp_overlayfs (opt s)) (Some "tmpfs") 0 (Some ""), r)];
    (split; [done|]); (constructor; [|constructor]); intros v Hv; (split; [done|]); intros e;
    (intros [->|H]%elem_of_cons; [left | by right]); by split; [apply resolve_absolute|].
Qed.

Lemma view_after_early v l :
  is_absolute (v_cwd v) = true -> Forall (fun e => early_call e.1) l ->
  v_cwd (view_after v l) = v_cwd v /\
  forall e, e ∈ v_mounts (view_after v l) -> (is_absolute e.1 = true /\ e.2 = Private) \/ e ∈ v_mounts v.
Proof.
  intros Hv. induction 1 as [|[c r] l Hc _ [IH1 IH2]]; [auto|]. cbn [view_after]. destruct (failed r); [done|].
  destruct (Hc (view_after v l)) as [H1 H2]; [by rewrite IH1|]. cbn [fst] in H1, H2. split; [by rewrite H1|]. intros e [He|He]%H2; auto.
Qed.

Lemma view_after_late v l e :
  Forall (fun e => late_call e.1) l -> e ∈ v_mounts (view_after v l) -> e.1 = MINISBX_TMP_INIT \/ e ∈ v_mounts v.
Proof.
  induction 1 as [|[c r] l Hc _ IH]; [auto|]. cbn [view_after]. destruct (failed r); [done|]. intros [He|He]%late_call_mounts; auto.
Qed.

Lemma surjective_view v : mkView (v_cwd v) (v_mounts v) = v.
Proof. by destruct v. Qed.

Lemma asked_running root o r p : asked root o p -> asked root (o <| is_running := r |>) p.
Proof.
  intros [->|(q & -> & Hq)]; [by left | right]. exists q. split; [done|].
  destruct Hq as [|w Hw|d Hd|item q Hq Hs|item q k Hq Hk].
  - exact (kept_workdir (o <| is_running := r |>)).
  - by apply kept_file.
  - by apply kept_dev.
  - by apply (kept_policy _ item).
  - by apply (kept_unknown _ item q k).
Qed.

(** The modes that build a new root, where it can be listed. *)
Definition new_root (o : Options) : Prop :=
  if use_default o then forall k : kstate, exists l, kreaddir k ROOT = inr l else hermetic o || use_overlayfs o = true.

Lemma new_root_changes s : new_root (opt s) -> changes_root s = true.
Proof. unfold new_root, changes_root. destruct (use_default (opt s)); [|done]. intros H. by destruct (H (kern s)) as [l ->]. Qed.

(** The set-up in three parts: no mount but those of own file systems, the file
    system of the sandbox, and the late calls. *)
Lemma setup_parts a b s s' host cwd :
  is_absolute cwd = true -> setup_sandbox a b s = (Ok tt, s') ->
  exists s2 s3 l1 l4, trace s2 = l1 ++ trace s /\ opt s2 = opt s /\
    v_cwd (view_after (mkView cwd host) l1) = cwd /\
    (forall e, e ∈ v_mounts (view_after (mkView cwd host) l1) -> (is_absolute e.1 = true /\ e.2 = Private) \/ e ∈ host) /\
    build_file_system s2 = (Ok tt, s3) /\ trace s' = l4 ++ trace s3 /\ Forall (fun e => late_call e.1) l4 /\
    (opt s' = opt s3 \/ opt s' = (opt s3) <| is_running := RUNNING |>).
Proof.
  intros Hcwd H. rewrite setup_split in H. apply bind_inv_ok in H as (o & s1 & E1 & H).
  pose proof (unseen_early _ _ (unseen_before a b s)) as H1. unfold final in H1. rewrite E1 in H1. cbn [snd] in H1.
  unfold file_system_and_after in H. apply bind_inv_ok in H as (mode & s1' & [= <- <-] & H).
  apply bind_inv_ok in H as ([] & s2 & E2 & H). match type of E2 with when ?c _ _ = _ => pose proof (early_MountOverlayDirAsTmpfs c s1) as H2 end.
  unfold final in H2. rewrite E2 in H2. cbn [snd] in H2. clear E1 E2.
  destruct H1 as [Ho1 (l1 & Hl1 & Hf1)], H2 as [Ho2 (l2 & Hl2 & Hf2)]. unfold same_opt in *.
  destruct (view_after_early (mkView cwd host) (l2 ++ l1) Hcwd) as [Hc12 Hm12]; [by apply Forall_app|].
  apply bind_inv_ok in H as ([] & s3 & E3 & H).
  assert (late s3 s') as [Ho4 (l4 & Hl4 & Hf4)].
  { apply bind_inv_ok in H as (u4 & s4 & E4 & H). apply bind_inv_ok in H as (u5 & s5 & E5 & H).
    apply bind_inv_ok in H as (u6 & s6 & E6 & [= <-]).
    pose proof (unseen_late _ _ (unseen_SetupNetworking s3)) as H4. pose proof (late_EnterWorkingDirectory s4) as H5.
    pose proof (late_InitDone s5) as H6. unfold final in *. rewrite E4 in H4. rewrite E5 in H5. rewrite E6 in H6.
    by etransitivity; [exact H4 | etransitivity; [exact H5 | exact H6]]. }
  exists s2, s3, (l2 ++ l1), l4. split; [by rewrite Hl2, Hl1, <- app_assoc|]. split; [congruence | done].
Qed.


End WholeSetUp.

(** ** Mounts below a read-only bind *)

Section Submounts.
Context `{B : Build} `{N : Bound} `{K : Kernel}.

Lemma at_or_below_iff dir p :
  dir <> ROOT -> at_or_below dir p = true <-> p = dir \/ exists r, is_absolute r = true /\ p = dir +:+ r.
Proof.
  intros Hd. unfold at_or_below. rewrite orb_true_iff, streq_true, bool_decide_eq_true. split; intros [H|H]; auto.
  - right. destruct H as [r H]. destruct (rest_below_some _ _ _ H) as [Hr [[? _]|[_ ->]]]; [done | by exists r].
  - right. destruct H as (r & Hr & ->). exists r. by apply rest_below_app.
Qed.

Lemma app_not_root dir r : is_absolute dir = true -> is_absolute r = true -> dir +:+ r <> ROOT.
Proof. intros Hd Hr. destruct dir as [|c dir]; [done|]. destruct r as [|c' r]; [done|]. by destruct dir. Qed.

(** Changing the directory in front of two paths does not change their order. *)
Lemma at_or_below_moved a b r p :
  is_absolute a = true -> is_absolute b = true -> is_absolute r = true ->
  at_or_below (a +:+ r) (a +:+ p) = at_or_below (b +:+ r) (b +:+ p).
Proof.
  intros Ha Hb Hr. apply eq_true_iff_eq. rewrite !at_or_below_iff by (by apply app_not_root).
  split; (intros [H|(t & Ht & H)]; [left | right; exists t; split; [done|]]); rewrite ?app_str_assoc in *;
    by apply app_str_cancel in H as ->.
Qed.

(** A copy governs what its original governed. *)
Lemma carried_governor source target T X r p a :
  is_absolute source = true -> source <> ROOT -> is_absolute target = true -> is_absolute r = true ->
  governor T (source +:+ p) = Some (source +:+ r, a) ->
  governor (carried source target T ++ X) (target +:+ p) = Some (target +:+ r, a).
Proof.
  intros Hs Hne Ht Hr. induction T as [|[q b] T IH]; [done|]. unfold governor. cbn [find fst].
  unfold carried. cbn [omap list_omap fst snd]. destruct (rest_below source q) as [r'|] eqn:E; cbn [option_map].
  - apply rest_below_some in E as [Hr' [[? _]|[_ ->]]]; [done|]. cbn [app find fst].
    rewrite (at_or_below_moved source target) by done. destruct (at_or_below _ _); [|exact IH].
    intros [= H <-]. by apply app_str_cancel in H as ->.
  - destruct (at_or_below q (source +:+ p)); [|exact IH]. intros [= -> <-]. by rewrite rest_below_app in E.
Qed.

Lemma view_after_files v l : Forall (fun e => file_call e.1 = true) l -> view_after v l = v.
Proof.
  induction 1 as [|[c r] l Hc _ IH]; [done|]. cbn [view_after]. rewrite IH. destruct (failed r); [done|]. by destruct c.
Qed.

(** The calls a read-only bind makes: files, the bind, and the remount if there is one. *)
Lemma MountAndRemountRO_calls full item s s' :
  MountAndRemountRO full item s = (Ok tt, s') ->
  exists files r1 remount, trace s' = (remount ++ (Mount (Some item) full None (Z.lor MS_REC MS_BIND) None, r1) :: files) ++ trace s /\
    Forall (fun e => file_call e.1 = true) files /\
    (remount = [] \/ exists f r2, remount = [(Mount None full None (statvfs_flags f) None, r2)] /\ failed r2 = false).
Proof.
  intros (d & res & s0 & r1 & k1 & E & _ & H)%MountAndRemountRO_run. cbv zeta in H.
  pose proof (frame_CreateTarget (calls (fun c _ => file_call c = true)) (fun c Hc => calls_sys _ c (fun _ => Hc)) full d s) as Hcalls.
  unfold final in Hcalls. rewrite E in Hcalls. destruct Hcalls as (l & Hl & Hfiles). cbn [snd] in Hl.
  exists l, r1. set (bind := (Mount (Some item) full None (Z.lor MS_REC MS_BIND) None, r1)) in *.
  assert (forall s1 : proc, trace s1 = bind :: trace s0 ->
    exists remount, trace s1 = (remount ++ bind :: l) ++ trace s /\ Forall (fun e => file_call e.1 = true) l /\
    (remount = [] \/ exists f r2, remount = [(Mount None full None (statvfs_flags f) None, r2)] /\ failed r2 = false)) as Hbare.
  { intros s1 Hs1. exists []. split; [by rewrite Hs1, Hl | by auto]. }
  destruct (kstatvfs k1 item) as [f|]; [|subst s'; by apply Hbare].
  destruct (_ || _); [subst s'; by apply Hbare|]. destruct H as (k & r2 & -> & Hr2).
  exists [(Mount None full None (statvfs_flags f) None, r2)]. split; [exact (f_equal (fun t => _ :: bind :: t) Hl)|].
  split; [done|]. right. exists f, r2. split; [done | unfold failed; by rewrite Hr2].
Qed.

(** C30: a path that is bound read-only is only read-only itself: a mount below the
    source is carried along by the recursive bind, and the remount that follows
    changes the mount at the top alone.  So, unless the bind failed, what could
    be written below the source before can be written below the target
    afterwards; and the pass over the mount table of the host, which comes
    later, makes no call for a mount that is already there. *)
Theorem submount_stays_writable full item s s' v r p :
  is_absolute full = true -> is_absolute item = true -> item <> ROOT -> is_absolute r = true ->
  governor (v_mounts v) (item +:+ p) = Some (item +:+ r, Writable) ->
  MountAndRemountRO full item s = (Ok tt, s') ->
  (exists l, trace s' = l ++ trace s /\
    (governor (v_mounts (view_after v l)) (full +:+ p) = Some (full +:+ r, Writable) \/
     exists reply, (Mount (Some item) full None (Z.lor MS_REC MS_BIND) None, reply) ∈ l /\ failed reply = true)) /\
  (forall ent st s2, kstat (kern s2) (sandbox_root (opt s2) +:+ mnt_dir ent) = inr st ->
    remount_entry true ent s2 = (Ok tt, s2)).
Proof.
  intros Hf Hi Hne Hr Hg H. split.
  - apply MountAndRemountRO_calls in H as (files & r1 & remount & Ht & Hfiles & Hre). eexists. split; [exact Ht|].
    destruct (failed r1) eqn:Hr1; [right; exists r1; split; [apply elem_of_app; right; left | done] | left].
    rewrite view_after_app. cbn [view_after]. rewrite Hr1, (view_after_files v files Hfiles). cbn [effect].
    unfold mount_effect. rewrite !resolve_id by done. cbn [default from_option id].
    change (has_flag (plain_flags (Z.lor MS_REC MS_BIND)) MS_REMOUNT) with false.
    change (has_flag (plain_flags (Z.lor MS_REC MS_BIND)) MS_BIND) with true.
    change (has_flag (plain_flags (Z.lor MS_REC MS_BIND)) MS_REC) with true. cbn iota.
    destruct Hre as [-> | (f & r2 & -> & Hr2)]; [by apply carried_governor|].
    cbn [view_after effect v_cwd]. rewrite Hr2. unfold mount_effect. cbn [v_cwd v_mounts].
    destruct (statvfs_remount f) as [-> ->]. rewrite resolve_id by done.
    rewrite update_first_app; [by apply carried_governor|].
    intros e (q & rest & _ & Hrest & ->)%elem_of_carried. apply rest_below_some in Hrest as [Hrest _]. by apply app_absolute_ne.
  - intros ent st s2 Hst. unfold remount_entry. rewrite (bind_ok (get_opt id) _ s2 (opt s2) s2 eq_refl).
    cbv zeta. destruct (ends_with _ _); [done|]. destruct (network_fs _); [done|]. destruct (isSubpath _ _); [done|].
    rewrite (bind_ok _ _ _ true s2); [done|]. rewrite (bind_ok _ _ _ (true, None) s2); [done|].
    rewrite fs_exists_ec_eq. by rewrite Hst.
Qed.

End Submounts.

(** ** Witnesses *)

(** The calm machine, with a [mkdtemp] that fills in the template. *)
Definition NamingKernel : Kernel :=
  constant_kernel (fun c => match c with Mkdtemp _ => mkReply 0 ENONE [] "old-root-a1b2c3" | _ => ok_reply end).

Definition view_options : Options := calm_options <| use_default := true |> <| use_overlayfs := true |>.
Definition view_proc : proc (H := NamingKernel) :=
  (initial_proc (K := NamingKernel) {["HOME" := "/home/u"]} tt) <| opt := view_options |> <| home_dir := "/home/u" |> <| ReadOnlyPaths := ["/lib"] |>.

Definition view_run : proc (H := NamingKernel) :=
  final (setup_sandbox (B := lib_build) (N := some_bound) (K := NamingKernel) (3, 4) (5, 6)) view_proc.

(** The host has a mount of its own below /usr, which the options bind on /opt. *)
Definition view_host : list (string * access) := [("/usr/local", Writable); ("/usr", Writable); ("/", Writable)].

(** The mounts of the command: the one below /usr is writable on /opt too. *)
Lemma view_run_mounts :
  v_mounts (view_after (mkView "/" view_host) (trace view_run)) =
  [("/home/u/w", Writable); ("/var", Writable); ("/home/u/w", Private); ("/etc", Private); ("/lib", ReadOnly);
   ("/opt/local", Writable); ("/opt", ReadOnly)] ++ ((fun d => (d, Writable)) <$> rev dev_nodes) ++ [("/", Writable)].
Proof. vm_compute. reflexivity. Qed.


Lemma submount_stays_writable_witness :
  (exists l, trace (final (MountAndRemountRO (K := NamingKernel) "/tmp/s/opt" "/usr") view_proc) = l ++ [] /\
    (governor (v_mounts (view_after (mkView "/" view_host) l)) "/tmp/s/opt/local/bin" = Some ("/tmp/s/opt/local", Writable) \/
     exists reply, (Mount (Some "/usr") "/tmp/s/opt" None (Z.lor MS_REC MS_BIND) None, reply) ∈ l /\ failed reply = true)) /\
  remount_entry (K := NamingKernel) true (mkMntent "/usr/local" "ext4" ["rw"]) view_proc = (Ok tt, view_proc).
Proof.
  destruct (submount_stays_writable (K := NamingKernel) "/tmp/s/opt" "/usr" view_proc
    (final (MountAndRemountRO (K := NamingKernel) "/tmp/s/opt" "/usr") view_proc) (mkView "/" view_host) "/local" "/local/bin")
    as [H1 H2]; [reflexivity | reflexivity | done | reflexivity | vm_compute; reflexivity | vm_compute; reflexivity |].
  split; [exact H1 | by apply (H2 _ (mkStat FDirectory 0))].
Defined.
