(* ===== verification/Requested.v ===== *)
(** * The paths the command may write to are there

    In the modes that build a new root the writable paths of the request are bound
    one after the other, and the working directory last.  Whatever the kernel
    answers to the calls that follow, the command finds each of them in its place
    and no remount made it read-only, unless a directory above it was bound
    later. *)

From S2P Require Import Prelude Monad CxxString FsPath Firewall Kernel SimKernel State Fs Errors ProcessTools OptionsApi Rules Api Mounts Pid1 Inside View.
From Stdlib Require Import Ascii.
Open Scope sbx_scope.
Open Scope Z_scope.

(** ** The place of a mount among the others *)

Section Place.
Context (root wd : string) (Hroot : is_absolute root = true) (Hne : root <> ROOT).
Context (Hwd : is_absolute wd = true) (Hwne : wd <> ROOT).
Context (was : access).

(** A newer mount hides no part of the path [wd] of the new root. *)
Definition aside (e : string * access) : Prop :=
  exists q, e.1 = root +:+ q /\ q <> "" /\ at_or_below q wd = false.

(** As it was when the path was bound, or writable. *)
Definition no_worse (a : access) : Prop := a = was \/ a = Writable.

(** The bind of the path is there and what is newer is aside. *)
Definition in_place (mounts : list (string * access)) : Prop :=
  exists newer a older, mounts = newer ++ (root +:+ wd, a) :: older /\ Forall aside newer /\ no_worse a.

Lemma at_or_below_self p : at_or_below p p = true.
Proof. unfold at_or_below. by rewrite streq_refl. Qed.

Lemma at_or_below_root p : is_absolute p = true -> at_or_below ROOT p = true.
Proof.
  intros Hp. unfold at_or_below, rest_below. destruct (streq p ROOT) eqn:E; [done|].
  change (streq ROOT ROOT) with true. cbn iota. rewrite Hp. by rewrite bool_decide_eq_true_2 by eauto.
Qed.

(** What is below a path is below the paths above it. *)
Lemma at_or_below_up d rest p :
  d <> "" -> is_absolute rest = true -> is_absolute p = true -> at_or_below (d +:+ rest) p = true -> at_or_below d p = true.
Proof.
  intros Hd Hrest Hp. destruct (decide (d = ROOT)) as [->|Hdr]; [intros _; by apply at_or_below_root|].
  assert (d +:+ rest <> ROOT) as Hdr'.
  { intros E. destruct d as [|c d]; [done|]. destruct rest as [|c' r]; [done|]. by destruct d. }
  rewrite !at_or_below_iff by done. intros [->|(r & Hr & ->)]; right.
  - by exists rest.
  - exists (rest +:+ r). split; [by apply is_absolute_app | by rewrite app_str_assoc].
Qed.

Lemma carried_aside source q mounts :
  q <> "" -> at_or_below q wd = false \/ q = wd -> Forall aside (carried source (root +:+ q) mounts).
Proof.
  intros Hq Hqw. apply Forall_forall. intros e (p & rest & _ & Hrest & He)%elem_of_carried.
  destruct (rest_below_some _ _ _ Hrest) as [Habs _]. exists (q +:+ rest). split; [by rewrite He, app_str_assoc|].
  split; [destruct q; done|]. apply not_true_iff_false. intros Hb.
  destruct Hqw as [Hqw| ->]; [by rewrite (at_or_below_up q rest wd) in Hqw|].
  assert (wd +:+ rest <> ROOT) as Hr.
  { intros E. destruct wd as [|c w]; [done|]. destruct rest as [|c' r]; [done|]. by destruct w. }
  apply (at_or_below_iff _ _ Hr) in Hb as [Hb|(r & Hr' & Hb)].
  - symmetry in Hb. by apply app_absolute_ne in Hb.
  - rewrite app_str_assoc in Hb. symmetry in Hb. apply app_absolute_ne in Hb; [done | by apply is_absolute_app].
Qed.

Lemma aside_not_there e : aside e -> e.1 <> root +:+ wd.
Proof. intros (q & -> & _ & Hq) E%app_str_cancel. by rewrite E, at_or_below_self in Hq. Qed.

Lemma in_place_app more mounts : Forall aside more -> in_place mounts -> in_place (more ++ mounts).
Proof.
  intros Hm (newer & a & older & -> & Hn & Ha). exists (more ++ newer), a, older. rewrite <- app_assoc.
  split; [done|]. split; [by apply Forall_app | done].
Qed.

Lemma update_first_newer t a newer x older :
  x.1 <> t ->
  exists newer' older', update_first t a (newer ++ x :: older) = newer' ++ x :: older' /\ newer'.*1 = newer.*1.
Proof.
  intros Hx. induction newer as [|e newer (n' & o' & IH & Hn)]; cbn [update_first app].
  - apply streq_false in Hx. rewrite Hx. by exists [], (update_first t a older).
  - destruct (streq e.1 t) eqn:E.
    + apply streq_true in E. exists ((t, a) :: newer), older. split; [done|]. cbn. by rewrite E.
    + exists (e :: n'), o'. rewrite IH. split; [done|]. cbn. by rewrite Hn.
Qed.

(** A remount elsewhere, or one that does not make it read-only. *)
Lemma in_place_update t a mounts : (t = root +:+ wd -> a = Writable) -> in_place mounts -> in_place (update_first t a mounts).
Proof.
  intros Ha (newer & b & older & -> & Hn & Hb). destruct (decide (t = root +:+ wd)) as [->|Ht].
  - rewrite update_first_app; [rewrite Ha by done; exists newer, Writable, older; split; [done|]; split; [done | by right]|].
    intros e He. rewrite Forall_forall in Hn. by apply aside_not_there, Hn.
  - destruct (update_first_newer t a newer (root +:+ wd, b) older) as (n' & o' & -> & Hn'); [by apply not_eq_sym in Ht|].
    exists n', b, o'. split; [done|]. split; [|done]. rewrite Forall_forall in *. intros e He.
    apply (list_elem_of_fmap_2 fst) in He. rewrite Hn' in He. apply list_elem_of_fmap in He as (e' & Hee & He').
    destruct (Hn e' He') as (q & Hq & H). exists q. by rewrite Hee.
Qed.

End Place.

(** ** The calls after the mounts of the request *)

Section After.
Context `{B : Build} `{N : Bound} `{K : Kernel}.
Context (root wd : string) (Hroot : is_absolute root = true) (Hne : root <> ROOT).
Context (Hwd : is_absolute wd = true) (Hwne : wd <> ROOT).
Context (was : access) (start : view) (t0 : list (syscall * reply)).

(** A directory of the host at the path or above it was bound. *)
Definition bound_above (l : list (syscall * reply)) : Prop :=
  exists d r, (Mount (Some d) (root +:+ d) None (Z.lor MS_REC MS_BIND) None, r) ∈ l /\ failed r = false /\
    (d = "" \/ at_or_below d wd = true).

Definition placed (l : list (syscall * reply)) : Prop :=
  v_cwd (view_after start l) = root /\ (in_place root wd was (v_mounts (view_after start l)) \/ bound_above l).

Definition in_order (s : proc) : Prop := exists l, trace s = l ++ t0 /\ placed l.

(** What the pass over the mount table calls. *)
Definition table_call (c : syscall) : Prop :=
  match c with
  | Mount source target ty flags data =>
      if has_flag (plain_flags flags) MS_REMOUNT
      then resolve root target = root +:+ wd -> has_flag (plain_flags flags) MS_RDONLY = false
      else exists d, c = Mount (Some d) (root +:+ d) None (Z.lor MS_REC MS_BIND) None
  | Chdir _ | PivotRoot _ _ | Umount2 _ _ => False
  | _ => True
  end.

Lemma bound_above_cons e l : bound_above l -> bound_above (e :: l).
Proof. intros (d & r & Hin & H). exists d, r. split; [by right | done]. Qed.

Lemma placed_cons l c r : table_call c -> placed l -> placed ((c, r) :: l).
Proof.
  intros Hc [Hcwd Hp]. assert (in_place root wd was (v_mounts (view_after start l)) ->
    failed r = false -> v_cwd (effect c (view_after start l)) = root /\
    (in_place root wd was (v_mounts (effect c (view_after start l))) \/ bound_above ((c, r) :: l))) as Hstep.
  { intros Hin Hr. destruct c as [source target ty flags data| | | | | | | | | | | | | | | | | | | | | | | | | | | | | | | | | | | | | | | | |];
      cbn [table_call] in Hc; try done; try (by split; [|left]).
    cbn [effect v_cwd v_mounts]. split; [done|]. unfold mount_effect. destruct (has_flag (plain_flags flags) MS_REMOUNT) eqn:Hre.
    - left. apply in_place_update; [|done]. rewrite Hcwd. intros Ht. by rewrite Hc.
    - destruct Hc as [d [= -> -> -> -> ->]]. destruct (decide (d = "" \/ at_or_below d wd = true)) as [Hd|Hd].
      { right. exists d, r. split; [left | done]. }
      left. change (has_flag (plain_flags (Z.lor MS_REC MS_BIND)) MS_BIND) with true.
      change (has_flag (plain_flags (Z.lor MS_REC MS_BIND)) MS_REC) with true. cbn iota. cbn [default from_option].
      assert (d <> "" /\ at_or_below d wd = false) as [Hd1 Hd2].
      { split; [tauto|]. apply not_true_iff_false. tauto. }
      rewrite Hcwd, (resolve_id root (root +:+ d)) by (by apply is_absolute_app). rewrite cons_middle, app_assoc.
      apply in_place_app; [|done]. apply Forall_app. split; [apply carried_aside; auto|].
      constructor; [by exists d | constructor]. }
  unfold placed. cbn [view_after]. destruct (failed r) eqn:Hr.
  { split; [done|]. destruct Hp; [by left | right; by apply bound_above_cons]. }
  destruct Hp as [Hp|Hp]; [by apply Hstep|]. split; [|right; by apply bound_above_cons].
  destruct c; cbn [table_call] in Hc; done.
Qed.

Definition orderly (s s' : proc) : Prop := same_opt s s' /\ (in_order s -> in_order s').

#[local] Instance orderly_preorder : PreOrder orderly.
Proof. split; [by intros s; split|]. intros a b c [H1 H2] [H3 H4]. split; [by etransitivity | auto]. Qed.

Lemma orderly_sys c : table_call c -> respects orderly (sys c).
Proof.
  intros Hc s. split; [apply same_opt_sys|]. intros (l & Hl & Hp). unfold final, sys. destruct (ksys (kern s) c) as [r k].
  exists ((c, r) :: l). split; [exact (f_equal (cons (c, r)) Hl) | by apply placed_cons].
Qed.

Lemma orderly_file c : file_call c = true -> respects orderly (sys c).
Proof. intros Hc. apply orderly_sys. by destruct c. Qed.

Lemma orderly_CreateTarget p d : respects orderly (CreateTarget p d).
Proof. apply frame_CreateTarget; [exact _ | apply orderly_file]. Qed.

Context (o : Options) (Ho : sandbox_root o = root) (Hw : wd = working_dir o \/ wd ∈ writable_files o).

Lemma orderly_preserves {A} (m : prog proc A) : respects orderly m -> preserves in_order o m.
Proof. apply preserves_respects. Qed.

Lemma preserves_remount_entry ent : preserves in_order o (remount_entry true ent).
Proof.
  unfold remount_entry. apply preserves_get_opt. cbv zeta. unfold id. rewrite Ho. destruct (ends_with _ _); [apply preserves_ret|].
  apply preserves_bind.
  { apply orderly_preserves. destruct (network_fs _); [apply respects_ret; exact _|]. destruct (isSubpath _ _); [apply respects_ret; exact _|].
    apply respects_bind; [exact _ | apply respects_fs_exists_ec; exact _ | intros [ex ec]; apply respects_ret; exact _]. }
  intros []; [apply preserves_ret|]. set (full := root +:+ mnt_dir ent). set (flags := flag_if _ _ _).
  destruct (mntent_remount (negb (ShouldBeWritable o (mnt_dir ent))) ent) as [Hre Hro]. fold flags in Hre, Hro.
  intros s [] s' (target & s1 & E & H)%bind_inv_ok Hs Hv.
  assert ((target = None \/ target = Some full) /\ opt s1 = o /\ in_order s1) as (Ht & Hs1 & Hv1).
  { apply bind_inv_ok in E as (res & s0 & E0 & E).
    destruct (orderly_preserves _ (orderly_CreateTarget _ _) s res s0 E0 Hs Hv) as [Hs0 Hv0].
    destruct (res <? 0); [injection E as <- <-; split; [by left | done]|].
    apply bind_inv_ok in E as (r & s2 & E & [= <- <-]). split; [destruct (failed r); auto|].
    refine (orderly_preserves _ (orderly_sys _ _) s0 r s2 E Hs0 Hv0). by exists (mnt_dir ent). }
  destruct Ht as [-> | ->]; [by injection H as <-|].
  refine (orderly_preserves _ _ s1 tt s' H Hs1 Hv1). apply respects_bind; [exact _ | | intros r].
  - apply orderly_sys. cbn [table_call]. rewrite Hre, Hro. intros Hfull.
    rewrite resolve_id in Hfull by (by apply is_absolute_app). apply app_str_cancel in Hfull.
    apply negb_false_iff, ShouldBeWritable_iff. rewrite Hfull. destruct Hw as [->|Hw']; [by left | by do 4 right; left].
  - destruct (failed r && _); [apply respects_die; exact _ | apply respects_ret; exact _].
Qed.

Lemma preserves_MakeFilesystemPartiallyReadOnly n : preserves in_order o (MakeFilesystemPartiallyReadOnly true n).
Proof.
  unfold MakeFilesystemPartiallyReadOnly. apply preserves_bind; [apply orderly_preserves, respects_query; exact _|].
  intros [t|]; [|apply preserves_die]. apply preserves_remount_entries; [|exact preserves_remount_entry].
  intros A g. apply orderly_preserves, respects_query; exact _.
Qed.

Lemma orderly_MakeEmptyHome : respects orderly MakeEmptyHome.
Proof.
  unfold MakeEmptyHome. apply respects_bind; [exact _ | apply respects_gets; exact _ | intros home].
  destruct (empty home); [apply respects_die; exact _|]. apply respects_bind; [exact _ | apply respects_get_opt; exact _ | intros r].
  apply respects_bind; [exact _ | apply orderly_CreateTarget | intros res].
  destruct (res <? 0); [apply respects_die | apply respects_ret]; exact _.
Qed.

Lemma preserves_finishing rest : finishing rest -> preserves in_order o rest.
Proof.
  intros [| |n]; [apply preserves_ret | apply orderly_preserves, orderly_MakeEmptyHome |].
  apply preserves_bind; [apply preserves_MakeFilesystemPartiallyReadOnly | intros _; apply orderly_preserves, orderly_MakeEmptyHome].
Qed.

(** *** The other writable paths *)

Lemma orderly_bind src : respects orderly (mount_or_die (Some src) (root +:+ src) None (Z.lor MS_REC MS_BIND) None).
Proof.
  unfold mount_or_die. apply respects_bind; [exact _ | apply orderly_sys; by exists src | intros r].
  destruct (failed r); [apply respects_die | apply respects_ret]; exact _.
Qed.

Lemma preserves_mount_writable w : preserves in_order o (mount_writable w).
Proof.
  unfold mount_writable. apply preserves_get_opt. rewrite Ho. apply preserves_bind.
  { apply orderly_preserves, respects_fs_is_directory_ec; exact _. }
  intros [isDir [e|]]; [apply preserves_ret|]. apply preserves_bind; [apply orderly_preserves, orderly_CreateTarget | intros _].
  apply orderly_preserves. exact (orderly_bind w).
Qed.

(** What is left of the mounts of the request once a path was bound. *)
Definition remaining (l : list string) : prog proc unit :=
  _ ← for_each l mount_writable;
  _ ← CreateTarget (root +:+ working_dir o) true;
  mount_or_die (Some (working_dir o)) (root +:+ working_dir o) None (Z.lor MS_REC MS_BIND) None.

Lemma preserves_remaining l : preserves in_order o (remaining l).
Proof.
  apply preserves_bind; [apply preserves_for_each; intros w _; apply preserves_mount_writable | intros _].
  apply orderly_preserves, respects_bind; [exact _ | apply orderly_CreateTarget | intros _; apply orderly_bind].
Qed.

End After.

(** ** The change of root *)

Lemma governor_app newer older p :
  Forall (fun e => at_or_below e.1 p = false) newer -> governor (newer ++ older) p = governor older p.
Proof. unfold governor. induction 1 as [|e newer He _ IH]; [done|]. cbn [app find]. by rewrite He. Qed.

Lemma governor_here p a older : governor ((p, a) :: older) p = Some (p, a).
Proof. unfold governor. cbn [find fst]. by rewrite at_or_below_self. Qed.

Lemma changed_root_place root wd was v t fl1 :
  is_absolute root = true -> root <> ROOT -> is_absolute wd = true ->
  v_cwd v = root -> has_flag fl1 MNT_DETACH = true -> has_prefix "/old-root-" wd = false ->
  in_place root wd was (v_mounts v) ->
  exists a, governor (v_mounts (effect (Umount2 ("old-root-" +:+ t) fl1) (effect (PivotRoot "." ("old-root-" +:+ t)) v))) wd =
    Some (wd, a) /\ no_worse was a.
Proof.
  intros Hroot Hne Hwd Hcwd Hfl Hfresh (newer & b & older & Hm & Hn & Hb). exists b. split; [|exact Hb]. rewrite (changed_root_mounts root) by done.
  rewrite Hm, fmap_app, fmap_cons, !filter_app. cbn [prod_map fst snd id].
  set (old := "/old-root-" +:+ t).
  assert (forall q, q <> "" -> renamed root old (root +:+ q) = if is_absolute q then q else old +:+ (root +:+ q)) as Hren.
  { intros q Hq. unfold renamed. replace (streq (root +:+ q) root) with false.
    2:{ symmetry. apply streq_false. intros E. apply Hq, (app_str_cancel root). by rewrite E, app_str_nil_r. }
    destruct (is_absolute q) eqn:Ea; [by rewrite rest_below_app|].
    assert (rest_below root (root +:+ q) = None) as ->.
    { destruct (rest_below root (root +:+ q)) as [r|] eqn:E; [|done].
      apply rest_below_some in E as [Hr [[? _]|[_ E]]]; [done|]. apply app_str_cancel in E as ->. by rewrite Hr in Ea. }
    replace (streq (root +:+ q) ROOT) with false; [done|]. symmetry. apply streq_false. intros E.
    destruct root as [|c root']; [done|]. destruct root'; [|done]. injection E as -> E. by destruct q. }
  assert (at_or_below old wd = false) as Hold.
  { apply not_true_iff_false. intros H. apply at_or_below_iff in H; [|done].
    enough (has_prefix "/old-root-" wd = true) by congruence. apply has_prefix_spec.
    destruct H as [->|(r & _ & ->)]; [by exists t | by exists (t +:+ r)]. }
  rewrite governor_app.
  - rewrite filter_cons. rewrite Hren, Hwd by (by intros ->). rewrite decide_True by done. apply governor_here.
  - apply Forall_forall. intros e (Hkeep & He)%list_elem_of_filter.
    apply list_elem_of_fmap in He as ([p a] & -> & Hin). rewrite Forall_forall in Hn.
    destruct (Hn _ Hin) as (q & Hp & Hq & Hqw). cbn [fst snd prod_map] in *. subst p. rewrite Hren in * by done.
    destruct (is_absolute q); [done|]. exfalso. rewrite at_or_below_app in Hkeep; [done | done |]. by apply is_absolute_app.
Qed.

(** ** The bind of a path of the request *)

Section Whole.
Context `{B : Build} `{N : Bound} `{K : Kernel}.

Definition bind_of (root w : string) : syscall := Mount (Some w) (root +:+ w) None (Z.lor MS_REC MS_BIND) None.

Lemma mount_or_die_ok src target ty flags data s u s' :
  mount_or_die src target ty flags data s = (Ok u, s') ->
  exists r, failed r = false /\ trace s' = (Mount src target ty flags data, r) :: trace s /\ opt s' = opt s.
Proof.
  unfold mount_or_die, sys, mbind, prog_bind. destruct (ksys (kern s) _) as [r k]. destruct (failed r) eqn:Hr; [done|].
  intros [= _ <-]. by exists r.
Qed.

(** Calls that leave the working directory of the process, and the options. *)
Definition still (c : syscall) : Prop := match c with Chdir _ | PivotRoot _ _ => False | _ => True end.
Definition onward (s s' : proc) : Prop := same_opt s s' /\ calls (fun c _ => still c) s s'.

#[local] Instance onward_preorder : PreOrder onward.
Proof. split; [by intros s; split|]. intros a b c [H1 H2] [H3 H4]. split; by etransitivity. Qed.

Lemma onward_sys c : still c -> respects onward (sys c).
Proof. intros Hc s. split; [apply same_opt_sys | by apply (calls_sys (fun c _ => still c))]. Qed.

Lemma onward_file c : file_call c = true -> respects onward (sys c).
Proof. intros Hc. apply onward_sys. by destruct c. Qed.

Lemma onward_ok {A} (m : prog proc A) s a s' : respects onward m -> m s = (Ok a, s') -> onward s s'.
Proof. intros Hm E. specialize (Hm s). unfold final in Hm. by rewrite E in Hm. Qed.

Lemma onward_mount_writable w : respects onward (mount_writable w).
Proof. apply frame_mount_writable; [exact _ | apply onward_file | intros; by apply onward_sys]. Qed.

Lemma onward_tmpfs o : respects onward (for_each (tmpfs_dirs o) (fun tmpfs_dir =>
  _ ← CreateTarget (sandbox_root o +:+ tmpfs_dir) true;
  mount_or_die (Some "tmpfs") tmpfs_dir (Some "tmpfs") (Z.lor MS_NOSUID (Z.lor MS_NODEV MS_NOATIME)) None)).
Proof.
  apply respects_for_each; [exact _|]. intros d _.
  apply respects_bind; [exact _ | apply frame_CreateTarget; [exact _ | apply onward_file] | intros _]. unfold mount_or_die.
  apply respects_bind; [exact _ | by apply onward_sys | intros r]. destruct (failed r); [apply respects_die | apply respects_ret]; exact _.
Qed.

Lemma view_after_still v l : Forall (fun e => still e.1) l -> v_cwd (view_after v l) = v_cwd v.
Proof.
  induction 1 as [|[c r] l Hc _ IH]; [done|]. cbn [view_after]. destruct (failed r); [done|]. rewrite <- IH.
  by destruct c.
Qed.

Lemma for_each_at {A} (body : A -> prog proc unit) l1 x l2 s s' :
  for_each (l1 ++ x :: l2) body s = (Ok tt, s') ->
  exists s1 s2, for_each l1 body s = (Ok tt, s1) /\ body x s1 = (Ok tt, s2) /\ for_each l2 body s2 = (Ok tt, s').
Proof.
  revert s. induction l1 as [|y l1 IH]; cbn [for_each app]; intros s H.
  - apply bind_inv_ok in H as ([] & s1 & E & H). by exists s, s1.
  - apply bind_inv_ok in H as ([] & s1 & E & H). apply IH in H as (s2 & s3 & E1 & E2 & E3).
    exists s2, s3. split; [|done]. by rewrite (bind_ok _ _ _ _ _ E).
Qed.

(** The path exists, whenever the kernel is asked. *)
Definition exists_always (w : string) : Prop := forall k : kstate, exists st, kstat k w = inr st.

Lemma mount_writable_ok w s s' :
  exists_always w -> mount_writable w s = (Ok tt, s') ->
  exists s0 r, onward s s0 /\ failed r = false /\ trace s' = (bind_of (sandbox_root (opt s)) w, r) :: trace s0 /\ opt s' = opt s.
Proof.
  intros Hw H. unfold mount_writable in H. apply bind_inv_ok in H as (root & s1 & [= <- <-] & H).
  apply bind_inv_ok in H as ([isDir ec] & s1 & E & H). destruct (Hw (kern s)) as [st Hst].
  unfold fs_is_directory_ec, query, gets, mbind, prog_bind in E. rewrite Hst in E. injection E as _ <- <-.
  apply bind_inv_ok in H as (res & s2 & E2 & H). apply mount_or_die_ok in H as (r & Hr & Ht & Ho).
  assert (onward s s2) as Hon by (eapply onward_ok; [|exact E2]; apply frame_CreateTarget; [exact _ | apply onward_file]).
  exists s2, r. do 3 (split; [done|]). destruct Hon as [Hso _]. by rewrite Ho.
Qed.

(** A path the command may write to, and what is mounted after it. *)
Definition requested (o : Options) (w : string) : Prop := w = working_dir o \/ w ∈ writable_files o /\ exists_always w.

Lemma MountAllMounts_at w s s' :
  requested (opt s) w -> MountAllMounts s = (Ok tt, s') ->
  let root := sandbox_root (opt s) in
  exists s0 s1 r rest, onward s s0 /\ failed r = false /\ trace s1 = (bind_of root w, r) :: trace s0 /\ opt s1 = opt s /\
    (rest = mret tt \/ exists l, rest = remaining root (opt s) l) /\ rest s1 = (Ok tt, s').
Proof.
  intros Hw H root. unfold MountAllMounts in H. apply bind_inv_ok in H as (o & s1 & [= <- <-] & H). unfold mounts_of, id in H.
  fold root in H. set (o := opt s) in *.
  apply bind_inv_ok in H as (u1 & s1 & E1 & H). apply bind_inv_ok in H as (u2 & s2 & E2 & H).
  apply bind_inv_ok in H as (ro & s3 & E3 & H). assert (s3 = s2) as -> by (by injection E3).
  apply bind_inv_ok in H as (u4 & s4 & E4 & H). apply bind_inv_ok in H as (u5 & s5 & E5 & H).
  assert (onward s s5) as F5.
  { transitivity s1; [eapply onward_ok; [apply onward_tmpfs | exact E1]|].
    transitivity s2.
    { eapply onward_ok; [|exact E2]. apply frame_mount_binds_ro; [exact _ | apply onward_file | intros; by apply onward_sys]. }
    transitivity s4.
    { eapply onward_ok; [|exact E4]. apply frame_MountReadOnly; [exact _ | apply onward_file | intros; by apply onward_sys]. }
    eapply onward_ok; [|exact E5].
    apply frame_MountAllOverlayFs; [exact _ | apply onward_file | intros; by apply onward_sys | by intros f s0; split; [|exists []]]. }
  clear E1 E2 E3 E4 E5. cbv zeta in H. assert (opt s5 = o) as Ho5 by (by destruct F5).
  destruct Hw as [->|[(l1 & l2 & Hl)%list_elem_of_split Hex]].
  - apply bind_inv_ok in H as (u6 & s6 & E6 & H). apply bind_inv_ok in H as (res & s7 & E7 & H).
    assert (onward s s7) as F7.
    { transitivity s5; [done|]. transitivity s6.
      - eapply onward_ok; [|exact E6]. apply respects_for_each; [exact _|]. intros w _. apply onward_mount_writable.
      - eapply onward_ok; [|exact E7]. apply frame_CreateTarget; [exact _ | apply onward_file]. }
    apply mount_or_die_ok in H as (r & Hr & Ht & Ho). exists s7, s', r, (mret tt). do 3 (split; [done|]).
    split; [by destruct F7 as [F7 _]; rewrite Ho|]. split; [by left | by destruct u6].
  - rewrite Hl in H. apply bind_inv_ok in H as ([] & s6 & E6 & H). apply for_each_at in E6 as (s7 & s8 & E7 & E8 & E9).
    assert (onward s s7) as F7.
    { transitivity s5; [done|]. eapply onward_ok; [|exact E7]. apply respects_for_each; [exact _|]. intros x _. apply onward_mount_writable. }
    assert (opt s7 = o) as Ho7 by (by destruct F7).
    apply mount_writable_ok in E8 as (s0 & r & F0 & Hr & Ht & Ho8); [|done]. rewrite Ho7 in Ht, Ho8.
    exists s0, s8, r, (remaining root o l2). split; [by transitivity s7|]. do 3 (split; [done|]).
    split; [right; by exists l2|]. unfold remaining. by rewrite (bind_ok _ _ _ _ _ E9).
Qed.

(** The view right after it. *)
Lemma placed_at_bind root wd start l r :
  is_absolute root = true -> is_absolute wd = true -> wd <> ROOT -> failed r = false -> v_cwd (view_after start l) = root ->
  placed root wd (access_at (v_mounts (view_after start l)) wd) (view_after start ((bind_of root wd, r) :: l)) [].
Proof.
  intros Hroot Hwd Hwne Hr Hcwd. unfold placed. cbn [view_after]. rewrite Hr. cbn [effect bind_of v_cwd v_mounts].
  split; [done|]. left. unfold mount_effect.
  change (has_flag (plain_flags (Z.lor MS_REC MS_BIND)) MS_REMOUNT) with false.
  change (has_flag (plain_flags (Z.lor MS_REC MS_BIND)) MS_BIND) with true.
  change (has_flag (plain_flags (Z.lor MS_REC MS_BIND)) MS_REC) with true. cbn iota zeta. cbn [default from_option id].
  rewrite Hcwd, (resolve_id root (root +:+ wd)), (resolve_id root wd) by (done || by apply is_absolute_app).
  eexists _, _, _. split; [reflexivity|]. split; [|by left].
  apply carried_aside; try done; [by intros -> | by right].
Qed.

(** The file system of the sandbox. *)
Lemma chroot_requested s s' host cwd wd :
  mkdtemp_law -> is_absolute (sandbox_root (opt s)) = true -> sandbox_root (opt s) <> ROOT ->
  is_absolute wd = true -> wd <> ROOT -> has_prefix "/old-root-" wd = false ->
  Forall (fun e => is_absolute e.1 = true) host -> chroot_sandbox s = (Ok tt, s') -> requested (opt s') wd ->
  let root := sandbox_root (opt s) in
  exists l1 r l2, trace s' = l1 ++ (bind_of root wd, r) :: l2 ++ trace s /\ failed r = false /\
    ((exists a, governor (v_mounts (view_after (mkView cwd host) (l1 ++ (bind_of root wd, r) :: l2))) wd = Some (wd, a) /\
        no_worse (access_at (v_mounts (view_after (mkView cwd host) l2)) wd) a) \/
     bound_above root wd l1).
Proof.
  intros Hlaw Hroot Hne Hwd Hwne Hfresh Hhost H Hw root. set (start := mkView cwd host).
  destruct (chroot_mounts s s' host cwd Hroot Hne Hhost H) as (s1 & s2 & s3 & rest & Hr1 & Hv1 & E1 & Hrest & E2 & E3).
  fold root start in Hr1, Hv1.
  destruct (keeps_MountAllMounts root start (trace s) (opt s1) Hroot Hhost Hr1 s1 tt s2 E1 eq_refl Hv1) as [Ho2 Hv2].
  destruct (keeps_finishing root start (trace s) (opt s1) rest Hroot Hhost Hr1 Hrest s2 tt s3 E2 Ho2 Hv2) as [Ho3 _]. clear Hv2.
  apply ChangeRoot_run in E3 as (m & p & c & u & rm & Ht & Hm & Hp & Hch & Hu & Hrm & Em & Ho').
  assert (opt s' = opt s1) as Eo by congruence. rewrite Eo in Hw.
  destruct Hv1 as (lA & HlA & HcA & _).
  destruct (MountAllMounts_at wd s1 s2 Hw E1) as (s0 & sb & r & rem & [_ (lx & Hlx & Hstill)] & Hr & Htb & Hob & Hrem & Eb).
  rewrite Hr1 in Htb.
  assert (v_cwd (view_after start (lx ++ lA)) = root) as Hcx by (by rewrite view_after_app, view_after_still).
  pose proof (placed_at_bind root wd start (lx ++ lA) r Hroot Hwd Hwne Hr Hcx) as Hpl.
  set (was := access_at (v_mounts (view_after start (lx ++ lA))) wd) in *.
  set (start2 := view_after start ((bind_of root wd, r) :: lx ++ lA)) in *.
  assert (wd = working_dir (opt s1) \/ wd ∈ writable_files (opt s1)) as Hw' by (destruct Hw as [?|[? _]]; auto).
  assert (in_order root wd was start2 (trace sb) s2) as Hin2.
  { assert (in_order root wd was start2 (trace sb) sb) as Hinb by (by exists []).
    destruct Hrem as [->|[l ->]].
    - by injection Eb as <-.
    - rewrite Hr1 in Eb. exact (proj2 (preserves_remaining root wd Hroot Hwd Hwne was start2 (trace sb) (opt s1) Hr1 l sb tt s2 Eb Hob Hinb)). }
  destruct (preserves_finishing root wd Hroot Hwd Hwne was start2 (trace sb) (opt s1) Hr1 Hw' rest Hrest s2 tt s3 E2 Ho2 Hin2)
    as [_ (l3 & Hl3 & Hc3 & Hpl3)].
  set (last5 := [(Rmdir (r_str m), rm); (Umount2 (r_str m) MNT_DETACH, u); (Chroot ".", c);
      (PivotRoot "." (r_str m), p); (Mkdtemp "old-root-XXXXXX", m)]).
  exists (last5 ++ l3), r, (lx ++ lA). split.
  { rewrite Ht, Hl3, Htb, Hlx, HlA. unfold last5. cbn [app]. by rewrite <- !app_assoc. }
  split; [done|]. destruct Hpl3 as [Hpl3|(d & r' & Hin & Hd)].
  2:{ right. exists d, r'. split; [apply elem_of_app; by right | done]. }
  left. rewrite view_after_app. fold start2. unfold last5. cbn [app view_after]. rewrite Hm, Hp, Hch, Hu, Hrm.
  assert (has_prefix "old-root-" (r_str m) = true) as Hpre by (rewrite Em; apply Hlaw; by rewrite <- Em).
  apply has_prefix_spec in Hpre as [t Hpre]. rewrite Hpre. by apply (changed_root_place root).
Qed.

(** *** The calls after the file system *)

Lemma governor_update_other t a mounts p :
  at_or_below t p = false -> governor (update_first t a mounts) p = governor mounts p.
Proof.
  intros Ht. unfold governor. induction mounts as [|e mounts IH]; [done|]. cbn [update_first find].
  destruct (streq e.1 t) eqn:E; cbn [find fst].
  - apply streq_true in E. by rewrite E, Ht.
  - by rewrite IH.
Qed.

Lemma governor_drop_other t mounts p : at_or_below t p = false -> governor (drop_first t mounts) p = governor mounts p.
Proof.
  intros Ht. unfold governor. induction mounts as [|e mounts IH]; [done|]. cbn [drop_first find].
  destruct (streq e.1 t) eqn:E; cbn [find].
  - apply streq_true in E. by rewrite E, Ht.
  - by rewrite IH.
Qed.

Lemma late_call_governor c v p :
  late_call c -> at_or_below MINISBX_TMP_INIT p = false -> governor (v_mounts (effect c v)) p = governor (v_mounts v) p.
Proof.
  intros [c' Hc|q| | |] Hp; [by rewrite Hc | done | | |].
  - change (governor ([(MINISBX_TMP_INIT, access_at (v_mounts v) MINISBX_TMP_INIT)] ++ v_mounts v) p = governor (v_mounts v) p).
    apply governor_app. by repeat constructor.
  - by apply governor_update_other.
  - by apply governor_drop_other.
Qed.

Lemma view_after_late_governor v l p :
  Forall (fun e => late_call e.1) l -> at_or_below MINISBX_TMP_INIT p = false ->
  governor (v_mounts (view_after v l)) p = governor (v_mounts v) p.
Proof.
  intros Hl Hp. induction Hl as [|[c r] l Hc _ IH]; [done|]. cbn [view_after]. destruct (failed r); [done|].
  by rewrite late_call_governor.
Qed.

Lemma bound_above_app root wd l l' : bound_above root wd l -> bound_above root wd (l' ++ l).
Proof. intros (d & r & Hin & H). exists d, r. split; [apply elem_of_app; by right | done]. Qed.

Lemma requested_running o r w : requested (o <| is_running := r |>) w -> requested o w.
Proof. done. Qed.


End Whole.

(** ** Witness *)

