(* ===== verification/Experimental.v ===== *)
(** * The build for old file system libraries (_EXPERIMENTAL_FILESYSTEM_ in
      linux-sandbox-pid1.cc)

    Compilers without [fs::relative] use [make_relative].  The file gives the
    function and the two functions built on it, and shows that they agree with
    the standard ones on a working directory inside the mount point. *)

From S2P Require Import Prelude Monad CxxString FsPath Firewall Kernel SimKernel State Fs Errors ProcessTools OptionsApi Mounts.
From Stdlib Require Import Ascii.
Open Scope sbx_scope.
Open Scope Z_scope.

Section Experimental.
Context `{B : Build} `{N : Bound} `{K : Kernel}.

Definition make_relative (target base : string) : prog proc string :=
  target_abs ← fs_canonical target;
  base_abs ← fs_canonical base;
  let '(target_it, base_it) := mismatch4 (path_elems target_abs) (path_elems base_abs) in
  match base_it with
  | _ :: _ => mret ""
  | [] =>
      let result := foldl path_append "" target_it in
      mret (if path_eq result "." then "" else result)
  end.

Definition TopLevelRelativeFolder_experimental (mount_point workdir : string) : prog proc string :=
  catch_std
    (rel ← make_relative workdir mount_point;
     match path_elems rel with
     | [] => mret ""
     | first :: _ =>
         if path_eq (filename rel) "." then mret ""
         else fs_absolute (path_append mount_point first)
     end)
    (mret "").

Fixpoint overlay_levels_experimental (fuel : nat) (current working_dir : string) : prog proc unit :=
  match fuel with
  | O => stop_with OutOfFuel
  | S n =>
      if path_eq current working_dir then mret tt
      else
        rel ← catch_fs (make_relative working_dir current) (mret "");
        match path_elems rel with
        | [] => mret tt
        | first :: _ =>
            if path_eq (filename rel) "." then mret tt
            else
              _ ← MiniSbxMountOverlay current;
              overlay_levels_experimental n (path_append current first) working_dir
        end
  end.

Definition MountOverlaySubfolders_experimental (top_level_dir workdir : string) : prog proc Z :=
  paths ← catch_fs
    (top_level ← fs_canonical top_level_dir;
     working_dir ← fs_canonical workdir;
     mret (Some (top_level, working_dir)))
    (mret None);
  match paths with
  | None => mret 0
  | Some (top_level, working_dir) =>
      if negb (has_prefix top_level working_dir) then mret 1
      else _ ← overlay_levels_experimental loop_bound top_level working_dir; mret 0
  end.

End Experimental.

(** ** Paths and their names *)

(** A name of a directory entry. *)
Definition is_name (n : string) : Prop := n <> "" /\ n <> "." /\ forallb not_slash (chars n) = true.

(** The text ends, and not in a slash. *)
Definition ends_in_name (p : string) : Prop := exists l c, chars p = l ++ [c] /\ is_slash c = false.

Lemma name_ends n : is_name n -> ends_in_name n.
Proof.
  intros (Hn & _ & Hs). destruct (chars n) as [|c l _] eqn:E using rev_ind; [by destruct n|].
  exists l, c. split; [exact E|]. rewrite forallb_app, andb_true_iff in Hs. destruct Hs as [_ Hs].
  cbn in Hs. unfold not_slash in Hs. by destruct (is_slash c).
Qed.

Lemma ends_app p n : ends_in_name n -> ends_in_name (p +:+ n).
Proof. intros (l & c & H & Hc). exists (chars p ++ l), c. by rewrite chars_app, H, (assoc_L (++)). Qed.

Lemma back_char_last p l c : chars p = l ++ [c] -> back_char p = c.
Proof.
  revert l. induction p as [|d p IH]; intros l H; [by destruct l|].
  destruct p as [|e p]; [by destruct l as [|? [|]]; injection H|].
  destruct l as [|x l]; [done|]. injection H as _ H. by apply (IH l).
Qed.

Lemma ends_not_slash p : ends_in_name p -> p <> "" /\ ends_in_slash p = false.
Proof.
  intros (l & c & H & Hc). split; [by intros ->; destruct l|]. unfold ends_in_slash. by rewrite (back_char_last p l c H).
Qed.

Lemma filename_ends p : ends_in_name p -> empty (filename p) = false.
Proof.
  intros (l & c & H & Hc). unfold filename. rewrite H, rev_app_distr. cbn [rev app skip_while].
  unfold not_slash. rewrite Hc. cbn [negb].
  pose proof (length_dropped (fun c => negb (is_slash c)) (rev l)) as Hl. rewrite length_rev in Hl.
  destruct (drop _ (l ++ [c])) as [|x r] eqn:E; [|done].
  apply (f_equal length) in E. rewrite length_drop, length_app in E. cbn in E. unfold not_slash in *. lia.
Qed.

Lemma name_relative n : is_name n -> is_absolute n = false.
Proof.
  intros (Hn & _ & Hs). destruct n as [|c n]; [done|]. cbn in Hs. unfold is_absolute. cbn.
  unfold not_slash, is_slash in Hs. by destruct (Ascii.eqb c slash).
Qed.

(** One name more is one element more. *)
Lemma elems_append p n : ends_in_name p -> is_name n -> path_elems (path_append p n) = path_elems p ++ [n].
Proof.
  intros Hp Hn. unfold path_append. rewrite name_relative, filename_ends by done.
  destruct (ends_not_slash p Hp) as [Hne Hs]. pose proof (last_split_slash p Hne Hs) as Hl.
  change ("/" +:+ n) with (String slash n). unfold path_elems.
  assert (empty p = false) as -> by (by destruct p).
  assert (empty (p +:+ String slash n) = false) as -> by (by destruct p).
  assert (is_absolute (p +:+ String slash n) = is_absolute p) as -> by (by destruct p).
  destruct Hn as (Hn & _ & Hns). rewrite split_slash_app, (split_slash_plain n Hns).
  assert (relative_elems (split_slash p ++ [n]) = relative_elems (split_slash p) ++ [n]) as ->; [|by destruct (is_absolute p)].
  unfold relative_elems. rewrite filter_app, last_snoc. rewrite decide_False by (by intros [= ->]).
  rewrite decide_False by done. rewrite filter_cons_True, filter_nil by done.
  destruct (filter _ (split_slash p)) as [|x l]; cbn; by rewrite ?app_nil_r.
Qed.

Lemma append_ends p n : is_name n -> ends_in_name (path_append p n).
Proof.
  intros Hn. unfold path_append. rewrite name_relative by done.
  destruct (empty (filename p)); [by apply ends_app, name_ends | by apply ends_app, ends_app, name_ends].
Qed.

Lemma elems_appends p ns :
  ends_in_name p -> Forall is_name ns -> path_elems (foldl path_append p ns) = path_elems p ++ ns.
Proof.
  intros Hp Hns. revert p Hp. induction Hns as [|n ns Hn _ IH]; intros p Hp; cbn [foldl]; [by rewrite app_nil_r|].
  rewrite IH by (by apply append_ends). rewrite elems_append by done. by rewrite <- (assoc_L (++)).
Qed.

Lemma elems_name n : is_name n -> path_elems n = [n].
Proof.
  intros Hn. pose proof (name_relative n Hn) as Ha. destruct Hn as (Hne & _ & Hs). unfold path_elems.
  assert (empty n = false) as -> by (by destruct n).
  rewrite Ha, (split_slash_plain n Hs). unfold relative_elems.
  rewrite filter_cons_True, filter_nil by done. cbn. by rewrite decide_False by (by intros [= ->]).
Qed.

Lemma elems_relative n ns : is_name n -> Forall is_name ns -> path_elems (foldl path_append "" (n :: ns)) = n :: ns.
Proof.
  intros Hn Hns. cbn [foldl]. assert (path_append "" n = n) as ->.
  { unfold path_append. by rewrite name_relative. }
  rewrite elems_appends by (try done; by apply name_ends). by rewrite elems_name.
Qed.

(** The absolute path with these names. *)
Definition abs_path (ns : list string) : string := foldl path_append "/" ns.

Lemma elems_abs ns : Forall is_name ns -> path_elems (abs_path ns) = "/" :: ns.
Proof.
  intros Hns. unfold abs_path. destruct Hns as [|n ns Hn Hns]; [done|]. cbn [foldl].
  rewrite elems_appends by (try done; by apply append_ends).
  enough (path_elems (path_append "/" n) = ["/"; n]) as -> by done.
  unfold path_append. rewrite name_relative by done. change (empty (filename "/")) with true. cbn iota.
  destruct Hn as (Hn & _ & Hs). change ("/" +:+ n) with (String slash n). unfold path_elems.
  change (split_slash (String slash n)) with ("" :: split_slash n). rewrite (split_slash_plain n Hs). cbn [empty].
  change (is_absolute (String slash n)) with true. cbn iota. f_equal. unfold relative_elems.
  rewrite filter_cons_False, filter_cons_True, filter_nil by (try done; by intros []). cbn.
  by rewrite decide_False by (by intros [= ->]).
Qed.

Lemma abs_path_snoc ns n : abs_path (ns ++ [n]) = path_append (abs_path ns) n.
Proof. unfold abs_path. by rewrite foldl_app. Qed.

Lemma abs_path_absolute ns : is_absolute (abs_path ns) = true.
Proof.
  unfold abs_path. assert (is_absolute "/" = true) as H by done. revert H. generalize "/" as p.
  induction ns as [|n ns IH]; intros p Hp; [done|]. apply IH. unfold path_append.
  destruct (is_absolute n) eqn:E; [done|]. destruct (empty (filename p)); by destruct p.
Qed.

(** ** The two builds agree *)

(** The first names are the same, and no more of the second path is left. *)
Lemma mismatch4_prefix a b : mismatch4 (a ++ b) a = (b, []).
Proof. induction a as [|x a IH]; cbn [app mismatch4]; [by destruct b|]. by rewrite streq_refl. Qed.

(** The relative path of names below a directory; the standard library writes
    "." for the directory itself. *)
Definition relative_text (rest : list string) : string := foldl path_append "" rest.

Lemma relative_text_names n ns : is_name n -> Forall is_name ns ->
  relative_text (n :: ns) <> "" /\ path_eq (relative_text (n :: ns)) "." = false.
Proof.
  intros Hn Hns. pose proof (elems_relative n ns Hn Hns) as He. unfold relative_text. split; [by intros H; rewrite H in He|].
  unfold path_eq. rewrite He. apply bool_decide_eq_false. change (path_elems ".") with ["."].
  intros [= -> _]. by destruct Hn as (_ & Hn & _).
Qed.

Section Agree.
Context `{B : Build} `{N : Bound} `{K : Kernel}.

(** A path that is there and is its own canonical form. *)
Definition resolved (k : kstate) (p : string) : Prop := (exists t, kstat k p = inr t) /\ krealpath k p = inr p.

Lemma canonical_resolved p s : resolved (kern s) p -> fs_canonical p s = (Ok p, s).
Proof. intros [_ H]. unfold fs_canonical, query, gets, mbind, prog_bind. by rewrite H. Qed.

Lemma weakly_canonical_resolved p s : resolved (kern s) p -> fs_weakly_canonical p s = (Ok p, s).
Proof.
  intros Hp. unfold fs_weakly_canonical.
  assert (fs_exists p s = (Ok true, s)) as E.
  { unfold fs_exists. rewrite test_status_eq. destruct Hp as [[t ->] _]. done. }
  rewrite (bind_ok _ _ _ _ _ E). by apply canonical_resolved.
Qed.

(** The two functions on a path and a directory above it. *)
Lemma relatives cs rest s :
  Forall is_name (cs ++ rest) -> resolved (kern s) (abs_path cs) -> resolved (kern s) (abs_path (cs ++ rest)) ->
  make_relative (abs_path (cs ++ rest)) (abs_path cs) s = (Ok (relative_text rest), s) /\
  fs_relative (abs_path (cs ++ rest)) (abs_path cs) s =
    (Ok (match rest with [] => "." | _ :: _ => relative_text rest end), s).
Proof.
  intros Hn Hc Hw. pose proof Hn as [Hcs Hrest]%Forall_app. split.
  - unfold make_relative. rewrite (bind_ok _ _ _ _ _ (canonical_resolved _ s Hw)).
    rewrite (bind_ok _ _ _ _ _ (canonical_resolved _ s Hc)). rewrite !elems_abs by done.
    rewrite app_comm_cons, mismatch4_prefix. cbv zeta. fold (relative_text rest).
    destruct Hrest as [|n ns Hn1 Hns]; [done|]. destruct (relative_text_names n ns Hn1 Hns) as [_ ->]. done.
  - unfold fs_relative. rewrite (bind_ok _ _ _ _ _ (weakly_canonical_resolved _ s Hw)).
    rewrite (bind_ok _ _ _ _ _ (weakly_canonical_resolved _ s Hc)). unfold lexically_relative.
    rewrite !abs_path_absolute, !elems_abs by done. rewrite app_comm_cons, mismatch4_prefix. cbn [negb Bool.eqb].
    destruct Hrest as [|n ns (Hn1 & _) Hns]; [done|]. cbn [levels foldr Z.eqb Z.ltb andb].
    assert (empty n = false) as -> by (by destruct n). done.
Qed.

Lemma TopLevel_agree cs rest s :
  Forall is_name (cs ++ rest) -> resolved (kern s) (abs_path cs) -> resolved (kern s) (abs_path (cs ++ rest)) ->
  TopLevelRelativeFolder_experimental (abs_path cs) (abs_path (cs ++ rest)) s =
  TopLevelRelativeFolder (abs_path cs) (abs_path (cs ++ rest)) s.
Proof.
  intros Hn Hc Hw. destruct (relatives cs rest s Hn Hc Hw) as [E1 E2].
  unfold TopLevelRelativeFolder_experimental, TopLevelRelativeFolder, catch_std, try_catch.
  rewrite (bind_ok _ _ _ _ _ E1), (bind_ok _ _ _ _ _ E2). by destruct rest.
Qed.

(** The loop, when every directory on the way is resolved. *)
Lemma levels_agree fuel cs rest s :
  Forall is_name (cs ++ rest) ->
  (forall k ds es, cs ++ rest = ds ++ es -> resolved k (abs_path ds)) ->
  overlay_levels_experimental fuel (abs_path cs) (abs_path (cs ++ rest)) s =
  overlay_levels fuel (abs_path cs) (abs_path (cs ++ rest)) s.
Proof.
  revert cs rest s. induction fuel as [|fuel IH]; intros cs rest s Hn Hr; [done|].
  cbn [overlay_levels_experimental overlay_levels].
  destruct (path_eq (abs_path cs) (abs_path (cs ++ rest))) eqn:E; [done|].
  destruct rest as [|n rest].
  { rewrite app_nil_r in E. unfold path_eq in E. by rewrite bool_decide_true in E. }
  destruct (relatives cs (n :: rest) s Hn (Hr _ _ _ eq_refl) (Hr _ _ [] (eq_sym (app_nil_r _)))) as [E1 E2].
  rewrite (bind_ok (catch_fs (make_relative _ _) _) _ s (relative_text (n :: rest)) s) by (unfold catch_fs, try_catch; by rewrite E1).
  rewrite (bind_ok (catch_fs (fs_relative _ _) _) _ s (relative_text (n :: rest)) s) by (unfold catch_fs, try_catch; by rewrite E2).
  pose proof Hn as [_ [Hn1 Hns]%Forall_cons]%Forall_app. unfold relative_text at 1 3. rewrite !elems_relative by done.
  destruct (path_eq (filename _) "."); [done|].
  unfold mbind, prog_bind. destruct (MiniSbxMountOverlay (abs_path cs) s) as [[z|w] s1]; [|done].
  rewrite <- abs_path_snoc. change (n :: rest) with ([n] ++ rest) in *. rewrite (assoc_L (++)) in *. by apply IH.
Qed.

Lemma subfolders_agree cs rest top wd s :
  Forall is_name (cs ++ rest) ->
  (forall k ds es, cs ++ rest = ds ++ es -> resolved k (abs_path ds)) ->
  krealpath (kern s) top = inr (abs_path cs) -> krealpath (kern s) wd = inr (abs_path (cs ++ rest)) ->
  MountOverlaySubfolders_experimental top wd s = MountOverlaySubfolders top wd s.
Proof.
  intros Hn Hr Ht Hw. unfold MountOverlaySubfolders_experimental, MountOverlaySubfolders.
  set (paths := catch_fs _ _). assert (paths s = (Ok (Some (abs_path cs, abs_path (cs ++ rest))), s)) as E.
  { unfold paths, catch_fs, try_catch, fs_canonical, query, gets, mbind, prog_bind, mret, prog_ret. by rewrite Ht, Hw. }
  rewrite !(bind_ok _ _ _ _ _ E). destruct (negb _); [done|].
  unfold mbind, prog_bind. by rewrite levels_agree.
Qed.

End Agree.

(** ** Property *)

Section Property.
Context `{B : Build} `{N : Bound} `{K : Kernel}.

(** The two builds mount the same overlays: when the working directory is in
    the directory it is compared with, and the directories on the way are
    resolved paths, the functions built on make_relative return what those built
    on fs::relative return, leave the same state, and so ask for the same
    overlays, although the two functions differ on the directory itself ("" and
    "."). *)
Theorem experimental_build_agrees cs rest top wd s :
  Forall is_name (cs ++ rest) ->
  (forall k ds es, cs ++ rest = ds ++ es -> resolved k (abs_path ds)) ->
  krealpath (kern s) top = inr (abs_path cs) -> krealpath (kern s) wd = inr (abs_path (cs ++ rest)) ->
  TopLevelRelativeFolder_experimental (abs_path cs) (abs_path (cs ++ rest)) s =
    TopLevelRelativeFolder (abs_path cs) (abs_path (cs ++ rest)) s /\
  MountOverlaySubfolders_experimental top wd s = MountOverlaySubfolders top wd s.
Proof.
  intros Hn Hr Ht Hw. split; [|by apply (subfolders_agree cs rest)].
  apply TopLevel_agree; [done | by eapply Hr | eapply (Hr _ _ []); by rewrite app_nil_r].
Qed.

End Property.

Lemma experimental_build_agrees_witness :
  TopLevelRelativeFolder_experimental (K := CalmKernel) "/home" "/home/u/w" calm_proc =
    TopLevelRelativeFolder (K := CalmKernel) "/home" "/home/u/w" calm_proc /\
  MountOverlaySubfolders_experimental (B := cli_build) (N := some_bound) (K := CalmKernel) "/home" "/home/u/w" calm_proc =
    MountOverlaySubfolders (B := cli_build) (N := some_bound) (K := CalmKernel) "/home" "/home/u/w" calm_proc.
Proof.
  apply (experimental_build_agrees (B := cli_build) (N := some_bound) (K := CalmKernel) ["home"] ["u"; "w"]).
  - repeat constructor; done.
  - intros k ds es _. split; [by eexists | reflexivity].
  - reflexivity.
  - reflexivity.
Defined.
