(* ===== verification/Lifecycle.v ===== *)
(** * The life of a program that uses the library

    An application configures the sandbox, starts it, and may go on calling the
    library.  The states it goes through are those of a small abstract machine
    on [is_running]; the file states the machine, and that every sequence of
    calls of the library refines it. *)

From S2P Require Import Prelude Monad CxxString FsPath Firewall Kernel SimKernel State Fs Errors ProcessTools OptionsApi Rules Api Mounts Pid1 Docker Minitap Start.
Open Scope sbx_scope.
Open Scope Z_scope.

(** ** The abstract machine *)

(** What the application sees of a call: what it asked for and the result. *)
Inductive client_event :=
| Configured (c : api_call) (z : Z)
| Started (z : Z).

Inductive life_step : MiniSbxStatus -> client_event -> MiniSbxStatus -> Prop :=
| life_configure c z : life_step NOT_RUNNING (Configured c z) NOT_RUNNING
| life_share st : life_step st (Configured CallShareNetwork 0) st
| life_frozen c st : st <> NOT_RUNNING -> life_step st (Configured c (-1)) st
| life_again st : st <> NOT_RUNNING -> life_step st (Started (-1)) st
| life_refused z : z < 0 -> life_step NOT_RUNNING (Started z) NOT_RUNNING
| life_restricted : life_step NOT_RUNNING (Started 0) NOT_RUNNING   (* in an unprivileged container *)
| life_failed : life_step NOT_RUNNING (Started (-1)) FAILED
| life_up : life_step NOT_RUNNING (Started 0) RUNNING.

Inductive life_run : MiniSbxStatus -> list client_event -> MiniSbxStatus -> Prop :=
| life_nil st : life_run st [] st
| life_cons st e st1 es st2 : life_step st e st1 -> life_run st1 es st2 -> life_run st (e :: es) st2.

#[export] Instance api_call_eq_dec : EqDecision api_call.
Proof. solve_decision. Defined.

(** ** The application *)

Inductive client_op :=
| Configure (c : api_call)
| StartSandbox.

Section Lifecycle.
Context `{B : Build} `{N : Bound} `{K : Kernel}.

Definition client_step (op : client_op) : prog proc client_event :=
  match op with
  | Configure c => z ← run_call c; mret (Configured c z)
  | StartSandbox => z ← MiniSbxStart; mret (Started z)
  end.

Fixpoint run_client (ops : list client_op) : prog proc (list client_event) :=
  match ops with
  | [] => mret []
  | op :: ops' => e ← client_step op; es ← run_client ops'; mret (e :: es)
  end.

(** What is known of a process that is marked as running: the calls that
    confine it were made, successfully and in this order, for its options. *)
Definition confined_as_marked (s : proc) : Prop :=
  is_running (opt s) = RUNNING ->
  exists data root fu fg iu ou ig og,
    did (Capset (masked_caps 0 data) :: confinement (working_dir (opt s)) root fu fg iu ou ig og) (trace s) /\
    (changes_root (opt s) = true -> exists old, root = root_change old).

(** *** What keeps the mark *)

Definition keeps_mark (s s' : proc) : Prop := is_running (opt s') = is_running (opt s).

#[local] Instance keeps_mark_preorder : PreOrder keeps_mark.
Proof. split; [by intros s | intros a b c H1 H2; unfold keeps_mark in *; congruence]. Qed.

Lemma keeps_mark_sys c : respects keeps_mark (sys c).
Proof. intros s. unfold keeps_mark. by rewrite (same_opt_sys c s). Qed.

Lemma keeps_mark_report f l m c : respects keeps_mark (MiniSbxReportErrorAndMessage f l m c).
Proof. intros s. unfold keeps_mark. by rewrite (same_opt_report f l m c s). Qed.

Ltac mark_leaf :=
  lazymatch goal with
  | |- respects _ (sys _) => apply keeps_mark_sys
  | |- respects _ (MiniSbxReportErrorAndMessage _ _ _ _) => apply keeps_mark_report
  | |- respects _ (MiniSbxReportError _ _ _) => apply keeps_mark_report
  | |- respects _ (MiniSbxReportGenericError _ _ _) => apply keeps_mark_report
  | |- respects _ DIE => apply respects_DIE; exact _
  | |- respects _ (modify _) => intros ?; reflexivity
  | |- respects _ (mod_opt _) => intros ?; reflexivity
  | |- respects _ (query _) => apply respects_query; exact _
  | |- respects _ (get_opt _) => apply respects_get_opt; exact _
  | |- respects _ (getenv _) => apply respects_getenv; exact _
  | |- respects _ (fs_exists _) => apply respects_fs_exists; exact _
  | |- respects _ (fs_create_directories _) => apply respects_fs_create_directories; [exact _ | intros; apply keeps_mark_sys]
  end.
Ltac mark := repeat first [mark_leaf | respects_step].

Lemma keeps_mark_StartLogging : respects keeps_mark StartLogging.
Proof. unfold StartLogging. mark. Qed.

Lemma keeps_mark_UserNamespace : respects keeps_mark UserNamespaceSupported.
Proof. unfold UserNamespaceSupported, HasUserNamespaceSupport, CanCreateUserNamespace, waitpid_retry. mark. Qed.

Lemma keeps_mark_CheckDockerMode : respects keeps_mark CheckDockerMode.
Proof.
  unfold CheckDockerMode, isRunningInDocker, isDockerEnvPresent, isRootInOverlay.
  repeat first [lazymatch goal with |- respects _ UserNamespaceSupported => apply keeps_mark_UserNamespace end | mark_leaf | respects_step].
Qed.

Lemma keeps_mark_call c : respects keeps_mark (run_call c).
Proof.
  intros s. pose proof (grown_cli _ _ (grows_call c s)) as H. unfold cli_options in H. unfold keeps_mark.
  by injection H as _ _ _ _ _ _ _ _ -> _.
Qed.

Lemma keeps_mark_CreateInit : respects keeps_mark MiniSbxCreateInit.
Proof. unfold MiniSbxCreateInit, CreateDirectories. mark. Qed.

Lemma keeps_mark_drop keep : respects keeps_mark (drop_caps_ep_except keep).
Proof. unfold drop_caps_ep_except. mark. Qed.

Lemma keeps_mark_working_dir : respects keeps_mark default_working_dir.
Proof. unfold default_working_dir. mark. Qed.

Lemma keeps_mark_ValidateOptions : respects keeps_mark ValidateOptions.
Proof.
  intros s. pose proof (ValidateOptions_eq s) as H. unfold final. destruct (options_problem _ _ _) as [c|].
  - destruct H as [line ->]. apply keeps_mark_report.
  - by rewrite H.
Qed.

Lemma keeps_mark_Cleanup : respects keeps_mark Cleanup.
Proof. apply respects_Cleanup; [exact _ | intros; apply keeps_mark_sys ..]. Qed.

Lemma keeps_mark_RunTCPIP uid gid rules : respects keeps_mark (RunTCPIP uid gid rules).
Proof.
  unfold RunTCPIP, network_process, RunMinitap, JoinNetNs, leave_as, wait_for_signal, handler, WriteFile, MiniSbxReadInit,
    GetMinitapBinDir, GetSharedObjectPath, ResolveSymlink, LocateBinaryFromParent, set_MinitapBin.
  repeat first
  [ lazymatch goal with
    | |- respects _ Cleanup => apply keeps_mark_Cleanup
    | |- respects _ (fs_is_symlink_ec _) => apply respects_fs_is_symlink_ec; exact _
    end
  | mark_leaf | respects_step ].
Qed.

Lemma keeps_mark_start_network uid gid : respects keeps_mark (start_network uid gid).
Proof.
  unfold start_network, CreateRandomFilename, random_id, DumpRules. destruct MINITAP; [|by mark].
  repeat first
  [ lazymatch goal with |- respects _ (RunTCPIP _ _ _) => apply keeps_mark_RunTCPIP end | mark_leaf | respects_step ].
Qed.

(** The mark after a part that returned. *)
Lemma mark_after {A} (m : prog proc A) s a s1 : respects keeps_mark m -> m s = (Ok a, s1) -> is_running (opt s1) = is_running (opt s).
Proof. intros Hm E. specialize (Hm s). unfold keeps_mark, final in Hm. by rewrite E in Hm. Qed.

(** *** The outcomes of a start *)

Definition start_outcome (s : proc) (z : Z) (s' : proc) : Prop :=
  is_running (opt s) = NOT_RUNNING -> life_step NOT_RUNNING (Started z) (is_running (opt s')) /\ confined_as_marked s'.

Lemma outcome_after {A} (m : prog proc A) s a s1 z s' :
  respects keeps_mark m -> m s = (Ok a, s1) -> start_outcome s1 z s' -> start_outcome s z s'.
Proof. intros Hm E H Hr. apply H. by rewrite (mark_after m s a s1 Hm E). Qed.

(** A start that is given up. *)
Lemma outcome_refused s z s' : z < 0 -> is_running (opt s') = is_running (opt s) -> start_outcome s z s'.
Proof. intros Hz Hs Hr. rewrite Hs, Hr. split; [by apply life_refused|]. intros H. congruence. Qed.

Lemma inside_marked s s' : inside_sandbox s s' -> confined_as_marked s'.
Proof.
  intros (_ & data & root & fu & fg & iu & ou & ig & og & [(l & Hl & Hd) Ho] & Hc) _.
  exists data, root, fu, fg, iu, ou, ig, og. rewrite (changes_root_fixed _ _ Ho).
  injection Ho as -> _ _ _ _ _ _. split; [|exact Hc]. rewrite Hl, <- (app_nil_r (_ :: _)). apply did_app; [exact Hd | apply did_nil].
Qed.

Section Library.
Context (Hlib : LIBMINISANDBOX = true).
Context (Hroot : forall k : kstate, exists l, kreaddir k ROOT = inr l).

(** Step over a part that keeps the mark. *)
Ltac over H := eapply outcome_after; [| exact H |]; clear H.

Lemma outcome_launch s z s' : launch s = (Ok z, s') -> start_outcome s z s'.
Proof.
  intros H. unfold launch in H. rewrite Hlib in H. cbn [negb when] in H.
  apply bind_inv_ok in H as (? & s1 & H1 & H). over H1; [mark|].
  apply bind_inv_ok in H as (uid & s2 & H2 & H). over H2; [mark|].
  apply bind_inv_ok in H as (gid & s3 & H3 & H). over H3; [mark|].
  apply bind_inv_ok in H as (? & s4 & H4 & H). over H4; [mark|].
  apply bind_inv_ok in H as (res & s5 & H5 & H). over H5; [apply keeps_mark_start_network|].
  destruct (Z.ltb_spec res 0); [injection H as <- <-; by apply outcome_refused|].
  destruct (start_library_run _ _ _ Hlib (fun _ => Hroot) H) as [[-> Hf]|[-> Hin]]; intros Hr.
  - rewrite Hf. split; [apply life_failed|]. intros Hn. congruence.
  - rewrite (proj1 Hin). split; [apply life_up | by eapply inside_marked].
Qed.

Lemma outcome_checked s z s' : start_checked s = (Ok z, s') -> start_outcome s z s'.
Proof.
  intros H. unfold start_checked in H.
  apply bind_inv_ok in H as (mode & s1 & H1 & H). over H1; [mark|].
  apply bind_inv_ok in H as (b & s2 & H2 & H). over H2; [case_decide; [apply (keeps_mark_call (CallMountBind ETC)) | mark]|].
  apply bind_inv_ok in H as (v & s3 & H3 & H). over H3; [apply keeps_mark_ValidateOptions|].
  destruct (Z.ltb_spec v 0); [injection H as <- <-; by apply outcome_refused|].
  apply bind_inv_ok in H as (i & s4 & H4 & H). over H4; [apply keeps_mark_CreateInit|].
  destruct (Z.ltb_spec i 0); [injection H as <- <-; by apply outcome_refused|]. by apply outcome_launch.
Qed.

Lemma outcome_sandbox s z s' : start_sandbox s = (Ok z, s') -> start_outcome s z s'.
Proof.
  intros H. unfold start_sandbox in H. rewrite Hlib in H. cbn [andb] in H.
  rewrite (bind_ok _ _ _ _ _ (InternalEnv_eq s)) in H. destruct (environ s !! INTERNAL_MINI_SANDBOX_ENV).
  { cbn [Z.eqb] in H. unfold MiniSbxReportError in H. pose proof (mark_after _ _ _ _ (keeps_mark_report _ _ _ _) H).
    apply report_negative in H. by apply outcome_refused. }
  cbn [Z.eqb when] in H. apply bind_inv_ok in H as (? & s1 & H1 & H). injection H1 as _ <-.
  apply bind_inv_ok in H as (mode & s2 & H2 & H). over H2; [mark|]. case_decide; [|by apply outcome_checked].
  apply bind_inv_ok in H as (? & s3 & H3 & H). over H3; [apply keeps_mark_drop|]. injection H as <- <-.
  intros Hr. rewrite Hr. split; [apply life_restricted|]. intros Hn. congruence.
Qed.

Lemma outcome_start s z s' : MiniSbxStart s = (Ok z, s') -> start_outcome s z s'.
Proof.
  intros H Hr. revert Hr. change (start_outcome s z s'). unfold MiniSbxStart in H. rewrite Hlib in H. cbn [when] in H.
  apply bind_inv_ok in H as (running & s1 & H1 & H). injection H1 as <- <-.
  destruct (negb _) eqn:E.
  { intros Hr. by rewrite bool_decide_true in E. }
  apply bind_inv_ok in H as (res & s2 & H2 & H). over H2; [apply keeps_mark_StartLogging|].
  destruct (Z.ltb_spec res 0); [injection H as <- <-; by apply outcome_refused|].
  apply bind_inv_ok in H as (log & s3 & H3 & H). over H3; [mark|].
  apply bind_inv_ok in H as (? & s4 & H4 & H). over H4; [destruct log; [apply keeps_mark_UserNamespace | mark]|].
  apply bind_inv_ok in H as (? & s5 & H5 & H). over H5; [apply respects_bind; [exact _ | apply keeps_mark_CheckDockerMode | intros; mark]|].
  apply bind_inv_ok in H as (r & s6 & H6 & H). over H6; [mark|].
  apply bind_inv_ok in H as (? & s7 & H7 & H). over H7; [mark|].
  apply bind_inv_ok in H as (has_dir & s8 & H8 & H). over H8; [apply keeps_mark_working_dir|].
  destruct has_dir; [by apply outcome_sandbox | injection H as <- <-; by apply outcome_refused].
Qed.

(** Started again, nothing but the last error changes. *)
Lemma start_again s z s' :
  is_running (opt s) <> NOT_RUNNING -> MiniSbxStart s = (Ok z, s') -> z = -1 /\ only_error s s'.
Proof.
  intros Hr H. unfold MiniSbxStart in H. apply bind_inv_ok in H as (running & s1 & H1 & H). injection H1 as <- <-.
  rewrite bool_decide_false in H by done. cbn [negb] in H. apply bind_inv_ok in H as (e & s2 & H2 & H). injection H as <- <-.
  split; [done|]. unfold MiniSbxReportError in H2. rewrite report_returns in H2 by (by rewrite Hlib).
  injection H2 as _ <-. by eexists.
Qed.

(** *** The simulation *)

Lemma marked_error s s' : only_error s s' -> confined_as_marked s -> confined_as_marked s'.
Proof. by intros (e & ->). Qed.

Lemma call_simulated c s z s' :
  confined_as_marked s -> run_call c s = (Ok z, s') ->
  life_step (is_running (opt s)) (Configured c z) (is_running (opt s')) /\ confined_as_marked s'.
Proof.
  intros Hc H. pose proof (mark_after _ _ _ _ (keeps_mark_call c) H) as Hm. rewrite Hm.
  destruct (decide (is_running (opt s) = NOT_RUNNING)) as [Hn|Hn].
  { split; [rewrite Hn; constructor | intros Hr; congruence]. }
  destruct (decide (c = CallShareNetwork)) as [->|Hs].
  - injection H as <- <-. split; [constructor | exact Hc].
  - destruct (frozen_call c s Hs Hn) as (e & E & _). rewrite E in H. injection H as <- <-.
    split; [by constructor | by apply (marked_error s); [eexists|]].
Qed.

Lemma step_simulated op s e s' :
  confined_as_marked s -> client_step op s = (Ok e, s') ->
  life_step (is_running (opt s)) e (is_running (opt s')) /\ confined_as_marked s'.
Proof.
  intros Hc H. destruct op as [c|]; cbn [client_step] in H; apply bind_inv_ok in H as (z & s1 & H1 & H); injection H as <- <-.
  - by apply call_simulated.
  - destruct (decide (is_running (opt s) = NOT_RUNNING)) as [Hn|Hn].
    + rewrite Hn. by apply (outcome_start s).
    + destruct (start_again s z s1 Hn H1) as [-> He]. split; [|by eapply marked_error].
      rewrite (only_error_same_opt _ _ He). by constructor.
Qed.

Lemma client_simulated ops s evs s' :
  confined_as_marked s -> run_client ops s = (Ok evs, s') ->
  life_run (is_running (opt s)) evs (is_running (opt s')) /\ confined_as_marked s'.
Proof.
  revert s evs. induction ops as [|op ops IH]; intros s evs Hc H; cbn [run_client] in H.
  { injection H as <- <-. by split; [constructor|]. }
  apply bind_inv_ok in H as (e & s1 & H1 & H). apply bind_inv_ok in H as (es & s2 & H2 & H). injection H as <- <-.
  destruct (step_simulated op s e s1 Hc H1) as [Hs Hc1]. destruct (IH s1 es Hc1 H2) as [Hr Hc2].
  split; [by econstructor | done].
Qed.

End Library.
End Lifecycle.

(** The machine is never left once the sandbox is up, and refuses everything but
    the sharing of the network. *)
Lemma up_for_ever es st :
  life_run RUNNING es st ->
  st = RUNNING /\ Forall (fun e => e = Configured CallShareNetwork 0 \/ e = Started (-1) \/ exists c, e = Configured c (-1)) es.
Proof.
  remember RUNNING as st0 eqn:E. induction 1 as [|st e st1 es st2 Hs _ IH]; [done|]. subst st.
  inv Hs; destruct (IH eq_refl) as [-> Hf]; (split; [done|]); constructor; eauto.
Qed.

(** ** Property *)

Section Property.
Context `{B : Build} `{N : Bound} `{K : Kernel}.


End Property.

(** ** Witness *)

Definition lib_env : gmap string string :=
  <["HOME" := "/home/u"]> (<["MINI_SANDBOX_FORCE_USER_NAMESPACE" := "1"]> (<["MINI_SANDBOX_DOCKER_PRIVILEGED" := "1"]> ∅)).
Definition client_ops : list client_op :=
  [Configure (CallSetWorkingDir "/work"); Configure (CallMountWrite "/srv"); StartSandbox;
   Configure (CallMountWrite "/usr"); StartSandbox].
Definition client_end : proc (H := CalmKernel) :=
  final (run_client (B := lib_build) (N := some_bound) (K := CalmKernel) client_ops) (initial_proc (K := CalmKernel) lib_env tt).

