(* ===== verification/Bindings.v ===== *)
(** * The Python bindings (src/mini_sandbox/src/py) and the header of the library (linux-sandbox-api.h)

    Python reaches the library in two ways: the module of pybind_bindings, which
    binds some of its functions, and the module of ctype_bindings, whose functions
    look the library's up when they are called.  A program that uses either is an
    application of the library: it goes through the same life. *)

From S2P Require Import Prelude Monad CxxString FsPath Firewall Kernel SimKernel State Fs Errors ProcessTools OptionsApi Rules Api CommandLine Mounts Pid1 Docker Minitap Start Lifecycle.
From Stdlib Require Import Ascii.
Open Scope sbx_scope.
Open Scope Z_scope.

(** ** The functions of the library by name *)

Definition api_name (c : api_call) : string :=
  match c with
  | CallEnableLog _ => "mini_sandbox_enable_log"
  | CallSetupDefault => "mini_sandbox_setup_default"
  | CallSetupCustom _ _ => "mini_sandbox_setup_custom"
  | CallSetupHermetic _ => "mini_sandbox_setup_hermetic"
  | CallSetWorkingDir _ => "mini_sandbox_set_working_dir"
  | CallMountBind _ => "mini_sandbox_mount_bind"
  | CallMountWrite _ => "mini_sandbox_mount_write"
  | CallMountTmpfs _ => "mini_sandbox_mount_tmpfs"
  | CallMountOverlay _ => "mini_sandbox_mount_overlay"
  | CallMountEmptyOutputFile _ => "mini_sandbox_mount_empty_output_file"
  | CallMountParentsWrite => "mini_sandbox_mount_parents_write"
  | CallShareNetwork => "mini_sandbox_share_network"
  | CallAllowMaxConnections _ => "mini_sandbox_allow_max_connections"
  | CallAllowConnections _ => "mini_sandbox_allow_connections"
  | CallAllowIpv4 _ => "mini_sandbox_allow_ipv4"
  | CallAllowDomain _ => "mini_sandbox_allow_domain"
  | CallAllowAllDomains => "mini_sandbox_allow_all_domains"
  | CallAllowIpv4Subnet _ => "mini_sandbox_allow_ipv4_subnet"
  end.

(** What the header declares, in a build. *)
Definition library_functions `{Build} : list string :=
  ["mini_sandbox_setup_default"; "mini_sandbox_setup_custom"; "mini_sandbox_setup_hermetic"; "mini_sandbox_start";
   "mini_sandbox_mount_bind"; "mini_sandbox_mount_write"; "mini_sandbox_mount_tmpfs"; "mini_sandbox_mount_overlay";
   "mini_sandbox_mount_empty_output_file"; "mini_sandbox_set_working_dir"; "mini_sandbox_mount_parents_write";
   "mini_sandbox_enable_log"; "mini_sandbox_get_last_error_code"; "mini_sandbox_get_last_error_msg";
   "mini_sandbox_is_running"] ++
  (if MINITAP then
     ["mini_sandbox_allow_connections"; "mini_sandbox_allow_max_connections"; "mini_sandbox_allow_ipv4";
      "mini_sandbox_allow_domain"; "mini_sandbox_allow_all_domains"; "mini_sandbox_allow_ipv4_subnet"]
   else ["mini_sandbox_share_network"]).

(** What bindings.cpp defines in its module. *)
Definition bound_functions `{Build} : list string :=
  ["mini_sandbox_start"; "mini_sandbox_setup_default"] ++
  (if MINITAP then [] else ["mini_sandbox_share_network"]) ++
  ["mini_sandbox_mount_bind"; "mini_sandbox_mount_write"; "mini_sandbox_mount_empty_output_file";
   "mini_sandbox_enable_log"; "mini_sandbox_get_last_error_msg"] ++
  (if MINITAP then
     ["mini_sandbox_allow_ipv4"; "mini_sandbox_allow_connections"; "mini_sandbox_allow_domain";
      "mini_sandbox_allow_all_domains"; "mini_sandbox_allow_ipv4_subnet"]
   else []).

(** ** Python *)

(** A text reaches the library as a C string, a number as an int. *)
Definition c_text (s : string) : string := of_chars (until_nul (chars s)).

Definition as_c (c : api_call) : api_call :=
  match c with
  | CallEnableLog p => CallEnableLog (c_text p)
  | CallSetupCustom d r => CallSetupCustom (c_text d) (c_text r)
  | CallSetupHermetic r => CallSetupHermetic (c_text r)
  | CallSetWorkingDir p => CallSetWorkingDir (c_text p)
  | CallMountBind p => CallMountBind (c_text p)
  | CallMountWrite p => CallMountWrite (c_text p)
  | CallMountTmpfs p => CallMountTmpfs (c_text p)
  | CallMountOverlay p => CallMountOverlay (c_text p)
  | CallMountEmptyOutputFile p => CallMountEmptyOutputFile (c_text p)
  | CallAllowMaxConnections n => CallAllowMaxConnections (wrap32 n)
  | CallAllowConnections p => CallAllowConnections (c_text p)
  | CallAllowIpv4 ip => CallAllowIpv4 (c_text ip)
  | CallAllowDomain d => CallAllowDomain (c_text d)
  | CallAllowIpv4Subnet s => CallAllowIpv4Subnet (c_text s)
  | c => c
  end.

(** The functions of internal_mini_sandbox.py that ask for a tap library. *)
Definition tap_only (c : api_call) : bool :=
  match c with
  | CallAllowMaxConnections _ | CallAllowConnections _ | CallAllowIpv4 _ | CallAllowDomain _ | CallAllowAllDomains
  | CallAllowIpv4Subnet _ => true
  | _ => false
  end.

Inductive py_result := PyInt (z : Z) | PyStr (s : string) | PyBool (b : bool) | AttributeError | OSError.

Definition LIB_NOT_LOADED : Z := -1001.
Definition FEATURE_NOT_AVAILABLE : Z := -1002.
Definition INVALID_ARG : Z := -1003.

(** The globals of the module: whether [_lib] is set, [_tap], and the platform. *)
Record py_module := mkModule { lib_loaded : bool; tap_mode : bool; platform_supported : bool }.

(** A call of the module: [num] is the argument of [mini_sandbox_mount_parents_write],
    -1 by default. *)
Inductive py_call :=
| PyConfigure (c : api_call)
| PyMountParentsWrite (num : Z)
| PyStart
| PyIsRunning
| PyErrorCode
| PyErrorMsg.

(** The directory [n] levels above a normal absolute path. *)
Fixpoint levels_up (n : nat) (dir : string) : string :=
  match n with O => dir | S n' => levels_up n' (parent_path dir) end.

Section Python.
Context `{B : Build} `{N : Bound} `{K : Kernel}.

Definition library_call (c : api_call) : prog proc py_result := PyInt <$> run_call (as_c c).

(** Behind the test that the library is loaded. *)
Definition loaded_call (m : py_module) (p : py_call) : prog proc py_result :=
  match p with
  | PyConfigure c =>
      if tap_only c && negb (tap_mode m && exported c) then mret (PyInt FEATURE_NOT_AVAILABLE)
      else if exported c then library_call c
      else mret AttributeError
  | PyMountParentsWrite num =>
      if num =? -1 then library_call CallMountParentsWrite
      else if 0 <? num then
        cwd ← query kcwd;
        match cwd with
        | inl _ => mret OSError
        | inr dir => library_call (CallMountWrite (levels_up (Z.to_nat num) dir))
        end
      else mret (PyInt INVALID_ARG)
  | PyStart => PyInt <$> MiniSbxStart
  | PyIsRunning => PyBool <$> MiniSbxIsRunning
  | PyErrorCode => PyInt <$> MiniSbxGetErrorCode
  | PyErrorMsg => PyStr <$> MiniSbxGetErrorMsg
  end.

Definition ctypes_call (m : py_module) (p : py_call) : prog proc py_result :=
  if negb (lib_loaded m) then mret (PyInt (if platform_supported m then LIB_NOT_LOADED else 0)) else loaded_call m p.

(** A call of the pybind module; what it does not define is an attribute error. *)
Definition pybind_call (p : py_call) : prog proc py_result :=
  let call (name : string) (f : prog proc py_result) := if bool_decide (name ∈ bound_functions) then f else mret AttributeError in
  match p with
  | PyConfigure c => call (api_name c) (library_call c)
  | PyMountParentsWrite _ => mret AttributeError
  | PyStart => call "mini_sandbox_start" (PyInt <$> MiniSbxStart)
  | PyIsRunning => call "mini_sandbox_is_running" (PyBool <$> MiniSbxIsRunning)
  | PyErrorCode => call "mini_sandbox_get_last_error_code" (PyInt <$> MiniSbxGetErrorCode)
  | PyErrorMsg => call "mini_sandbox_get_last_error_msg" (PyStr <$> MiniSbxGetErrorMsg)
  end.

(** The two modules. *)
Inductive py_binding := Pybind | Ctypes (m : py_module).
Definition python_call (b : py_binding) (p : py_call) : prog proc py_result :=
  match b with Pybind => pybind_call p | Ctypes m => ctypes_call m p end.

Fixpoint python_program (b : py_binding) (ps : list py_call) : prog proc (list py_result) :=
  match ps with
  | [] => mret []
  | p :: ps' => r ← python_call b p; rs ← python_program b ps'; mret (r :: rs)
  end.

End Python.

(** ** Facts *)

Section Facts.
Context `{B : Build} `{N : Bound} `{K : Kernel}.

(** The module binds functions the header declares; these are left out. *)
Lemma bound_are_declared : bound_functions ⊆ library_functions.
Proof. unfold bound_functions, library_functions. destruct MINITAP; set_solver. Qed.

Definition unbound_functions : list string := base.filter (fun f => f ∉ bound_functions) library_functions.

Lemma unbound_functions_eq :
  unbound_functions =
  ["mini_sandbox_setup_custom"; "mini_sandbox_setup_hermetic"; "mini_sandbox_mount_tmpfs"; "mini_sandbox_mount_overlay";
   "mini_sandbox_set_working_dir"; "mini_sandbox_mount_parents_write"; "mini_sandbox_get_last_error_code";
   "mini_sandbox_is_running"] ++ (if MINITAP then ["mini_sandbox_allow_max_connections"] else []).
Proof. unfold unbound_functions, bound_functions, library_functions. destruct MINITAP; vm_compute; reflexivity. Qed.

(** A call of a function that is declared is one the build exports. *)
Lemma declared_exported c : api_name c ∈ library_functions -> exported c = true.
Proof.
  unfold library_functions, exported. destruct c, MINITAP; cbn [api_name]; try done;
    intros H; apply (bool_decide_pack (_ ∈ _)) in H; vm_compute in H; done.
Qed.

(** What a call of Python does to the state. *)
Inductive python_step (s : proc) : py_result -> proc -> option client_op -> Prop :=
| python_asks r : python_step s r s None
| python_configures c z s' : exported c = true -> run_call c s = (Ok z, s') -> python_step s (PyInt z) s' (Some (Configure c))
| python_starts z s' : MiniSbxStart s = (Ok z, s') -> python_step s (PyInt z) s' (Some StartSandbox).

Lemma fmap_inv {A C} (f : A -> C) (m : prog proc A) s c s' :
  (f <$> m) s = (Ok c, s') -> exists a, m s = (Ok a, s') /\ c = f a.
Proof. unfold fmap, prog_fmap. destruct (m s) as [[a|w] s1]; [|done]. intros [= <- <-]. by exists a. Qed.

Lemma exported_as_c c : exported (as_c c) = exported c.
Proof. by destruct c. Qed.

Lemma library_call_step c s r s' :
  exported c = true -> library_call c s = (Ok r, s') -> exists op, python_step s r s' op.
Proof.
  intros Hc (z & E & ->)%fmap_inv. exists (Some (Configure (as_c c))). apply python_configures; [by rewrite exported_as_c | done].
Qed.

Lemma ask_step {A} (f : A -> py_result) (m : prog proc A) s r s' :
  (forall s a s', m s = (Ok a, s') -> s' = s) -> (f <$> m) s = (Ok r, s') -> exists op, python_step s r s' op.
Proof. intros Hm (a & E & ->)%fmap_inv. apply Hm in E as ->. exists None. constructor. Qed.

Lemma MiniSbxIsRunning_asks s a s' : MiniSbxIsRunning s = (Ok a, s') -> s' = s.
Proof.
  unfold MiniSbxIsRunning, MiniSbxIsNestedSandbox, MiniSbxGetInternalEnv, getenv, get_opt, gets, mbind, prog_bind.
  case_decide; by intros [= _ <-].
Qed.

Lemma loaded_call_step m p s r s' :
  loaded_call m p s = (Ok r, s') -> exists op, python_step s r s' op.
Proof.
  destruct p as [c|num| | | |]; cbn [loaded_call].
  - case_match eqn:Ht; [intros [= <- <-]; exists None; constructor|].
    destruct (exported c) eqn:Hc; [by apply library_call_step | intros [= <- <-]; exists None; constructor].
  - case_match; [by apply library_call_step|]. case_match; [|intros [= <- <-]; exists None; constructor].
    intros Hq; apply bind_inv_ok in Hq as (cwd & s1 & E & Hq). injection E as <- <-.
    case_match; [injection Hq as <- <-; exists None; constructor | by apply library_call_step in Hq].
  - intros (z & E & ->)%fmap_inv. eexists. by apply python_starts.
  - apply ask_step, MiniSbxIsRunning_asks.
  - apply ask_step. by intros ? ? ? [= _ <-].
  - apply ask_step. by intros ? ? ? [= _ <-].
Qed.

Lemma pybind_call_step p s r s' :
  pybind_call p s = (Ok r, s') -> exists op, python_step s r s' op.
Proof.
  destruct p as [c|num| | | |]; cbn [pybind_call]; try (case_bool_decide as Hb);
    try (intros [= <- <-]; exists None; constructor).
  - by apply library_call_step, declared_exported, bound_are_declared.
  - intros (z & E & ->)%fmap_inv. eexists. by apply python_starts.
  - apply ask_step, MiniSbxIsRunning_asks.
Qed.

Lemma python_call_step b p s r s' :
  python_call b p s = (Ok r, s') -> exists op, python_step s r s' op.
Proof.
  destruct b as [|m]; cbn [python_call]; [apply pybind_call_step|]. unfold ctypes_call.
  case_match; [intros [= <- <-]; exists None; constructor | apply loaded_call_step].
Qed.

(** *** Programs *)

(** What a program sees of an event of the library. *)
Definition seen (e : client_event) : py_result :=
  match e with Configured _ z | Started z => PyInt z end.

Definition exported_op (op : client_op) : Prop :=
  match op with Configure c => exported c = true | StartSandbox => True end.

Lemma python_step_op s r s' op :
  python_step s r s' (Some op) -> exported_op op /\ exists e, client_step op s = (Ok e, s') /\ seen e = r.
Proof.
  inversion 1; subst; (split; [done|]); eexists; cbn [client_step];
    (split; [erewrite bind_ok by eassumption; reflexivity | reflexivity]).
Qed.

Lemma python_runs_client b ps s rs s' :
  python_program b ps s = (Ok rs, s') ->
  exists ops evs, run_client ops s = (Ok evs, s') /\ (seen <$> evs) `sublist_of` rs /\ Forall exported_op ops.
Proof.
  revert s rs. induction ps as [|p ps IH]; intros s rs; cbn [python_program].
  { intros [= <- <-]. exists [], []. by repeat split. }
  intros Hp; apply bind_inv_ok in Hp as (r & s1 & E1 & Hp); apply bind_inv_ok in Hp as (rs1 & s2 & E2 & [= <- <-]).
  destruct (IH s1 rs1 E2) as (ops & evs & Hr & Hsub & Hex).
  destruct (python_call_step b p s r s1 E1) as [[op|] Hop].
  - apply python_step_op in Hop as (Hx & e & He & <-). exists (op :: ops), (e :: evs).
    split; [|split; [by constructor | by constructor]]. cbn [run_client].
    erewrite bind_ok by exact He. by erewrite bind_ok by exact Hr.
  - inversion Hop; subst. exists ops, evs. split; [done|]. split; [by constructor | done].
Qed.

(** Without the library every call returns the same, and does nothing. *)
Lemma unloaded_program m ps s :
  lib_loaded m = false ->
  python_program (Ctypes m) ps s =
  (Ok (replicate (length ps) (PyInt (if platform_supported m then LIB_NOT_LOADED else 0))), s).
Proof.
  intros Hm. induction ps as [|p ps IH]; [done|]. cbn [python_program python_call length replicate].
  unfold ctypes_call at 1. rewrite Hm. cbn [negb]. rewrite (bind_ok (mret _) _ s _ s eq_refl). by rewrite (bind_ok _ _ s _ s IH).
Qed.

End Facts.

(** ** Property *)

Section Property.
Context `{B : Build} `{N : Bound} `{K : Kernel}.


End Property.

(** ** Witness *)

Definition python_calls : list py_call :=
  [PyConfigure (CallMountBind "/opt"); PyMountParentsWrite 0; PyConfigure CallAllowAllDomains; PyStart;
   PyConfigure (CallMountWrite "/usr"); PyErrorCode; PyIsRunning].
Definition python_end : proc (H := CalmKernel) :=
  final (python_program (B := lib_build) (N := some_bound) (K := CalmKernel) (Ctypes (mkModule true false true)) python_calls)
    (initial_proc (K := CalmKernel) lib_env tt).

