(* ===== verification/Program.v ===== *)
(** * The whole program

    [main] is the container check, the parse of the command line and the start:
    the components are composed here, from the initial state of the process to
    the execution of the command. *)

From S2P Require Import Prelude Monad CxxString FsPath Firewall Kernel SimKernel State Fs Errors ProcessTools OptionsApi Rules Api CommandLine Mounts Pid1 Docker Minitap TapLaunch Start.
From Stdlib Require Import Ascii.
Open Scope sbx_scope.
Open Scope Z_scope.

(** ** What parsing leaves alone *)

Section ParseFrame.
Context `{B : Build} `{N : Bound} `{K : Kernel}.
Context (R : proc -> proc -> Prop) `{!PreOrder R}.
Context (Hsys : forall c, config_call c = true -> respects R (sys c)).
Context (Herr : forall s e, R s (s <| sbx_err := e |>)).
Context (Hopt : forall f s, R s (s <| opt ::= f |>)).

(** What the frames of the configuration operations ask of the relation. *)
Ltac side :=
  first [ exact _ | exact Hsys | exact Herr | intros f _; exact (Hopt f) | intros a b; exact (Hopt (add_bind a b)) ].

Ltac leaf :=
  lazymatch goal with
  | |- respects _ (CreateTempDirectory _) => apply frame_CreateTempDirectory; side
  | |- respects _ (ValidateDirAndCreate _) => apply frame_ValidateDirAndCreate; side
  | |- respects _ (CanonicPath _ _) => apply frame_CanonicPath; side
  | |- respects _ (ValidateOverlayOutOfFolder _ _) => apply frame_ValidateOverlayOutOfFolder; side
  | |- respects _ (MiniSbxReportError _ _ _) => apply frame_error; side
  | |- respects _ (MiniSbxReportErrorAndMessage _ _ _ _) => apply frame_report; side
  | |- respects _ (MiniSbxReportGenericError _ _ _) => apply frame_generic; side
  | |- respects _ (mod_opt ?f) => exact (Hopt f)
  | |- respects _ (get_opt _) => apply respects_get_opt; exact _
  | |- respects _ (getenv _) => apply respects_getenv; exact _
  | |- respects _ (query _) => apply respects_query; exact _
  end.
Ltac walk := repeat first [leaf | respects_step].

Lemma parse_CreateSandboxRoot p : respects R (CreateSandboxRoot p).
Proof. unfold CreateSandboxRoot. walk. Qed.

Lemma parse_mode f : mode_update f -> forall s, R s (s <| opt ::= f |>).
Proof. intros _. exact (Hopt f). Qed.

Lemma parse_call c : respects R (run_call c).
Proof.
  apply frame_run_call; try side. destruct c; cbn [mode_case]; try exact I.
  - apply frame_SetupDefault; try side. exact parse_CreateSandboxRoot.
  - intros q. apply frame_SetupSandboxRootWithOverlay; try side. exact parse_CreateSandboxRoot.
  - apply frame_SetupHermetic; try side. exact parse_CreateSandboxRoot.
Qed.

Lemma parse_usage op : respects R op -> respects R (or_usage op).
Proof. intros Hop. unfold or_usage, Usage. apply respects_bind; [exact _ | exact Hop | intros z; walk]. Qed.

Lemma parse_handle_event e : respects R (handle_event e).
Proof.
  destruct e as [c a| |]; [cbn [handle_event] | by apply respects_stop | by apply respects_stop].
  generalize (default "" a) as w. clear a. intros w.
  destruct c as [[] [] [] [] [] [] [] []]; cbn [handle_option]; try by apply respects_ret.
  all: lazymatch goal with
    | |- respects _ (or_usage (MiniSbxMountWrite ?p)) => apply parse_usage, (parse_call (CallMountWrite p))
    | |- respects _ (or_usage (MiniSbxMountTmpfs ?p)) => apply parse_usage, (parse_call (CallMountTmpfs p))
    | |- respects _ (or_usage (MiniSbxMountBind ?p)) => apply parse_usage, (parse_call (CallMountBind p))
    | |- respects _ (or_usage (MiniSbxEnableLog ?p)) => apply parse_usage, (parse_call (CallEnableLog p))
    | |- respects _ (or_usage (MiniSbxMountOverlay ?p)) => apply parse_usage, (parse_call (CallMountOverlay p))
    | |- respects _ (or_usage MiniSbxSetupDefault) => apply parse_usage, (parse_call CallSetupDefault)
    | |- respects _ (or_usage (MiniSbxSetupHermetic ?p)) => apply parse_usage, (parse_call (CallSetupHermetic p))
    | |- respects _ (or_usage (MiniSbxSetupSandboxRootWithOverlay _)) =>
        apply parse_usage, frame_SetupSandboxRootWithOverlay; try side; exact parse_CreateSandboxRoot
    | |- respects _ (or_usage (MiniSbxSetupOverlayfsFolder _)) => apply parse_usage, frame_SetupOverlayfsFolder; side
    | |- _ => unfold ValidateIsAbsolutePath, Usage; walk
    end.
  - apply (parse_call CallShareNetwork).
  - apply (parse_call (CallAllowConnections w)).
Qed.

Lemma parse_ExpandArgument n acc arg : respects R (ExpandArgument n acc arg).
Proof.
  revert acc arg. induction n as [|n IH]; intros acc arg; cbn [ExpandArgument]; [by apply respects_stop|].
  destruct (Ascii.eqb _ _); [|by apply respects_ret]. cbv zeta.
  apply respects_bind; [exact _ | by apply respects_query | intros f].
  apply respects_bind; [exact _ | walk | intros _].
  revert acc. induction (getlines _) as [|line ls IHl]; intros acc; [by apply respects_ret|].
  destruct (empty line); [apply IHl|]. apply respects_bind; [exact _ | apply IH | intros acc'; apply IHl].
Qed.

Lemma parse_ExpandArguments argv acc : respects R (ExpandArguments_from argv acc).
Proof.
  revert acc. induction argv as [|a argv IH]; intros acc; cbn [ExpandArguments_from]; [by apply respects_ret|].
  destruct (streq a "--"); [by apply respects_ret|].
  apply respects_bind; [exact _ | apply parse_ExpandArgument | intros l; apply IH].
Qed.

(** Parsing respects every relation that the calls of a configuration, the last
    error and the updates of the options keep. *)
Lemma parse_respects argv : respects R (ParseOptions argv).
Proof.
  unfold ParseOptions, ExpandArguments, ParseCommandLine, GetCWD, Usage.
  repeat first
  [ lazymatch goal with
    | |- respects _ (ExpandArguments_from _ _) => apply parse_ExpandArguments
    | |- respects _ (handle_event _) => apply parse_handle_event
    end
  | leaf | respects_step ].
Qed.

End ParseFrame.

(** ** From the first state to the command *)

Section Program.
Context `{B : Build} `{N : Bound} `{K : Kernel}.

(** No command is executed, and the environment and the mode stay. *)
Definition prepares (s s' : proc) : Prop :=
  calls (fun c _ => is_exec c = false) s s' /\ environ s' = environ s /\ docker_mode s' = docker_mode s.

#[local] Instance prepares_preorder : PreOrder prepares.
Proof.
  split; [intros s; by split|]. intros a b c (H1 & H2 & H3) (H4 & H5 & H6).
  split; [by etransitivity|]. split; congruence.
Qed.

Lemma prepares_sys c : is_exec c = false -> respects prepares (sys c).
Proof.
  intros Hc s. split; [by apply (calls_sys (fun c _ => is_exec c = false))|].
  destruct (only_kernel_sys c s) as (k & t & ->). done.
Qed.

Lemma prepares_quiet s s' : prepares s s' -> quiet (trace s) -> quiet (trace s').
Proof. intros [(l & -> & Hl) _] H. by apply Forall_app. Qed.

Lemma prepares_ParseOptions argv : respects prepares (ParseOptions argv).
Proof.
  apply (parse_respects prepares).
  - intros c Hc. apply prepares_sys. by destruct c.
  - intros s e. split; [by exists []|done].
  - intros f s. split; [by exists []|done].
Qed.

(** The mode is found without a change of the options. *)
Definition looks (s s' : proc) : Prop := opt s' = opt s /\ prepares s s'.

#[local] Instance looks_preorder : PreOrder looks.
Proof. split; [by intros s | intros a b c [H1 H2] [H3 H4]; split; [congruence | by etransitivity]]. Qed.

Lemma looks_sys c : is_exec c = false -> respects looks (sys c).
Proof. intros Hc s. split; [apply same_opt_sys | by apply prepares_sys]. Qed.

Lemma looks_CheckDockerMode : respects looks CheckDockerMode.
Proof.
  unfold CheckDockerMode, isRunningInDocker, isDockerEnvPresent, isRootInOverlay, UserNamespaceSupported,
    HasUserNamespaceSupport, CanCreateUserNamespace, waitpid_retry.
  repeat first
  [ lazymatch goal with
    | |- respects _ (sys _) => by apply looks_sys
    | |- respects _ (modify _) => intros s; split; [done | split; [by exists []|done]]
    | |- respects _ (fs_exists _) => apply respects_fs_exists; exact _
    | |- respects _ (query _) => apply respects_query; exact _
    | |- respects _ (getenv _) => apply respects_getenv; exact _
    end
  | respects_step ].
Qed.

(** The first state of the program, its options parsed for the mode found. *)
Definition started_with (argv : list string) (s0 s : proc) : Prop :=
  exists mode s1, CheckDockerMode s0 = (Ok mode, s1) /\ ParseOptions argv (s1 <| docker_mode := mode |>) = (Ok tt, s).

Lemma main_ends argv s0 :
  quiet (trace s0) ->
  quiet (trace (final (main argv) s0)) \/
  exists s, started_with argv s0 s /\ quiet (trace s) /\ final (main argv) s0 = final MiniSbxStart s.
Proof.
  intros Hq. pose proof (looks_CheckDockerMode s0) as [_ H0]. unfold main, final in *.
  destruct (CheckDockerMode s0) as [[mode|w] s1] eqn:E0; cbn [snd] in H0;
    [rewrite (bind_ok _ _ _ _ _ E0) | rewrite (bind_stop _ _ _ _ _ E0); left; by eapply prepares_quiet].
  set (s1' := s1 <| docker_mode := mode |>).
  rewrite (bind_ok (modify (fun s => s <| docker_mode := mode |>)) _ s1 tt s1' eq_refl).
  pose proof (prepares_ParseOptions argv s1') as H1. unfold final in H1.
  assert (quiet (trace s1')) as Hq1 by exact (prepares_quiet _ _ H0 Hq).
  destruct (ParseOptions argv s1') as [[[]|w] s2] eqn:E1; cbn [snd] in H1;
    [rewrite (bind_ok _ _ _ _ _ E1) | rewrite (bind_stop _ _ _ _ _ E1); left; by eapply prepares_quiet].
  right. exists s2. split; [by exists mode, s1|]. split; [by eapply prepares_quiet | done].
Qed.

Lemma started_with_env argv s0 s : started_with argv s0 s -> environ s = environ s0.
Proof.
  intros (mode & s1 & E0 & E1). pose proof (looks_CheckDockerMode s0) as [_ (_ & He0 & _)].
  pose proof (prepares_ParseOptions argv (s1 <| docker_mode := mode |>)) as (_ & He1 & _).
  unfold final in *. rewrite E0 in He0. rewrite E1 in He1. cbn [snd] in *. by rewrite He1.
Qed.


End Program.

(** ** Witness *)

Definition calm_env : gmap string string :=
  <["HOME" := "/home/u"]> (<["MINI_SANDBOX_FORCE_USER_NAMESPACE" := "1"]> (<["MINI_SANDBOX_DOCKER_PRIVILEGED" := "1"]> ∅)).

Definition calm_words : list string := ["-W"; "/work"; "-w/srv"; "-H"].

Definition calm_run : proc (H := CalmKernel) :=
  final (main (B := cli_build) (N := some_bound) (K := CalmKernel) ("sandbox" :: calm_words ++ "--" :: ["ls"; "-H"; "@x"]))
    (initial_proc (K := CalmKernel) calm_env tt).

(** The first process of a tap build, which joins the network of minitap. *)
Definition tap_run : proc (H := ForkKernel) :=
  final (main (B := cli_tap_build) (N := some_bound) (K := ForkKernel) ("sandbox" :: calm_words ++ "--" :: ["ls"; "-H"; "@x"]))
    (initial_proc (K := ForkKernel) calm_env [0; 0; 9]%N).

